(* ===== verification/_CoqProject ===== *)
-Q . S2P
Prelude.v
Abi.v
MemMap.v
Layout.v
KernelMemory.v
UefiMemory.v
BootInfo.v
Handoff.v
Machine.v
Serial.v
BootSerial.v
Cpu.v
Runs.v
Gdt.v
Idt.v
Exception.v
MemReport.v
Stack.v
Console.v
Kernel.v
KernelRuns.v
Passive.v
Boot.v
Progress.v
BootedMemory.v
AfterBoot.v
Statics.v
Footprint.v
UnitTests.v
HostTests.v
