(* ===== verification/Prelude.v ===== *)
(** * Ferrous Kernel: a verification development

    Ferrous Kernel is a UEFI bootloader and an x86-64 kernel, in one binary in this phase.
    The bootloader ([boot/src]) collects the firmware's memory map, the ACPI root pointer
    and the framebuffer, converts them to a heap-free structure ([lib/boot-info/src]), ends
    boot services, switches stacks and jumps to the kernel; the kernel takes over the UART,
    installs a GDT and an IDT, reports the memory map on the serial line and halts, with
    handlers for all exceptions.  The kernel crate ([kernel/src]) holds the canonical
    versions of the GDT, IDT, stack and serial code, of which the boot crate has copies, and
    the global memory map.

    ** Files, and the code they model

    - [Prelude]: errors and panics ([comp]), machine integers and the build profile, array
      access, text, little-endian bytes, sorting, decoders, the [Codec] interface, tactics.
    - [Abi] (lib.rs, first half): the structures that cross the boundary and their accessors.
    - [MemMap] (lib.rs, second half): classification, [MemoryMap::parse], statistics, queries.
    - [Layout]: the repr(C) layout of the boundary structures as bytes.
    - [KernelMemory] (kernel/src/memory/mod.rs): the global map as a transition system.
    - [UefiMemory] (boot/src/memory.rs): importing the firmware's map.  The uefi crate's
      memory types are a class with laws.
    - [BootInfo] (boot/src/boot_info.rs): building and converting the boot information.
    - [Handoff]: the data path from the firmware's descriptors to the kernel's parsed map.
    - [Machine]: processor, memory, ports, trace of events, and the monad over them.
    - [Serial] (kernel/src/drivers/serial.rs, kernel/src/main.rs): the UART driver, its
      abstract transmitter [send], the 16550 register file, the kernel's panic handler.
    - [BootSerial] (main.rs): boot-side UART helpers and number printers, and the lemmas by
      which printed texts are composed.
    - [Cpu]: the instructions of the inline assembly, with the segment-load checks.
    - [Runs]: reasoning about all runs at once.  A family of predicates on computations that
      contains the local actions and is closed under sequencing is an instance of [Closed];
      routines are traversed once against that interface.
    - [KernelRuns]: the traversal of the kernel's routines and of the exception path.
    - [Passive]: computations that talk to ports and console but leave processor and memory
      alone, the exception handler among them.
    - [Gdt] (gdt.rs, main.rs): descriptors, table, both init routines.
    - [Idt] (idt.rs, main.rs): gates, table, installation, loader.
    - [Exception] (main.rs): stubs, handler, and the path from delivery to report.
    - [MemReport] (main.rs): [print_memory_map].
    - [Stack] (stack.rs, main.rs): the stack type and sizes.
    - [Console] (boot/src/console.rs, main.rs): console output and the memory summary.
    - [Kernel] (main.rs): [kernel_entry], [kernel_main], [halt].
    - [Boot] (main.rs): [efi_main], the firmware queries and the handoff assembly, and the
      traversal of the bootloader.
    - [Progress]: the boot against every device: completion, waiting, overruns.
    - [BootedMemory]: [memory::init] and [memory::get] on the booted machine.
    - [AfterBoot]: the booted kernel under sequences of interruptions, as a step relation.
    - [Statics] (the statics of main.rs, the repr attributes of both crates): layouts,
      initialisers, linker and loader.
    - [Footprint]: runs of the boot crate, panic handler included ([boot_run]): the memory they
      write and the order of their calls.
    - [UnitTests] (lib.rs, mod tests), [HostTests] (tests/boot_tests.rs): the repository's own
      tests, evaluated on the definitions.

    ** How code becomes definitions

    Integers are [Z] within their width ([uint w]); overflow of plain arithmetic panics or
    wraps according to [Profile], so every theorem with a [Profile] holds for dev and release
    builds.  Functions that can fail or panic return [comp].  Code that touches the machine
    is a computation [M] of [Machine]: it runs on a world of registers, byte memory, device
    answers still to come, and a log of events.  A computation that runs out of device
    answers is [Waiting]; theorems quantify over all answer lists, so they say what happens
    on every finite prefix of every device's behaviour, and completion is stated for devices
    that report ready often enough.  Structures in memory are their bytes.  Inline assembly
    is translated instruction by instruction.  Addresses chosen by the linker ([Image]) and
    by the compiler ([Locals], slots and labels) are parameters, as are the registers chosen
    for operands, the firmware ([Firmware]) and the calling convention ([CallConv]).

    ** What the theorems show

    - Data: [parse] equals a list-level reference, errors and panics included; statistics,
      queries, bounds; the whole path from firmware descriptors to parsed regions, first on
      data and then through the booted machine's memory, against a specification of its own
      ([reported_map]: address, size, attributes and type code of each region); byte layout
      of the boundary structures.
    - State: the global map is never read uninitialised and is written once in checked
      builds (in release builds a second call overwrites it).
    - Output: the drivers transmit exactly the texts they are given, on every device; number
      printers print numerals; the memory report, the console summary and the exception
      reports are exactly their specification texts.
    - Machine: loading the GDT and IDT succeeds without a processor fault and changes only
      what it should; every vector reaches its stub and its report; stacks are respected.
    - Whole boot: [efi_main_boots] composes all of it, from the firmware's entry to the final
      halt.  [linked_image_boots] reduces what is assumed of the image to its proper linking
      and loading.  [boot_services_discipline] and [boot_memory_footprint] hold of every run,
      refused and panicking ones included: the order of calls to the firmware, that nothing
      panics once boot services have ended, and which memory is written.
    - Every device: [boot_progress] shows that the boot completes on a device that becomes
      ready again and again, and waits, with a prefix of its log sent, on one that does not;
      [uart_never_overrun] that no byte is written unless the transmitter was just reported
      empty.
    - Every run: [runs_steady] shows that runs end and are only continued by more input.
    - After the boot: [exceptions_after_boot] keeps tables, segments and stack through any
      sequence of interruptions, each of which enters the handler; under SysV it gets its
      exact report.
    - Tests: what the unit tests of the parser assert of their inputs holds of every input
      ([unit_tests_generalise]), and the host tests' copies of constants and encodings are
      those of the code.

    ** Calling conventions

    The code passes arguments in the registers of the SysV convention, but the target it is
    built for, [x86_64-unknown-uefi], uses Win64.  Theorems that do not say otherwise hold
    under both.  Those on the complete boot assume [passes]: the register from which
    [kernel_entry] takes its argument holds the pointer, which is so under SysV for every
    choice of operand registers and under Win64 when the compiler picks RCX
    ([handoff_arguments]).  The exact exception reports are those of a handler compiled for
    SysV; what a Win64 handler gets instead is in [exception_arguments_win64] and
    [exceptions_after_boot].  [efi_main_boots] is stated for SysV.

    ** Bounds and fuel

    [digits_loop] has fuel 64 (a 64-bit number has at most 64 digits in any base), proved
    enough for every [usize].  [irq_loop] has fuel 224 = 256 - 32, exactly its iterations.
    [loop_until] iterates once per device answer.  Everything else is structural.
    [runs_steady] states for whole runs that none of these bounds is ever reached.

    ** Not modelled

    Code generated by the compiler around the inline assembly (stack frames, spills), so the
    theorems do not say that locals survive the stack switch of [kernel_main]; paging and
    page permissions (a byte that is in the memory map is readable and writable); the memory
    effects of boot services and of allocation; atomics and other cores; IST stacks, task
    state and the resume flag in saved flags; exceptions between arbitrary instructions
    (those of [AfterBoot] arrive where a run rests: in the final halt, while a report waits
    for the device, or where the handler itself faults); external interrupts and [int n] on
    the vectors 8, 10 to 14, 17, 21, 29 and 30, for which the processor pushes no error code
    ([deliver] decides by the vector).  The encoder and decoder of [Layout] are the model's:
    the source shares the structures as memory and relies on repr(C).  [read_boot_info]
    decodes the whole structure, so [kernel_entry] is stricter than the two fields it reads
    need.  [lib/core], [lib/alloc] and [arch/x86_64/entry.rs] hold no code.  The log and uefi
    crates appear only through their results. *)

From Stdlib Require Export ZArith Lia Sorted.
From stdpp Require Export base list gmap strings.
Open Scope Z_scope.

(** * Faults and the error monad

    A Rust computation returns a value, returns an [Err], or stops with a
    fault: a panic (overflow check, slice or array bound, failed assertion) or,
    for the unsafe parts, an access that Rust leaves undefined. *)

Inductive fault : Type :=
| Overflow
| OutOfBounds
| AssertFailed
| Unwrap
| Undefined
| CpuFault (vector : Z)
| OutOfFuel.

#[export] Instance fault_eq_dec : EqDecision fault.
Proof. solve_decision. Defined.

Inductive comp (E A : Type) : Type :=
| Ok (a : A)
| Err (e : E)
| Panic (f : fault).
Arguments Ok {E A} a.
Arguments Err {E A} e.
Arguments Panic {E A} f.

#[export] Instance comp_eq_dec {E A} `{!EqDecision E, !EqDecision A} : EqDecision (comp E A).
Proof. solve_decision. Defined.

#[export] Instance comp_ret E : MRet (comp E) := fun A a => Ok a.
#[export] Instance comp_bind E : MBind (comp E) := fun A B k m =>
  match m with
  | Ok a => k a
  | Err e => Err e
  | Panic f => Panic f
  end.

(** The error type of functions that return no [Result]. *)
Notation void := Empty_set (only parsing).

Definition is_ok {E A} (m : comp E A) : bool :=
  match m with Ok _ => true | _ => false end.

(** * Machine integers

    A [w]-bit unsigned integer is a [Z] in [[0, 2^w)].  The build profile
    decides what plain [+] and [*] do on overflow: the [dev] profile panics,
    the [release] profile wraps. *)

Class Profile : Type := overflow_checks : bool.

Definition dev_profile : Profile := true.
Definition release_profile : Profile := false.

(** [debug_assert!] is compiled in exactly when overflow checks are (both default
    to on in [dev] and off in [release]; neither profile overrides them). *)
Definition debug_assertions {P : Profile} : bool := overflow_checks.

Definition uint (w n : Z) : Prop := 0 <= n < 2 ^ w.

#[export] Instance uint_dec w n : Decision (uint w n).
Proof. unfold uint. apply _. Defined.

Definition wrap (w n : Z) : Z := n mod 2 ^ w.

Definition max_value (w : Z) : Z := 2 ^ w - 1.

Definition arith {P : Profile} {E} (w n : Z) : comp E Z :=
  if n <? 2 ^ w then Ok n
  else if overflow_checks then Panic Overflow else Ok (wrap w n).

Definition add_u {P : Profile} {E} (w a b : Z) : comp E Z := arith w (a + b).
Definition mul_u {P : Profile} {E} (w a b : Z) : comp E Z := arith w (a * b).

Definition saturating_add (w a b : Z) : Z := Z.min (a + b) (max_value w).

(** * Fixed-size arrays *)

Definition index {E A} (l : list A) (i : Z) : comp E A :=
  match (if 0 <=? i then l !! Z.to_nat i else None) with
  | Some a => Ok a
  | None => Panic OutOfBounds
  end.

Definition set_index {E A} (l : list A) (i : Z) (a : A) : comp E (list A) :=
  if (0 <=? i) && (i <? Z.of_nat (length l))
  then Ok (<[Z.to_nat i := a]> l)
  else Panic OutOfBounds.

Definition slice_to {E A} (l : list A) (n : Z) : comp E (list A) :=
  if (0 <=? n) && (n <=? Z.of_nat (length l))
  then Ok (take (Z.to_nat n) l)
  else Panic OutOfBounds.

(** * Text

    Rust string literals as lists of bytes (UTF-8, which is how the kernel
    reads a literal of this file too). *)

Fixpoint str (s : string) : list Z :=
  match s with
  | EmptyString => []
  | String c s => Z.of_nat (Ascii.nat_of_ascii c) :: str s
  end.

Definition crlf : list Z := [13; 10].

(** * Little-endian byte codecs *)

Fixpoint le_encode (n : nat) (z : Z) : list Z :=
  match n with
  | O => []
  | S n => z mod 256 :: le_encode n (z / 256)
  end.

Fixpoint le_decode (bs : list Z) : Z :=
  match bs with
  | [] => 0
  | b :: bs => b + 256 * le_decode bs
  end.

(** Sum of a list of sizes, and the clamp that saturating addition applies. *)

Definition sum (l : list Z) : Z := foldr Z.add 0 l.

Definition clamp (w n : Z) : Z := Z.min n (max_value w).

(** [slice::sort_by_key] of the Rust standard library: a stable sort. *)

Section sort_by_key.
Context {A : Type} (key : A -> Z).

Fixpoint insert_by_key (x : A) (l : list A) : list A :=
  match l with
  | [] => [x]
  | y :: l => if key x <=? key y then x :: y :: l else y :: insert_by_key x l
  end.

Definition sort_by_key (l : list A) : list A := foldr insert_by_key [] l.

Definition key_le (x y : A) : Prop := key x <= key y.
End sort_by_key.

(** A decoder reads a value off the front of a byte list. *)

Definition decoder (A : Type) : Type := list Z -> option (A * list Z).

#[export] Instance decoder_ret : MRet decoder := fun A a bs => Some (a, bs).
#[export] Instance decoder_bind : MBind decoder := fun A B k d bs =>
  match d bs with
  | Some (a, rest) => k a rest
  | None => None
  end.

Definition dec_uint (n : nat) : decoder Z := fun bs =>
  if decide (n <= length bs)%nat
  then Some (le_decode (take n bs), drop n bs) else None.

Definition dec_bool : decoder bool := fun bs =>
  match bs with
  | b :: bs => if b =? 0 then Some (false, bs)
               else if b =? 1 then Some (true, bs) else None
  | [] => None
  end.

Definition enc_bool (b : bool) : list Z := [if b then 1 else 0].

Fixpoint dec_array {A} (n : nat) (d : decoder A) : decoder (list A) :=
  match n with
  | O => mret []
  | S n => x ← d; xs ← dec_array n d; mret (x :: xs)
  end.

(** The layout promise of a [repr(C)] struct: a fixed size and a decoder that
    undoes the encoder on every value whose fields fit their types. *)

Class Codec (A : Type) : Type := {
  encode : A -> list Z;
  decode : decoder A;
  size_of : nat;
  repr : A -> Prop;
}.

Class CodecLaws (A : Type) {C : Codec A} : Prop := {
  encode_length : forall a, repr a -> length (encode a) = size_of;
  decode_encode : forall a rest, repr a -> decode (encode a ++ rest) = Some (a, rest);
}.

(** * Lemmas *)

Lemma pow2_pos w : 0 <= w -> 0 < 2 ^ w.
Proof. intros. by apply Z.pow_pos_nonneg. Qed.

Lemma wrap_small w n : uint w n -> wrap w n = n.
Proof. intros H. by apply Z.mod_small. Qed.

Lemma uint_nonneg w n : uint w n -> 0 <= n.
Proof. by intros []. Qed.

Lemma arith_small {P : Profile} {E} w n : n < 2 ^ w -> @arith P E w n = Ok n.
Proof. intros H. unfold arith. by rewrite (proj2 (Z.ltb_lt _ _) H). Qed.

Lemma add_u_small {P : Profile} {E} w a b : a + b < 2 ^ w -> @add_u P E w a b = Ok (a + b).
Proof. apply arith_small. Qed.

Lemma mul_u_small {P : Profile} {E} w a b : a * b < 2 ^ w -> @mul_u P E w a b = Ok (a * b).
Proof. apply arith_small. Qed.

Lemma saturating_add_bound w a b :
  0 <= w -> 0 <= a -> 0 <= b -> uint w (saturating_add w a b).
Proof.
  intros Hw Ha Hb. unfold uint, saturating_add, max_value.
  pose proof (pow2_pos w Hw). lia.
Qed.

Lemma sum_app l k : sum (l ++ k) = sum l + sum k.
Proof. induction l as [|n l IH]; simpl; [done|]. rewrite IH. lia. Qed.

Lemma sum_nonneg l : Forall (fun n => 0 <= n) l -> 0 <= sum l.
Proof. induction 1; simpl; lia. Qed.

(** Saturating accumulation is accumulation followed by one clamp. *)
Lemma saturating_fold w l acc :
  Forall (fun n => 0 <= n) l -> 0 <= acc <= max_value w ->
  foldl (saturating_add w) acc l = clamp w (acc + sum l).
Proof.
  unfold clamp. intros Hl; revert acc.
  induction Hl as [|n l Hn Hl IH]; intros acc Hacc; simpl; [lia|].
  pose proof (sum_nonneg l Hl). unfold saturating_add at 2. rewrite IH; lia.
Qed.

Lemma set_index_ok {E A} (l : list A) i a :
  0 <= i < Z.of_nat (length l) ->
  @set_index E A l i a = Ok (<[Z.to_nat i := a]> l).
Proof.
  intros H. unfold set_index.
  by rewrite (proj2 (Z.leb_le _ _)), (proj2 (Z.ltb_lt _ _)) by lia.
Qed.

Lemma slice_to_ok {E A} (l : list A) n :
  0 <= n <= Z.of_nat (length l) -> @slice_to E A l n = Ok (take (Z.to_nat n) l).
Proof.
  intros H. unfold slice_to.
  by rewrite !(proj2 (Z.leb_le _ _)) by lia.
Qed.

Lemma index_ok {E A} (l : list A) i a :
  0 <= i -> l !! Z.to_nat i = Some a -> @index E A l i = Ok a.
Proof. intros H1 H2. unfold index. by rewrite (proj2 (Z.leb_le _ _)), H2. Qed.

Lemma str_bytes s : Forall (uint 8) (str s).
Proof.
  induction s as [|c s IH]; simpl; constructor; [|done].
  unfold uint. pose proof (Ascii.nat_ascii_bounded c). lia.
Qed.

Lemma length_le_encode n z : length (le_encode n z) = n.
Proof. revert z; induction n; intros; simpl; [done|]. by rewrite IHn. Qed.

Lemma le_encode_bytes n z : Forall (uint 8) (le_encode n z).
Proof.
  revert z; induction n as [|n IH]; intros; simpl; constructor; [|done].
  unfold uint. by apply Z.mod_pos_bound.
Qed.

Lemma le_decode_encode n z : le_decode (le_encode n z) = z mod 2 ^ (8 * Z.of_nat n).
Proof.
  revert z; induction n as [|n IH]; intros z.
  - simpl. by rewrite Z.mod_1_r.
  - cbn [le_encode le_decode]. rewrite IH.
    replace (8 * Z.of_nat (S n)) with (8 + 8 * Z.of_nat n) by lia.
    rewrite Z.pow_add_r by lia. change (2 ^ 8) with 256.
    rewrite Z.rem_mul_r by lia. done.
Qed.

Lemma le_decode_bound bs :
  Forall (uint 8) bs -> uint (8 * Z.of_nat (length bs)) (le_decode bs).
Proof.
  unfold uint. induction 1 as [|b bs Hb Hbs IH]; [simpl; lia|].
  cbn [le_decode length]. unfold uint in Hb. change (2 ^ 8) with 256 in Hb.
  replace (8 * Z.of_nat (S (length bs))) with (8 + 8 * Z.of_nat (length bs)) by lia.
  rewrite Z.pow_add_r by lia. change (2 ^ 8) with 256. lia.
Qed.

Lemma dec_uint_encode n z rest :
  uint (8 * Z.of_nat n) z -> dec_uint n (le_encode n z ++ rest) = Some (z, rest).
Proof.
  intros H. unfold dec_uint. rewrite length_app, length_le_encode.
  rewrite decide_True by lia.
  rewrite take_app_length', drop_app_length' by (symmetry; apply length_le_encode).
  rewrite le_decode_encode. by rewrite Z.mod_small.
Qed.

Lemma dec_bool_encode b rest : dec_bool (enc_bool b ++ rest) = Some (b, rest).
Proof. by destruct b. Qed.

Lemma dec_array_encode {A} (enc : A -> list Z) (d : decoder A) (ok : A -> Prop) l rest :
  (forall a r, ok a -> d (enc a ++ r) = Some (a, r)) -> Forall ok l ->
  dec_array (length l) d (mjoin (enc <$> l) ++ rest) = Some (l, rest).
Proof.
  intros Hd Hl; induction Hl as [|a l Ha Hl IH]; [done|].
  change (mjoin (enc <$> a :: l)) with (enc a ++ mjoin (enc <$> l)).
  cbn [length dec_array]. unfold mbind, decoder_bind.
  rewrite <- app_assoc, Hd by done. by rewrite IH.
Qed.

Lemma length_mjoin_const {A} (enc : A -> list Z) (n : nat) l :
  Forall (fun a => length (enc a) = n) l -> length (mjoin (enc <$> l)) = (length l * n)%nat.
Proof.
  induction 1 as [|a l Ha Hl IH]; [done|].
  change (mjoin (enc <$> a :: l)) with (enc a ++ mjoin (enc <$> l)).
  rewrite length_app, Ha, IH. simpl. lia.
Qed.

Section sort_lemmas.
Context {A : Type} (key : A -> Z).

Lemma insert_by_key_perm x l : insert_by_key key x l ≡ₚ x :: l.
Proof.
  induction l as [|y l IH]; simpl; [done|]. destruct (key x <=? key y); [done|].
  rewrite IH. constructor.
Qed.

Lemma sort_by_key_perm l : sort_by_key key l ≡ₚ l.
Proof.
  induction l as [|x l IH]; simpl; [done|]. fold (sort_by_key key l).
  by rewrite insert_by_key_perm, IH.
Qed.

Lemma insert_by_key_sorted x l :
  StronglySorted (key_le key) l -> StronglySorted (key_le key) (insert_by_key key x l).
Proof.
  induction 1 as [|y l Hl IH Hy]; simpl; [by repeat constructor|].
  destruct (Z.leb_spec (key x) (key y)).
  - constructor; [by constructor|]. constructor; [done|].
    apply (Forall_impl _ _ _ Hy). unfold key_le. lia.
  - constructor; [done|]. rewrite insert_by_key_perm. constructor; [|done].
    unfold key_le. lia.
Qed.

Lemma sort_by_key_sorted l : StronglySorted (key_le key) (sort_by_key key l).
Proof. induction l; simpl; [constructor | by apply insert_by_key_sorted]. Qed.

Lemma insert_by_key_stable x l k :
  filter (fun y => key y = k) (insert_by_key key x l)
  = filter (fun y => key y = k) (x :: l).
Proof.
  induction l as [|y l IH]; [done|]. cbn [insert_by_key].
  destruct (Z.leb_spec (key x) (key y)); [done|].
  rewrite (filter_cons _ y), IH, !filter_cons.
  repeat case_decide; done || lia.
Qed.

(** Elements with equal keys keep their relative order. *)
Lemma sort_by_key_stable l k :
  filter (fun y => key y = k) (sort_by_key key l) = filter (fun y => key y = k) l.
Proof.
  induction l as [|x l IH]; [done|]. cbn [sort_by_key foldr]. fold (sort_by_key key l).
  rewrite insert_by_key_stable, !filter_cons. by rewrite IH.
Qed.

Lemma length_sort_by_key l : length (sort_by_key key l) = length l.
Proof. by rewrite sort_by_key_perm. Qed.
End sort_lemmas.

Lemma sort_by_key_fmap {A B} (f : A -> B) (ka : A -> Z) (kb : B -> Z) l :
  (forall a, kb (f a) = ka a) -> sort_by_key kb (f <$> l) = f <$> sort_by_key ka l.
Proof.
  intros Hk. induction l as [|a l IH]; [done|].
  change (insert_by_key kb (f a) (sort_by_key kb (f <$> l))
          = f <$> insert_by_key ka a (sort_by_key ka l)).
  rewrite IH. clear IH. generalize (sort_by_key ka l) as m.
  induction m as [|b m IH]; [done|]. cbn. rewrite !Hk.
  destruct (ka a <=? ka b); [done|]. cbn. by f_equal.
Qed.

Lemma sorted_filter {A} (R : A -> A -> Prop) (Q : A -> Prop) `{!forall x, Decision (Q x)} l :
  StronglySorted R l -> StronglySorted R (filter Q l).
Proof.
  induction 1 as [|x l Hl IH Hx]; [constructor|]. rewrite filter_cons. case_decide; [|done].
  constructor; [done|]. rewrite Forall_forall in Hx |- *.
  intros y [_ Hy]%list_elem_of_filter. by apply Hx.
Qed.

Lemma sorted_take {A} (R : A -> A -> Prop) n l :
  StronglySorted R l -> StronglySorted R (take n l).
Proof.
  intros H; revert n. induction H as [|x l Hl IH Hx]; intros [|n]; try by constructor.
  cbn [take]. constructor; [done|]. by apply Forall_take.
Qed.

Lemma sorted_fmap {A B} (R : A -> A -> Prop) (S : B -> B -> Prop) (f : A -> B) l :
  (forall x y, R x y -> S (f x) (f y)) -> StronglySorted R l -> StronglySorted S (f <$> l).
Proof.
  intros Hf. induction 1 as [|x l Hl IH Hx]; [constructor|]. rewrite fmap_cons.
  constructor; [done|]. apply Forall_fmap. apply (Forall_impl _ _ _ Hx). intros y. apply Hf.
Qed.

Lemma sum_perm l k : l ≡ₚ k -> sum l = sum k.
Proof. induction 1; simpl; lia. Qed.

(** The decimal and hexadecimal masks of the code are reductions modulo a power
    of two. *)
Lemma land_ones_mod n k : 0 <= k -> Z.land n (2 ^ k - 1) = n mod 2 ^ k.
Proof.
  intros. replace (2 ^ k - 1) with (Z.ones k) by (rewrite Z.ones_equiv; lia).
  by apply Z.land_ones.
Qed.

(** * Automation *)

Create HintDb ferrous.
#[export] Hint Resolve pow2_pos uint_nonneg saturating_add_bound str_bytes
  le_encode_bytes : ferrous.
Create Rewrite HintDb ferrous_len.
#[export] Hint Rewrite @length_le_encode @length_app @length_insert @length_replicate
  : ferrous_len.

(** Prove a closed decidable goal by running its decision procedure. *)
Ltac by_dec := apply (bool_decide_unpack _); vm_compute; exact I.

(** Reduce a monadic step whose first action is known to succeed. *)
Ltac step_ok :=
  unfold mbind, comp_bind; cbn beta iota.

(** Case analysis on the boolean tests of the code. *)
Ltac case_bool :=
  repeat match goal with
  | |- context [?a <? ?b] => destruct (Z.ltb_spec a b)
  | |- context [?a <=? ?b] => destruct (Z.leb_spec a b)
  | |- context [?a =? ?b] => destruct (Z.eqb_spec a b)
  end.
