(* ===== verification/Abi.v ===== *)
(** The boot-information ABI ([lib/boot-info/src/lib.rs], first half): the
    [repr(C)] structs that the UEFI bootloader hands to the kernel, their
    constructors and accessors, and their byte layout.  [KernelMemoryMap_entries]
    is the slice [&descriptors[..count]], with the panic Rust raises when [count]
    exceeds the array; [KernelMemoryDescriptor_size_bytes] is the plain [*] of the
    source, so its overflow depends on the build profile. *)

From S2P Require Export Prelude.

Definition BOOT_INFO_MAGIC : Z := 0xFE220B00CAFE0001.
Definition BOOT_INFO_VERSION : Z := 1.
Definition MAX_MEMORY_DESCRIPTORS : nat := 256.

Module pixel_format.
Definition RGB : Z := 0.
Definition BGR : Z := 1.
Definition BITMASK : Z := 2.
Definition UNKNOWN : Z := 0xFF.
End pixel_format.

Module memory_type.
Definition RESERVED : Z := 0.
Definition LOADER_CODE : Z := 1.
Definition LOADER_DATA : Z := 2.
Definition BOOT_SERVICES_CODE : Z := 3.
Definition BOOT_SERVICES_DATA : Z := 4.
Definition RUNTIME_SERVICES_CODE : Z := 5.
Definition RUNTIME_SERVICES_DATA : Z := 6.
Definition CONVENTIONAL : Z := 7.
Definition UNUSABLE : Z := 8.
Definition ACPI_RECLAIM : Z := 9.
Definition ACPI_NON_VOLATILE : Z := 10.
Definition MMIO : Z := 11.
Definition MMIO_PORT_SPACE : Z := 12.
Definition PERSISTENT_MEMORY : Z := 14.
End memory_type.

(** * Memory descriptors *)

Record KernelMemoryDescriptor : Type := {
  ty : Z;
  kmd_pad : Z;
  phys_start : Z;
  page_count : Z;
  attribute : Z;
}.

#[export] Instance KernelMemoryDescriptor_eq_dec : EqDecision KernelMemoryDescriptor.
Proof. solve_decision. Defined.

Definition KernelMemoryDescriptor_size_bytes {P : Profile} {E}
    (d : KernelMemoryDescriptor) : comp E Z :=
  mul_u 64 (page_count d) 4096.

Definition KernelMemoryDescriptor_is_usable (d : KernelMemoryDescriptor) : bool :=
  (ty d =? memory_type.CONVENTIONAL)
  || (ty d =? memory_type.BOOT_SERVICES_CODE)
  || (ty d =? memory_type.BOOT_SERVICES_DATA)
  || (ty d =? memory_type.LOADER_CODE)
  || (ty d =? memory_type.LOADER_DATA)
  || (ty d =? memory_type.ACPI_RECLAIM).

Definition wf_descriptor (d : KernelMemoryDescriptor) : Prop :=
  uint 32 (ty d) /\ uint 32 (kmd_pad d) /\ uint 64 (phys_start d)
  /\ uint 64 (page_count d) /\ uint 64 (attribute d).

#[export] Instance wf_descriptor_dec d : Decision (wf_descriptor d).
Proof. unfold wf_descriptor. apply _. Defined.

(** * The fixed-size memory map *)

Record KernelMemoryMap : Type := {
  kmm_descriptors : list KernelMemoryDescriptor;
  kmm_count : Z;
  kmm_truncated : bool;
  kmm_pad : list Z;
}.

Definition KernelMemoryMap_new : KernelMemoryMap := {|
  kmm_descriptors := replicate MAX_MEMORY_DESCRIPTORS
    {| ty := 0; kmd_pad := 0; phys_start := 0; page_count := 0; attribute := 0 |};
  kmm_count := 0;
  kmm_truncated := false;
  kmm_pad := replicate 7 0;
|}.

Definition KernelMemoryMap_entries {E} (m : KernelMemoryMap)
    : comp E (list KernelMemoryDescriptor) :=
  slice_to (kmm_descriptors m) (kmm_count m).

Definition wf_memory_map (m : KernelMemoryMap) : Prop :=
  length (kmm_descriptors m) = MAX_MEMORY_DESCRIPTORS
  /\ Forall wf_descriptor (kmm_descriptors m)
  /\ uint 64 (kmm_count m)
  /\ length (kmm_pad m) = 7%nat /\ Forall (uint 8) (kmm_pad m).

(** * Framebuffer *)

Record KernelFramebuffer : Type := {
  kfb_base : Z;
  kfb_size : Z;
  kfb_width : Z;
  kfb_height : Z;
  kfb_stride : Z;
  kfb_pixel_format : Z;
}.

Definition KernelFramebuffer_zeroed : KernelFramebuffer := {|
  kfb_base := 0; kfb_size := 0; kfb_width := 0; kfb_height := 0; kfb_stride := 0;
  kfb_pixel_format := pixel_format.UNKNOWN;
|}.

Definition wf_framebuffer (f : KernelFramebuffer) : Prop :=
  uint 64 (kfb_base f) /\ uint 64 (kfb_size f) /\ uint 32 (kfb_width f)
  /\ uint 32 (kfb_height f) /\ uint 32 (kfb_stride f) /\ uint 32 (kfb_pixel_format f).

#[export] Instance wf_framebuffer_dec f : Decision (wf_framebuffer f).
Proof. unfold wf_framebuffer. apply _. Defined.

(** * Boot information *)

Record KernelBootInfo : Type := {
  magic : Z;
  version : Z;
  kbi_pad : Z;
  memory_map : KernelMemoryMap;
  acpi_rsdp : Z;
  framebuffer : KernelFramebuffer;
  has_framebuffer : bool;
  kbi_pad2 : list Z;
  bootloader_name : list Z;
}.

Definition KernelBootInfo_new : KernelBootInfo := {|
  magic := BOOT_INFO_MAGIC;
  version := BOOT_INFO_VERSION;
  kbi_pad := 0;
  memory_map := KernelMemoryMap_new;
  acpi_rsdp := 0;
  framebuffer := KernelFramebuffer_zeroed;
  has_framebuffer := false;
  kbi_pad2 := replicate 7 0;
  bootloader_name := str "ferrous-boot" ++ replicate 20 0;
|}.

Definition KernelBootInfo_is_valid (k : KernelBootInfo) : bool :=
  (magic k =? BOOT_INFO_MAGIC) && (version k =? BOOT_INFO_VERSION).

Definition wf_boot_info (k : KernelBootInfo) : Prop :=
  uint 64 (magic k) /\ uint 32 (version k) /\ uint 32 (kbi_pad k)
  /\ wf_memory_map (memory_map k) /\ uint 64 (acpi_rsdp k)
  /\ wf_framebuffer (framebuffer k)
  /\ (length (kbi_pad2 k) = 7%nat /\ Forall (uint 8) (kbi_pad2 k))
  /\ (length (bootloader_name k) = 32%nat /\ Forall (uint 8) (bootloader_name k)).

(** * Lemmas *)

Lemma entries_ok {E} m :
  0 <= kmm_count m <= Z.of_nat (length (kmm_descriptors m)) ->
  @KernelMemoryMap_entries E m = Ok (take (Z.to_nat (kmm_count m)) (kmm_descriptors m)).
Proof. apply slice_to_ok. Qed.

Lemma entries_overrun {E} m :
  Z.of_nat (length (kmm_descriptors m)) < kmm_count m ->
  @KernelMemoryMap_entries E m = Panic OutOfBounds.
Proof.
  intros H. unfold KernelMemoryMap_entries, slice_to.
  rewrite (proj2 (Z.leb_gt (kmm_count m) _)) by done. by rewrite andb_false_r.
Qed.

Lemma size_bytes_small {P : Profile} {E} d :
  page_count d < 2 ^ 52 ->
  @KernelMemoryDescriptor_size_bytes P E d = Ok (page_count d * 4096).
Proof.
  intros H. apply arith_small. change (2 ^ 64) with (2 ^ 52 * 4096). lia.
Qed.

Lemma wf_memory_map_new : wf_memory_map KernelMemoryMap_new.
Proof.
  unfold wf_memory_map. split; [apply length_replicate|].
  split; [apply Forall_replicate; by apply (bool_decide_unpack _)|].
  split; [by apply (bool_decide_unpack _)|].
  split; [apply length_replicate|].
  apply Forall_replicate; by apply (bool_decide_unpack _).
Qed.

Lemma wf_boot_info_new : wf_boot_info KernelBootInfo_new.
Proof.
  unfold wf_boot_info.
  do 3 (split; [by apply (bool_decide_unpack _)|]).
  split; [apply wf_memory_map_new|].
  do 2 (split; [by apply (bool_decide_unpack _)|]).
  split; (split; [reflexivity|]).
  - apply Forall_replicate. by apply (bool_decide_unpack _).
  - apply Forall_app; split; [apply str_bytes|].
    apply Forall_replicate; by apply (bool_decide_unpack _).
Qed.
