(* ===== verification/MemMap.v ===== *)
(** The parsed memory map ([lib/boot-info/src/lib.rs], second half):
    classification of UEFI memory types, [MemoryMap::parse] with its error paths
    and statistics, and the region queries.  [parse_reference] is the
    specification of the parser as list operations; [parse_correct] proves that
    the loop of the source computes it on every input. *)

From S2P Require Export Prelude Abi.

(** * Region kinds *)

Inductive MemoryRegionKind : Type :=
| Usable
| BootloaderReclaimable
| AcpiReclaimable
| AcpiNonVolatile
| FirmwareRuntime
| Mmio
| PersistentMemory
| Unusable
| Reserved.

#[export] Instance MemoryRegionKind_eq_dec : EqDecision MemoryRegionKind.
Proof. solve_decision. Defined.

Definition is_reclaimable_after_boot (k : MemoryRegionKind) : bool :=
  match k with
  | Usable | BootloaderReclaimable | AcpiReclaimable => true
  | _ => false
  end.

Definition is_immediately_usable (k : MemoryRegionKind) : bool :=
  bool_decide (k = Usable).

Definition MemoryRegionKind_name (k : MemoryRegionKind) : list Z :=
  match k with
  | Usable => str "Conventional"
  | BootloaderReclaimable => str "BootloaderReclaimable"
  | AcpiReclaimable => str "AcpiReclaimable"
  | AcpiNonVolatile => str "AcpiNonVolatile"
  | FirmwareRuntime => str "FirmwareRuntime"
  | Mmio => str "Mmio"
  | PersistentMemory => str "PersistentMemory"
  | Unusable => str "Unusable"
  | Reserved => str "Reserved"
  end.

Definition MemoryRegionKind_from (t : Z) : MemoryRegionKind :=
  if t =? memory_type.CONVENTIONAL then Usable
  else if (t =? memory_type.LOADER_CODE) || (t =? memory_type.LOADER_DATA)
          || (t =? memory_type.BOOT_SERVICES_CODE)
          || (t =? memory_type.BOOT_SERVICES_DATA) then BootloaderReclaimable
  else if t =? memory_type.ACPI_RECLAIM then AcpiReclaimable
  else if t =? memory_type.ACPI_NON_VOLATILE then AcpiNonVolatile
  else if (t =? memory_type.RUNTIME_SERVICES_CODE)
          || (t =? memory_type.RUNTIME_SERVICES_DATA) then FirmwareRuntime
  else if (t =? memory_type.MMIO) || (t =? memory_type.MMIO_PORT_SPACE) then Mmio
  else if t =? memory_type.PERSISTENT_MEMORY then PersistentMemory
  else if t =? memory_type.UNUSABLE then Unusable
  else Reserved.

(** * Statistics and errors *)

Record MemoryStats : Type := {
  total_bytes : Z;
  usable_bytes : Z;
  reclaimable_bytes : Z;
  region_count : Z;
  usable_region_count : Z;
  is_truncated : bool;
}.

Definition total_usable_after_boot (s : MemoryStats) : Z :=
  saturating_add 64 (usable_bytes s) (reclaimable_bytes s).

Inductive ParseError : Type :=
| Empty
| UnalignedBase (index phys_start : Z).

Definition ZERO_DESC : KernelMemoryDescriptor :=
  {| ty := 0; kmd_pad := 0; phys_start := 0; page_count := 0; attribute := 0 |}.

Record MemoryMap : Type := {
  mm_descriptors : list KernelMemoryDescriptor;
  mm_count : Z;
  mm_stats : MemoryStats;
}.

(** * [MemoryMap::parse] *)

(** The local variables of the loop. *)
Record parse_state : Type := {
  ps_descriptors : list KernelMemoryDescriptor;
  ps_count : Z;
  ps_total_bytes : Z;
  ps_usable_bytes : Z;
  ps_reclaimable_bytes : Z;
  ps_usable_region_count : Z;
}.

Definition parse_init : parse_state := {|
  ps_descriptors := replicate MAX_MEMORY_DESCRIPTORS ZERO_DESC;
  ps_count := 0;
  ps_total_bytes := 0;
  ps_usable_bytes := 0;
  ps_reclaimable_bytes := 0;
  ps_usable_region_count := 0;
|}.

Section parse.
Context {P : Profile}.

(** One iteration of the [for] loop: [Ok] is [continue] or falling through,
    [Err] the early [return]. *)
Definition parse_step (i : Z) (d : KernelMemoryDescriptor) (s : parse_state)
    : comp ParseError parse_state :=
  if page_count d =? 0 then Ok s
  else if negb (Z.land (phys_start d) 0xFFF =? 0)
  then Err (UnalignedBase i (phys_start d))
  else
    size ← KernelMemoryDescriptor_size_bytes d;
    let kind := MemoryRegionKind_from (ty d) in
    let total := match kind with
                 | Mmio | FirmwareRuntime => ps_total_bytes s
                 | _ => saturating_add 64 (ps_total_bytes s) size
                 end in
    '(usable, reclaimable, usable_count) ←
      match kind with
      | Usable =>
          n ← add_u 64 (ps_usable_region_count s) 1;
          Ok (saturating_add 64 (ps_usable_bytes s) size, ps_reclaimable_bytes s, n)
      | BootloaderReclaimable | AcpiReclaimable =>
          Ok (ps_usable_bytes s, saturating_add 64 (ps_reclaimable_bytes s) size,
              ps_usable_region_count s)
      | _ => Ok (ps_usable_bytes s, ps_reclaimable_bytes s, ps_usable_region_count s)
      end;
    descriptors ← set_index (ps_descriptors s) (ps_count s) d;
    count ← add_u 64 (ps_count s) 1;
    Ok {| ps_descriptors := descriptors; ps_count := count; ps_total_bytes := total;
          ps_usable_bytes := usable; ps_reclaimable_bytes := reclaimable;
          ps_usable_region_count := usable_count |}.

Fixpoint parse_loop (i : Z) (ds : list KernelMemoryDescriptor) (s : parse_state)
    : comp ParseError parse_state :=
  match ds with
  | [] => Ok s
  | d :: ds => s ← parse_step i d s; parse_loop (i + 1) ds s
  end.

Definition MemoryMap_parse (source : KernelMemoryMap) : comp ParseError MemoryMap :=
  entries ← KernelMemoryMap_entries source;
  s ← parse_loop 0 entries parse_init;
  if ps_count s =? 0 then Err Empty
  else Ok {|
    mm_descriptors := ps_descriptors s;
    mm_count := ps_count s;
    mm_stats := {|
      total_bytes := ps_total_bytes s;
      usable_bytes := ps_usable_bytes s;
      reclaimable_bytes := ps_reclaimable_bytes s;
      region_count := ps_count s;
      usable_region_count := ps_usable_region_count s;
      is_truncated := kmm_truncated source;
    |};
  |}.
End parse.

(** * Queries *)

Definition MemoryMap_stats (m : MemoryMap) : MemoryStats := mm_stats m.

Definition MemoryMap_regions {E} (m : MemoryMap) : comp E (list KernelMemoryDescriptor) :=
  slice_to (mm_descriptors m) (mm_count m).

Definition region_kind (d : KernelMemoryDescriptor) : MemoryRegionKind :=
  MemoryRegionKind_from (ty d).

Definition usable_regions {E} (m : MemoryMap) : comp E (list KernelMemoryDescriptor) :=
  ds ← MemoryMap_regions m;
  Ok (filter (fun d => bool_decide (region_kind d = Usable)) ds).

Definition reclaimable_regions {E} (m : MemoryMap) : comp E (list KernelMemoryDescriptor) :=
  ds ← MemoryMap_regions m;
  Ok (filter (fun d => is_reclaimable_after_boot (region_kind d)) ds).

Definition regions_of_type {E} (m : MemoryMap) (t : Z)
    : comp E (list KernelMemoryDescriptor) :=
  ds ← MemoryMap_regions m;
  Ok (filter (fun d => ty d =? t) ds).

(** * Specification of the parser *)

(** The descriptors the parser keeps: those with at least one page. *)
Definition live (ds : list KernelMemoryDescriptor) : list KernelMemoryDescriptor :=
  filter (fun d => page_count d <> 0) ds.

(** Bytes of the descriptors whose kind satisfies [p], each size reduced to 64
    bits as the multiplication of the source does when it does not panic. *)
Definition bytes_of (p : MemoryRegionKind -> bool) (ds : list KernelMemoryDescriptor)
    : list Z :=
  (fun d => wrap 64 (page_count d * 4096)) <$> filter (fun d => p (region_kind d)) ds.

Definition counts_as_ram (k : MemoryRegionKind) : bool :=
  match k with Mmio | FirmwareRuntime => false | _ => true end.

Definition is_reclaimable_kind (k : MemoryRegionKind) : bool :=
  match k with BootloaderReclaimable | AcpiReclaimable => true | _ => false end.

Definition spec_stats (ds : list KernelMemoryDescriptor) (truncated : bool) : MemoryStats := {|
  total_bytes := clamp 64 (sum (bytes_of counts_as_ram ds));
  usable_bytes := clamp 64 (sum (bytes_of is_immediately_usable ds));
  reclaimable_bytes := clamp 64 (sum (bytes_of is_reclaimable_kind ds));
  region_count := Z.of_nat (length ds);
  usable_region_count :=
    Z.of_nat (length (filter (fun d => is_immediately_usable (region_kind d)) ds));
  is_truncated := truncated;
|}.

Definition misaligned (d : KernelMemoryDescriptor) : bool :=
  negb (phys_start d mod 4096 =? 0).

(** A live descriptor stops the loop when it is misaligned or, in a build with
    overflow checks, when its size in bytes does not fit 64 bits. *)
Definition stops {P : Profile} (d : KernelMemoryDescriptor) : bool :=
  negb (page_count d =? 0)
  && (misaligned d || (overflow_checks && (2 ^ 52 <=? page_count d))).

Fixpoint first_stop {P : Profile} (i : Z) (ds : list KernelMemoryDescriptor)
    : option (Z * KernelMemoryDescriptor) :=
  match ds with
  | [] => None
  | d :: ds => if stops d then Some (i, d) else first_stop (i + 1) ds
  end.

Definition parsed_map (ds : list KernelMemoryDescriptor) (truncated : bool) : MemoryMap := {|
  mm_descriptors := ds ++ replicate (MAX_MEMORY_DESCRIPTORS - length ds) ZERO_DESC;
  mm_count := Z.of_nat (length ds);
  mm_stats := spec_stats ds truncated;
|}.

Definition parse_reference {P : Profile} (source : KernelMemoryMap)
    : comp ParseError MemoryMap :=
  if Z.of_nat MAX_MEMORY_DESCRIPTORS <? kmm_count source then Panic OutOfBounds
  else
    let ds := take (Z.to_nat (kmm_count source)) (kmm_descriptors source) in
    match first_stop 0 ds with
    | Some (i, d) => if misaligned d then Err (UnalignedBase i (phys_start d))
                     else Panic Overflow
    | None => match live ds with
              | [] => Err Empty
              | kept => Ok (parsed_map kept (kmm_truncated source))
              end
    end.

(** The loop variables once the descriptors [kept] have been stored. *)
Definition loop_state (kept : list KernelMemoryDescriptor) : parse_state :=
  let total p := foldl (saturating_add 64) 0 (bytes_of p kept) in {|
  ps_descriptors := kept ++ replicate (MAX_MEMORY_DESCRIPTORS - length kept) ZERO_DESC;
  ps_count := Z.of_nat (length kept);
  ps_total_bytes := total counts_as_ram;
  ps_usable_bytes := total is_immediately_usable;
  ps_reclaimable_bytes := total is_reclaimable_kind;
  ps_usable_region_count :=
    Z.of_nat (length (filter (fun d => is_immediately_usable (region_kind d)) kept));
|}.

(** * Lemmas *)

Lemma low_bits_aligned a : (Z.land a 0xFFF =? 0) = (a mod 4096 =? 0).
Proof. change 0xFFF with (2 ^ 12 - 1). by rewrite land_ones_mod. Qed.

Lemma size_bytes_spec {P : Profile} {E} d :
  0 <= page_count d ->
  @KernelMemoryDescriptor_size_bytes P E d =
    if overflow_checks && (2 ^ 52 <=? page_count d) then Panic Overflow
    else Ok (wrap 64 (page_count d * 4096)).
Proof.
  intros Hd. unfold KernelMemoryDescriptor_size_bytes, mul_u, arith, wrap.
  change (2 ^ 64) with (2 ^ 52 * 4096).
  destruct (Z.ltb_spec (page_count d * 4096) (2 ^ 52 * 4096)).
  - rewrite (proj2 (Z.leb_gt _ _)), andb_false_r by lia.
    by rewrite Z.mod_small by lia.
  - rewrite (proj2 (Z.leb_le _ _)), andb_true_r by lia. done.
Qed.

Lemma bytes_of_snoc p kept d :
  bytes_of p (kept ++ [d]) =
    bytes_of p kept ++ if p (region_kind d) then [wrap 64 (page_count d * 4096)] else [].
Proof.
  unfold bytes_of. rewrite filter_app, fmap_app. f_equal.
  rewrite filter_cons, filter_nil. by destruct (p (region_kind d)).
Qed.

Lemma bytes_of_nonneg p ds : Forall (fun n => 0 <= n) (bytes_of p ds).
Proof.
  unfold bytes_of. apply Forall_fmap, Forall_true. intros d. simpl.
  by apply Z.mod_pos_bound.
Qed.

Lemma bytes_of_clamp p ds :
  foldl (saturating_add 64) 0 (bytes_of p ds) = clamp 64 (sum (bytes_of p ds)).
Proof. rewrite saturating_fold; [done | apply bytes_of_nonneg | by_dec]. Qed.

Lemma store_descriptor (kept : list KernelMemoryDescriptor) d :
  (length kept < MAX_MEMORY_DESCRIPTORS)%nat ->
  <[length kept := d]> (kept ++ replicate (MAX_MEMORY_DESCRIPTORS - length kept) ZERO_DESC)
  = (kept ++ [d]) ++ replicate (MAX_MEMORY_DESCRIPTORS - length (kept ++ [d])) ZERO_DESC.
Proof.
  intros H. rewrite length_app. simpl.
  replace (MAX_MEMORY_DESCRIPTORS - length kept)%nat
    with (S (MAX_MEMORY_DESCRIPTORS - (length kept + 1)))%nat by lia.
  replace (length kept) with (length kept + 0)%nat at 1 by lia.
  rewrite insert_app_r. by rewrite <- app_assoc.
Qed.

(** Storing one more descriptor. *)
Lemma loop_state_snoc kept d :
  let k := region_kind d in
  let size := wrap 64 (page_count d * 4096) in
  let s := loop_state kept in
  let add (b : bool) n := if b then saturating_add 64 n size else n in
  loop_state (kept ++ [d]) = {|
    ps_descriptors := (kept ++ [d]) ++
      replicate (MAX_MEMORY_DESCRIPTORS - length (kept ++ [d])) ZERO_DESC;
    ps_count := ps_count s + 1;
    ps_total_bytes := add (counts_as_ram k) (ps_total_bytes s);
    ps_usable_bytes := add (is_immediately_usable k) (ps_usable_bytes s);
    ps_reclaimable_bytes := add (is_reclaimable_kind k) (ps_reclaimable_bytes s);
    ps_usable_region_count :=
      ps_usable_region_count s + (if is_immediately_usable k then 1 else 0);
  |}.
Proof.
  cbn. unfold loop_state. rewrite !bytes_of_snoc, !foldl_app. f_equal.
  - rewrite length_app. simpl. lia.
  - by destruct (counts_as_ram _).
  - by destruct (is_immediately_usable _).
  - by destruct (is_reclaimable_kind _).
  - rewrite filter_app, length_app, filter_cons, filter_nil.
    destruct (is_immediately_usable (region_kind d)); simpl; lia.
Qed.

Lemma parse_step_spec {P : Profile} i d kept :
  (length kept < MAX_MEMORY_DESCRIPTORS)%nat -> 0 <= page_count d ->
  parse_step i d (loop_state kept) =
    if page_count d =? 0 then Ok (loop_state kept)
    else if misaligned d then Err (UnalignedBase i (phys_start d))
    else if overflow_checks && (2 ^ 52 <=? page_count d) then Panic Overflow
    else Ok (loop_state (kept ++ [d])).
Proof.
  intros Hlen Hd. unfold parse_step. rewrite low_bits_aligned, size_bytes_spec by done.
  fold (misaligned d). destruct (page_count d =? 0), (misaligned d); [done..|].
  destruct (overflow_checks && (2 ^ 52 <=? page_count d)); [done|].
  assert (Hc : ps_count (loop_state kept) + 1 < 2 ^ 64).
  { unfold loop_state, MAX_MEMORY_DESCRIPTORS in *. cbn [ps_count]. lia. }
  assert (Hu : ps_usable_region_count (loop_state kept) + 1 < 2 ^ 64).
  { unfold loop_state in *. cbn [ps_usable_region_count ps_count] in *.
    pose proof (length_filter (fun d => is_immediately_usable (region_kind d)) kept). lia. }
  assert (Hs : @set_index ParseError _ (ps_descriptors (loop_state kept))
             (ps_count (loop_state kept)) d
           = Ok ((kept ++ [d]) ++
               replicate (MAX_MEMORY_DESCRIPTORS - length (kept ++ [d])) ZERO_DESC)).
  { unfold loop_state. cbn [ps_descriptors ps_count].
    rewrite set_index_ok by (rewrite length_app, length_replicate; lia).
    rewrite Nat2Z.id. by rewrite store_descriptor. }
  rewrite loop_state_snoc. unfold mbind, comp_bind.
  rewrite (add_u_small 64 _ 1 Hc), (add_u_small 64 _ 1 Hu), Hs.
  fold (region_kind d). destruct (region_kind d); cbn; by rewrite ?Z.add_0_r.
Qed.

Lemma live_cons d ds :
  live (d :: ds) = if page_count d =? 0 then live ds else d :: live ds.
Proof.
  unfold live. rewrite filter_cons.
  destruct (Z.eqb_spec (page_count d) 0), (decide _); naive_solver.
Qed.

Lemma parse_loop_spec {P : Profile} i ds kept :
  Forall (fun d => 0 <= page_count d) ds ->
  (length kept + length ds <= MAX_MEMORY_DESCRIPTORS)%nat ->
  parse_loop i ds (loop_state kept) =
    match first_stop i ds with
    | Some (j, d) => if misaligned d then Err (UnalignedBase j (phys_start d))
                     else Panic Overflow
    | None => Ok (loop_state (kept ++ live ds))
    end.
Proof.
  intros Hds; revert i kept.
  induction Hds as [|d ds Hd Hds IH]; intros i kept Hlen; cbn [parse_loop first_stop].
  - by rewrite app_nil_r.
  - simpl in Hlen. rewrite parse_step_spec, live_cons by (done || lia). unfold stops.
    destruct (page_count d =? 0); cbn [negb andb].
    { step_ok. rewrite IH by lia. done. }
    destruct (misaligned d) eqn:Hm; cbn [orb]; [by rewrite Hm|].
    destruct (overflow_checks && _) eqn:Ho; [by rewrite Hm|].
    step_ok. rewrite IH by (rewrite length_app; simpl; lia).
    by rewrite <- app_assoc.
Qed.

Lemma loop_state_count kept : ps_count (loop_state kept) = Z.of_nat (length kept).
Proof. done. Qed.

Lemma entries_take {E} m :
  wf_memory_map m -> kmm_count m <= Z.of_nat MAX_MEMORY_DESCRIPTORS ->
  @KernelMemoryMap_entries E m = Ok (take (Z.to_nat (kmm_count m)) (kmm_descriptors m)).
Proof. intros (Hlen & _ & [Hc _] & _) Hle. apply entries_ok. lia. Qed.

Lemma wf_entries m :
  wf_memory_map m -> kmm_count m <= Z.of_nat MAX_MEMORY_DESCRIPTORS ->
  @KernelMemoryMap_entries ParseError m
    = Ok (take (Z.to_nat (kmm_count m)) (kmm_descriptors m))
  /\ Forall wf_descriptor (take (Z.to_nat (kmm_count m)) (kmm_descriptors m))
  /\ (length (take (Z.to_nat (kmm_count m)) (kmm_descriptors m)) <= MAX_MEMORY_DESCRIPTORS)%nat.
Proof.
  intros Hwf Hle. split; [by apply entries_take|]. destruct Hwf as (Hlen & Hds & _).
  split; [by apply Forall_take | rewrite length_take; lia].
Qed.

Lemma wf_page_count ds :
  Forall wf_descriptor ds -> Forall (fun d => 0 <= page_count d) ds.
Proof. intros H. apply (Forall_impl _ _ _ H). intros d (_ & _ & _ & [? _] & _). done. Qed.

Lemma parse_spec {P : Profile} source :
  wf_memory_map source -> MemoryMap_parse source = parse_reference source.
Proof.
  intros Hwf. unfold MemoryMap_parse, parse_reference.
  destruct (Z.ltb_spec (Z.of_nat MAX_MEMORY_DESCRIPTORS) (kmm_count source)) as [Hgt|Hle].
  { destruct Hwf as [Hlen _]. by rewrite entries_overrun by (rewrite Hlen; lia). }
  destruct (wf_entries source Hwf Hle) as (He & Hds & Hlen).
  rewrite He. step_ok. change parse_init with (loop_state []).
  rewrite parse_loop_spec by (by apply wf_page_count || done).
  destruct (first_stop 0 _) as [[j d]|]; [by destruct (misaligned d)|].
  step_ok. rewrite loop_state_count. cbn [app].
  destruct (live _) as [|d kept] eqn:Hl; [done|].
  rewrite (proj2 (Z.eqb_neq _ 0)) by (simpl; lia).
  unfold parsed_map, loop_state. cbn [ps_descriptors ps_count ps_total_bytes ps_usable_bytes
    ps_reclaimable_bytes ps_usable_region_count]. unfold spec_stats.
  by rewrite !bytes_of_clamp.
Qed.

(** What a successful parse says about its source. *)
Lemma parse_ok_inv {P : Profile} source m :
  wf_memory_map source -> MemoryMap_parse source = Ok m ->
  let ds := take (Z.to_nat (kmm_count source)) (kmm_descriptors source) in
  kmm_count source <= Z.of_nat MAX_MEMORY_DESCRIPTORS
  /\ first_stop 0 ds = None /\ live ds <> []
  /\ m = parsed_map (live ds) (kmm_truncated source).
Proof.
  intros Hwf. rewrite parse_spec by done. unfold parse_reference.
  destruct (Z.ltb_spec (Z.of_nat MAX_MEMORY_DESCRIPTORS) (kmm_count source)); [done|].
  destruct (first_stop 0 _) as [[j d]|]; [by destruct (misaligned d)|].
  destruct (live _) as [|d kept]; [done|]. intros [= <-]. naive_solver.
Qed.

Lemma length_live ds : (length (live ds) <= length ds)%nat.
Proof. apply length_filter. Qed.

Lemma regions_parsed_map {E} ds truncated :
  (length ds <= MAX_MEMORY_DESCRIPTORS)%nat ->
  @MemoryMap_regions E (parsed_map ds truncated) = Ok ds.
Proof.
  intros H. unfold MemoryMap_regions, parsed_map. cbn [mm_descriptors mm_count].
  rewrite slice_to_ok by (rewrite length_app, length_replicate; lia).
  by rewrite Nat2Z.id, take_app_length.
Qed.

Lemma first_stop_none {P : Profile} i ds :
  first_stop i ds = None <-> Forall (fun d => stops d = false) ds.
Proof.
  revert i; induction ds as [|d ds IH]; intros i; cbn [first_stop]; [naive_solver|].
  rewrite Forall_cons. destruct (stops d); [naive_solver|]. rewrite IH. naive_solver.
Qed.

Lemma first_stop_some {P : Profile} i ds j d :
  first_stop i ds = Some (j, d) <->
  exists pre post, ds = pre ++ d :: post /\ Forall (fun d => stops d = false) pre
    /\ stops d = true /\ j = i + Z.of_nat (length pre).
Proof.
  revert i; induction ds as [|d' ds IH]; intros i; cbn [first_stop].
  { split; [done|]. intros ([|] & ? & ? & _); done. }
  destruct (stops d') eqn:Hs.
  - split.
    + intros [= <- <-]. exists [], ds. split_and!; [done.. | simpl; lia].
    + intros ([|x pre] & post & Hds & Hpre & Hd & ->); simplify_list_eq.
      * repeat f_equal. lia.
      * apply Forall_cons in Hpre as [Hx _]. congruence.
  - rewrite IH. split.
    + intros (pre & post & -> & Hpre & Hd & ->). exists (d' :: pre), post.
      split_and!; [done | by constructor | done | simpl; lia].
    + intros ([|x pre] & post & Hds & Hpre & Hd & ->); simplify_list_eq; [congruence|].
      apply Forall_cons in Hpre as [_ Hpre]. exists pre, post.
      split_and!; [done.. | simpl; lia].
Qed.

Lemma sum_bytes_of_cons p d ds :
  sum (bytes_of p (d :: ds)) =
    (if p (region_kind d) then wrap 64 (page_count d * 4096) else 0) + sum (bytes_of p ds).
Proof. unfold bytes_of. rewrite filter_cons. by destruct (p (region_kind d)). Qed.

Lemma sum_bytes_of_or (p q r : MemoryRegionKind -> bool) ds :
  (forall k, r k = p k || q k) -> (forall k, p k && q k = false) ->
  sum (bytes_of r ds) = sum (bytes_of p ds) + sum (bytes_of q ds).
Proof.
  intros Hr Hd. induction ds as [|d ds IH]; [done|].
  rewrite !sum_bytes_of_cons, Hr. specialize (Hd (region_kind d)).
  destruct (p (region_kind d)), (q (region_kind d)); try done; cbn [orb]; lia.
Qed.

Lemma sum_bytes_of_le (p q : MemoryRegionKind -> bool) ds :
  (forall k, p k = true -> q k = true) -> sum (bytes_of p ds) <= sum (bytes_of q ds).
Proof.
  intros Hpq.
  rewrite (sum_bytes_of_or p (fun k => q k && negb (p k)) q).
  - pose proof (sum_nonneg _ (bytes_of_nonneg (fun k => q k && negb (p k)) ds)). lia.
  - intros k. specialize (Hpq k). destruct (p k), (q k); naive_solver.
  - intros k. by destruct (p k), (q k).
Qed.

(** Sizes that fit 64 bits are not reduced. *)
Lemma bytes_of_exact p ds :
  Forall (fun d => 0 <= page_count d < 2 ^ 52) ds ->
  bytes_of p ds = (fun d => page_count d * 4096) <$> filter (fun d => p (region_kind d)) ds.
Proof.
  intros H. unfold bytes_of. apply list_fmap_ext. intros i d Hi.
  apply list_elem_of_lookup_2, list_elem_of_filter in Hi as [_ Hi].
  rewrite Forall_forall in H. specialize (H d Hi).
  unfold wrap. rewrite Z.mod_small; [done|]. change (2 ^ 64) with (2 ^ 52 * 4096). lia.
Qed.

Lemma not_stops_live {P : Profile} d :
  stops d = false -> page_count d <> 0 ->
  phys_start d mod 4096 = 0 /\ (overflow_checks = true -> page_count d < 2 ^ 52).
Proof.
  unfold stops, misaligned. intros H Hd.
  rewrite (proj2 (Z.eqb_neq _ _) Hd) in H. cbn [negb andb] in H.
  apply orb_false_iff in H as [Ha Ho]. apply negb_false_iff, Z.eqb_eq in Ha.
  split; [done|]. intros Hc. rewrite Hc in Ho. by apply Z.leb_gt in Ho.
Qed.

Lemma live_exact {P : Profile} ds :
  Forall wf_descriptor ds -> Forall (fun d => stops d = false) ds ->
  overflow_checks = true \/ Forall (fun d => page_count d < 2 ^ 52) ds ->
  Forall (fun d => 0 <= page_count d < 2 ^ 52) (live ds).
Proof.
  rewrite !Forall_forall. intros Hwf Hs Hsize d [Hd Hin]%list_elem_of_filter.
  destruct (Hwf d Hin) as (_ & _ & _ & [Hn _] & _). split; [done|].
  destruct (not_stops_live d (Hs d Hin) Hd) as [_ Ho].
  destruct Hsize as [Hc|Hall]; auto.
Qed.

(** * Properties *)

(** A map with the given descriptors in front. *)
Definition map_of (ds : list KernelMemoryDescriptor) (truncated : bool) : KernelMemoryMap := {|
  kmm_descriptors := ds ++ replicate (MAX_MEMORY_DESCRIPTORS - length ds) ZERO_DESC;
  kmm_count := Z.of_nat (length ds);
  kmm_truncated := truncated;
  kmm_pad := replicate 7 0;
|}.

Definition desc_of (t start pages : Z) : KernelMemoryDescriptor :=
  {| ty := t; kmd_pad := 0; phys_start := start; page_count := pages; attribute := 0 |}.

Lemma wf_desc_of t start pages :
  uint 32 t -> uint 64 start -> uint 64 pages -> wf_descriptor (desc_of t start pages).
Proof.
  intros Ht Hs Hp. split; [exact Ht|]. split; [by_dec|]. split; [exact Hs|].
  split; [exact Hp | by_dec].
Qed.

Lemma wf_map_of ds truncated :
  (length ds <= MAX_MEMORY_DESCRIPTORS)%nat -> Forall wf_descriptor ds ->
  wf_memory_map (map_of ds truncated).
Proof.
  intros Hlen Hds. unfold wf_memory_map, map_of.
  cbn [kmm_descriptors kmm_count kmm_pad]. split_and!.
  - rewrite length_app, length_replicate. lia.
  - apply Forall_app; split; [done|]. apply Forall_replicate. by_dec.
  - unfold uint, MAX_MEMORY_DESCRIPTORS in *. lia.
  - done.
  - apply Forall_replicate. by_dec.
Qed.

(** A mixed firmware map: padding, conventional, boot-services, MMIO, reserved. *)
Definition sample_map : KernelMemoryMap := map_of [
  desc_of memory_type.CONVENTIONAL 0x1000 0;
  desc_of memory_type.CONVENTIONAL 0x1000 100;
  desc_of memory_type.BOOT_SERVICES_DATA 0x100000 50;
  desc_of memory_type.MMIO 0xFEC00000 4;
  desc_of memory_type.RESERVED 0xF000 1 ] false.

Lemma wf_sample_map : wf_memory_map sample_map.
Proof. apply wf_map_of; [by_dec|]. repeat constructor; by_dec. Qed.

(** C9: on every well-typed memory map, in both build profiles, [MemoryMap::parse]
    computes its list-level reference: an over-long [count] panics on the slice; the
    first live descriptor that is misaligned gives [UnalignedBase] with its index and
    address, one whose byte size overflows panics in a checked build; an all-padding
    map is [Empty]; otherwise the result holds exactly the live descriptors with
    clamped byte totals per kind. *)
Theorem parse_correct {P : Profile} (source : KernelMemoryMap) :
  wf_memory_map source -> MemoryMap_parse source = parse_reference source.
Proof. apply parse_spec. Qed.

Lemma parse_correct_witness :
  @MemoryMap_parse dev_profile sample_map = @parse_reference dev_profile sample_map.
Proof. apply parse_correct, wf_sample_map. Defined.

(** A successful parse keeps the live descriptors of the source, in source order
    and unchanged; every one of them is page aligned and non-empty; [regions()] never
    panics on the result; and the unused tail of the array is zeroed. *)
Theorem parse_regions_faithful {P : Profile} (source : KernelMemoryMap) (m : MemoryMap) :
  wf_memory_map source -> MemoryMap_parse source = Ok m ->
  exists ds, @KernelMemoryMap_entries void source = Ok ds
    /\ @MemoryMap_regions void m = Ok (live ds)
    /\ live ds <> []
    /\ Forall (fun d => phys_start d mod 4096 = 0 /\ 0 < page_count d) (live ds)
    /\ region_count (MemoryMap_stats m) = Z.of_nat (length (live ds))
    /\ length (mm_descriptors m) = MAX_MEMORY_DESCRIPTORS
    /\ drop (length (live ds)) (mm_descriptors m)
       = replicate (MAX_MEMORY_DESCRIPTORS - length (live ds)) ZERO_DESC.
Proof.
  intros Hwf Hp. destruct (parse_ok_inv source m Hwf Hp) as (Hle & Hs & Hne & ->).
  destruct (wf_entries source Hwf Hle) as (He & Hds & Hlen).
  set (ds := take _ _) in *. exists ds. pose proof (length_live ds).
  split_and!; [ | by apply regions_parsed_map; lia | done | | done | | ].
  - by apply entries_take.
  - apply first_stop_none in Hs. rewrite Forall_forall in Hs, Hds |- *.
    intros d [Hd Hin]%list_elem_of_filter.
    destruct (not_stops_live d (Hs d Hin) Hd) as [Ha _].
    destruct (Hds d Hin) as (_ & _ & _ & [Hn _] & _). lia.
  - unfold parsed_map. cbn [mm_descriptors]. rewrite length_app, length_replicate. lia.
  - unfold parsed_map. cbn [mm_descriptors]. by rewrite drop_app_length.
Qed.

Definition sample_parsed : MemoryMap := parsed_map (live (kmm_descriptors sample_map)) false.

Lemma sample_parse_ok : @MemoryMap_parse dev_profile sample_map = Ok sample_parsed.
Proof. vm_compute. reflexivity. Qed.

(** C18: the statistics cached by a successful parse are those of the regions the
    queries return: [usable_regions()] has [usable_region_count] elements whose byte
    sizes add up (clamped to [u64::MAX]) to [usable_bytes], and
    [reclaimable_regions()] adds up to [total_usable_after_boot()].  In a checked build
    this holds for every map; in a release build for descriptors below 2^52 pages. *)
Theorem parse_stats_match_queries {P : Profile} (source : KernelMemoryMap) (m : MemoryMap) :
  wf_memory_map source -> MemoryMap_parse source = Ok m ->
  overflow_checks = true
    \/ Forall (fun d => page_count d < 2 ^ 52) (kmm_descriptors source) ->
  exists us rs, @usable_regions void m = Ok us /\ @reclaimable_regions void m = Ok rs
    /\ usable_region_count (MemoryMap_stats m) = Z.of_nat (length us)
    /\ usable_bytes (MemoryMap_stats m)
       = clamp 64 (sum ((fun d => page_count d * 4096) <$> us))
    /\ total_usable_after_boot (MemoryMap_stats m)
       = clamp 64 (sum ((fun d => page_count d * 4096) <$> rs))
    /\ is_truncated (MemoryMap_stats m) = kmm_truncated source.
Proof.
  intros Hwf Hp Hsize. destruct (parse_ok_inv source m Hwf Hp) as (Hle & Hs & _ & ->).
  destruct (wf_entries source Hwf Hle) as (_ & Hds & Hlen).
  apply first_stop_none in Hs.
  assert (Hx := live_exact _ Hds Hs
    (or_ind (@or_introl _ _) (fun H => or_intror (Forall_take _ _ _ H)) Hsize)).
  set (ds := live (take _ _)) in *.
  assert (Hr : @MemoryMap_regions void (parsed_map ds (kmm_truncated source)) = Ok ds).
  { apply regions_parsed_map. etrans; [apply length_live | done]. }
  eexists _, _. unfold usable_regions, reclaimable_regions. rewrite Hr.
  split_and!; try reflexivity.
  - cbn. by rewrite bytes_of_exact.
  - unfold total_usable_after_boot, saturating_add. cbn [MemoryMap_stats parsed_map mm_stats
      spec_stats usable_bytes reclaimable_bytes].
    rewrite <- (bytes_of_exact is_reclaimable_after_boot) by done.
    rewrite (sum_bytes_of_or is_immediately_usable is_reclaimable_kind
      is_reclaimable_after_boot) by by intros [].
    pose proof (sum_nonneg _ (bytes_of_nonneg is_immediately_usable ds)).
    pose proof (sum_nonneg _ (bytes_of_nonneg is_reclaimable_kind ds)).
    assert (0 <= max_value 64) by by_dec. unfold clamp. lia.
Qed.

Lemma parse_stats_match_queries_witness : exists us rs,
  @usable_regions void sample_parsed = Ok us /\ @reclaimable_regions void sample_parsed = Ok rs
  /\ usable_bytes (MemoryMap_stats sample_parsed)
     = clamp 64 (sum ((fun d => page_count d * 4096) <$> us)).
Proof.
  destruct (@parse_stats_match_queries dev_profile sample_map sample_parsed wf_sample_map
    sample_parse_ok (or_introl eq_refl)) as (us & rs & H1 & H2 & _ & H3 & _).
  exists us, rs. split; [exact H1 | split; [exact H2 | exact H3]].
Defined.

(** [parse] reports [UnalignedBase { index, phys_start }] exactly when the entry at
    [index] is the first live one that cannot be accepted and its base address is
    [phys_start], not a multiple of the page size. *)
Theorem parse_unaligned_iff {P : Profile} (source : KernelMemoryMap) (i p : Z) :
  wf_memory_map source -> kmm_count source <= Z.of_nat MAX_MEMORY_DESCRIPTORS ->
  MemoryMap_parse source = Err (UnalignedBase i p) <->
  exists pre d post,
    @KernelMemoryMap_entries void source = Ok (pre ++ d :: post)
    /\ i = Z.of_nat (length pre) /\ phys_start d = p
    /\ page_count d <> 0 /\ p mod 4096 <> 0
    /\ Forall (fun d => stops d = false) pre.
Proof.
  intros Hwf Hle. rewrite parse_spec by done. unfold parse_reference.
  rewrite (proj2 (Z.ltb_ge _ _)) by done.
  rewrite entries_take by done. set (ds := take _ _). split.
  - destruct (first_stop 0 ds) as [[j d]|] eqn:Hf; [|by destruct (live ds)].
    destruct (misaligned d) eqn:Hm; [|done]. intros [= -> <-].
    apply first_stop_some in Hf as (pre & post & -> & Hpre & Hd & ->).
    exists pre, d, post. unfold stops in Hd. apply andb_true_iff in Hd as [Hd _].
    unfold misaligned in Hm. rewrite negb_true_iff, Z.eqb_neq in Hd, Hm.
    by split_and!.
  - intros (pre & d & post & [= Hds] & -> & <- & Hd & Hm & Hpre).
    assert (Hmd : misaligned d = true).
    { unfold misaligned. by rewrite (proj2 (Z.eqb_neq _ _) Hm). }
    rewrite (proj2 (first_stop_some 0 ds (Z.of_nat (length pre)) d)); [by rewrite Hmd|].
    exists pre, post. split_and!; try done. unfold stops.
    by rewrite (proj2 (Z.eqb_neq _ _) Hd), Hmd.
Qed.

(** Padding first, then a live entry one byte off a page boundary. *)
Definition unaligned_map : KernelMemoryMap := map_of [
  desc_of memory_type.CONVENTIONAL 0x1003 0;
  desc_of memory_type.CONVENTIONAL 0x1001 10 ] false.

(** [parse] reports [Empty] exactly when every entry of the map has zero pages. *)
Lemma parse_empty_iff {P : Profile} (source : KernelMemoryMap) :
  wf_memory_map source -> kmm_count source <= Z.of_nat MAX_MEMORY_DESCRIPTORS ->
  MemoryMap_parse source = Err Empty <->
  exists ds, @KernelMemoryMap_entries void source = Ok ds
    /\ Forall (fun d => page_count d = 0) ds.
Proof.
  intros Hwf Hle. rewrite parse_spec by done. unfold parse_reference.
  rewrite (proj2 (Z.ltb_ge _ _)) by done.
  rewrite entries_take by done. set (ds := take _ _). split.
  - destruct (first_stop 0 ds) as [[j d]|]; [by destruct (misaligned d)|].
    destruct (live ds) eqn:Hl; [|done]. intros _. exists ds. split; [done|].
    rewrite Forall_forall. intros d Hd. destruct (decide (page_count d = 0)); [done|].
    exfalso. apply (not_elem_of_nil d). rewrite <- Hl. by apply list_elem_of_filter.
  - intros (ds' & [= <-] & Hall).
    rewrite (proj2 (first_stop_none 0 ds)).
    + replace (live ds) with (@nil KernelMemoryDescriptor); [done|]. symmetry.
      unfold live. induction Hall as [|d l Hd Hall IH]; [done|].
      rewrite filter_cons, decide_False by (intros H; done). done.
    + apply (Forall_impl _ _ _ Hall). intros d Hd. unfold stops. by rewrite Hd.
Qed.

(** For a map whose [count] is within the array, [parse] never panics in a release
    build, and in a checked build it does not panic either when every region is below
    2^52 pages: no index leaves the descriptor array and no counter overflows. *)
Theorem parse_never_panics {P : Profile} (source : KernelMemoryMap) (f : fault) :
  wf_memory_map source -> kmm_count source <= Z.of_nat MAX_MEMORY_DESCRIPTORS ->
  (overflow_checks = true ->
   Forall (fun d => page_count d < 2 ^ 52) (kmm_descriptors source)) ->
  MemoryMap_parse source <> Panic f.
Proof.
  intros Hwf Hle Hsmall. rewrite parse_spec by done. unfold parse_reference.
  rewrite (proj2 (Z.ltb_ge _ _)) by done.
  destruct (first_stop 0 _) as [[j d]|] eqn:Hf; [|by destruct (live _)].
  destruct (misaligned d) eqn:Hm; [done|]. exfalso.
  apply first_stop_some in Hf as (pre & post & Hds & _ & Hd & _).
  unfold stops in Hd. rewrite Hm in Hd. apply andb_true_iff in Hd as [_ Ho].
  cbn [orb] in Ho. apply andb_true_iff in Ho as [Hc Ho]. apply Z.leb_le in Ho.
  assert (Hin : d ∈ kmm_descriptors source).
  { rewrite <- (take_drop (Z.to_nat (kmm_count source)) (kmm_descriptors source)), Hds.
    set_solver. }
  specialize (Hsmall Hc). rewrite Forall_forall in Hsmall. specialize (Hsmall d Hin). lia.
Qed.

(** The three classifications of a memory type agree: a descriptor is
    [is_usable()] exactly when its region kind [is_reclaimable_after_boot()], and the
    kinds that are not usable never count as immediately usable. *)
Lemma usable_classifiers_agree (d : KernelMemoryDescriptor) :
  KernelMemoryDescriptor_is_usable d = is_reclaimable_after_boot (region_kind d)
  /\ (is_immediately_usable (region_kind d) = true <-> ty d = memory_type.CONVENTIONAL)
  /\ (is_immediately_usable (region_kind d) = true ->
      is_reclaimable_after_boot (region_kind d) = true).
Proof.
  unfold KernelMemoryDescriptor_is_usable, region_kind, MemoryRegionKind_from.
  repeat match goal with
  | |- context [ty d =? ?c] =>
      destruct (Z.eqb_spec (ty d) c) as [->|?]; [by split_and!; vm_compute|]
  end.
  by split_and!.
Qed.

(** The totals of a successful parse are ordered: usable plus reclaimable bytes never
    exceed the RAM total, every total fits a [u64], there are at most 256 regions, and at
    most as many usable regions as regions. *)
Theorem parse_stats_bounds {P : Profile} (source : KernelMemoryMap) (m : MemoryMap) :
  wf_memory_map source -> MemoryMap_parse source = Ok m ->
  let s := MemoryMap_stats m in
  total_usable_after_boot s <= total_bytes s
  /\ uint 64 (total_bytes s) /\ uint 64 (usable_bytes s) /\ uint 64 (reclaimable_bytes s)
  /\ 0 < region_count s <= Z.of_nat MAX_MEMORY_DESCRIPTORS
  /\ 0 <= usable_region_count s <= region_count s.
Proof.
  intros Hwf Hp. destruct (parse_ok_inv source m Hwf Hp) as (Hle & _ & Hne & ->).
  destruct (wf_entries source Hwf Hle) as (_ & _ & Hlen).
  set (ds := take _ _) in *. pose proof (length_live ds).
  assert (HM : 0 <= max_value 64) by by_dec.
  pose proof (fun p => sum_nonneg _ (bytes_of_nonneg p (live ds))) as Hpos.
  assert (Hu : forall p, uint 64 (clamp 64 (sum (bytes_of p (live ds))))).
  { intros p. specialize (Hpos p). unfold uint, clamp, max_value. lia. }
  cbn [MemoryMap_stats parsed_map mm_stats spec_stats total_bytes usable_bytes
    reclaimable_bytes region_count usable_region_count total_usable_after_boot].
  split_and!; try apply Hu; try lia.
  - unfold total_usable_after_boot, saturating_add. cbn [spec_stats usable_bytes reclaimable_bytes].
    pose proof (sum_bytes_of_le is_reclaimable_after_boot counts_as_ram (live ds)) as Hsub.
    rewrite (sum_bytes_of_or is_immediately_usable is_reclaimable_kind
      is_reclaimable_after_boot) in Hsub by by intros [].
    assert (Hk : forall k, is_reclaimable_after_boot k = true -> counts_as_ram k = true)
      by by intros [].
    specialize (Hsub Hk). pose proof (Hpos is_immediately_usable).
    pose proof (Hpos is_reclaimable_kind). unfold clamp. lia.
  - destruct (live ds); [done | simpl; lia].
  - pose proof (length_filter (fun d => is_immediately_usable (region_kind d)) (live ds)). lia.
Qed.

(** C40: in a release build [size_bytes] wraps, so a corrupt conventional descriptor of
    2^52 pages is accepted and reported as a usable region of zero bytes; a checked build
    panics on it instead of returning a [ParseError]. *)
Theorem parse_wraps_huge_region (start : Z) :
  uint 64 start -> start mod 4096 = 0 ->
  let source := map_of [desc_of memory_type.CONVENTIONAL start (2 ^ 52)] false in
  (exists m, @MemoryMap_parse release_profile source = Ok m
     /\ usable_region_count (MemoryMap_stats m) = 1
     /\ usable_bytes (MemoryMap_stats m) = 0)
  /\ @MemoryMap_parse dev_profile source = Panic Overflow.
Proof.
  intros Hu Ha source.
  assert (Hwf : wf_memory_map source).
  { apply wf_map_of; [by_dec|]. apply Forall_singleton.
    apply wf_desc_of; [by_dec | done | by_dec]. }
  rewrite !parse_spec by done. unfold parse_reference.
  change (Z.of_nat MAX_MEMORY_DESCRIPTORS <? kmm_count source) with false. cbn match.
  change (take _ _) with [desc_of memory_type.CONVENTIONAL start (2 ^ 52)].
  assert (Hm : misaligned (desc_of memory_type.CONVENTIONAL start (2 ^ 52)) = false).
  { unfold misaligned. cbn [phys_start desc_of]. by rewrite Ha. }
  set (d := desc_of _ _ _) in *. unfold first_stop, stops. rewrite !Hm. split.
  - eexists. split; [reflexivity|]. by split.
  - transitivity (if misaligned d then Err (UnalignedBase 0 start)
                  else Panic Overflow : comp ParseError MemoryMap); [reflexivity|].
    by rewrite Hm.
Qed.

Lemma parse_wraps_huge_region_witness :
  @MemoryMap_parse dev_profile
    (map_of [desc_of memory_type.CONVENTIONAL 0x100000 (2 ^ 52)] false) = Panic Overflow.
Proof. refine (proj2 (parse_wraps_huge_region 0x100000 _ _)); by_dec. Defined.
