(* ===== verification/Layout.v ===== *)
(** Byte layout of the boot-information ABI: the [repr(C)] layout rule, the field
    tables of the structs of [lib/boot-info/src/lib.rs], their encoders and
    decoders (little-endian, x86-64), and the proof that the encoders place every
    field where the rule puts it, without implicit padding.  The source has no encoder: it
    shares the structs as memory, and these functions are their bytes.  [usize] is 8 bytes and
    [bool] one byte holding 0 or 1 (any other value is invalid and does not
    decode). *)

From S2P Require Export Prelude Abi.

(** * The [repr(C)] rule *)

(** A field is its size and alignment in bytes. *)
Definition field_layout : Type := (Z * Z)%type.

Definition u8_layout : field_layout := (1, 1).
Definition bool_layout : field_layout := (1, 1).
Definition u16_layout : field_layout := (2, 2).
Definition u32_layout : field_layout := (4, 4).
Definition u64_layout : field_layout := (8, 8).
Definition array_layout (n : Z) (l : field_layout) : field_layout := (n * l.1, l.2).

Definition round_up (n a : Z) : Z := (n + a - 1) / a * a.

Fixpoint field_offsets (off : Z) (fs : list field_layout) : list Z * Z :=
  match fs with
  | [] => ([], off)
  | (size, align) :: fs =>
      let o := round_up off align in
      let '(os, last) := field_offsets (o + size) fs in (o :: os, last)
  end.

Definition struct_align (fs : list field_layout) : Z := foldr Z.max 1 (snd <$> fs).

Definition struct_offsets (fs : list field_layout) : list Z := (field_offsets 0 fs).1.

Definition struct_layout (fs : list field_layout) : field_layout :=
  (round_up (field_offsets 0 fs).2 (struct_align fs), struct_align fs).

(** [repr(C, packed)]: alignment 1 and fields back to back. *)
Definition pack (fs : list field_layout) : list field_layout :=
  (fun f : field_layout => (f.1, 1)) <$> fs.

Definition KernelMemoryDescriptor_fields : list field_layout :=
  [u32_layout; u32_layout; u64_layout; u64_layout; u64_layout].

Definition KernelMemoryMap_fields : list field_layout :=
  [array_layout (Z.of_nat MAX_MEMORY_DESCRIPTORS)
     (struct_layout KernelMemoryDescriptor_fields);
   u64_layout; bool_layout; array_layout 7 u8_layout].

Definition KernelFramebuffer_fields : list field_layout :=
  [u64_layout; u64_layout; u32_layout; u32_layout; u32_layout; u32_layout].

Definition KernelBootInfo_fields : list field_layout :=
  [u64_layout; u32_layout; u32_layout; struct_layout KernelMemoryMap_fields; u64_layout;
   struct_layout KernelFramebuffer_fields; bool_layout; array_layout 7 u8_layout;
   array_layout 32 u8_layout].

(** * Encoders and decoders *)

Definition dec_bytes (n : nat) : decoder (list Z) := fun bs =>
  if decide (n <= length bs)%nat then Some (take n bs, drop n bs) else None.

Definition encode_descriptor (d : KernelMemoryDescriptor) : list Z :=
  le_encode 4 (ty d) ++ le_encode 4 (kmd_pad d) ++ le_encode 8 (phys_start d)
  ++ le_encode 8 (page_count d) ++ le_encode 8 (attribute d).

Definition decode_descriptor : decoder KernelMemoryDescriptor :=
  t ← dec_uint 4; p ← dec_uint 4; s ← dec_uint 8; c ← dec_uint 8; a ← dec_uint 8;
  mret {| ty := t; kmd_pad := p; phys_start := s; page_count := c; attribute := a |}.

#[export] Instance descriptor_codec : Codec KernelMemoryDescriptor := {|
  encode := encode_descriptor; decode := decode_descriptor;
  size_of := 32; repr := wf_descriptor |}.

Definition encode_memory_map (m : KernelMemoryMap) : list Z :=
  mjoin (encode <$> kmm_descriptors m) ++ le_encode 8 (kmm_count m)
  ++ enc_bool (kmm_truncated m) ++ kmm_pad m.

Definition decode_memory_map : decoder KernelMemoryMap :=
  ds ← dec_array MAX_MEMORY_DESCRIPTORS decode; c ← dec_uint 8; t ← dec_bool;
  p ← dec_bytes 7;
  mret {| kmm_descriptors := ds; kmm_count := c; kmm_truncated := t; kmm_pad := p |}.

#[export] Instance memory_map_codec : Codec KernelMemoryMap := {|
  encode := encode_memory_map; decode := decode_memory_map;
  size_of := 8208; repr := wf_memory_map |}.

Definition encode_framebuffer (f : KernelFramebuffer) : list Z :=
  le_encode 8 (kfb_base f) ++ le_encode 8 (kfb_size f) ++ le_encode 4 (kfb_width f)
  ++ le_encode 4 (kfb_height f) ++ le_encode 4 (kfb_stride f)
  ++ le_encode 4 (kfb_pixel_format f).

Definition decode_framebuffer : decoder KernelFramebuffer :=
  b ← dec_uint 8; s ← dec_uint 8; w ← dec_uint 4; h ← dec_uint 4; st ← dec_uint 4;
  p ← dec_uint 4;
  mret {| kfb_base := b; kfb_size := s; kfb_width := w; kfb_height := h;
          kfb_stride := st; kfb_pixel_format := p |}.

#[export] Instance framebuffer_codec : Codec KernelFramebuffer := {|
  encode := encode_framebuffer; decode := decode_framebuffer;
  size_of := 32; repr := wf_framebuffer |}.

(** The fields of a [KernelBootInfo] as byte strings, in declaration order. *)
Definition boot_info_segments (k : KernelBootInfo) : list (list Z) :=
  [le_encode 8 (magic k); le_encode 4 (version k); le_encode 4 (kbi_pad k);
   encode (memory_map k); le_encode 8 (acpi_rsdp k); encode (framebuffer k);
   enc_bool (has_framebuffer k); kbi_pad2 k; bootloader_name k].

Definition encode_boot_info (k : KernelBootInfo) : list Z := mjoin (boot_info_segments k).

Definition decode_boot_info : decoder KernelBootInfo :=
  mg ← dec_uint 8; v ← dec_uint 4; p ← dec_uint 4; m ← decode; r ← dec_uint 8;
  f ← decode; h ← dec_bool; p2 ← dec_bytes 7; n ← dec_bytes 32;
  mret {| magic := mg; version := v; kbi_pad := p; memory_map := m; acpi_rsdp := r;
          framebuffer := f; has_framebuffer := h; kbi_pad2 := p2; bootloader_name := n |}.

#[export] Instance boot_info_codec : Codec KernelBootInfo := {|
  encode := encode_boot_info; decode := decode_boot_info;
  size_of := 8304; repr := wf_boot_info |}.

(** * Laws *)

Lemma dec_bytes_app n bs rest : length bs = n -> dec_bytes n (bs ++ rest) = Some (bs, rest).
Proof.
  intros <-. unfold dec_bytes. rewrite decide_True by (rewrite length_app; lia).
  by rewrite take_app_length, drop_app_length.
Qed.

Lemma decoder_bind_some {A B} (d : decoder A) (k : A -> decoder B) bs a rest :
  d bs = Some (a, rest) -> (d ≫= k) bs = k a rest.
Proof. intros H. unfold mbind, decoder_bind. by rewrite H. Qed.

(** Run a decoder over the encodings of its fields, one at a time. *)
Ltac decode_fields :=
  rewrite <- ?app_assoc;
  repeat (erewrite decoder_bind_some; [|
    first [ apply dec_uint_encode; assumption
          | apply dec_bool_encode
          | apply dec_bytes_app; assumption
          | apply decode_encode; assumption ]]).

#[export] Instance descriptor_codec_laws : CodecLaws KernelMemoryDescriptor.
Proof.
  split.
  - intros d _. reflexivity.
  - intros [t p s c a] rest (Ht & Hp & Hs & Hc & Ha).
    cbn [ty kmd_pad phys_start page_count attribute encode decode descriptor_codec] in *.
    unfold encode_descriptor, decode_descriptor. cbn [ty kmd_pad phys_start page_count attribute].
    by decode_fields.
Qed.

#[export] Instance framebuffer_codec_laws : CodecLaws KernelFramebuffer.
Proof.
  split.
  - intros f _. reflexivity.
  - intros [b s w h st p] rest (Hb & Hs & Hw & Hh & Hst & Hp).
    cbn [kfb_base kfb_size kfb_width kfb_height kfb_stride kfb_pixel_format
      encode decode framebuffer_codec] in *.
    unfold encode_framebuffer, decode_framebuffer.
    cbn [kfb_base kfb_size kfb_width kfb_height kfb_stride kfb_pixel_format].
    by decode_fields.
Qed.

Lemma length_encode_descriptors ds :
  length (mjoin (encode (A := KernelMemoryDescriptor) <$> ds)) = (length ds * 32)%nat.
Proof. apply length_mjoin_const, Forall_true. by intros. Qed.

#[export] Instance memory_map_codec_laws : CodecLaws KernelMemoryMap.
Proof.
  split.
  - intros m (Hl & _ & _ & Hp & _). cbn [encode memory_map_codec size_of].
    unfold encode_memory_map.
    by rewrite !length_app, length_encode_descriptors, length_le_encode, Hl, Hp.
  - intros [ds c t p] rest (Hl & Hds & Hc & Hp & _).
    cbn [kmm_descriptors kmm_count kmm_pad] in *.
    cbn [encode decode memory_map_codec]. unfold encode_memory_map, decode_memory_map.
    cbn [kmm_descriptors kmm_count kmm_truncated kmm_pad]. rewrite <- Hl.
    rewrite <- !app_assoc. erewrite decoder_bind_some.
    2:{ apply (dec_array_encode encode decode wf_descriptor); [|done].
        intros d r Hd. by apply decode_encode. }
    by decode_fields.
Qed.

#[export] Instance boot_info_codec_laws : CodecLaws KernelBootInfo.
Proof.
  split.
  - intros k (_ & _ & _ & Hm & _ & Hf & [Hp2 _] & [Hn _]).
    cbn [encode boot_info_codec size_of]. unfold encode_boot_info, boot_info_segments.
    cbn [mjoin list_join]. rewrite !length_app, !length_le_encode.
    rewrite (encode_length (C := memory_map_codec) _ Hm),
      (encode_length (C := framebuffer_codec) _ Hf), Hp2, Hn.
    reflexivity.
  - intros [mg v p m r f h p2 n] rest (Hmg & Hv & Hp & Hm & Hr & Hf & [Hp2 _] & [Hn _]).
    cbn [magic version kbi_pad memory_map acpi_rsdp framebuffer kbi_pad2 bootloader_name] in *.
    cbn [encode decode boot_info_codec]. unfold encode_boot_info, decode_boot_info.
    unfold boot_info_segments. cbn [mjoin list_join magic version kbi_pad memory_map acpi_rsdp
      framebuffer has_framebuffer kbi_pad2 bootloader_name].
    by decode_fields.
Qed.

Lemma segment_at (segs : list (list Z)) (i : nat) (seg : list Z) :
  segs !! i = Some seg ->
  take (length seg) (drop (length (mjoin (take i segs))) (mjoin segs)) = seg.
Proof.
  revert i; induction segs as [|s segs IH]; intros [|i] Hi; simplify_eq/=.
  - change (take (length seg) (seg ++ mjoin segs) = seg). by rewrite take_app_length.
  - change (take (length seg) (drop (length (s ++ mjoin (take i segs))) (s ++ mjoin segs))
      = seg). rewrite length_app, drop_app_add. by apply IH.
Qed.

Lemma wf_segment_lengths k :
  wf_boot_info k -> length <$> boot_info_segments k = [8; 4; 4; 8208; 8; 32; 1; 7; 32]%nat.
Proof.
  intros (_ & _ & _ & Hm & _ & Hf & [Hp2 _] & [Hn _]).
  unfold boot_info_segments. cbn [fmap list_fmap]. rewrite !length_le_encode.
  by rewrite (encode_length (C := memory_map_codec) _ Hm),
    (encode_length (C := framebuffer_codec) _ Hf), Hp2, Hn.
Qed.

Lemma length_mjoin_take (segs : list (list Z)) (i : nat) :
  length (mjoin (take i segs)) = sum_list (take i (length <$> segs)).
Proof.
  revert i; induction segs as [|s segs IH]; intros [|i]; [done..|].
  change (mjoin (take (S i) (s :: segs))) with (s ++ mjoin (take i segs)).
  rewrite length_app, IH. done.
Qed.

(** * Properties *)

(** C17: the field tables give, under the [repr(C)] rule, the sizes 32, 8208, 32 and 8304
    that the encoders produce and 8-byte alignment for all four structs, and in the
    encoding of any [KernelBootInfo] the bytes of field [i] start exactly at the offset
    the rule computes for it: the explicit padding fields leave no implicit padding. *)
Theorem boot_info_layout (k : KernelBootInfo) (i : nat) (off : Z) (seg : list Z) :
  wf_boot_info k ->
  struct_offsets KernelBootInfo_fields !! i = Some off ->
  boot_info_segments k !! i = Some seg ->
  take (length seg) (drop (Z.to_nat off) (encode k)) = seg
  /\ struct_layout KernelBootInfo_fields = (Z.of_nat (length (encode k)), 8)
  /\ struct_layout KernelMemoryMap_fields = (Z.of_nat (length (encode (memory_map k))), 8)
  /\ struct_layout KernelFramebuffer_fields = (Z.of_nat (length (encode (framebuffer k))), 8)
  /\ struct_layout KernelMemoryDescriptor_fields = (32, 8).
Proof.
  intros Hwf Hoff Hseg.
  assert (Hm : wf_memory_map (memory_map k)) by apply Hwf.
  assert (Hf : wf_framebuffer (framebuffer k)) by apply Hwf.
  rewrite (encode_length (C := boot_info_codec) _ Hwf),
    (encode_length (C := memory_map_codec) _ Hm),
    (encode_length (C := framebuffer_codec) _ Hf).
  split; [|by vm_compute].
  replace (Z.to_nat off) with (length (mjoin (take i (boot_info_segments k)))).
  { by apply segment_at. }
  rewrite length_mjoin_take, wf_segment_lengths by done.
  vm_compute in Hoff. do 9 (destruct i as [|i]; [by simplify_eq|]). done.
Qed.

Lemma boot_info_layout_witness :
  take 8 (drop 8224 (encode KernelBootInfo_new)) = le_encode 8 0.
Proof.
  apply (boot_info_layout KernelBootInfo_new 4 8224 (le_encode 8 0)).
  - apply wf_boot_info_new.
  - reflexivity.
  - reflexivity.
Defined.
