(* ===== verification/KernelMemory.v ===== *)
(** The kernel's global memory map ([kernel/src/memory/mod.rs]): the two statics
    [INITIALIZED] and [MEMORY_MAP], [init] and [get], and the transition system of
    calls to them.  A [&'static MemoryMap] is a handle on the static slot, so that a
    later overwrite of the slot is seen through every handle.  The atomic orderings
    are not modelled: the module runs on one core with interrupts disabled. *)

From S2P Require Export Prelude Abi MemMap.
From stdpp Require Import relations.

Record memory_state : Type := {
  INITIALIZED : bool;
  MEMORY_MAP : option MemoryMap;  (** [None] is [MaybeUninit::uninit()] *)
}.

Definition memory_boot : memory_state := {| INITIALIZED := false; MEMORY_MAP := None |}.

Inductive static_ref : Type := MEMORY_MAP_ref.

(** Reading through a handle: undefined while the slot is uninitialised. *)
Definition deref (s : memory_state) (r : static_ref) : comp void MemoryMap :=
  match MEMORY_MAP s with Some m => Ok m | None => Panic Undefined end.

Definition memory_init {P : Profile} (source : KernelMemoryMap) (s : memory_state)
    : comp ParseError static_ref * memory_state :=
  if debug_assertions && INITIALIZED s then (Panic AssertFailed, s)
  else match MemoryMap_parse source with
       | Ok map => (Ok MEMORY_MAP_ref, {| INITIALIZED := true; MEMORY_MAP := Some map |})
       | Err e => (Err e, s)
       | Panic f => (Panic f, s)
       end.

Definition memory_get (s : memory_state) : comp void (option static_ref) :=
  if INITIALIZED s then
    _ ← deref s MEMORY_MAP_ref; Ok (Some MEMORY_MAP_ref)
  else Ok None.

(** The calls the rest of the kernel can make. *)
Inductive memory_step {P : Profile} : memory_state -> memory_state -> Prop :=
| step_init source s : memory_step s (memory_init source s).2
| step_get s : memory_step s s.

Definition memory_reachable {P : Profile} : memory_state -> Prop := rtc memory_step memory_boot.

(** The promise of the module, as a write-once cell. *)
Definition cell (s : memory_state) : option MemoryMap :=
  if INITIALIZED s then MEMORY_MAP s else None.

(** * Invariant *)

Definition memory_inv {P : Profile} (s : memory_state) : Prop :=
  match MEMORY_MAP s with
  | Some m => INITIALIZED s = true /\ exists source, MemoryMap_parse source = Ok m
  | None => INITIALIZED s = false
  end.

Lemma memory_inv_init {P : Profile} source s :
  memory_inv s -> memory_inv (memory_init source s).2.
Proof.
  intros Hs. unfold memory_init. destruct (_ && _); [done|].
  destruct (MemoryMap_parse source) eqn:Hp; cbn; [|done..].
  split; [done|]. by exists source.
Qed.

Lemma memory_inv_reachable {P : Profile} s : memory_reachable s -> memory_inv s.
Proof.
  assert (Hstep : forall a b, rtc memory_step a b -> memory_inv a -> memory_inv b).
  { induction 1 as [|a b c Hab Hbc IH]; [done|]. intros Ha. apply IH.
    destruct Hab; [by apply memory_inv_init | done]. }
  intros Hr. by apply (Hstep memory_boot).
Qed.

(** With the assertion on, nothing happens to an initialised map. *)
Lemma checked_steps {P : Profile} s s' :
  debug_assertions = true -> INITIALIZED s = true -> rtc memory_step s s' -> s' = s.
Proof.
  intros Hd Hi Hr. induction Hr as [|a b c Hab Hbc IH]; [done|].
  assert (b = a) as ->; [|by apply IH]. destruct Hab as [source a|a]; [|done].
  unfold memory_init. by rewrite Hd, Hi.
Qed.

#[export] Hint Resolve memory_inv_init memory_inv_reachable : ferrous.

(** * Properties *)

(** C21: in every state reachable by calls to [init] and [get], [get] never reads the
    uninitialised slot: it returns [None] while no [init] has succeeded, and otherwise a
    handle through which the result of some successful [parse] is read. *)
Theorem memory_get_sound {P : Profile} (s : memory_state) :
  memory_reachable s ->
  (memory_get s = Ok None /\ cell s = None)
  \/ (exists m source, memory_get s = Ok (Some MEMORY_MAP_ref)
        /\ deref s MEMORY_MAP_ref = Ok m /\ cell s = Some m
        /\ MemoryMap_parse source = Ok m).
Proof.
  intros Hs%memory_inv_reachable. unfold memory_inv, memory_get, deref, cell in *.
  destruct (MEMORY_MAP s) as [m|].
  - destruct Hs as [-> [source Hp]]. right. by exists m, source.
  - rewrite Hs. by left.
Qed.

Definition after_init : memory_state := (@memory_init dev_profile sample_map memory_boot).2.

Lemma memory_get_sound_witness : exists m,
  memory_get after_init = Ok (Some MEMORY_MAP_ref) /\ deref after_init MEMORY_MAP_ref = Ok m.
Proof.
  destruct (@memory_get_sound dev_profile after_init) as [[H _] | (m & src & H & Hd & _)].
  - apply rtc_once. exact (@step_init dev_profile sample_map memory_boot).
  - exfalso. vm_compute in H. discriminate.
  - exists m. split; [exact H | exact Hd].
Defined.

(** C33: [init] on every branch: a failing parse leaves both statics untouched and its error
    is returned; a successful one stores exactly the parsed map and makes [get] return it;
    and a second call trips the assertion of a checked build without touching the map. *)
Theorem memory_init_contract {P : Profile} (source : KernelMemoryMap) (s : memory_state) :
  let '(r, s') := memory_init source s in
  match r with
  | Ok h => exists m, MemoryMap_parse source = Ok m /\ deref s' h = Ok m
              /\ memory_get s' = Ok (Some h) /\ cell s' = Some m
              /\ (debug_assertions = true -> INITIALIZED s = false)
  | Err e => MemoryMap_parse source = Err e /\ s' = s
  | Panic f => s' = s
      /\ (f = AssertFailed /\ debug_assertions = true /\ INITIALIZED s = true
          \/ MemoryMap_parse source = Panic f)
  end.
Proof.
  unfold memory_init. destruct (debug_assertions) eqn:Hd, (INITIALIZED s) eqn:Hi; cbn [andb];
    try (split; [done | by left]);
    (destruct (MemoryMap_parse source) as [m|e|f] eqn:Hp; [exists m | done | by auto]);
    by split_and!.
Qed.

(** C22: in a checked build the cell is write-once: once a map is visible, no sequence of
    further calls changes what [get] and the handles give. *)
Theorem memory_write_once (s s' : memory_state) (m : MemoryMap) :
  cell s = Some m -> rtc (@memory_step dev_profile) s s' ->
  s' = s /\ deref s' MEMORY_MAP_ref = Ok m.
Proof.
  intros Hc Hr.
  assert (Hi : INITIALIZED s = true) by (unfold cell in Hc; by destruct (INITIALIZED s)).
  assert (Hs : s' = s) by by apply (checked_steps (P := dev_profile)).
  split; [done|]. rewrite Hs. unfold deref. unfold cell in Hc. rewrite Hi in Hc.
  by rewrite Hc.
Qed.

Lemma memory_write_once_witness : exists m,
  deref (@memory_init dev_profile unaligned_map after_init).2 MEMORY_MAP_ref = Ok m.
Proof.
  exists sample_parsed.
  refine (proj2 (memory_write_once after_init _ sample_parsed _ _)).
  - vm_compute. reflexivity.
  - apply rtc_once. exact (@step_init dev_profile unaligned_map after_init).
Defined.

(** A release build has no such protection: a second [init] with a parsable map
    silently replaces the map under every handle given out before. *)
Theorem memory_release_overwrites (source source' : KernelMemoryMap) (m m' : MemoryMap)
    (s : memory_state) (h : static_ref) :
  @MemoryMap_parse release_profile source = Ok m ->
  @MemoryMap_parse release_profile source' = Ok m' ->
  let s1 := (@memory_init release_profile source s).2 in
  let s2 := (@memory_init release_profile source' s1).2 in
  deref s1 h = Ok m /\ deref s2 h = Ok m'.
Proof.
  intros H H'. unfold memory_init, debug_assertions, overflow_checks, release_profile in *.
  cbn [andb]. rewrite H. cbn [snd]. by rewrite H'.
Qed.
