(* ===== verification/UefiMemory.v ===== *)
(** The bootloader's memory map ([boot/src/memory.rs]): region types, regions, and the
    construction of the map from the firmware's descriptors, with its totals and its
    sort by address.  The [uefi] crate is a parameter: [UefiMemoryType] is the interface
    of its [MemoryType] newtype (the associated constants the code matches on and the raw
    code), [UefiDescriptor] the fields the code reads from a firmware descriptor. *)

From S2P Require Export Prelude Abi.

(** * The firmware interface *)

Class UefiMemoryType (T : Type) : Type := {
  uefi_eq_dec :: EqDecision T;
  uefi_RESERVED : T;
  uefi_LOADER_CODE : T;
  uefi_LOADER_DATA : T;
  uefi_BOOT_SERVICES_CODE : T;
  uefi_BOOT_SERVICES_DATA : T;
  uefi_RUNTIME_SERVICES_CODE : T;
  uefi_RUNTIME_SERVICES_DATA : T;
  uefi_CONVENTIONAL : T;
  uefi_UNUSABLE : T;
  uefi_ACPI_RECLAIM : T;
  uefi_ACPI_NON_VOLATILE : T;
  uefi_MMIO : T;
  uefi_MMIO_PORT_SPACE : T;
  uefi_PERSISTENT_MEMORY : T;
  uefi_raw : T -> Z;
}.

(** The constants have the codes of the UEFI specification, and a type is its code. *)
Class UefiMemoryTypeLaws (T : Type) {U : UefiMemoryType T} : Prop := {
  uefi_raw_inj :: Inj (=) (=) uefi_raw;
  raw_RESERVED : uefi_raw uefi_RESERVED = 0;
  raw_LOADER_CODE : uefi_raw uefi_LOADER_CODE = 1;
  raw_LOADER_DATA : uefi_raw uefi_LOADER_DATA = 2;
  raw_BOOT_SERVICES_CODE : uefi_raw uefi_BOOT_SERVICES_CODE = 3;
  raw_BOOT_SERVICES_DATA : uefi_raw uefi_BOOT_SERVICES_DATA = 4;
  raw_RUNTIME_SERVICES_CODE : uefi_raw uefi_RUNTIME_SERVICES_CODE = 5;
  raw_RUNTIME_SERVICES_DATA : uefi_raw uefi_RUNTIME_SERVICES_DATA = 6;
  raw_CONVENTIONAL : uefi_raw uefi_CONVENTIONAL = 7;
  raw_UNUSABLE : uefi_raw uefi_UNUSABLE = 8;
  raw_ACPI_RECLAIM : uefi_raw uefi_ACPI_RECLAIM = 9;
  raw_ACPI_NON_VOLATILE : uefi_raw uefi_ACPI_NON_VOLATILE = 10;
  raw_MMIO : uefi_raw uefi_MMIO = 11;
  raw_MMIO_PORT_SPACE : uefi_raw uefi_MMIO_PORT_SPACE = 12;
  raw_PERSISTENT_MEMORY : uefi_raw uefi_PERSISTENT_MEMORY = 14;
}.

Record UefiDescriptor (T : Type) : Type := {
  u_ty : T;
  u_phys_start : Z;
  u_page_count : Z;
  u_att_bits : Z;
}.
Arguments u_ty {T}.
Arguments u_phys_start {T}.
Arguments u_page_count {T}.
Arguments u_att_bits {T}.

Definition wf_uefi {T} (d : UefiDescriptor T) : Prop :=
  uint 64 (u_phys_start d) /\ uint 64 (u_page_count d) /\ uint 64 (u_att_bits d).

(** * Region types *)

Inductive MemoryRegionType : Type :=
| RtUsable | RtReserved | RtAcpiReclaimable | RtAcpiNvs | RtMmio | RtMmioPortSpace
| RtBootServicesCode | RtBootServicesData | RtRuntimeServicesCode | RtRuntimeServicesData
| RtLoaderCode | RtLoaderData | RtConventional | RtUnusable | RtPersistent | RtUnknown.

#[export] Instance MemoryRegionType_eq_dec : EqDecision MemoryRegionType.
Proof. solve_decision. Defined.

Definition MemoryRegionType_from {T} {U : UefiMemoryType T} (t : T) : MemoryRegionType :=
  if decide (t = uefi_RESERVED) then RtReserved
  else if decide (t = uefi_LOADER_CODE) then RtLoaderCode
  else if decide (t = uefi_LOADER_DATA) then RtLoaderData
  else if decide (t = uefi_BOOT_SERVICES_CODE) then RtBootServicesCode
  else if decide (t = uefi_BOOT_SERVICES_DATA) then RtBootServicesData
  else if decide (t = uefi_RUNTIME_SERVICES_CODE) then RtRuntimeServicesCode
  else if decide (t = uefi_RUNTIME_SERVICES_DATA) then RtRuntimeServicesData
  else if decide (t = uefi_CONVENTIONAL) then RtConventional
  else if decide (t = uefi_UNUSABLE) then RtUnusable
  else if decide (t = uefi_ACPI_RECLAIM) then RtAcpiReclaimable
  else if decide (t = uefi_ACPI_NON_VOLATILE) then RtAcpiNvs
  else if decide (t = uefi_MMIO) then RtMmio
  else if decide (t = uefi_MMIO_PORT_SPACE) then RtMmioPortSpace
  else if decide (t = uefi_PERSISTENT_MEMORY) then RtPersistent
  else RtUnknown.

Definition MemoryRegionType_is_usable (t : MemoryRegionType) : bool :=
  match t with
  | RtUsable | RtConventional | RtBootServicesCode | RtBootServicesData
  | RtLoaderCode | RtLoaderData | RtAcpiReclaimable => true
  | _ => false
  end.

(** * Regions and the map *)

Record MemoryRegion : Type := {
  start : Z;
  size : Z;
  region_type : MemoryRegionType;
  attributes : Z;
}.

Definition MemoryRegion_new (start size : Z) (t : MemoryRegionType) (attributes : Z)
    : MemoryRegion :=
  {| start := start; size := size; region_type := t; attributes := attributes |}.

Definition MemoryRegion_end {P : Profile} {E} (r : MemoryRegion) : comp E Z :=
  add_u 64 (start r) (size r).

Record BootMemoryMap : Type := {
  regions : list MemoryRegion;
  total_memory : Z;
  usable_memory : Z;
}.

Definition BootMemoryMap_new : BootMemoryMap :=
  {| regions := []; total_memory := 0; usable_memory := 0 |}.

Definition BootMemoryMap_default : BootMemoryMap := BootMemoryMap_new.

Definition region_count (m : BootMemoryMap) : Z := Z.of_nat (length (regions m)).

(** The methods named like the fields. *)
Definition BootMemoryMap_regions (m : BootMemoryMap) : list MemoryRegion := regions m.
Definition BootMemoryMap_total_memory (m : BootMemoryMap) : Z := total_memory m.
Definition BootMemoryMap_usable_memory (m : BootMemoryMap) : Z := usable_memory m.

Definition is_mmio_region (t : MemoryRegionType) : bool :=
  match t with RtMmio | RtMmioPortSpace => true | _ => false end.

Section from_uefi.
Context {P : Profile} {T : Type} {U : UefiMemoryType T}.

Definition PAGE_SIZE : Z := 4096.

(** One iteration of the loop, on [(regions, total_memory, usable_memory)]. *)
Definition from_uefi_step (d : UefiDescriptor T) (s : list MemoryRegion * Z * Z)
    : comp void (list MemoryRegion * Z * Z) :=
  let '(regions, total, usable) := s in
  size ← mul_u 64 (u_page_count d) PAGE_SIZE;
  let t := MemoryRegionType_from (u_ty d) in
  let total := if negb (is_mmio_region t) then saturating_add 64 total size else total in
  let usable := if MemoryRegionType_is_usable t then saturating_add 64 usable size
                else usable in
  Ok (regions ++ [MemoryRegion_new (u_phys_start d) size t (u_att_bits d)], total, usable).

Fixpoint from_uefi_loop (ds : list (UefiDescriptor T)) (s : list MemoryRegion * Z * Z)
    : comp void (list MemoryRegion * Z * Z) :=
  match ds with
  | [] => Ok s
  | d :: ds => s ← from_uefi_step d s; from_uefi_loop ds s
  end.

Definition from_uefi_memory_map (uefi_map : list (UefiDescriptor T))
    : comp void BootMemoryMap :=
  '(rs, total, usable) ← from_uefi_loop uefi_map ([], 0, 0);
  Ok {| regions := sort_by_key start rs; total_memory := total; usable_memory := usable |}.

(** * Specification *)

Definition region_of (d : UefiDescriptor T) : MemoryRegion :=
  MemoryRegion_new (u_phys_start d) (wrap 64 (u_page_count d * PAGE_SIZE))
    (MemoryRegionType_from (u_ty d)) (u_att_bits d).

Definition sizes_where (p : MemoryRegionType -> bool) (rs : list MemoryRegion) : list Z :=
  size <$> filter (fun r => p (region_type r)) rs.

Definition boot_map_of (rs : list MemoryRegion) : BootMemoryMap := {|
  regions := sort_by_key start rs;
  total_memory := clamp 64 (sum (sizes_where (fun t => negb (is_mmio_region t)) rs));
  usable_memory := clamp 64 (sum (sizes_where MemoryRegionType_is_usable rs));
|}.

Definition size_fits (d : UefiDescriptor T) : Prop :=
  overflow_checks = true -> u_page_count d < 2 ^ 52.
End from_uefi.

(** * Lemmas *)

Lemma sizes_where_snoc p rs r :
  sizes_where p (rs ++ [r]) = sizes_where p rs ++ (if p (region_type r) then [size r] else []).
Proof.
  unfold sizes_where. rewrite filter_app, fmap_app, filter_cons, filter_nil.
  by destruct (p (region_type r)).
Qed.

Lemma sum_sizes_cons p r rs :
  sum (sizes_where p (r :: rs))
  = (if p (region_type r) then size r else 0) + sum (sizes_where p rs).
Proof. unfold sizes_where. rewrite filter_cons. by destruct (p (region_type r)). Qed.

Lemma mul_page_size {P : Profile} {E} n :
  0 <= n -> (overflow_checks = true -> n < 2 ^ 52) ->
  @mul_u P E 64 n PAGE_SIZE = Ok (wrap 64 (n * PAGE_SIZE)).
Proof.
  intros Hn Ho. unfold mul_u, arith, PAGE_SIZE, wrap.
  change (2 ^ 64) with (2 ^ 52 * 4096) in *.
  destruct (Z.ltb_spec (n * 4096) (2 ^ 52 * 4096)); [by rewrite Z.mod_small by lia|].
  destruct overflow_checks; [|done]. specialize (Ho eq_refl). lia.
Qed.

Section lemmas.
Context {P : Profile} {T : Type} {U : UefiMemoryType T}.
Implicit Types (ds : list (UefiDescriptor T)).

Lemma from_uefi_loop_spec ds rs :
  Forall wf_uefi ds -> Forall size_fits ds ->
  from_uefi_loop ds (rs,
      foldl (saturating_add 64) 0 (sizes_where (fun t => negb (is_mmio_region t)) rs),
      foldl (saturating_add 64) 0 (sizes_where MemoryRegionType_is_usable rs))
  = let rs' := rs ++ (region_of <$> ds) in
    Ok (rs',
      foldl (saturating_add 64) 0 (sizes_where (fun t => negb (is_mmio_region t)) rs'),
      foldl (saturating_add 64) 0 (sizes_where MemoryRegionType_is_usable rs')).
Proof.
  intros Hwf; revert rs. induction Hwf as [|d ds (_ & [Hn _] & _) Hwf IH]; intros rs Hfit.
  { cbn. by rewrite app_nil_r. }
  apply Forall_cons in Hfit as [Hd Hfit]. cbn [from_uefi_loop from_uefi_step].
  rewrite mul_page_size by done. step_ok.
  specialize (IH (rs ++ [region_of d]) Hfit). rewrite !sizes_where_snoc, !foldl_app in IH.
  rewrite fmap_cons. rewrite <- app_assoc in IH. cbn [app] in IH. rewrite <- IH. f_equal.
  f_equal; [f_equal|]; cbn [region_type region_of MemoryRegion_new size];
    by destruct (MemoryRegionType_from (u_ty d)).
Qed.

Lemma region_of_sizes ds : Forall (fun r => 0 <= size r) (region_of <$> ds).
Proof. apply Forall_fmap, Forall_true. intros d. by apply Z.mod_pos_bound. Qed.

Lemma region_size_nonneg p ds : Forall (fun n => 0 <= n) (sizes_where p (region_of <$> ds)).
Proof.
  unfold sizes_where. rewrite Forall_fmap, Forall_forall.
  intros r [_ Hr]%list_elem_of_filter. pose proof (region_of_sizes ds) as Hn.
  rewrite Forall_forall in Hn. by apply Hn.
Qed.

Lemma from_uefi_spec ds :
  Forall wf_uefi ds -> Forall size_fits ds ->
  from_uefi_memory_map ds = Ok (boot_map_of (region_of <$> ds)).
Proof.
  intros Hwf Hfit. unfold from_uefi_memory_map.
  change ([], 0, 0) with (@nil MemoryRegion,
      foldl (saturating_add 64) 0 (sizes_where (fun t => negb (is_mmio_region t)) []),
      foldl (saturating_add 64) 0 (sizes_where MemoryRegionType_is_usable [])).
  rewrite from_uefi_loop_spec by done. step_ok. unfold boot_map_of. cbn [app].
  rewrite !saturating_fold by (apply region_size_nonneg || by_dec). done.
Qed.

(** A region type determines the raw code, unless it is unknown. *)
Lemma region_type_raw {L : UefiMemoryTypeLaws T} (t : T) :
  match MemoryRegionType_from t with
  | RtUsable => False
  | RtReserved => uefi_raw t = memory_type.RESERVED
  | RtLoaderCode => uefi_raw t = memory_type.LOADER_CODE
  | RtLoaderData => uefi_raw t = memory_type.LOADER_DATA
  | RtBootServicesCode => uefi_raw t = memory_type.BOOT_SERVICES_CODE
  | RtBootServicesData => uefi_raw t = memory_type.BOOT_SERVICES_DATA
  | RtRuntimeServicesCode => uefi_raw t = memory_type.RUNTIME_SERVICES_CODE
  | RtRuntimeServicesData => uefi_raw t = memory_type.RUNTIME_SERVICES_DATA
  | RtConventional => uefi_raw t = memory_type.CONVENTIONAL
  | RtUnusable => uefi_raw t = memory_type.UNUSABLE
  | RtAcpiReclaimable => uefi_raw t = memory_type.ACPI_RECLAIM
  | RtAcpiNvs => uefi_raw t = memory_type.ACPI_NON_VOLATILE
  | RtMmio => uefi_raw t = memory_type.MMIO
  | RtMmioPortSpace => uefi_raw t = memory_type.MMIO_PORT_SPACE
  | RtPersistent => uefi_raw t = memory_type.PERSISTENT_MEMORY
  | RtUnknown => uefi_raw t <> memory_type.PERSISTENT_MEMORY
                 /\ ~ 0 <= uefi_raw t <= memory_type.MMIO_PORT_SPACE
  end.
Proof.
  unfold MemoryRegionType_from.
  repeat case_decide; subst; try apply L. split.
  - intros E. change memory_type.PERSISTENT_MEMORY with 14 in E.
    rewrite <- raw_PERSISTENT_MEMORY in E. by apply (inj uefi_raw) in E.
  - intros E. unfold memory_type.MMIO_PORT_SPACE in E.
    assert (Hc : uefi_raw t ∈ [0;1;2;3;4;5;6;7;8;9;10;11;12]) by (set_unfold; lia).
    pose proof (raw_RESERVED (T := T)). pose proof (raw_LOADER_CODE (T := T)).
    pose proof (raw_LOADER_DATA (T := T)). pose proof (raw_BOOT_SERVICES_CODE (T := T)).
    pose proof (raw_BOOT_SERVICES_DATA (T := T)).
    pose proof (raw_RUNTIME_SERVICES_CODE (T := T)).
    pose proof (raw_RUNTIME_SERVICES_DATA (T := T)).
    pose proof (raw_CONVENTIONAL (T := T)). pose proof (raw_UNUSABLE (T := T)).
    pose proof (raw_ACPI_RECLAIM (T := T)). pose proof (raw_ACPI_NON_VOLATILE (T := T)).
    pose proof (raw_MMIO (T := T)). pose proof (raw_MMIO_PORT_SPACE (T := T)).
    repeat (apply elem_of_cons in Hc as [Hc|Hc];
      [match goal with
       | H : uefi_raw ?c = ?v, _ : t <> ?c |- _ =>
           assert (uefi_raw t = uefi_raw c) by (rewrite H, Hc; reflexivity);
           assert (t = c) by (by apply (inj uefi_raw)); contradiction
       end|]). by apply not_elem_of_nil in Hc.
Qed.
End lemmas.

(** * A concrete firmware type: the raw [u32] code itself *)

#[export] Instance uefi_code_type : UefiMemoryType Z := {|
  uefi_RESERVED := 0; uefi_LOADER_CODE := 1; uefi_LOADER_DATA := 2;
  uefi_BOOT_SERVICES_CODE := 3; uefi_BOOT_SERVICES_DATA := 4;
  uefi_RUNTIME_SERVICES_CODE := 5; uefi_RUNTIME_SERVICES_DATA := 6;
  uefi_CONVENTIONAL := 7; uefi_UNUSABLE := 8; uefi_ACPI_RECLAIM := 9;
  uefi_ACPI_NON_VOLATILE := 10; uefi_MMIO := 11; uefi_MMIO_PORT_SPACE := 12;
  uefi_PERSISTENT_MEMORY := 14; uefi_raw := id |}.

#[export] Instance uefi_code_type_laws : UefiMemoryTypeLaws Z.
Proof. split; try reflexivity. by intros ??. Qed.

Definition udesc (t start pages : Z) : UefiDescriptor Z :=
  {| u_ty := t; u_phys_start := start; u_page_count := pages; u_att_bits := 0xF |}.

Definition sample_uefi : list (UefiDescriptor Z) := [
  udesc 7 0x100000 200; udesc 3 0x1000 16; udesc 11 0xFEC00000 4; udesc 6 0x80000 8;
  udesc 7 0x1000 2 ].

Lemma wf_udesc t start pages :
  uint 64 start -> uint 64 pages -> wf_uefi (udesc t start pages).
Proof. intros Hs Hp. split; [exact Hs|]. split; [exact Hp | by_dec]. Qed.

Lemma wf_sample_uefi : Forall wf_uefi sample_uefi.
Proof. unfold sample_uefi. repeat (apply Forall_cons; split; [apply wf_udesc; by_dec|]). done. Qed.

Lemma sample_uefi_fits {P : Profile} : Forall size_fits sample_uefi.
Proof.
  unfold sample_uefi. repeat (apply Forall_cons; split; [intros _; by_dec|]). done.
Qed.

(** * Properties *)

(** C20: [from_uefi_memory_map] never panics on sizes that fit (and never in release builds),
    and its result holds one region per firmware descriptor, in ascending address order,
    equal addresses in firmware order; the totals are the clamped sums of the non-MMIO and
    of the usable regions, and the usable total never exceeds the overall total. *)
Theorem from_uefi_correct {P : Profile} {T : Type} {U : UefiMemoryType T}
    (ds : list (UefiDescriptor T)) :
  Forall wf_uefi ds -> Forall size_fits ds ->
  exists m, from_uefi_memory_map ds = Ok m
    /\ StronglySorted (key_le start) (regions m)
    /\ regions m ≡ₚ region_of <$> ds
    /\ (forall a, filter (fun r => start r = a) (regions m)
                  = filter (fun r => start r = a) (region_of <$> ds))
    /\ region_count m = Z.of_nat (length ds)
    /\ total_memory m
       = clamp 64 (sum (sizes_where (fun t => negb (is_mmio_region t)) (regions m)))
    /\ usable_memory m = clamp 64 (sum (sizes_where MemoryRegionType_is_usable (regions m)))
    /\ usable_memory m <= total_memory m.
Proof.
  intros Hwf Hfit. rewrite from_uefi_spec by done. eexists. split; [done|].
  unfold boot_map_of, region_count. cbn [regions total_memory usable_memory].
  assert (Hperm : forall p, sum (sizes_where p (sort_by_key start (region_of <$> ds)))
                      = sum (sizes_where p (region_of <$> ds))).
  { intros p. apply sum_perm. unfold sizes_where. by rewrite sort_by_key_perm. }
  rewrite !Hperm, length_sort_by_key, length_fmap. split_and!; try done.
  - apply sort_by_key_sorted.
  - apply sort_by_key_perm.
  - intros a. apply sort_by_key_stable.
  - enough (sum (sizes_where MemoryRegionType_is_usable (region_of <$> ds)) <=
      sum (sizes_where (fun t => negb (is_mmio_region t)) (region_of <$> ds)))
      by (unfold clamp; lia).
    pose proof (region_of_sizes ds) as Hn. revert Hn.
    generalize (region_of <$> ds) as rs. induction 1 as [|r rs Hr Hn IH]; [done|].
    rewrite !sum_sizes_cons. destruct (region_type r); cbn [MemoryRegionType_is_usable
      is_mmio_region negb]; lia.
Qed.

Lemma from_uefi_correct_witness : exists m,
  @from_uefi_memory_map dev_profile Z _ sample_uefi = Ok m
  /\ start <$> regions m = [0x1000; 0x1000; 0x80000; 0x100000; 0xFEC00000]
  /\ region_type <$> regions m
     = [RtBootServicesCode; RtConventional; RtRuntimeServicesData; RtConventional; RtMmio].
Proof.
  destruct (@from_uefi_correct dev_profile Z _ sample_uefi wf_sample_uefi
    (@sample_uefi_fits dev_profile)) as (m & Hm & _).
  exists m. split; [exact Hm|]. vm_compute in Hm. injection Hm as <-. split; reflexivity.
Defined.
