(* ===== verification/BootInfo.v ===== *)
(** The bootloader's [BootInfo] ([boot/src/boot_info.rs]) and its conversion to the
    [KernelBootInfo] of the ABI.  [to_kernel_boot_info] copies at most 256 regions into
    the fixed array and flags a truncation; [Handoff] composes it with the firmware side
    and with the kernel's parser. *)

From S2P Require Export Prelude Abi UefiMemory.

Inductive PixelFormat : Type :=
| PfRgb
| PfBgr
| PfBitmask (red green blue reserved : Z)
| PfUnknown.

Definition PixelFormat_bytes_per_pixel (p : PixelFormat) : Z :=
  match p with
  | PfRgb | PfBgr => 4
  | PfBitmask _ _ _ _ => 4
  | PfUnknown => 4
  end.

Definition PixelFormat_default : PixelFormat := PfUnknown.

Record FramebufferInfo : Type := {
  fb_base_address : Z;
  fb_width : Z;
  fb_height : Z;
  fb_stride : Z;
  fb_pixel_format : PixelFormat;
}.

Definition FramebufferInfo_new (base width height stride : Z) (p : PixelFormat)
    : FramebufferInfo :=
  {| fb_base_address := base; fb_width := width; fb_height := height;
     fb_stride := stride; fb_pixel_format := p |}.

Definition FramebufferInfo_size {P : Profile} {E} (f : FramebufferInfo) : comp E Z :=
  mul_u 64 (fb_stride f) (fb_height f).

Definition FramebufferInfo_bytes_per_pixel (f : FramebufferInfo) : Z :=
  PixelFormat_bytes_per_pixel (fb_pixel_format f).

Definition wf_fb_info (f : FramebufferInfo) : Prop :=
  uint 64 (fb_base_address f) /\ uint 32 (fb_width f) /\ uint 32 (fb_height f)
  /\ uint 32 (fb_stride f).

Record BootInfo : Type := {
  bi_memory_map : BootMemoryMap;
  bi_acpi_rsdp_address : option Z;
  bi_framebuffer : option FramebufferInfo;
}.

Definition BootInfo_new (m : BootMemoryMap) : BootInfo :=
  {| bi_memory_map := m; bi_acpi_rsdp_address := None; bi_framebuffer := None |}.

Definition BootInfo_with_all (m : BootMemoryMap) (rsdp : option Z)
    (fb : option FramebufferInfo) : BootInfo :=
  {| bi_memory_map := m; bi_acpi_rsdp_address := rsdp; bi_framebuffer := fb |}.

Definition BootInfo_total_memory (b : BootInfo) : Z :=
  BootMemoryMap_total_memory (bi_memory_map b).
Definition BootInfo_total_memory_mb (b : BootInfo) : Z :=
  BootInfo_total_memory b / (1024 * 1024).
Definition BootInfo_usable_memory (b : BootInfo) : Z :=
  BootMemoryMap_usable_memory (bi_memory_map b).
Definition BootInfo_usable_memory_mb (b : BootInfo) : Z :=
  BootInfo_usable_memory b / (1024 * 1024).

Definition BootInfo_memory_map (b : BootInfo) : BootMemoryMap := bi_memory_map b.
Definition BootInfo_acpi_rsdp_address (b : BootInfo) : option Z := bi_acpi_rsdp_address b.
Definition BootInfo_framebuffer (b : BootInfo) : option FramebufferInfo := bi_framebuffer b.

Definition set_acpi_rsdp_address (address : Z) (b : BootInfo) : BootInfo :=
  {| bi_memory_map := bi_memory_map b; bi_acpi_rsdp_address := Some address;
     bi_framebuffer := bi_framebuffer b |}.

Definition set_framebuffer (f : FramebufferInfo) (b : BootInfo) : BootInfo :=
  {| bi_memory_map := bi_memory_map b; bi_acpi_rsdp_address := bi_acpi_rsdp_address b;
     bi_framebuffer := Some f |}.

Definition memory_region_type_to_uefi_u32 (t : MemoryRegionType) : Z :=
  match t with
  | RtReserved => memory_type.RESERVED
  | RtLoaderCode => memory_type.LOADER_CODE
  | RtLoaderData => memory_type.LOADER_DATA
  | RtBootServicesCode => memory_type.BOOT_SERVICES_CODE
  | RtBootServicesData => memory_type.BOOT_SERVICES_DATA
  | RtRuntimeServicesCode => memory_type.RUNTIME_SERVICES_CODE
  | RtRuntimeServicesData => memory_type.RUNTIME_SERVICES_DATA
  | RtConventional | RtUsable => memory_type.CONVENTIONAL
  | RtUnusable => memory_type.UNUSABLE
  | RtAcpiReclaimable => memory_type.ACPI_RECLAIM
  | RtAcpiNvs => memory_type.ACPI_NON_VOLATILE
  | RtMmio => memory_type.MMIO
  | RtMmioPortSpace => memory_type.MMIO_PORT_SPACE
  | RtPersistent => memory_type.PERSISTENT_MEMORY
  | RtUnknown => memory_type.RESERVED
  end.

Definition descriptor_of_region (r : MemoryRegion) : KernelMemoryDescriptor := {|
  ty := memory_region_type_to_uefi_u32 (region_type r);
  kmd_pad := 0;
  phys_start := start r;
  page_count := size r / 4096;
  attribute := attributes r;
|}.

Section to_kernel_boot_info.
Context {P : Profile}.

(** The copy loop, on the descriptor array, the truncation flag and [count]. *)
Fixpoint copy_regions (rs : list MemoryRegion)
    (s : list KernelMemoryDescriptor * bool * Z)
    : comp void (list KernelMemoryDescriptor * bool * Z) :=
  let '(descriptors, truncated, count) := s in
  match rs with
  | [] => Ok s
  | r :: rs =>
      if Z.of_nat MAX_MEMORY_DESCRIPTORS <=? count then Ok (descriptors, true, count)
      else
        descriptors ← set_index descriptors count (descriptor_of_region r);
        count ← add_u 64 count 1;
        copy_regions rs (descriptors, truncated, count)
  end.

Definition pixel_format_code (p : PixelFormat) : Z :=
  match p with
  | PfRgb => pixel_format.RGB
  | PfBgr => pixel_format.BGR
  | PfBitmask _ _ _ _ => pixel_format.BITMASK
  | PfUnknown => pixel_format.UNKNOWN
  end.

Definition kernel_framebuffer (f : FramebufferInfo) : comp void KernelFramebuffer :=
  size ← FramebufferInfo_size f;
  Ok {| kfb_base := fb_base_address f; kfb_size := size; kfb_width := fb_width f;
        kfb_height := fb_height f; kfb_stride := fb_stride f;
        kfb_pixel_format := pixel_format_code (fb_pixel_format f) |}.

Definition to_kernel_boot_info (b : BootInfo) : comp void KernelBootInfo :=
  let kbi := KernelBootInfo_new in
  let m := memory_map kbi in
  '(descriptors, truncated, count) ←
    copy_regions (regions (bi_memory_map b)) (kmm_descriptors m, kmm_truncated m, 0);
  '(fb, has_fb) ←
    match bi_framebuffer b with
    | Some f => k ← kernel_framebuffer f; Ok (k, true)
    | None => Ok (framebuffer kbi, has_framebuffer kbi)
    end;
  Ok {|
    magic := magic kbi;
    version := version kbi;
    kbi_pad := kbi_pad kbi;
    memory_map := {| kmm_descriptors := descriptors; kmm_count := count;
                     kmm_truncated := truncated; kmm_pad := kmm_pad m |};
    acpi_rsdp := default 0 (bi_acpi_rsdp_address b);
    framebuffer := fb;
    has_framebuffer := has_fb;
    kbi_pad2 := kbi_pad2 kbi;
    bootloader_name := bootloader_name kbi;
  |}.
End to_kernel_boot_info.

(** * Specification *)

Definition blank : KernelMemoryDescriptor :=
  {| ty := 0; kmd_pad := 0; phys_start := 0; page_count := 0; attribute := 0 |}.

(** The map the kernel receives for a list of regions. *)
Definition kernel_map_of (rs : list MemoryRegion) : KernelMemoryMap :=
  let kept := take MAX_MEMORY_DESCRIPTORS rs in {|
  kmm_descriptors := (descriptor_of_region <$> kept)
    ++ replicate (MAX_MEMORY_DESCRIPTORS - length kept) blank;
  kmm_count := Z.of_nat (length kept);
  kmm_truncated := bool_decide (MAX_MEMORY_DESCRIPTORS < length rs)%nat;
  kmm_pad := replicate 7 0;
|}.

Definition kernel_framebuffer_of (f : FramebufferInfo) : KernelFramebuffer := {|
  kfb_base := fb_base_address f; kfb_size := fb_stride f * fb_height f;
  kfb_width := fb_width f; kfb_height := fb_height f; kfb_stride := fb_stride f;
  kfb_pixel_format := pixel_format_code (fb_pixel_format f) |}.

Definition kernel_boot_info_of (b : BootInfo) : KernelBootInfo := {|
  magic := BOOT_INFO_MAGIC;
  version := BOOT_INFO_VERSION;
  kbi_pad := 0;
  memory_map := kernel_map_of (regions (bi_memory_map b));
  acpi_rsdp := default 0 (bi_acpi_rsdp_address b);
  framebuffer := from_option kernel_framebuffer_of KernelFramebuffer_zeroed (bi_framebuffer b);
  has_framebuffer := bool_decide (is_Some (bi_framebuffer b));
  kbi_pad2 := replicate 7 0;
  bootloader_name := str "ferrous-boot" ++ replicate 20 0;
|}.

Definition wf_region (r : MemoryRegion) : Prop :=
  uint 64 (start r) /\ uint 64 (size r) /\ uint 64 (attributes r).

Definition wf_boot (b : BootInfo) : Prop :=
  Forall wf_region (regions (bi_memory_map b))
  /\ (forall a, bi_acpi_rsdp_address b = Some a -> uint 64 a)
  /\ (forall f, bi_framebuffer b = Some f -> wf_fb_info f).

(** * Lemmas *)

Lemma copy_regions_spec {P : Profile} rs ds :
  (length ds <= MAX_MEMORY_DESCRIPTORS)%nat ->
  copy_regions rs (ds ++ replicate (MAX_MEMORY_DESCRIPTORS - length ds) blank, false,
      Z.of_nat (length ds))
  = let kept := ds ++ (descriptor_of_region <$> take (MAX_MEMORY_DESCRIPTORS - length ds) rs) in
    Ok (kept ++ replicate (MAX_MEMORY_DESCRIPTORS - length kept) blank,
        bool_decide (MAX_MEMORY_DESCRIPTORS < length ds + length rs)%nat,
        Z.of_nat (length kept)).
Proof.
  revert ds; induction rs as [|r rs IH]; intros ds Hds; cbn [copy_regions].
  { rewrite take_nil. cbn. rewrite app_nil_r. by rewrite bool_decide_false by lia. }
  destruct (Z.leb_spec (Z.of_nat MAX_MEMORY_DESCRIPTORS) (Z.of_nat (length ds))) as [H|H].
  { replace (MAX_MEMORY_DESCRIPTORS - length ds)%nat with 0%nat by lia. cbn [take fmap list_fmap].
    rewrite !app_nil_r. replace (MAX_MEMORY_DESCRIPTORS - length ds)%nat with 0%nat by lia.
    cbn [replicate]. rewrite app_nil_r. rewrite bool_decide_true by (simpl; lia). done. }
  rewrite set_index_ok by (rewrite length_app, length_replicate; lia). step_ok.
  rewrite add_u_small by (unfold MAX_MEMORY_DESCRIPTORS in *; lia). rewrite Nat2Z.id.
  set (d := descriptor_of_region r).
  assert (Hs : <[length ds := d]> (ds ++ replicate (MAX_MEMORY_DESCRIPTORS - length ds) blank)
    = (ds ++ [d]) ++ replicate (MAX_MEMORY_DESCRIPTORS - length (ds ++ [d])) blank).
  { rewrite length_app. cbn [length].
    replace (MAX_MEMORY_DESCRIPTORS - length ds)%nat
      with (S (MAX_MEMORY_DESCRIPTORS - (length ds + 1)))%nat by lia.
    replace (length ds) with (length ds + 0)%nat at 1 by lia.
    rewrite insert_app_r. by rewrite <- app_assoc. }
  rewrite Hs. specialize (IH (ds ++ [d])). rewrite length_app in IH. cbn [length] in IH.
  replace (Z.of_nat (length ds) + 1) with (Z.of_nat (length ds + 1)) by lia.
  rewrite length_app. cbn [length]. rewrite IH by lia.
  replace (MAX_MEMORY_DESCRIPTORS - length ds)%nat
    with (S (MAX_MEMORY_DESCRIPTORS - (length ds + 1)))%nat by lia.
  cbn [take]. rewrite fmap_cons. fold d. rewrite <- !app_assoc. cbn [app].
  replace (length ds + 1 + length rs)%nat with (length ds + S (length rs))%nat by lia. done.
Qed.

Lemma framebuffer_size_fits {P : Profile} {E} f :
  wf_fb_info f -> @FramebufferInfo_size P E f = Ok (fb_stride f * fb_height f)
  /\ uint 64 (fb_stride f * fb_height f).
Proof.
  intros (_ & _ & [Hh Hh'] & [Hs Hs']). unfold FramebufferInfo_size, uint in *.
  assert (fb_stride f * fb_height f < 2 ^ 64).
  { change (2 ^ 64) with (2 ^ 32 * 2 ^ 32). nia. }
  split; [by apply mul_u_small | nia].
Qed.

Lemma to_kernel_boot_info_spec {P : Profile} b :
  wf_boot b -> to_kernel_boot_info b = Ok (kernel_boot_info_of b).
Proof.
  intros (_ & _ & Hf). unfold to_kernel_boot_info.
  pose proof (copy_regions_spec (regions (bi_memory_map b)) []) as Hc.
  change (memory_map KernelBootInfo_new) with KernelMemoryMap_new.
  change (kmm_descriptors KernelMemoryMap_new, kmm_truncated KernelMemoryMap_new, 0)
    with ([] ++ replicate (MAX_MEMORY_DESCRIPTORS - length (@nil KernelMemoryDescriptor)) blank,
          false, Z.of_nat (length (@nil KernelMemoryDescriptor))).
  rewrite Hc by (cbn; lia). clear Hc. step_ok. cbn [app length Nat.add].
  rewrite Nat.sub_0_r. unfold kernel_boot_info_of, kernel_map_of.
  destruct (bi_framebuffer b) as [f|] eqn:Hb.
  - unfold kernel_framebuffer. destruct (framebuffer_size_fits (E := void) f) as [Hs _];
      [by apply Hf|]. rewrite Hs. step_ok. rewrite length_fmap. done.
  - rewrite length_fmap. done.
Qed.

Lemma wf_descriptor_of_region r : wf_region r -> wf_descriptor (descriptor_of_region r).
Proof.
  intros (Hs & Hz & Ha). unfold wf_descriptor.
  cbn [ty kmd_pad phys_start page_count attribute descriptor_of_region].
  split; [destruct (region_type r); by_dec|]. split; [by_dec|]. split; [exact Hs|].
  split; [|exact Ha]. unfold uint in *. split; [apply Z.div_pos; lia|].
  apply Z.le_lt_trans with (size r); [|lia]. apply Z.div_le_upper_bound; lia.
Qed.

Lemma length_kernel_map_of rs :
  length (kmm_descriptors (kernel_map_of rs)) = MAX_MEMORY_DESCRIPTORS.
Proof.
  unfold kernel_map_of. cbn [kmm_descriptors].
  rewrite length_app, length_fmap, length_replicate, length_take. lia.
Qed.

Lemma kernel_map_take rs :
  take (Z.to_nat (kmm_count (kernel_map_of rs))) (kmm_descriptors (kernel_map_of rs))
  = descriptor_of_region <$> take MAX_MEMORY_DESCRIPTORS rs.
Proof.
  unfold kernel_map_of. cbn [kmm_descriptors kmm_count]. rewrite Nat2Z.id.
  by rewrite take_app_length' by by rewrite length_fmap.
Qed.

Lemma kernel_map_entries {E} rs :
  @KernelMemoryMap_entries E (kernel_map_of rs)
  = Ok (descriptor_of_region <$> take MAX_MEMORY_DESCRIPTORS rs).
Proof.
  rewrite entries_ok; [by rewrite kernel_map_take|].
  - rewrite length_kernel_map_of. unfold kernel_map_of. cbn [kmm_count].
    rewrite length_take. lia.
Qed.

Lemma wf_kernel_map_of rs : Forall wf_region rs -> wf_memory_map (kernel_map_of rs).
Proof.
  intros Hrs. split; [apply length_kernel_map_of|].
  unfold kernel_map_of. cbn [kmm_descriptors kmm_count kmm_pad]. split.
  { apply Forall_app; split; [|apply Forall_replicate; by_dec].
    apply Forall_fmap, Forall_take. apply (Forall_impl _ _ _ Hrs), wf_descriptor_of_region. }
  split; [|split; [done | apply Forall_replicate; by_dec]].
  rewrite length_take. unfold uint, MAX_MEMORY_DESCRIPTORS. lia.
Qed.

Lemma wf_kernel_boot_info_of b : wf_boot b -> wf_boot_info (kernel_boot_info_of b).
Proof.
  intros (Hrs & Ha & Hf). unfold wf_boot_info, kernel_boot_info_of.
  cbn [magic version kbi_pad memory_map acpi_rsdp framebuffer kbi_pad2 bootloader_name].
  do 3 (split; [by_dec|]). split; [by apply wf_kernel_map_of|].
  split; [destruct (bi_acpi_rsdp_address b); [by apply Ha | by_dec]|].
  split.
  - destruct (bi_framebuffer b) as [f|]; [|by_dec]. specialize (Hf f eq_refl).
    destruct (@framebuffer_size_fits true void f Hf) as [_ Hs].
    destruct Hf as (? & ? & ? & ?). cbn [from_option]. unfold wf_framebuffer.
    cbn [kfb_base kfb_size kfb_width kfb_height kfb_stride kfb_pixel_format
      kernel_framebuffer_of].
    do 5 (split; [done|]). destruct (fb_pixel_format f); by_dec.
  - split; (split; [reflexivity|]); [apply Forall_replicate; by_dec|].
    apply Forall_app; split; [apply str_bytes | apply Forall_replicate; by_dec].
Qed.

(** Reading a firmware descriptor back from the ABI descriptor built from it. *)
Lemma region_pages {T} {U : UefiMemoryType T} (d : UefiDescriptor T) :
  0 <= u_page_count d < 2 ^ 52 -> page_count (descriptor_of_region (region_of d)) = u_page_count d.
Proof.
  intros H. cbn [descriptor_of_region page_count region_of MemoryRegion_new size].
  unfold wrap, PAGE_SIZE. rewrite Z.mod_small; [by apply Z.div_mul|].
  change (2 ^ 64) with (2 ^ 52 * 4096). lia.
Qed.

Lemma wf_region_of {T} {U : UefiMemoryType T} (d : UefiDescriptor T) :
  wf_uefi d -> wf_region (region_of d).
Proof.
  intros (Hs & _ & Ha). split; [exact Hs|]. split; [|exact Ha].
  by apply Z.mod_pos_bound.
Qed.

(** * Properties *)

(** C19: [to_kernel_boot_info] never panics, in either profile, for any number of regions
    and any framebuffer; the result is a well-typed, valid [KernelBootInfo] whose map
    holds the first 256 regions in order, is flagged truncated exactly when there were
    more, and carries the RSDP address (0 if absent) and the framebuffer, whose byte
    size [stride * height] is computed without overflow. *)
Theorem to_kernel_boot_info_correct {P : Profile} (b : BootInfo) :
  wf_boot b ->
  exists k, to_kernel_boot_info b = Ok k
    /\ KernelBootInfo_is_valid k = true /\ wf_boot_info k
    /\ @KernelMemoryMap_entries void (memory_map k)
       = Ok (descriptor_of_region <$> take MAX_MEMORY_DESCRIPTORS (regions (bi_memory_map b)))
    /\ (kmm_truncated (memory_map k) = true
        <-> (MAX_MEMORY_DESCRIPTORS < length (regions (bi_memory_map b)))%nat)
    /\ acpi_rsdp k = default 0 (bi_acpi_rsdp_address b)
    /\ (has_framebuffer k = true <-> is_Some (bi_framebuffer b))
    /\ (forall f, bi_framebuffer b = Some f ->
          framebuffer k = kernel_framebuffer_of f
          /\ kfb_size (framebuffer k) = fb_stride f * fb_height f).
Proof.
  intros Hb. exists (kernel_boot_info_of b). split; [by apply to_kernel_boot_info_spec|].
  split; [done|]. split; [by apply wf_kernel_boot_info_of|].
  split; [apply kernel_map_entries|].
  split; [apply bool_decide_eq_true|]. split; [done|]. split; [apply bool_decide_eq_true|].
  intros f Hf. unfold kernel_boot_info_of. cbn [framebuffer]. by rewrite Hf.
Qed.

Definition sample_framebuffer : FramebufferInfo :=
  FramebufferInfo_new 0x80000000 1024 768 4096 PfBgr.

Definition sample_boot : BootInfo :=
  set_framebuffer sample_framebuffer (set_acpi_rsdp_address 0xF5B20
    (BootInfo_new (boot_map_of (region_of <$> sample_uefi)))).

Lemma wf_boot_of {T} {U : UefiMemoryType T} (ds : list (UefiDescriptor T)) rsdp fb :
  Forall wf_uefi ds -> (forall a, rsdp = Some a -> uint 64 a) ->
  (forall f, fb = Some f -> wf_fb_info f) ->
  wf_boot (BootInfo_with_all (boot_map_of (region_of <$> ds)) rsdp fb).
Proof.
  intros Hds Ha Hf. split; [|done]. cbn [bi_memory_map BootInfo_with_all boot_map_of regions].
  rewrite sort_by_key_perm. apply Forall_fmap. apply (Forall_impl _ _ _ Hds), wf_region_of.
Qed.

Lemma wf_sample_boot : wf_boot sample_boot.
Proof.
  apply (wf_boot_of sample_uefi (Some 0xF5B20) (Some sample_framebuffer)).
  - apply wf_sample_uefi.
  - intros a [= <-]. by_dec.
  - intros f [= <-]. split; [by_dec|]. split; [by_dec|]. split; by_dec.
Qed.

Lemma to_kernel_boot_info_correct_witness : exists k,
  @to_kernel_boot_info dev_profile sample_boot = Ok k
  /\ KernelBootInfo_is_valid k = true /\ has_framebuffer k = true.
Proof.
  destruct (@to_kernel_boot_info_correct dev_profile sample_boot wf_sample_boot)
    as (k & Hk & Hv & _ & _ & _ & _ & Hh & _).
  exists k. split; [exact Hk|]. split; [exact Hv|]. apply Hh. by eexists.
Defined.
