(* ===== verification/Handoff.v ===== *)
(** The memory-map path end to end: firmware descriptors, [from_uefi_memory_map]
    ([boot/src/memory.rs]), [to_kernel_boot_info] ([boot/src/boot_info.rs]), the bytes of
    the ABI struct, and the kernel's [MemoryMap::parse] ([lib/boot-info/src/lib.rs]).
    The theorems say what the kernel knows about the firmware's map after the trip. *)

From S2P Require Export Prelude Abi MemMap Layout UefiMemory BootInfo.

(** * Lemmas *)

Lemma region_type_kind (t : MemoryRegionType) :
  is_reclaimable_after_boot (MemoryRegionKind_from (memory_region_type_to_uefi_u32 t))
  = MemoryRegionType_is_usable t.
Proof. by destruct t. Qed.



Section handoff.
Context {T : Type} {U : UefiMemoryType T}.
Implicit Types (d : UefiDescriptor T) (ds : list (UefiDescriptor T)).

(** What the code relies on firmware for: page-aligned regions whose size in bytes fits
    64 bits. *)
Definition sane d : Prop :=
  wf_uefi d /\ u_page_count d < 2 ^ 52 /\ u_phys_start d mod 4096 = 0.




(** What the bootloader's conversions make of a descriptor. *)
Definition sent d : KernelMemoryDescriptor := descriptor_of_region (region_of d).




Lemma sane_pages d : sane d -> page_count (sent d) = u_page_count d.
Proof. intros ((_ & [Hn _] & _) & Hlt & _). by apply region_pages. Qed.











End handoff.

(** * Properties *)

(** One descriptor's trip: for every firmware type, known or not, the ABI descriptor
    built from a sane firmware descriptor has its address, page count and attributes, a
    type code of the same kernel-side kind as the firmware's own code (the code itself,
    unless the code is unknown to the bootloader, which sends RESERVED), and the
    bootloader's [is_usable], the ABI's [is_usable] and the kernel's
    [is_reclaimable_after_boot] give the same verdict on it. *)
Theorem descriptor_round_trip {T : Type} {U : UefiMemoryType T} {L : UefiMemoryTypeLaws T}
    (d : UefiDescriptor T) :
  sane d ->
  phys_start (sent d) = u_phys_start d
  /\ page_count (sent d) = u_page_count d
  /\ attribute (sent d) = u_att_bits d
  /\ region_kind (sent d) = MemoryRegionKind_from (uefi_raw (u_ty d))
  /\ (ty (sent d) = uefi_raw (u_ty d)
      \/ (MemoryRegionType_from (u_ty d) = RtUnknown /\ ty (sent d) = memory_type.RESERVED))
  /\ is_reclaimable_after_boot (region_kind (sent d))
     = MemoryRegionType_is_usable (MemoryRegionType_from (u_ty d)).
Proof.
  intros Hd. split; [done|]. split; [by apply sane_pages|]. split; [done|].
  unfold region_kind. cbn [sent descriptor_of_region ty region_of MemoryRegion_new region_type].
  rewrite region_type_kind. pose proof (region_type_raw (u_ty d)) as Hr.
  destruct (MemoryRegionType_from (u_ty d)) eqn:Ht; cbn [memory_region_type_to_uefi_u32];
    try done; try (rewrite Hr; by repeat split; left).
  destruct Hr as [Hp Hr]. split; [|by repeat split; right].
  unfold MemoryRegionKind_from, memory_type.MMIO_PORT_SPACE, memory_type.PERSISTENT_MEMORY in *.
  repeat match goal with
  | |- context [uefi_raw (u_ty d) =? ?c] =>
      rewrite (proj2 (Z.eqb_neq (uefi_raw (u_ty d)) c)) by (vm_compute (c); lia)
  end. reflexivity.
Qed.




