(* ===== verification/Machine.v ===== *)
(** The machine the kernel code runs on, as far as its inline assembly touches it:
    registers, byte-addressed memory, I/O ports and descriptor-table registers, with a
    monad of computations over it.

    An [in] instruction takes the next answer of the device from the world's input list;
    when the list is exhausted the computation is [Waiting], its effects so far being the
    behaviour of the program on that finite prefix of device answers.  Quantifying over
    all input lists covers every device.  [Halted] is the [hlt] loop that never ends. *)

From S2P Require Export Prelude.

(** * State *)

Inductive reg : Type := RAX | RBX | RCX | RDX | RSI | RDI | RBP | RSP | R8 | R9.
Inductive seg : Type := CS | DS | ES | FS | GS | SS.

#[export] Instance reg_eq_dec : EqDecision reg.
Proof. solve_decision. Defined.
#[export] Instance seg_eq_dec : EqDecision seg.
Proof. solve_decision. Defined.

(** Contents of GDTR and IDTR. *)
Record table_register : Type := { tr_limit : Z; tr_base : Z }.

Record cpu : Type := {
  regs : reg -> Z;
  segs : seg -> Z;
  rip : Z;
  rflags : Z;
  gdtr : table_register;
  idtr : table_register;
  cr2 : Z;
}.

(** What the machine does that something outside it can see. *)
Inductive event : Type :=
| EvIn (port value : Z)
| EvOut (port value : Z)
| EvText (chars : list Z)
| EvClear
| EvExitBootServices
| EvInterruptsOff
| EvLgdt (t : table_register)
| EvLidt (t : table_register)
| EvStack (rsp : Z).

Record world : Type := {
  w_cpu : cpu;
  w_mem : gmap Z Z;
  w_in : list Z;
  w_log : list event;  (** most recent first *)
}.

Definition trace (w : world) : list event := rev (w_log w).

Definition with_cpu (c : cpu) (w : world) : world :=
  {| w_cpu := c; w_mem := w_mem w; w_in := w_in w; w_log := w_log w |}.
Definition with_mem (m : gmap Z Z) (w : world) : world :=
  {| w_cpu := w_cpu w; w_mem := m; w_in := w_in w; w_log := w_log w |}.
Definition with_io (i : list Z) (l : list event) (w : world) : world :=
  {| w_cpu := w_cpu w; w_mem := w_mem w; w_in := i; w_log := l |}.

(** * Computations *)

Inductive result (A : Type) : Type :=
| Done (a : A) (w : world)
| Waiting (w : world)
| Halted (w : world)
| Faulted (f : fault) (w : world).
Arguments Done {A} a w.
Arguments Waiting {A} w.
Arguments Halted {A} w.
Arguments Faulted {A} f w.

Definition M (A : Type) : Type := world -> result A.

#[export] Instance M_ret : MRet M := fun A a w => Done a w.
#[export] Instance M_bind : MBind M := fun A B k m w =>
  match m w with
  | Done a w => k a w
  | Waiting w => Waiting w
  | Halted w => Halted w
  | Faulted f w => Faulted f w
  end.

(** Computations are compared by their behaviour on every world. *)
#[export] Instance M_equiv A : Equiv (M A) := fun m n => forall w, m w = n w.

Definition final {A} (r : result A) : world :=
  match r with Done _ w | Waiting w | Halted w | Faulted _ w => w end.

Definition fault_with {A} (f : fault) : M A := fun w => Faulted f w.

(** A pure computation that may panic, run inside [M]. *)
Definition lift {A} (c : comp void A) : M A :=
  match c with
  | Ok a => mret a
  | Err e => match e with end
  | Panic f => fault_with f
  end.

Definition emit (e : event) : M unit := fun w => Done () (with_io (w_in w) (e :: w_log w) w).

(** [loop { hlt }]. *)
Definition hlt_forever {A} : M A := fun w => Halted w.

(** ** I/O instructions *)

Definition inb (port : Z) : M Z := fun w =>
  match w_in w with
  | v :: rest => Done v (with_io rest (EvIn port v :: w_log w) w)
  | [] => Waiting w
  end.

Definition outb (port value : Z) : M unit := emit (EvOut port value).

(** [loop { if body { break } }] for a body that executes [in]: every iteration uses up
    an answer, so the answers left bound the iterations. *)
Fixpoint loop_fuel (n : nat) (body : M bool) : M unit :=
  match n with
  | O => fun w => Waiting w
  | S n => stop ← body; if stop : bool then mret () else loop_fuel n body
  end.

Definition loop_until (body : M bool) : M unit := fun w =>
  loop_fuel (S (length (w_in w))) body w.

Fixpoint for_each {A} (l : list A) (f : A -> M unit) : M unit :=
  match l with
  | [] => mret ()
  | a :: l => _ ← f a; for_each l f
  end.

(** ** Memory *)

Fixpoint store_bytes (a : Z) (bs : list Z) (m : gmap Z Z) : gmap Z Z :=
  match bs with
  | [] => m
  | b :: bs => <[a := b]> (store_bytes (a + 1) bs m)
  end.

Fixpoint load_bytes (a : Z) (n : nat) (m : gmap Z Z) : option (list Z) :=
  match n with
  | O => Some []
  | S n => b ← m !! a; bs ← load_bytes (a + 1) n m; Some (b :: bs)
  end.

Definition load_uint (n : nat) (a : Z) (m : gmap Z Z) : option Z :=
  le_decode <$> load_bytes a n m.

(** * Monad laws and congruence *)

#[export] Instance M_equivalence A : Equivalence (≡@{M A}).
Proof.
  split.
  - by intros m w.
  - by intros m n H w.
  - intros m n p H1 H2 w. by rewrite H1, H2.
Qed.

#[export] Instance M_bind_proper A B :
  Proper (pointwise_relation A (≡) ==> (≡) ==> (≡)) (@mbind M _ A B).
Proof.
  intros k k' Hk m m' Hm w. unfold mbind, M_bind. rewrite Hm.
  destruct (m' w); try done. apply Hk.
Qed.

Lemma M_bind_ret_l {A B} (a : A) (k : A -> M B) : (mret a ≫= k) ≡ k a.
Proof. by intros w. Qed.

Lemma M_bind_ret_r {A} (m : M A) : (m ≫= mret) ≡ m.
Proof. intros w. unfold mbind, M_bind. by destruct (m w). Qed.

Lemma M_bind_assoc {A B C} (m : M A) (f : A -> M B) (g : B -> M C) :
  ((m ≫= f) ≫= g) ≡ (m ≫= (fun a => f a ≫= g)).
Proof. intros w. unfold mbind, M_bind. by destruct (m w). Qed.

Lemma bind_done {A B} (m : M A) (k : A -> M B) w a w' :
  m w = Done a w' -> (m ≫= k) w = k a w'.
Proof. intros H. unfold mbind, M_bind. by rewrite H. Qed.

Lemma bind2_done {A B D} (m : M A) (n : M B) (k : B -> M D) w b w' :
  (_ ← m; n) w = Done b w' -> (_ ← m; x ← n; k x) w = k b w'.
Proof.
  unfold mbind, M_bind. destruct (m w) as [a v| | |]; try done. by intros ->.
Qed.

Lemma bind3_done {A B C D} (m : M A) (n : M B) (o : M C) (k : C -> M D) w c w' :
  (_ ← m; _ ← n; o) w = Done c w' -> (_ ← m; _ ← n; x ← o; k x) w = k c w'.
Proof.
  unfold mbind, M_bind. destruct (m w) as [a v| | |]; try done.
  destruct (n v) as [b v'| | |]; try done. by intros ->.
Qed.

Lemma M_bind_halt {A B} (k : A -> M B) : (hlt_forever ≫= k) ≡ hlt_forever.
Proof. by intros w. Qed.

#[export] Instance for_each_proper A (l : list A) :
  Proper (pointwise_relation A (≡) ==> (≡)) (for_each l).
Proof.
  intros f g H. induction l as [|a l IH]; [done|]. cbn [for_each].
  apply M_bind_proper; [|apply H]. intros _. apply IH.
Qed.

Lemma for_each_app {A} (l k : list A) f :
  for_each (l ++ k) f ≡ (_ ← for_each l f; for_each k f).
Proof.
  induction l as [|a l IH]; [by intros w|]. cbn [app for_each].
  rewrite M_bind_assoc. apply M_bind_proper; [|done]. intros _. apply IH.
Qed.

Lemma lift_ok {A} (a : A) : lift (Ok a) = mret a.
Proof. done. Qed.

(** * Memory lemmas *)

Lemma store_bytes_lookup_lt a bs m b :
  b < a -> store_bytes a bs m !! b = m !! b.
Proof.
  revert a; induction bs as [|x bs IH]; intros a H; cbn [store_bytes]; [done|].
  rewrite lookup_insert_ne by lia. apply IH. lia.
Qed.

Lemma store_bytes_lookup_ge a bs m b :
  a + Z.of_nat (length bs) <= b -> store_bytes a bs m !! b = m !! b.
Proof.
  revert a; induction bs as [|x bs IH]; intros a H; cbn [store_bytes length] in *; [done|].
  rewrite lookup_insert_ne by lia. apply IH. lia.
Qed.

(** A load is determined by the cells it covers. *)
Lemma load_bytes_ext a n m m' :
  (forall b, a <= b < a + Z.of_nat n -> m !! b = m' !! b) ->
  load_bytes a n m = load_bytes a n m'.
Proof.
  revert a; induction n as [|n IH]; intros a H; [done|]. cbn [load_bytes].
  rewrite (H a) by lia. destruct (m' !! a); [|done]. cbn.
  rewrite (IH (a + 1)); [done|]. intros b Hb. apply H. lia.
Qed.

Lemma load_store_same a bs m : load_bytes a (length bs) (store_bytes a bs m) = Some bs.
Proof.
  revert a m; induction bs as [|x bs IH]; intros a m; [done|].
  cbn [length load_bytes store_bytes]. rewrite lookup_insert_eq. cbn.
  rewrite (load_bytes_ext _ _ _ (store_bytes (a + 1) bs m)); [by rewrite IH|].
  intros b Hb. apply lookup_insert_ne. lia.
Qed.

Lemma load_store_disjoint a n b bs m :
  a + Z.of_nat n <= b \/ b + Z.of_nat (length bs) <= a ->
  load_bytes a n (store_bytes b bs m) = load_bytes a n m.
Proof.
  intros H. apply load_bytes_ext. intros c Hc. destruct H.
  - apply store_bytes_lookup_lt. lia.
  - apply store_bytes_lookup_ge. lia.
Qed.

Lemma load_bytes_app a n k m :
  load_bytes a (n + k) m =
    (xs ← load_bytes a n m; ys ← load_bytes (a + Z.of_nat n) k m; Some (xs ++ ys)).
Proof.
  revert a; induction n as [|n IH]; intros a.
  - cbn. rewrite Z.add_0_r. by destruct (load_bytes a k m).
  - cbn [load_bytes Nat.add]. destruct (m !! a); [|done]. cbn. rewrite IH.
    replace (a + 1 + Z.of_nat n) with (a + Z.of_nat (S n)) by lia.
    destruct (load_bytes (a + 1) n m); [|done]. cbn.
    by destruct (load_bytes (a + Z.of_nat (S n)) k m).
Qed.

Lemma store_bytes_app a bs cs m :
  store_bytes a (bs ++ cs) m = store_bytes a bs (store_bytes (a + Z.of_nat (length bs)) cs m).
Proof.
  revert a; induction bs as [|x bs IH]; intros a; cbn [app store_bytes length].
  - by rewrite Z.add_0_r.
  - rewrite IH. do 3 f_equal. lia.
Qed.

Lemma load_uint_store n a z m :
  uint (8 * Z.of_nat n) z -> load_uint n a (store_bytes a (le_encode n z) m) = Some z.
Proof.
  intros H. unfold load_uint. pose proof (load_store_same a (le_encode n z) m) as Hl.
  rewrite length_le_encode in Hl. rewrite Hl. cbn. rewrite le_decode_encode.
  by rewrite Z.mod_small.
Qed.

(** The bytes [bs] are in memory at [a]. *)
Definition mem_has (a : Z) (bs : list Z) (m : gmap Z Z) : Prop :=
  load_bytes a (length bs) m = Some bs.

Lemma mem_has_app a bs cs m :
  mem_has a (bs ++ cs) m <-> mem_has a bs m /\ mem_has (a + Z.of_nat (length bs)) cs m.
Proof.
  unfold mem_has. rewrite length_app, load_bytes_app. split.
  - destruct (load_bytes a _ m) as [xs|] eqn:Hx; [|done].
    cbn. destruct (load_bytes (a + _) _ m) as [ys|] eqn:Hy; [|done]. cbn. intros [= H].
    assert (length xs = length bs).
    { clear -Hx. generalize (length bs) as n, xs, Hx. clear. intros n. revert a.
      induction n as [|n IH]; intros a xs; cbn; [by intros [= <-]|].
      destruct (m !! a); [|done]. cbn. destruct (load_bytes (a + 1) n m) eqn:E; [|done].
      cbn. intros [= <-]. cbn. f_equal. by eapply IH. }
    apply app_inj_1 in H; [|done]. destruct H as [-> ->]. done.
  - intros [-> Hc]. cbn. by rewrite Hc.
Qed.

Lemma mem_has_store a bs m : mem_has a bs (store_bytes a bs m).
Proof. apply load_store_same. Qed.

Lemma mem_has_store_disjoint a bs b cs m :
  a + Z.of_nat (length bs) <= b \/ b + Z.of_nat (length cs) <= a ->
  mem_has a bs m -> mem_has a bs (store_bytes b cs m).
Proof. intros H Hm. unfold mem_has. by rewrite load_store_disjoint. Qed.

Lemma mem_has_uint n a z m :
  uint (8 * Z.of_nat n) z -> mem_has a (le_encode n z) m -> load_uint n a m = Some z.
Proof.
  intros Hz Hm. unfold mem_has in Hm. rewrite length_le_encode in Hm.
  unfold load_uint. rewrite Hm. cbn. rewrite le_decode_encode. by rewrite Z.mod_small.
Qed.
