(* ===== verification/Serial.v ===== *)
(** The kernel's UART driver ([kernel/src/drivers/serial.rs]) and the kernel panic
    handler ([kernel/src/main.rs]).

    The driver is modelled over the port I/O of [Machine].  [send] is its abstract
    contract, a transmitter of byte strings that waits for a ready answer before each
    byte; [write_str_send] refines the driver to it.  [uart] is the register file of a
    16550 as the register map of the source describes it (offsets 0 and 1 address the
    divisor latch while LCR.DLAB is set); replaying the trace through it tells what the
    device was configured to and which bytes it transmitted. *)

From S2P Require Export Prelude Machine.

(** * Register map and constants *)

Definition COM1_BASE : Z := 0x3F8.
Definition REG_DATA : Z := 0.
Definition REG_IER : Z := 1.
Definition REG_DLL : Z := 0.
Definition REG_DLM : Z := 1.
Definition REG_FCR : Z := 2.
Definition REG_LCR : Z := 3.
Definition REG_MCR : Z := 4.
Definition REG_LSR : Z := 5.

Definition LCR_DLAB : Z := 0x80.
Definition LCR_8N1 : Z := 0x03.
Definition FCR_ENABLE_CLEAR : Z := 0xC7.
Definition MCR_DTR_RTS_AUX2 : Z := 0x0B.
Definition LSR_THRE : Z := 0x20.
Definition BAUD_115200_DIVISOR : Z := 1.

(** * The driver *)

Record SerialPort : Type := { base : Z }.

Definition SerialPort_new : SerialPort := {| base := COM1_BASE |}.

Section driver.
Context {P : Profile}.
Implicit Types (s : SerialPort).

Definition SerialPort_outb s (offset value : Z) : M unit :=
  port ← lift (add_u 16 (base s) offset); outb port value.

Definition SerialPort_inb s (offset : Z) : M Z :=
  port ← lift (add_u 16 (base s) offset); inb port.

Definition poll_until_ready s : M unit :=
  loop_until (lsr ← SerialPort_inb s REG_LSR; mret (negb (Z.land lsr LSR_THRE =? 0))).

Definition SerialPort_write_byte s (byte : Z) : M unit :=
  _ ← poll_until_ready s; SerialPort_outb s REG_DATA byte.

Definition SerialPort_write_str s (text : list Z) : M unit :=
  for_each text (fun byte =>
    _ ← (if byte =? 10 then SerialPort_write_byte s 13 else mret ());
    SerialPort_write_byte s byte).

Definition SerialPort_init s : M unit :=
  _ ← SerialPort_outb s REG_IER 0x00;
  _ ← SerialPort_outb s REG_LCR LCR_DLAB;
  _ ← SerialPort_outb s REG_DLL (Z.land BAUD_115200_DIVISOR 0xFF);
  _ ← SerialPort_outb s REG_DLM (Z.shiftr BAUD_115200_DIVISOR 8);
  _ ← SerialPort_outb s REG_LCR LCR_8N1;
  _ ← SerialPort_outb s REG_FCR FCR_ENABLE_CLEAR;
  SerialPort_outb s REG_MCR MCR_DTR_RTS_AUX2.

(** [#[panic_handler]] of the kernel crate. *)
Definition kernel_panic : M void :=
  let serial := SerialPort_new in
  _ ← SerialPort_write_str serial (crlf ++ str "KERNEL PANIC" ++ crlf);
  hlt_forever.
End driver.

(** * The abstract transmitter *)

Definition ready (lsr : Z) : bool := negb (Z.land lsr LSR_THRE =? 0).

(** Read LSR answers up to the first ready one. *)
Fixpoint drain (ins : list Z) (log : list event) : list event * option (list Z) :=
  match ins with
  | [] => (log, None)
  | v :: ins =>
      let log := EvIn (COM1_BASE + REG_LSR) v :: log in
      if ready v then (log, Some ins) else drain ins log
  end.

Definition tx_byte (b : Z) : M unit := fun w =>
  match drain (w_in w) (w_log w) with
  | (log, Some rest) => Done () (with_io rest (EvOut (COM1_BASE + REG_DATA) b :: log) w)
  | (log, None) => Waiting (with_io [] log w)
  end.

Definition send (bs : list Z) : M unit := for_each bs tx_byte.

(** The driver's newline translation. *)
Fixpoint expand (text : list Z) : list Z :=
  match text with
  | [] => []
  | b :: text => if b =? 10 then 13 :: 10 :: expand text else b :: expand text
  end.

Fixpoint unexpand (text : list Z) : list Z :=
  match text with
  | [] => []
  | b :: text =>
      if (b =? 13) && match text with c :: _ => c =? 10 | [] => false end
      then unexpand text else b :: unexpand text
  end.

(** ** The device *)

Record uart : Type := {
  uart_ier : Z; uart_lcr : Z; uart_fcr : Z; uart_mcr : Z;
  uart_dll : Z; uart_dlm : Z;
  uart_tx : list Z;
}.

Definition dlab (u : uart) : bool := Z.testbit (uart_lcr u) 7.

Definition uart_write (u : uart) (offset v : Z) : uart :=
  let '{| uart_ier := ier; uart_lcr := lcr; uart_fcr := fcr; uart_mcr := mcr;
          uart_dll := dll; uart_dlm := dlm; uart_tx := tx |} := u in
  match offset with
  | 0 => if dlab u then Build_uart ier lcr fcr mcr v dlm tx
         else Build_uart ier lcr fcr mcr dll dlm (tx ++ [v])
  | 1 => if dlab u then Build_uart ier lcr fcr mcr dll v tx
         else Build_uart v lcr fcr mcr dll dlm tx
  | 2 => Build_uart ier lcr v mcr dll dlm tx
  | 3 => Build_uart ier v fcr mcr dll dlm tx
  | 4 => Build_uart ier lcr fcr v dll dlm tx
  | _ => u
  end.

Definition uart_event (e : event) (u : uart) : uart :=
  match e with EvOut port v => uart_write u (port - COM1_BASE) v | _ => u end.

(** The device after the events of a log (most recent first). *)
Definition uart_after (u : uart) (log : list event) : uart := foldr uart_event u log.

Definition transmit (u : uart) (bs : list Z) : uart :=
  Build_uart (uart_ier u) (uart_lcr u) (uart_fcr u) (uart_mcr u) (uart_dll u) (uart_dlm u)
    (uart_tx u ++ bs).

(** How many bytes a stream of LSR answers lets through. *)
Definition ready_count (ins : list Z) : nat := length (filter (fun v => ready v) ins).

(** * The driver refines the transmitter *)

Lemma com1_port {P : Profile} offset :
  0 <= offset <= 7 ->
  lift (add_u 16 (base SerialPort_new) offset) = mret (COM1_BASE + offset).
Proof.
  intros H. rewrite add_u_small; [done|]. cbn. unfold COM1_BASE. lia.
Qed.

Lemma loop_drain n ins w :
  (length ins < n)%nat ->
  loop_fuel n (lsr ← inb (COM1_BASE + REG_LSR); mret (ready lsr)) (with_io ins (w_log w) w)
  = match drain ins (w_log w) with
    | (log, Some rest) => Done () (with_io rest log w)
    | (log, None) => Waiting (with_io [] log w)
    end.
Proof.
  revert n w; induction ins as [|v ins IH]; intros [|n] w Hn; simpl in Hn; try lia; [done|].
  cbn [loop_fuel drain]. unfold mbind, M_bind, mret, M_ret, inb. cbn [w_in with_io].
  destruct (ready v); [done|].
  apply (IH n (with_io ins (EvIn (COM1_BASE + REG_LSR) v :: w_log w) w)). lia.
Qed.

Lemma with_io_same w : with_io (w_in w) (w_log w) w = w.
Proof. by destruct w. Qed.

Lemma loop_until_drain w :
  loop_until (lsr ← inb (COM1_BASE + REG_LSR); mret (ready lsr)) w
  = match drain (w_in w) (w_log w) with
    | (log, Some rest) => Done () (with_io rest log w)
    | (log, None) => Waiting (with_io [] log w)
    end.
Proof.
  pose proof (loop_drain (S (length (w_in w))) (w_in w) w) as H.
  rewrite with_io_same in H. apply H. lia.
Qed.

#[export] Instance loop_fuel_proper n : Proper ((≡) ==> (≡)) (loop_fuel n).
Proof.
  intros b b' Hb. induction n as [|n IH]; [done|]. cbn [loop_fuel].
  apply M_bind_proper; [|exact Hb]. intros []; [done | exact IH].
Qed.

#[export] Instance loop_until_proper : Proper ((≡) ==> (≡)) loop_until.
Proof. intros b b' Hb w. unfold loop_until. by apply loop_fuel_proper. Qed.

Lemma poll_then_write b :
  (_ ← loop_until (lsr ← inb (COM1_BASE + REG_LSR); mret (ready lsr));
   outb (COM1_BASE + REG_DATA) b) ≡ tx_byte b.
Proof.
  intros w. unfold mbind at 1, M_bind at 1. rewrite loop_until_drain. unfold tx_byte.
  by destruct (drain (w_in w) (w_log w)) as [log [rest|]].
Qed.

Lemma write_byte_tx {P : Profile} b : SerialPort_write_byte SerialPort_new b ≡ tx_byte b.
Proof.
  rewrite <- poll_then_write. unfold SerialPort_write_byte, poll_until_ready,
    SerialPort_outb, SerialPort_inb.
  rewrite !com1_port by (unfold REG_LSR, REG_DATA; lia).
  apply M_bind_proper; [intros ?; by rewrite M_bind_ret_l|].
  apply loop_until_proper. by rewrite M_bind_ret_l.
Qed.

Lemma write_str_send {P : Profile} text :
  SerialPort_write_str SerialPort_new text ≡ send (expand text).
Proof.
  induction text as [|b text IH]; [done|]. unfold SerialPort_write_str in *.
  cbn [for_each expand]. destruct (b =? 10) eqn:Hb.
  - apply Z.eqb_eq in Hb as ->. unfold send. cbn [for_each].
    rewrite M_bind_assoc. apply M_bind_proper; [|by rewrite write_byte_tx].
    intros _. apply M_bind_proper; [intros _; exact IH | by rewrite write_byte_tx].
  - unfold send. cbn [for_each]. apply M_bind_proper; [intros _; exact IH|].
    rewrite M_bind_ret_l. apply write_byte_tx.
Qed.

Lemma send_app bs cs : send (bs ++ cs) ≡ (_ ← send bs; send cs).
Proof. apply for_each_app. Qed.

(** * What the transmitter does to the device *)

Lemma uart_after_drain u ins log :
  uart_after u (drain ins log).1 = uart_after u log.
Proof.
  revert log; induction ins as [|v ins IH]; intros log; [done|].
  cbn [drain]. destruct (ready v); [done|]. by rewrite IH.
Qed.

Lemma drain_none ins log : ready_count ins = 0%nat -> (drain ins log).2 = None.
Proof.
  revert log; induction ins as [|v ins IH]; intros log; [done|].
  unfold ready_count. rewrite filter_cons. cbn [drain].
  destruct (ready v); [done|]. apply IH.
Qed.

Lemma drain_some ins log n :
  ready_count ins = S n -> exists rest, (drain ins log).2 = Some rest /\ ready_count rest = n.
Proof.
  revert log; induction ins as [|v ins IH]; intros log; [done|].
  unfold ready_count. rewrite filter_cons. cbn [drain].
  destruct (ready v); [|apply IH]. intros [= H]. by exists ins.
Qed.

Lemma transmit_data u b :
  dlab u = false -> uart_event (EvOut (COM1_BASE + REG_DATA) b) u = transmit u [b].
Proof. destruct u. unfold dlab. cbn. by intros ->. Qed.

Lemma transmit_app u bs cs : transmit (transmit u bs) cs = transmit u (bs ++ cs).
Proof. unfold transmit. cbn. by rewrite app_assoc. Qed.

Lemma transmit_nil u : transmit u [] = u.
Proof. destruct u. unfold transmit. cbn. by rewrite app_nil_r. Qed.

Lemma send_cons b bs w :
  send (b :: bs) w =
    match drain (w_in w) (w_log w) with
    | (log, Some rest) => send bs (with_io rest (EvOut (COM1_BASE + REG_DATA) b :: log) w)
    | (log, None) => Waiting (with_io [] log w)
    end.
Proof.
  unfold send. cbn [for_each]. unfold mbind, M_bind, tx_byte at 1.
  by destruct (drain (w_in w) (w_log w)) as [log [rest|]].
Qed.

Lemma send_spec u bs w :
  dlab (uart_after u (w_log w)) = false ->
  let n := ready_count (w_in w) in
  uart_after u (w_log (final (send bs w)))
    = transmit (uart_after u (w_log w)) (take n bs)
  /\ w_cpu (final (send bs w)) = w_cpu w /\ w_mem (final (send bs w)) = w_mem w
  /\ if decide (length bs <= n)%nat
     then send bs w = Done () (final (send bs w))
          /\ ready_count (w_in (final (send bs w))) = (n - length bs)%nat
     else send bs w = Waiting (final (send bs w)) /\ w_in (final (send bs w)) = [].
Proof.
  cbn zeta. revert w; induction bs as [|b bs IH]; intros w Hd.
  { rewrite take_nil, transmit_nil. rewrite decide_True by (simpl; lia).
    split_and!; try done. simpl. lia. }
  rewrite !send_cons.
  pose proof (uart_after_drain u (w_in w) (w_log w)) as Hu.
  destruct (ready_count (w_in w)) as [|n] eqn:Hn.
  - pose proof (drain_none _ (w_log w) Hn) as Hnone.
    destruct (drain (w_in w) (w_log w)) as [log o]. cbn [fst snd] in Hnone, Hu. subst o. cbn [final].
    cbn [w_log w_cpu w_mem w_in with_io take]. rewrite transmit_nil.
    rewrite decide_False by (simpl; lia). by split_and!.
  - destruct (drain_some _ (w_log w) n Hn) as (rest & Hsome & Hrest).
    destruct (drain (w_in w) (w_log w)) as [log o]. cbn [fst snd] in Hsome, Hu. subst o.
    set (w1 := with_io rest _ w).
    assert (Hu1 : uart_after u (w_log w1) = transmit (uart_after u (w_log w)) [b]).
    { change (uart_event (EvOut (COM1_BASE + REG_DATA) b) (uart_after u log)
              = transmit (uart_after u (w_log w)) [b]).
      rewrite Hu. by apply transmit_data. }
    specialize (IH w1). rewrite Hu1 in IH. specialize (IH Hd).
    change (w_in w1) with rest in IH. rewrite Hrest in IH. cbn [take].
    rewrite transmit_app in IH. destruct IH as (H1 & H2 & H3 & H4).
    split_and!; [done..|]. cbn [length]. repeat case_decide; try lia; done.
Qed.

Lemma serial_outb_com1 {P : Profile} offset v w :
  0 <= offset <= 7 ->
  SerialPort_outb SerialPort_new offset v w
  = Done () (with_io (w_in w) (EvOut (COM1_BASE + offset) v :: w_log w) w).
Proof. intros H. unfold SerialPort_outb. by rewrite com1_port. Qed.

Lemma serial_init_log {P : Profile} w :
  SerialPort_init SerialPort_new w =
    Done () (with_io (w_in w)
      (EvOut 0x3FC 0x0B :: EvOut 0x3FA 0xC7 :: EvOut 0x3FB 0x03 :: EvOut 0x3F9 0x00
       :: EvOut 0x3F8 0x01 :: EvOut 0x3FB 0x80 :: EvOut 0x3F9 0x00 :: w_log w) w).
Proof.
  unfold SerialPort_init, mbind, M_bind.
  by do 7 (rewrite serial_outb_com1 by (by split); cbn [w_in w_log with_io]).
Qed.

Lemma unexpand_expand text : unexpand (expand text) = text.
Proof.
  induction text as [|b text IH]; [done|]. cbn [expand].
  destruct (Z.eqb_spec b 10) as [->|Hb]; cbn [unexpand]; [cbn [Z.eqb andb]; by rewrite IH|].
  rewrite IH. replace (match expand text with c :: _ => c =? 10 | [] => false end) with false.
  { by rewrite andb_false_r. }
  destruct text as [|c text]; [done|]. cbn [expand].
  destruct (Z.eqb_spec c 10) as [|Hc]; [done|]. by rewrite (proj2 (Z.eqb_neq _ _) Hc).
Qed.

Lemma length_expand text :
  length (expand text) = (length text + length (filter (fun b => b = 10%Z) text))%nat.
Proof.
  induction text as [|b text IH]; [done|]. cbn [expand]. rewrite filter_cons.
  destruct (Z.eqb_spec b 10) as [->|Hb].
  - rewrite decide_True by done. cbn [length]. lia.
  - rewrite decide_False by done. cbn [length]. lia.
Qed.

(** * Properties *)

(** C26: whatever state the UART was left in, [init] returns without waiting for the device
    and leaves it at 115200 baud (divisor 1), 8N1 with the divisor latch closed, FIFOs
    enabled and flushed, DTR, RTS and AUX2 raised, and nothing transmitted; its
    interrupts are off if the latch was closed on entry, and are left as they were
    otherwise, since the first write then reaches the divisor latch. *)
Theorem serial_init_config {P : Profile} (u : uart) (w : world) :
  exists w', SerialPort_init SerialPort_new w = Done () w'
    /\ w_in w' = w_in w
    /\ let before := uart_after u (w_log w) in
       uart_after u (w_log w') = {|
         uart_ier := if dlab before then uart_ier before else 0;
         uart_lcr := LCR_8N1; uart_fcr := FCR_ENABLE_CLEAR; uart_mcr := MCR_DTR_RTS_AUX2;
         uart_dll := BAUD_115200_DIVISOR; uart_dlm := 0;
         uart_tx := uart_tx before |}
    /\ dlab (uart_after u (w_log w')) = false.
Proof.
  eexists. split; [apply serial_init_log|]. split; [done|].
  cbn [w_log with_io]. unfold uart_after. cbn [foldr]. fold (uart_after u (w_log w)).
  destruct (uart_after u (w_log w)) as [ier lcr fcr mcr dll dlm tx].
  destruct (Z.testbit lcr 7) eqn:Hd;
    cbv -[Z.testbit]; rewrite Hd; split; reflexivity.
Qed.

(** C25: with the divisor latch closed, [write_str] on any device answers: the device
    receives exactly the bytes of the text, each line feed preceded by a carriage return,
    as far as it reported ready; the call completes exactly when the device reported
    ready for every byte, and otherwise waits having used up all answers; the original
    text can be recovered from what was transmitted, and nothing else of the machine or
    of the device's configuration changes. *)
Theorem write_str_transmits {P : Profile} (u : uart) (text : list Z) (w : world) :
  dlab (uart_after u (w_log w)) = false ->
  let r := SerialPort_write_str SerialPort_new text w in
  let n := ready_count (w_in w) in
  uart_after u (w_log (final r)) = transmit (uart_after u (w_log w)) (take n (expand text))
  /\ w_cpu (final r) = w_cpu w /\ w_mem (final r) = w_mem w
  /\ (r = Done () (final r) <-> (length (expand text) <= n)%nat)
  /\ (r = Waiting (final r) <-> (n < length (expand text))%nat)
  /\ length (expand text) = (length text + length (filter (fun b => b = 10%Z) text))%nat
  /\ unexpand (expand text) = text.
Proof.
  intros Hd r n. unfold r. rewrite (write_str_send text w).
  destruct (send_spec u (expand text) w Hd) as (Hu & Hc & Hm & Hr). fold n in Hu, Hr.
  rewrite Hu, Hc, Hm. split; [done|]. split; [done|]. split; [done|].
  rewrite <- length_expand, unexpand_expand.
  case_decide as Hle; destruct Hr as [Hr _]; rewrite Hr.
  - split_and!; try done; split; (done || lia).
  - split_and!; try done; split; (done || lia).
Qed.

Definition idle_cpu : cpu := {|
  regs := fun _ => 0; segs := fun _ => 0; rip := 0; rflags := 0x202;
  gdtr := {| tr_limit := 0; tr_base := 0 |}; idtr := {| tr_limit := 0; tr_base := 0 |};
  cr2 := 0 |}.

Definition world_with (ins : list Z) : world :=
  {| w_cpu := idle_cpu; w_mem := ∅; w_in := ins; w_log := [] |}.

Definition idle_uart : uart := Build_uart 0 3 0 0 1 0 [].

Lemma write_str_transmits_witness :
  uart_tx (uart_after idle_uart (w_log (final
    (@SerialPort_write_str dev_profile SerialPort_new (str "Hi" ++ [10])
      (world_with [0; 0x20; 0x60; 0; 0x20; 0x20])))))
  = str "Hi" ++ [13; 10].
Proof.
  rewrite (proj1 (@write_str_transmits dev_profile idle_uart (str "Hi" ++ [10])
    (world_with [0; 0x20; 0x60; 0; 0x20; 0x20]) eq_refl)). reflexivity.
Defined.

(** C36: the translation is applied to every line feed, so a text that already ends its lines
    with CR LF, as the kernel's panic message does, is transmitted with a doubled carriage
    return; once the device has taken the message, the panic handler halts, and it never
    returns or faults whatever the device answers. *)
Theorem kernel_panic_output {P : Profile} (u : uart) (w : world) :
  dlab (uart_after u (w_log w)) = false ->
  let message := [13; 13; 10] ++ str "KERNEL PANIC" ++ [13; 13; 10] in
  let r := kernel_panic w in
  uart_after u (w_log (final r))
    = transmit (uart_after u (w_log w)) (take (ready_count (w_in w)) message)
  /\ (r = Halted (final r) <-> (18 <= ready_count (w_in w))%nat)
  /\ (r = Waiting (final r) <-> (ready_count (w_in w) < 18)%nat).
Proof.
  intros Hd message r. unfold r, kernel_panic, mbind at 1 2 3 4 5, M_bind at 1 2 3 4 5.
  rewrite (write_str_send _ w). change (expand _) with message.
  destruct (send_spec u message w Hd) as (Hu & _ & _ & Hr).
  change (length message) with 18%nat in Hr.
  case_decide as Hle; destruct Hr as [Hr _]; rewrite Hr in Hu |- *; cbn [final hlt_forever] in *.
  - split; [exact Hu|]. split; split; (done || lia).
  - split; [exact Hu|]. split; split; (done || lia).
Qed.

Lemma kernel_panic_output_witness :
  uart_tx (uart_after idle_uart (w_log (final
    (@kernel_panic dev_profile (world_with (replicate 18 0x20))))))
  = [13; 13; 10] ++ str "KERNEL PANIC" ++ [13; 13; 10].
Proof.
  rewrite (proj1 (@kernel_panic_output dev_profile idle_uart
    (world_with (replicate 18 0x20)) eq_refl)). reflexivity.
Defined.
