(* ===== verification/BootSerial.v ===== *)
(** The boot-side serial helpers of [boot/src/main.rs]: the duplicate UART
    initialisation and byte loop, and the decimal and hexadecimal number printers with
    their fixed buffers of 20 and 16 digits.  [digits_loop] is the [while] loop the two
    printers share; its fuel of 64 iterations covers every [usize] (the value at least
    halves in each), and the theorems show that it is never exhausted. *)

From S2P Require Export Prelude Machine Serial.

(** * UART helpers *)

Definition serial_init : M unit :=
  _ ← outb (0x3F8 + 1) 0x00;
  _ ← outb (0x3F8 + 3) 0x80;
  _ ← outb 0x3F8 0x01;
  _ ← outb (0x3F8 + 1) 0x00;
  _ ← outb (0x3F8 + 3) 0x03;
  _ ← outb (0x3F8 + 2) 0xC7;
  outb (0x3F8 + 4) 0x0B.

Definition serial_write_byte (byte : Z) : M unit :=
  _ ← loop_until (lsr ← inb (0x3F8 + 5); mret (negb (Z.land lsr 0x20 =? 0)));
  outb 0x3F8 byte.

Definition serial_write_str (s : list Z) : M unit := for_each s serial_write_byte.

(** * Number printers *)

Section numbers.
Context {P : Profile}.

(** [while n > 0 { buf[i] = digit(n); n = next(n); i += 1 }], giving [buf] and [i]. *)
Fixpoint digits_loop (fuel : nat) (digit : Z -> comp void Z) (next : Z -> Z)
    (buf : list Z) (i n : Z) : comp void (list Z * Z) :=
  if n >? 0 then
    match fuel with
    | O => Panic OutOfFuel
    | S fuel =>
        c ← digit n;
        buf ← set_index buf i c;
        i ← add_u 64 i 1;
        digits_loop fuel digit next buf i (next n)
    end
  else Ok (buf, i).

(** [for j in (0..i).rev() { serial_write_byte(buf[j]) }] *)
Fixpoint write_rev (buf : list Z) (i : nat) : M unit :=
  match i with
  | O => mret ()
  | S j => c ← lift (index buf (Z.of_nat j)); _ ← serial_write_byte c; write_rev buf j
  end.

Definition decimal_digit (n : Z) : comp void Z := add_u 8 48 (wrap 8 (n mod 10)).

Definition serial_write_usize (n : Z) : M unit :=
  if n =? 0 then serial_write_str (str "0")
  else
    '(buf, i) ← lift (digits_loop 64 decimal_digit (fun n => n / 10) (replicate 20 0) 0 n);
    write_rev buf (Z.to_nat i).

Definition HEX : list Z := str "0123456789abcdef".

Definition hex_digit (n : Z) : comp void Z := index HEX (Z.land n 0xf).

Definition serial_write_usize_hex (n : Z) : M unit :=
  if n =? 0 then serial_write_str (str "0")
  else
    '(buf, i) ← lift (digits_loop 64 hex_digit (fun n => Z.shiftr n 4) (replicate 16 0) 0 n);
    write_rev buf (Z.to_nat i).
End numbers.

(** * Specification of the printers *)

(** Digits of [n], least significant first. *)
Fixpoint digits_le (fuel : nat) (b n : Z) : list Z :=
  match fuel with
  | O => []
  | S fuel => if n >? 0 then n mod b :: digits_le fuel b (n / b) else []
  end.

Definition digit_char (d : Z) : Z := if d <? 10 then 48 + d else 87 + d.

Definition numeral (b n : Z) : list Z :=
  if n =? 0 then [48] else rev (digit_char <$> digits_le 64 b n).

Definition decimal : Z -> list Z := numeral 10.
Definition hexadecimal : Z -> list Z := numeral 16.

Definition char_digit (c : Z) : Z := if c <? 58 then c - 48 else c - 87.

(** The number a numeral denotes. *)
Definition numeral_value (b : Z) (cs : list Z) : Z :=
  foldl (fun n c => n * b + char_digit c) 0 cs.

(** * Lemmas *)

Lemma serial_write_byte_tx b : serial_write_byte b ≡ tx_byte b.
Proof. exact (poll_then_write b). Qed.

Lemma serial_write_str_send s : serial_write_str s ≡ send s.
Proof. unfold serial_write_str, send. apply for_each_proper. intros b. apply serial_write_byte_tx. Qed.

Lemma length_digits_le fuel b n k :
  2 <= b -> 0 <= n < b ^ Z.of_nat k -> (length (digits_le fuel b n) <= k)%nat.
Proof.
  intros Hb. revert n k; induction fuel as [|fuel IH]; intros n k Hn; simpl; [lia|].
  destruct (Z.gtb_spec n 0) as [Hpos|]; [|simpl; lia].
  destruct k as [|k]; [simpl in Hn; lia|]. simpl. apply le_n_S, IH.
  rewrite Nat2Z.inj_succ, Z.pow_succ_r in Hn by lia.
  split; [apply Z.div_pos; lia | apply Z.div_lt_upper_bound; lia].
Qed.

(** Enough fuel for the digits of [n]. *)
Definition fuel_for (b n : Z) (fuel : nat) : Prop := 2 <= b /\ 0 <= n < b ^ Z.of_nat fuel.

Lemma fuel_for_next b n fuel : 0 < n -> fuel_for b n (S fuel) -> fuel_for b (n / b) fuel.
Proof.
  intros Hn [Hb H]. rewrite Nat2Z.inj_succ, Z.pow_succ_r in H by lia.
  split; [done|]. split; [apply Z.div_pos; lia | apply Z.div_lt_upper_bound; lia].
Qed.

Lemma u64_fuel b n : 2 <= b -> uint 64 n -> fuel_for b n 64.
Proof.
  intros Hb [Hn Hn']. split; [done|]. split; [done|]. eapply Z.lt_le_trans; [exact Hn'|].
  apply Z.pow_le_mono_l. lia.
Qed.

(** The loop stores exactly the digits, within the buffer. *)
Lemma digits_loop_spec {P : Profile} b digit next fuel n pre cap :
  fuel_for b n fuel ->
  (forall m, 0 < m -> next m = m / b) ->
  (forall m, 0 < m -> digit m = Ok (digit_char (m mod b))) ->
  (length pre + length (digits_le fuel b n) <= cap)%nat -> Z.of_nat cap < 2 ^ 64 ->
  digits_loop fuel digit next (pre ++ replicate (cap - length pre) 0) (Z.of_nat (length pre)) n
  = let ds := pre ++ (digit_char <$> digits_le fuel b n) in
    Ok (ds ++ replicate (cap - length ds) 0, Z.of_nat (length ds)).
Proof.
  intros Hf Hnext Hdigit. revert n pre Hf; induction fuel as [|fuel IH];
    intros n pre Hf Hcap Hcap64; cbn [digits_loop digits_le] in *.
  - destruct Hf as [_ Hf]. simpl in Hf.
    replace (n >? 0) with false by (destruct (Z.gtb_spec n 0); lia). cbn. by rewrite app_nil_r.
  - destruct (Z.gtb_spec n 0) as [Hn|Hn]; [|cbn; by rewrite app_nil_r].
    rewrite Hdigit, Hnext by done. step_ok. cbn [length] in Hcap.
    rewrite set_index_ok by (rewrite length_app, length_replicate; lia).
    rewrite add_u_small by lia. rewrite Nat2Z.id.
    replace (cap - length pre)%nat with (S (cap - (length pre + 1)))%nat by lia.
    replace (length pre) with (length pre + 0)%nat at 1 by lia. rewrite insert_app_r.
    specialize (IH (n / b) (pre ++ [digit_char (n mod b)])).
    rewrite length_app in IH. cbn [length replicate insert list_insert] in *.
    replace (Z.of_nat (length pre) + 1) with (Z.of_nat (length pre + 1)) by lia.
    rewrite <- app_assoc in IH. cbn [app] in IH. rewrite IH; [|by apply fuel_for_next|lia..].
    by rewrite fmap_cons, <- !app_assoc.
Qed.

Lemma write_rev_send {P : Profile} buf i :
  (i <= length buf)%nat -> write_rev buf i ≡ send (rev (take i buf)).
Proof.
  induction i as [|i IH]; intros Hi; [done|]. cbn [write_rev].
  destruct (lookup_lt_is_Some_2 buf i) as [c Hc]; [lia|].
  rewrite (index_ok buf _ c) by (rewrite ?Nat2Z.id; done || lia).
  rewrite lift_ok, M_bind_ret_l. rewrite (take_S_r _ _ _ Hc), rev_app_distr.
  unfold send. cbn [rev app for_each].
  apply M_bind_proper; [intros _; apply IH; lia | apply serial_write_byte_tx].
Qed.

(** The shared part of the two printers. *)
Lemma print_digits {P : Profile} b digit next n cap :
  (forall m, 0 < m -> next m = m / b) ->
  (forall m, 0 < m -> digit m = Ok (digit_char (m mod b))) ->
  2 <= b -> uint 64 n -> (0 < cap)%nat -> n < b ^ Z.of_nat cap -> Z.of_nat cap < 2 ^ 64 ->
  (if n =? 0 then serial_write_str (str "0")
   else '(buf, i) ← lift (digits_loop 64 digit next (replicate cap 0) 0 n);
        write_rev buf (Z.to_nat i)) ≡ send (numeral b n).
Proof.
  intros Hnext Hdigit Hb Hn Hcap Hlt Hcap64. unfold numeral.
  destruct (n =? 0); [apply serial_write_str_send|].
  pose proof (digits_loop_spec b digit next 64 n [] cap (u64_fuel b n Hb Hn) Hnext Hdigit) as H.
  cbn [app length Nat.add] in H. rewrite Nat.sub_0_r in H. change (Z.of_nat 0) with 0 in H.
  rewrite H; clear H; [|apply length_digits_le; [done|by destruct Hn]|done].
  cbv zeta. rewrite lift_ok, M_bind_ret_l, Nat2Z.id.
  rewrite write_rev_send by (rewrite length_app; lia).
  by rewrite take_app_length.
Qed.

Lemma decimal_digit_spec {P : Profile} m :
  0 < m -> decimal_digit m = Ok (digit_char (m mod 10)).
Proof.
  intros Hm. pose proof (Z.mod_pos_bound m 10 eq_refl) as H. unfold decimal_digit, wrap, digit_char.
  rewrite (Z.mod_small (m mod 10)) by (change (2 ^ 8) with 256; lia).
  rewrite add_u_small by (change (2 ^ 8) with 256; lia).
  by rewrite (proj2 (Z.ltb_lt _ _)) by lia.
Qed.

Lemma hex_digit_spec m : 0 < m -> hex_digit m = Ok (digit_char (m mod 16)).
Proof.
  intros Hm. unfold hex_digit. change 0xf with (2 ^ 4 - 1). rewrite land_ones_mod by done.
  change (2 ^ 4) with 16. pose proof (Z.mod_pos_bound m 16 eq_refl) as H.
  assert (Hall : Forall (fun d => @index void Z HEX d = Ok (digit_char d))
    [0;1;2;3;4;5;6;7;8;9;10;11;12;13;14;15]) by by repeat constructor.
  rewrite Forall_forall in Hall. apply Hall. set_unfold. lia.
Qed.

Lemma u64_decimal n : uint 64 n -> n < 10 ^ Z.of_nat 20.
Proof. intros [_ Hn]; revert Hn; cbn; lia. Qed.

Lemma u64_hexadecimal n : uint 64 n -> n < 16 ^ Z.of_nat 16.
Proof. intros [_ Hn]; revert Hn; cbn; lia. Qed.

Lemma serial_write_usize_send {P : Profile} n :
  uint 64 n -> serial_write_usize n ≡ send (decimal n).
Proof.
  intros Hn. pose proof (print_digits 10 decimal_digit (fun n => n / 10) n 20
    (fun m _ => eq_refl) decimal_digit_spec) as H'.
  apply H'; [lia | exact Hn | lia | by apply u64_decimal | by_dec].
Qed.

Lemma serial_write_usize_hex_send {P : Profile} n :
  uint 64 n -> serial_write_usize_hex n ≡ send (hexadecimal n).
Proof.
  intros Hn. pose proof (print_digits 16 hex_digit (fun n => Z.shiftr n 4) n 16
    (fun m _ => Z.shiftr_div_pow2 m 4 ltac:(lia)) hex_digit_spec) as H'.
  apply H'; [lia | exact Hn | lia | by apply u64_hexadecimal | by_dec].
Qed.

Lemma length_numeral b n k :
  2 <= b -> (0 < k)%nat -> 0 <= n < b ^ Z.of_nat k -> (length (numeral b n) <= k)%nat.
Proof.
  intros Hb Hk Hn. unfold numeral. destruct (n =? 0); [cbn; lia|].
  rewrite length_rev, length_fmap. by apply length_digits_le.
Qed.

Lemma char_digit_char d : 0 <= d < 16 -> char_digit (digit_char d) = d.
Proof. intros Hd. unfold char_digit, digit_char. case_bool; lia. Qed.

Lemma numeral_value_digits b fuel n :
  b <= 16 -> fuel_for b n fuel ->
  numeral_value b (rev (digit_char <$> digits_le fuel b n)) = n.
Proof.
  intros Hb. revert n; induction fuel as [|fuel IH]; intros n Hf.
  - destruct Hf as [_ Hf]. cbn in *. lia.
  - cbn [digits_le]. destruct (Z.gtb_spec n 0) as [Hn|Hn];
      [|destruct Hf as [_ Hf]; cbn; lia].
    apply fuel_for_next in Hf as Hf'; [|done]. destruct Hf as [Hb' _].
    rewrite fmap_cons. cbn [rev]. unfold numeral_value in *.
    rewrite foldl_app, IH by done. cbn [foldl].
    pose proof (Z.mod_pos_bound n b ltac:(lia)).
    rewrite char_digit_char by lia. pose proof (Z.div_mod n b ltac:(lia)). lia.
Qed.

(** The digits are below the base, and the last (most significant) one is not zero. *)
Lemma digits_le_range b fuel n :
  2 <= b -> Forall (fun d => 0 <= d < b) (digits_le fuel b n).
Proof.
  intros Hb. revert n; induction fuel as [|fuel IH]; intros n; cbn [digits_le]; [done|].
  destruct (n >? 0); [|done]. constructor; [apply Z.mod_pos_bound; lia | apply IH].
Qed.

Lemma digits_le_last b fuel n :
  0 < n -> fuel_for b n fuel -> exists d, 0 < d /\ last (digits_le fuel b n) = Some d.
Proof.
  revert n; induction fuel as [|fuel IH]; intros n Hn Hf.
  - destruct Hf as [_ Hf]. cbn in Hf. lia.
  - cbn [digits_le]. rewrite (proj2 (Z.gtb_lt _ _)) by lia.
    apply fuel_for_next in Hf as Hf'; [|done]. destruct Hf as [Hb _].
    destruct (Z.eq_dec (n / b) 0) as [Hz|Hnz].
    + rewrite Hz. exists (n mod b). split; [|by destruct fuel].
      pose proof (Z.div_mod n b ltac:(lia)). lia.
    + assert (0 < n / b) as Hpos by (pose proof (Z.div_pos n b ltac:(lia) ltac:(lia)); lia).
      destruct (IH _ Hpos Hf') as (d & Hd & Hlast). exists d. split; [done|].
      rewrite last_cons, Hlast. done.
Qed.

(** What it means for a text to be the numeral of [n] in base [b]: it denotes [n], is not
    empty, uses the digits of the base, and has a leading zero only for zero itself. *)
Record is_numeral (b n : Z) (cs : list Z) : Prop := {
  numeral_denotes : numeral_value b cs = n;
  numeral_digits : Forall (fun c => exists d, 0 <= d < b /\ c = digit_char d) cs;
  numeral_head : exists c, head cs = Some c /\ (c = 48 -> n = 0);
}.

Lemma numeral_is_numeral b n : 2 <= b <= 16 -> uint 64 n -> is_numeral b n (numeral b n).
Proof.
  intros Hb Hn. pose proof (u64_fuel b n ltac:(lia) Hn) as Hf. unfold numeral.
  destruct (Z.eqb_spec n 0) as [->|Hnz].
  - split; [done| |by exists 48]. apply Forall_singleton. exists 0. split; [lia | done].
  - split; [apply numeral_value_digits; [lia|done]| |].
    + apply Forall_rev, Forall_fmap. eapply Forall_impl; [apply (digits_le_range b 64 n); lia|].
      intros d Hd. by exists d.
    + destruct Hn as [Hn _].
      destruct (digits_le_last b 64 n ltac:(lia) Hf) as (d & Hd & Hlast).
      pose proof (digits_le_range b 64 n ltac:(lia)) as Hr. rewrite Forall_forall in Hr.
      apply last_Some_elem_of in Hlast as Hin. apply Hr in Hin.
      exists (digit_char d). split.
      * rewrite rev_alt. change (rev_append ?l []) with (reverse l).
        by rewrite head_reverse, fmap_last, Hlast.
      * unfold digit_char. case_bool; lia.
Qed.

(** * Texts printed by compositions of the helpers

    [m ≡ send bs] says that [m] prints [bs] and does nothing else; the lemmas below compose
    such facts along the code, and [prints] applies them. *)

Lemma prints_bind m n bs cs :
  m ≡ send bs -> n ≡ send cs -> (_ ← m; n) ≡ send (bs ++ cs).
Proof. intros Hm Hn. rewrite send_app. apply M_bind_proper; [intros _; exact Hn | exact Hm]. Qed.

Lemma prints_ret : mret () ≡ send [].
Proof. done. Qed.

Lemma prints_if (b : bool) m n bs cs :
  m ≡ send bs -> n ≡ send cs -> (if b then m else n) ≡ send (if b then bs else cs).
Proof. by destruct b. Qed.

Lemma prints_lift {A} (a : A) (k : A -> M unit) bs :
  k a ≡ send bs -> (mret a ≫= k) ≡ send bs.
Proof. intros H. by rewrite M_bind_ret_l. Qed.

(** The same for code that prints and returns a value. *)
Lemma prints_val {A B} (m : M A) (k : A -> M B) bs cs a b :
  m ≡ (_ ← send bs; mret a) -> k a ≡ (_ ← send cs; mret b) ->
  (m ≫= k) ≡ (_ ← send (bs ++ cs); mret b).
Proof.
  intros Hm Hk w. unfold mbind, M_bind. rewrite (Hm w), (send_app bs cs w).
  unfold mbind, M_bind. destruct (send bs w) as [[] w'| | |]; try done. apply Hk.
Qed.

Lemma prints_ret_val {A} (a : A) : mret a ≡ (_ ← send []; mret a).
Proof. done. Qed.

Lemma prints_then_val {A} m (k : M A) bs cs a :
  m ≡ send bs -> k ≡ (_ ← send cs; mret a) -> (_ ← m; k) ≡ (_ ← send (bs ++ cs); mret a).
Proof.
  intros Hm Hk. apply (prints_val m (fun _ => k) bs cs () a); [|exact Hk].
  intros w. rewrite (Hm w). unfold mbind, M_bind. by destruct (send bs w) as [[]| | |].
Qed.

Lemma prints_drop_val {A} (m : M A) (k : A -> M unit) bs cs a :
  m ≡ (_ ← send bs; mret a) -> k a ≡ send cs -> (m ≫= k) ≡ send (bs ++ cs).
Proof.
  intros Hm Hk w. unfold mbind, M_bind. rewrite (Hm w), (send_app bs cs w).
  unfold mbind, M_bind. destruct (send bs w) as [[] w'| | |]; try done. apply Hk.
Qed.

Lemma prints_for_each {A} (l : list A) (f : A -> M unit) (t : A -> list Z) :
  (forall a, a ∈ l -> f a ≡ send (t a)) -> for_each l f ≡ send (mjoin (t <$> l)).
Proof.
  induction l as [|a l IH]; intros H; [done|]. rewrite fmap_cons. cbn [for_each mjoin list_join].
  apply prints_bind; [apply H; left | apply IH; intros b Hb; apply H; by right].
Qed.

Ltac prints := repeat lazymatch goal with
  | |- serial_write_str _ ≡ _ => apply serial_write_str_send
  | |- serial_write_usize _ ≡ _ => apply serial_write_usize_send
  | |- serial_write_usize_hex _ ≡ _ => apply serial_write_usize_hex_send
  | |- (_ ≫= _) ≡ _ => apply prints_bind
  | |- mret _ ≡ _ => apply prints_ret
  end.

(** A transmission changes nothing but the device input and the log. *)
Lemma send_frame bs w :
  w_cpu (final (send bs w)) = w_cpu w /\ w_mem (final (send bs w)) = w_mem w.
Proof.
  revert w; induction bs as [|b bs IH]; intros w; [done|]. rewrite !send_cons.
  destruct (drain (w_in w) (w_log w)) as [log [rest|]]; [|done].
  exact (IH (with_io rest (EvOut (COM1_BASE + REG_DATA) b :: log) w)).
Qed.

(** Steps of a routine that prints and then never returns. *)
Definition print_and_halt (bs : list Z) : M void := _ ← send bs; hlt_forever.

Lemma print_step m (rest : M void) bs cs w :
  m w = send bs w ->
  (forall w', w_mem w' = w_mem w -> w_cpu w' = w_cpu w -> rest w' = print_and_halt cs w') ->
  (_ ← m; rest) w = print_and_halt (bs ++ cs) w.
Proof.
  intros Hm Hrest. unfold print_and_halt, mbind, M_bind. rewrite (send_app bs cs w), Hm.
  unfold mbind, M_bind. pose proof (send_frame bs w) as [Hc Hw].
  destruct (send bs w) as [? w'| | |]; try done. by apply Hrest.
Qed.

Lemma print_last w : @hlt_forever void w = print_and_halt [] w.
Proof. done. Qed.

(** * Properties *)

(** C28: the boot-side UART helpers mirror the kernel driver: the same initialisation, and
    the same byte stream on every device for a text whose newlines are already expanded
    (the boot copy does not translate them). *)
Theorem boot_serial_mirrors_kernel {P : Profile} :
  serial_init ≡ SerialPort_init SerialPort_new
  /\ (forall b, serial_write_byte b ≡ SerialPort_write_byte SerialPort_new b)
  /\ forall text, SerialPort_write_str SerialPort_new text ≡ serial_write_str (expand text).
Proof.
  split_and!.
  - intros w. by rewrite serial_init_log.
  - intros b. by rewrite serial_write_byte_tx, write_byte_tx.
  - intros text. by rewrite write_str_send, serial_write_str_send.
Qed.

(** C27: for every [usize], the two number printers never overrun their buffers of 20 and
    16 digits nor panic, and send exactly the decimal (hexadecimal) numeral of the number:
    digits of the base only, denoting the number, without a leading zero. *)
Theorem number_printers_correct {P : Profile} (n : Z) :
  uint 64 n ->
  serial_write_usize n ≡ send (decimal n) /\ is_numeral 10 n (decimal n)
  /\ serial_write_usize_hex n ≡ send (hexadecimal n) /\ is_numeral 16 n (hexadecimal n)
  /\ (length (decimal n) <= 20)%nat /\ (length (hexadecimal n) <= 16)%nat.
Proof.
  intros Hn. split_and!.
  - by apply serial_write_usize_send.
  - by apply numeral_is_numeral.
  - by apply serial_write_usize_hex_send.
  - by apply numeral_is_numeral.
  - apply length_numeral; [lia..|]. split; [by destruct Hn | by apply u64_decimal].
  - apply length_numeral; [lia..|]. split; [by destruct Hn | by apply u64_hexadecimal].
Qed.

Lemma number_printers_correct_witness :
  decimal 18446744073709551615 = str "18446744073709551615"
  /\ hexadecimal 18446744073709551615 = str "ffffffffffffffff"
  /\ @serial_write_usize dev_profile 18446744073709551615
     ≡ send (decimal 18446744073709551615).
Proof.
  split_and!; [vm_compute; reflexivity..|].
  exact (proj1 (@number_printers_correct dev_profile 18446744073709551615 ltac:(by_dec))).
Defined.
