(* ===== verification/Cpu.v ===== *)
(** The x86-64 instructions that the inline assembly and the exception stubs execute:
    stack operations, descriptor-table and segment loads with the processor's checks, and
    interrupt delivery through the IDT in 64-bit mode.

    A segment load reads the descriptor from the GDT in memory, applies the privilege,
    type and presence checks, and sets the descriptor's accessed bit.  [Image] holds the
    addresses the linker gives to the statics and to the assembly labels. *)

From S2P Require Export Prelude Machine.

(** * Exception vectors the checks raise *)

Definition NP : fault := CpuFault 11.
Definition SS_FAULT : fault := CpuFault 12.
Definition GP : fault := CpuFault 13.
Definition PF : fault := CpuFault 14.

(** * Register access *)

Definition set_reg (r : reg) (v : Z) (c : cpu) : cpu :=
  {| regs := fun r' => if decide (r' = r) then v else regs c r'; segs := segs c;
     rip := rip c; rflags := rflags c; gdtr := gdtr c; idtr := idtr c; cr2 := cr2 c |}.
Definition set_seg (s : seg) (v : Z) (c : cpu) : cpu :=
  {| regs := regs c; segs := fun s' => if decide (s' = s) then v else segs c s';
     rip := rip c; rflags := rflags c; gdtr := gdtr c; idtr := idtr c; cr2 := cr2 c |}.
Definition set_rip (v : Z) (c : cpu) : cpu :=
  {| regs := regs c; segs := segs c; rip := v; rflags := rflags c;
     gdtr := gdtr c; idtr := idtr c; cr2 := cr2 c |}.
Definition set_rflags (v : Z) (c : cpu) : cpu :=
  {| regs := regs c; segs := segs c; rip := rip c; rflags := v;
     gdtr := gdtr c; idtr := idtr c; cr2 := cr2 c |}.
Definition set_gdtr (t : table_register) (c : cpu) : cpu :=
  {| regs := regs c; segs := segs c; rip := rip c; rflags := rflags c;
     gdtr := t; idtr := idtr c; cr2 := cr2 c |}.
Definition set_idtr (t : table_register) (c : cpu) : cpu :=
  {| regs := regs c; segs := segs c; rip := rip c; rflags := rflags c;
     gdtr := gdtr c; idtr := t; cr2 := cr2 c |}.

Definition read_cpu {A} (f : cpu -> A) : M A := fun w => Done (f (w_cpu w)) w.
Definition update_cpu (f : cpu -> cpu) : M unit := fun w => Done () (with_cpu (f (w_cpu w)) w).

Definition mov (r : reg) (v : Z) : M unit := update_cpu (set_reg r v).

(** * Memory and stack *)

Definition read_uint (n : nat) (a : Z) : M Z := fun w =>
  match load_uint n a (w_mem w) with
  | Some z => Done z w
  | None => Faulted PF w
  end.

Definition write_bytes (a : Z) (bs : list Z) : M unit := fun w =>
  Done () (with_mem (store_bytes a bs (w_mem w)) w).

Definition push (v : Z) : M unit :=
  rsp ← read_cpu (fun c => regs c RSP);
  _ ← write_bytes (wrap 64 (rsp - 8)) (le_encode 8 v);
  mov RSP (wrap 64 (rsp - 8)).

Definition pop : M Z :=
  rsp ← read_cpu (fun c => regs c RSP);
  v ← read_uint 8 rsp;
  _ ← mov RSP (wrap 64 (rsp + 8));
  mret v.

Definition push_all (vs : list Z) : M unit := for_each vs push.

(** * Descriptors and selectors *)

Definition selector_index (sel : Z) : Z := Z.shiftr sel 3.
Definition selector_ti (sel : Z) : bool := Z.testbit sel 2.
Definition selector_rpl (sel : Z) : Z := Z.land sel 3.
Definition is_null_selector (sel : Z) : bool := sel <? 4.

Definition desc_present (d : Z) : bool := Z.testbit d 47.
Definition desc_dpl (d : Z) : Z := Z.land (Z.shiftr d 45) 3.
Definition desc_s (d : Z) : bool := Z.testbit d 44.
Definition desc_code (d : Z) : bool := Z.testbit d 43.
Definition desc_conforming (d : Z) : bool := Z.testbit d 42.
Definition desc_rw (d : Z) : bool := Z.testbit d 41.
Definition desc_long (d : Z) : bool := Z.testbit d 53.
Definition desc_db (d : Z) : bool := Z.testbit d 54.
Definition set_accessed (d : Z) : Z := Z.lor d (2 ^ 40).

Definition cpl (c : cpu) : Z := Z.land (segs c CS) 3.

Definition check (b : bool) (f : fault) : M unit := if b then mret () else fault_with f.

(** The descriptor a selector names, with its address.  The kernel has no LDT. *)
Definition fetch_descriptor (sel : Z) : M (Z * Z) :=
  t ← read_cpu gdtr;
  _ ← check (negb (selector_ti sel)) GP;
  _ ← check (8 * selector_index sel + 7 <=? tr_limit t) GP;
  d ← read_uint 8 (tr_base t + 8 * selector_index sel);
  mret (tr_base t + 8 * selector_index sel, d).

(** Loading CS by a far return to the same privilege level, or by an interrupt gate. *)
Definition load_cs (sel : Z) : M unit :=
  _ ← check (negb (is_null_selector sel)) GP;
  '(a, d) ← fetch_descriptor sel;
  level ← read_cpu cpl;
  _ ← check (selector_rpl sel =? level) GP;
  _ ← check (desc_s d && desc_code d) GP;
  _ ← check (if desc_conforming d then desc_dpl d <=? level else desc_dpl d =? level) GP;
  _ ← check (desc_long d && negb (desc_db d)) GP;
  _ ← check (desc_present d) NP;
  _ ← write_bytes a (le_encode 8 (set_accessed d));
  update_cpu (set_seg CS sel).

(** [mov sreg, r16] for a data segment register. *)
Definition load_data_segment (s : seg) (sel : Z) : M unit :=
  if is_null_selector sel then update_cpu (set_seg s sel)
  else
    '(a, d) ← fetch_descriptor sel;
    level ← read_cpu cpl;
    _ ← check (desc_s d && (negb (desc_code d) || desc_rw d)) GP;
    _ ← check (Z.max level (selector_rpl sel) <=? desc_dpl d) GP;
    _ ← check (desc_present d) NP;
    _ ← write_bytes a (le_encode 8 (set_accessed d));
    update_cpu (set_seg s sel).

Definition load_ss (sel : Z) : M unit :=
  level ← read_cpu cpl;
  if is_null_selector sel then
    _ ← check (negb (level =? 3) && (selector_rpl sel =? level)) GP;
    update_cpu (set_seg SS sel)
  else
    '(a, d) ← fetch_descriptor sel;
    _ ← check (selector_rpl sel =? level) GP;
    _ ← check (desc_s d && negb (desc_code d) && desc_rw d) GP;
    _ ← check (desc_dpl d =? level) GP;
    _ ← check (desc_present d) SS_FAULT;
    _ ← write_bytes a (le_encode 8 (set_accessed d));
    update_cpu (set_seg SS sel).

(** 48-bit virtual addresses, sign extended. *)
Definition canonical (a : Z) : bool :=
  ((0 <=? a) && (a <? 2 ^ 47)) || ((2 ^ 64 - 2 ^ 47 <=? a) && (a <? 2 ^ 64)).

(** * System instructions *)

(** The 10-byte operand of [lgdt] and [lidt]. *)
Definition read_table_register (ptr : Z) : M table_register :=
  limit ← read_uint 2 ptr;
  base ← read_uint 8 (ptr + 2);
  _ ← check (canonical base) GP;
  mret {| tr_limit := limit; tr_base := base |}.

Definition lgdt (ptr : Z) : M unit :=
  t ← read_table_register ptr; _ ← update_cpu (set_gdtr t); emit (EvLgdt t).

Definition lidt (ptr : Z) : M unit :=
  t ← read_table_register ptr; _ ← update_cpu (set_idtr t); emit (EvLidt t).

(** [retfq]: pops RIP and CS. *)
Definition retfq : M unit :=
  target ← pop;
  sel ← pop;
  _ ← load_cs (Z.land sel 0xFFFF);
  _ ← check (canonical target) GP;
  update_cpu (set_rip target).

(** Execution goes on at the given label only if RIP is there. *)
Definition at_label (l : Z) : M unit :=
  ip ← read_cpu rip; check (ip =? l) Undefined.

Definition IF_BIT : Z := 9.

Definition cli : M unit :=
  _ ← update_cpu (fun c => set_rflags (Z.clearbit (rflags c) IF_BIT) c); emit EvInterruptsOff.

(** * Addresses chosen by the linker *)

Class Image : Type := {
  GDT_addr : Z;
  IDT_addr : Z;
  BOOTSTRAP_STACK_addr : Z;
  KERNEL_STACK_addr : Z;
  KERNEL_BOOT_INFO_addr : Z;
  isr_addr : nat -> Z;
  isr_irq_addr : Z;
  kernel_entry_addr : Z;
  after_handoff_addr : Z;  (** after [call kernel_entry] *)
  after_handler_addr : Z;  (** the [ud2] after [call exception_handler] *)
}.

(** Evaluate the comparisons of known registers. *)
Ltac decide_regs :=
  repeat match goal with
  | |- context [@decide (?a = ?b) ?d] =>
      first [ rewrite (@decide_True _ (a = b) d) by reflexivity
            | rewrite (@decide_False _ (a = b) d) by discriminate ]
  end.

(** * Lemmas *)

Lemma read_uint_ok n a z w :
  load_uint n a (w_mem w) = Some z -> read_uint n a w = Done z w.
Proof. unfold read_uint. by intros ->. Qed.

Lemma load_uint_store_disjoint n a b bs m :
  a + Z.of_nat n <= b \/ b + Z.of_nat (length bs) <= a ->
  load_uint n a (store_bytes b bs m) = load_uint n a m.
Proof. intros H. unfold load_uint. by rewrite load_store_disjoint. Qed.

Lemma check_true b f : b = true -> check b f = mret ().
Proof. by intros ->. Qed.

Lemma push_ok v w :
  8 <= regs (w_cpu w) RSP < 2 ^ 64 ->
  push v w = Done () (with_cpu (set_reg RSP (regs (w_cpu w) RSP - 8) (w_cpu w))
    (with_mem (store_bytes (regs (w_cpu w) RSP - 8) (le_encode 8 v) (w_mem w)) w)).
Proof.
  intros H. unfold push. erewrite bind_done by done. erewrite bind_done by done.
  by rewrite wrap_small by (unfold uint; lia).
Qed.

Lemma pop_ok v w :
  0 <= regs (w_cpu w) RSP < 2 ^ 64 - 8 ->
  load_uint 8 (regs (w_cpu w) RSP) (w_mem w) = Some v ->
  pop w = Done v (with_cpu (set_reg RSP (regs (w_cpu w) RSP + 8) (w_cpu w)) w).
Proof.
  intros H Hv. unfold pop. erewrite bind_done by done.
  erewrite bind_done by by apply read_uint_ok.
  by rewrite wrap_small by (unfold uint; lia).
Qed.

(** A packed limit/base pair in memory is what [lgdt] and [lidt] read. *)
Lemma read_table_register_ok a l b w :
  uint 16 l -> uint 64 b -> canonical b = true ->
  read_table_register a (with_mem (store_bytes a (le_encode 2 l ++ le_encode 8 b) (w_mem w)) w)
  = Done {| tr_limit := l; tr_base := b |}
      (with_mem (store_bytes a (le_encode 2 l ++ le_encode 8 b) (w_mem w)) w).
Proof.
  intros Hl Hb Hc. unfold read_table_register. rewrite store_bytes_app.
  rewrite length_le_encode. change (Z.of_nat 2) with 2.
  erewrite bind_done by (apply read_uint_ok; by apply load_uint_store).
  erewrite bind_done.
  2:{ apply read_uint_ok. cbn [w_mem with_mem].
      rewrite load_uint_store_disjoint by (rewrite length_le_encode; lia).
      by apply load_uint_store. }
  by rewrite Hc.
Qed.

Lemma canonical_uint a : canonical a = true -> uint 64 a.
Proof.
  unfold canonical, uint. rewrite orb_true_iff, !andb_true_iff, !Z.leb_le, !Z.ltb_lt. lia.
Qed.

(** Quadwords as bytes, and what [push_all] leaves in memory (the last one lowest). *)
Definition qwords (vs : list Z) : list Z := mjoin (le_encode 8 <$> vs).

Lemma length_qwords vs : length (qwords vs) = (8 * length vs)%nat.
Proof.
  unfold qwords. rewrite (length_mjoin_const (le_encode 8) 8); [lia|].
  apply Forall_true. intros v. apply length_le_encode.
Qed.

Lemma push_all_ok vs w :
  let r := regs (w_cpu w) RSP in
  8 * Z.of_nat (length vs) <= r < 2 ^ 64 ->
  exists c, push_all vs w = Done () (with_cpu c
      (with_mem (store_bytes (r - 8 * Z.of_nat (length vs)) (qwords (rev vs)) (w_mem w)) w))
    /\ regs c RSP = r - 8 * Z.of_nat (length vs)
    /\ (forall x, x <> RSP -> regs c x = regs (w_cpu w) x)
    /\ segs c = segs (w_cpu w) /\ rip c = rip (w_cpu w) /\ rflags c = rflags (w_cpu w)
    /\ gdtr c = gdtr (w_cpu w) /\ idtr c = idtr (w_cpu w) /\ cr2 c = cr2 (w_cpu w).
Proof.
  revert w. induction vs as [|v vs IH]; intros w r H.
  - exists (w_cpu w). cbn. split; [by destruct w | split; [unfold r; lia | done]].
  - cbn [length] in H. set (w1 := with_cpu (set_reg RSP (r - 8) (w_cpu w))
      (with_mem (store_bytes (r - 8) (le_encode 8 v) (w_mem w)) w)).
    destruct (IH w1) as (c & E & R & Hx & Hrest); [change (regs (w_cpu w1) RSP) with (r - 8); lia|].
    change (regs (w_cpu w1) RSP) with (r - 8) in E, R.
    exists c. split; [|split; [|split]].
    + change (push_all (v :: vs)) with (_ ← push v; push_all vs).
      erewrite bind_done by (apply push_ok; fold r; lia). fold r w1.
      rewrite E. unfold w1. cbn [with_cpu with_mem w_cpu w_mem w_in w_log rev length].
      replace (r - 8 * Z.of_nat (S (length vs))) with (r - 8 - 8 * Z.of_nat (length vs)) by lia.
      unfold qwords. rewrite fmap_app, list_fmap_singleton.
      rewrite join_app. cbn [mjoin list_join]. rewrite app_nil_r, store_bytes_app.
      fold (qwords (rev vs)). rewrite length_qwords, length_rev.
      by replace (r - 8 - 8 * Z.of_nat (length vs) + Z.of_nat (8 * length vs)) with (r - 8) by lia.
    + rewrite R. cbn [length]. lia.
    + intros x Hne. rewrite Hx by done. cbn. by rewrite decide_False.
    + exact Hrest.
Qed.

(** * A concrete machine, for examples *)

Definition sample_image : Image := {|
  GDT_addr := 0x2000; IDT_addr := 0x3000; BOOTSTRAP_STACK_addr := 0x10000;
  KERNEL_STACK_addr := 0x20000; KERNEL_BOOT_INFO_addr := 0x40000;
  isr_addr := fun v => 0x5000 + 16 * Z.of_nat v; isr_irq_addr := 0x5800;
  kernel_entry_addr := 0x6000; after_handoff_addr := 0x6800; after_handler_addr := 0x5900 |}.

Definition sample_cpu (rsp : Z) : cpu := {|
  regs := fun r => if decide (r = RSP) then rsp else 0;
  segs := fun s => if decide (s = CS) then 0x38 else 0x30;
  rip := 0x7000; rflags := 0x202;
  gdtr := {| tr_limit := 0; tr_base := 0 |}; idtr := {| tr_limit := 0; tr_base := 0 |};
  cr2 := 0 |}.
