(* ===== verification/Runs.v ===== *)
(** Reasoning about all runs of a computation at once.

    [Closed Q F] says that the family [F] of predicates on computations holds of every
    local action (one that neither polls the device nor emits an event), of the emission
    of events in [Q] and of the final halt, and is closed under sequencing.  Routines are
    traversed once against this interface ([KernelRuns], [Boot]); a property of every run
    then costs one instance: the order of events ([emits]), a reflexive and transitive
    relation between the start and the end of a run ([keeps]), and independence from the
    device answers not yet given ([steady]). *)

From S2P Require Export Prelude Machine Serial Cpu.

(** * Local actions *)

(** A pure computation that never runs out of the model's fuel. *)
Definition fuelled {E A} (c : comp E A) : Prop := c <> Panic OutOfFuel.

Definition local {A} (m : M A) : Prop :=
  exists f : cpu -> gmap Z Z -> (A + fault) * (cpu * gmap Z Z),
    (forall c mm e, (f c mm).1 = inr e -> e <> OutOfFuel)
    /\ forall w, m w = let '(r, (c, mm)) := f (w_cpu w) (w_mem w) in
         match r with
         | inl a => Done a (with_cpu c (with_mem mm w))
         | inr e => Faulted e (with_cpu c (with_mem mm w))
         end.

(** [m] belongs to the family. *)
Definition belongs (F : forall A, M A -> Prop) {A} (m : M A) : Prop := F A m.

Notation "F ⊩ m" := (belongs F m) (at level 70, no associativity).

Class Closed (Q : event -> Prop) (F : forall A, M A -> Prop) : Prop := {
  closed_local : forall A (m : M A), local m -> F ⊩ m;
  closed_bind : forall A B (m : M A) (k : A -> M B),
    F ⊩ m -> (forall a, F ⊩ k a) -> F ⊩ (m ≫= k);
  closed_halt : forall A, F ⊩ @hlt_forever A;
  closed_emit : forall e, Q e -> F ⊩ emit e;
}.

(** * Three families *)

(** Every run appends events of [Q] only. *)
Definition emits {A} (Q : event -> Prop) (m : M A) : Prop := forall w, exists l,
  w_log (final (m w)) = l ++ w_log w /\ Forall Q l.

(** [R] relates the start of every run to its end. *)
Definition keeps {A} (R : relation world) (m : M A) : Prop := forall w, R w (final (m w)).

(** More device answers at the end of the input. *)
Definition feed (i : list Z) (w : world) : world := with_io (w_in w ++ i) (w_log w) w.

(** A run that ends does not depend on answers it did not ask for; a run that waits has
    used up its input and is continued, not revised, when more arrives; the model's fuel
    never runs out. *)
Definition steady {A} (m : M A) : Prop := forall w i,
  (exists l, w_log (final (m w)) = l ++ w_log w)
  /\ match m w with
     | Done a w' => m (feed i w) = Done a (feed i w')
     | Halted w' => m (feed i w) = Halted (feed i w')
     | Faulted f w' => f <> OutOfFuel /\ m (feed i w) = Faulted f (feed i w')
     | Waiting w' => w_in w' = [] /\ exists l, w_log (final (m (feed i w))) = l ++ w_log w'
     end.

(** Relations that local actions and the events of [Q] respect. *)
Class Observes (Q : event -> Prop) (R : relation world) : Prop := {
  obs_pre :: PreOrder R;
  obs_state : forall w c m, R w (with_cpu c (with_mem m w));
  obs_emit : forall w e, Q e -> R w (with_io (w_in w) (e :: w_log w) w);
}.

(** * Lemmas on local actions *)

Lemma with_same c w : with_cpu c (with_mem (w_mem w) w) = with_cpu c w.
Proof. by destruct w. Qed.

Lemma with_both_same w : with_cpu (w_cpu w) (with_mem (w_mem w) w) = w.
Proof. by destruct w. Qed.

Lemma local_done {A} (a : cpu -> gmap Z Z -> A) (c : cpu -> gmap Z Z -> cpu)
    (mm : cpu -> gmap Z Z -> gmap Z Z) (m : M A) :
  (forall w, m w = Done (a (w_cpu w) (w_mem w)) (with_cpu (c (w_cpu w) (w_mem w))
     (with_mem (mm (w_cpu w) (w_mem w)) w))) -> local m.
Proof. intros H. exists (fun x y => (inl (a x y), (c x y, mm x y))). split; [done | exact H]. Qed.

Lemma local_ret {A} (a : A) : local (mret a).
Proof. apply (local_done (fun _ _ => a) (fun c _ => c) (fun _ m => m)). by intros []. Qed.

Lemma local_fault {A} f : f <> OutOfFuel -> local (@fault_with A f).
Proof.
  intros Hf. exists (fun c mm => (inr f, (c, mm))). split; [by intros c mm e [= <-] | by intros []].
Qed.

Lemma local_lift {A} (c : comp void A) : fuelled c -> local (lift c).
Proof.
  intros Hc. destruct c as [a|[]|f]; [apply local_ret|].
  apply local_fault. intros ->. by apply Hc.
Qed.

Lemma local_read_cpu {A} (f : cpu -> A) : local (read_cpu f).
Proof. apply (local_done (fun c _ => f c) (fun c _ => c) (fun _ m => m)). by intros []. Qed.

Lemma local_update_cpu f : local (update_cpu f).
Proof. apply (local_done (fun _ _ => ()) (fun c _ => f c) (fun _ m => m)). by intros []. Qed.

Lemma local_mov r v : local (mov r v).
Proof. apply local_update_cpu. Qed.

Lemma local_check b f : f <> OutOfFuel -> local (check b f).
Proof. intros Hf. destruct b; [apply local_ret | by apply local_fault]. Qed.

Lemma local_write a bs : local (write_bytes a bs).
Proof.
  apply (local_done (fun _ _ => ()) (fun c _ => c) (fun _ m => store_bytes a bs m)). by intros [].
Qed.

(** A read that faults where the memory is not there or holds no valid value. *)
Lemma local_load {A} (f : gmap Z Z -> A + fault) (m : M A) :
  (forall mm e, f mm = inr e -> e <> OutOfFuel) ->
  (forall w, m w = match f (w_mem w) with inl a => Done a w | inr e => Faulted e w end) -> local m.
Proof.
  intros Hf Hm. exists (fun c mm => (f mm, (c, mm))). split; [intros c mm; apply Hf|].
  intros w. rewrite Hm. by destruct (f (w_mem w)), w.
Qed.

Lemma local_read_uint n a : local (read_uint n a).
Proof.
  apply (local_load (fun m => match load_uint n a m with Some z => inl z | None => inr PF end)).
  - intros mm e. by destruct (load_uint n a mm); intros [= <-].
  - intros w. unfold read_uint. by destruct (load_uint n a (w_mem w)).
Qed.

(** ** Pure computations with enough fuel *)

Lemma fuelled_ok {E A} (a : A) : @fuelled E A (Ok a).
Proof. done. Qed.

Lemma fuelled_bind {E A B} (c : comp E A) (k : A -> comp E B) :
  fuelled c -> (forall a, fuelled (k a)) -> fuelled (c ≫= k).
Proof. intros Hc Hk. destruct c as [a|e|f]; cbn; [apply Hk | done |]. by intros [= ->]. Qed.

Lemma fuelled_arith {P : Profile} {E} w n : fuelled (@arith P E w n).
Proof. unfold arith. by repeat case_match. Qed.

Lemma fuelled_index {E A} (l : list A) i : fuelled (@index E A l i).
Proof. unfold index. by repeat case_match. Qed.

Lemma fuelled_set_index {E A} (l : list A) i a : fuelled (@set_index E A l i a).
Proof. unfold set_index. by repeat case_match. Qed.

Lemma fuelled_slice_to {E A} (l : list A) n : fuelled (@slice_to E A l n).
Proof. unfold slice_to. by repeat case_match. Qed.

Create HintDb fuel discriminated.
#[export] Hint Resolve fuelled_ok fuelled_bind fuelled_arith fuelled_index fuelled_set_index
  fuelled_slice_to : fuel.
#[export] Hint Extern 1 (fuelled (add_u _ _ _)) => apply fuelled_arith : fuel.
#[export] Hint Extern 1 (fuelled (mul_u _ _ _)) => apply fuelled_arith : fuel.

(** Take a pure computation apart. *)
Ltac fuelled :=
  repeat match goal with
  | |- forall _, _ => intro
  | |- fuelled (_ ≫= _) => apply fuelled_bind
  | |- fuelled (match ?x with _ => _ end) => destruct x
  | |- fuelled (Panic _) => discriminate
  | |- fuelled _ => solve [auto with fuel nocore]
  end.

(** * Traversal *)

(** Local actions by name; a component adds its own. *)
Create HintDb local discriminated.
#[export] Hint Resolve local_ret local_read_cpu local_update_cpu local_mov local_write
  local_read_uint : local.
#[export] Hint Extern 1 (local (lift _)) => apply local_lift; auto with fuel nocore : local.
#[export] Hint Extern 1 (local (fault_with _)) => by apply local_fault : local.
#[export] Hint Extern 1 (local (check _ _)) => by apply local_check : local.

(** Composite routines that have been traversed. *)
Create HintDb closed discriminated.

Lemma closed_for_each {Q F} {HF : Closed Q F} {A} (l : list A) f : (forall a, F ⊩ f a) -> F ⊩ for_each l f.
Proof.
  intros H. induction l as [|a l IH]; [apply closed_local, local_ret|]. by apply closed_bind.
Qed.

(** Take a computation apart into actions, and close those that are known. *)
Ltac traverse :=
  repeat match goal with
  | |- forall _, _ => intro
  | |- _ ⊩ (match ?x with _ => _ end) => destruct x
  | |- _ ⊩ (_ ≫= _) => apply closed_bind
  | |- _ ⊩ for_each _ _ => apply closed_for_each
  | |- _ ⊩ hlt_forever => apply closed_halt
  | |- _ ⊩ emit _ => by apply closed_emit
  | |- _ ⊩ _ => solve [auto with closed nocore | apply closed_local; auto with local nocore]
  end.

Section traversal.
Context {Q : event -> Prop} {F : forall A, M A -> Prop} {HF : Closed Q F}.

Lemma closed_push v : F ⊩ push v.
Proof. unfold push. traverse. Qed.

Lemma closed_pop : F ⊩ pop.
Proof. unfold pop. traverse. Qed.

Lemma closed_fetch s : F ⊩ fetch_descriptor s.
Proof. unfold fetch_descriptor. traverse. Qed.
End traversal.

#[export] Hint Extern 1 (_ ⊩ push _) => apply closed_push : closed.
#[export] Hint Extern 1 (_ ⊩ pop) => apply closed_pop : closed.
#[export] Hint Extern 1 (_ ⊩ fetch_descriptor _) => apply closed_fetch : closed.

Section instructions.
Context {Q : event -> Prop} {F : forall A, M A -> Prop} {HF : Closed Q F}.

Lemma closed_push_all vs : F ⊩ push_all vs.
Proof. unfold push_all. traverse. Qed.

Lemma closed_load_cs sel : F ⊩ load_cs sel.
Proof. unfold load_cs. traverse. Qed.

Lemma closed_load_data s sel : F ⊩ load_data_segment s sel.
Proof. unfold load_data_segment. traverse. Qed.

Lemma closed_load_ss sel : F ⊩ load_ss sel.
Proof. unfold load_ss. traverse. Qed.

Lemma closed_table_register ptr : F ⊩ read_table_register ptr.
Proof. unfold read_table_register. traverse. Qed.
End instructions.

#[export] Hint Extern 1 (_ ⊩ push_all _) => apply closed_push_all : closed.
#[export] Hint Extern 1 (_ ⊩ load_cs _) => apply closed_load_cs : closed.
#[export] Hint Extern 1 (_ ⊩ load_data_segment _ _) => apply closed_load_data : closed.
#[export] Hint Extern 1 (_ ⊩ load_ss _) => apply closed_load_ss : closed.
#[export] Hint Extern 1 (_ ⊩ read_table_register _) => apply closed_table_register : closed.

(** * The families are closed *)

Lemma local_log {A} (m : M A) w :
  local m -> w_log (final (m w)) = w_log w /\ w_in (final (m w)) = w_in w.
Proof.
  intros (f & _ & E). rewrite E. by destruct (f (w_cpu w) (w_mem w)) as [[a|e] [c mm]].
Qed.

Lemma closed_weaken (Q Q' : event -> Prop) F :
  (forall e, Q' e -> Q e) -> Closed Q F -> Closed Q' F.
Proof.
  intros H HF. split; [apply closed_local | apply closed_bind | apply closed_halt |].
  intros e He. by apply closed_emit, H.
Qed.

#[export] Instance emits_closed Q : Closed Q (fun A => @emits A Q).
Proof.
  split.
  - intros A m Hm w. exists []. by destruct (local_log m w Hm) as [-> _].
  - intros A B m k Hm Hk w. destruct (Hm w) as (l & El & Hl). unfold mbind, M_bind.
    destruct (m w) as [a v|v|v|f v]; cbn [final] in *; try by exists l.
    destruct (Hk a v) as (l' & El' & Hl'). exists (l' ++ l). rewrite El', El, <- app_assoc.
    split; [done | by apply Forall_app].
  - intros A w. by exists [].
  - intros e He w. exists [e]. split; [done | by apply Forall_singleton].
Qed.

#[export] Instance keeps_closed Q R : Observes Q R -> Closed Q (fun A => @keeps A R).
Proof.
  intros HR. pose proof obs_pre as HP. split.
  - intros A m (f & _ & E) w. rewrite E.
    destruct (f (w_cpu w) (w_mem w)) as [[a|e] [c mm]]; apply obs_state.
  - intros A B m k Hm Hk w. specialize (Hm w). unfold mbind, M_bind.
    destruct (m w) as [a v|v|v|f v]; cbn [final] in *; try done.
    etransitivity; [exact Hm | apply Hk].
  - intros A w. reflexivity.
  - intros e He w. by apply obs_emit.
Qed.

Lemma steady_bind {A B} (m : M A) (k : A -> M B) :
  steady m -> (forall a, steady (k a)) -> steady (m ≫= k).
Proof.
  intros Hm Hk w i. destruct (Hm w i) as [[l El] H]. unfold mbind, M_bind.
  destruct (m w) as [a v|v|v|f v]; cbn [final] in *.
  - rewrite H. destruct (Hk a v i) as [[l' El'] H']. split; [|exact H'].
    exists (l' ++ l). by rewrite El', El, app_assoc.
  - split; [by exists l|]. destruct H as [Hi [l' El']]. split; [done|].
    destruct (m (feed i w)) as [a v2|v2|v2|f v2]; cbn [final] in El'; try by exists l'.
    destruct (Hk a v2 []) as [[l2 E2] _]. exists (l2 ++ l'). by rewrite E2, El', app_assoc.
  - rewrite H. split; [by exists l | done].
  - destruct H as [Hf H]. rewrite H. split; [by exists l | done].
Qed.

#[export] Instance steady_closed Q : Closed Q (@steady).
Proof.
  split.
  - intros A m Hm w i. split; [exists []; by destruct (local_log m w Hm)|].
    destruct Hm as (f & Hf & E). rewrite !E.
    change (w_cpu (feed i w)) with (w_cpu w). change (w_mem (feed i w)) with (w_mem w).
    specialize (Hf (w_cpu w) (w_mem w)).
    destruct (f (w_cpu w) (w_mem w)) as [[a|e] [c mm]]; [done|]. by split; [apply Hf|].
  - intros A B m k. apply steady_bind.
  - intros A w i. split; [by exists [] | done].
  - intros e _ w i. split; [by exists [e] | done].
Qed.
