(* ===== verification/Gdt.v ===== *)
(** The global descriptor table: the kernel's [kernel/src/arch/x86_64/gdt.rs] and the
    copy of it in [boot/src/main.rs].

    [gdt_init] is the whole routine, its inline assembly included, run on the processor of
    [Cpu].  Its two compiler-chosen addresses, the stack slot of the local [GdtPointer]
    and the address of the assembly label [2:], are arguments.  The registers the compiler
    allocates to operands are not modelled; the only register the assembly names is RSP
    (through push and retfq). *)

From S2P Require Export Prelude Machine Cpu.

(** * Kernel module *)

Definition NULL_DESCRIPTOR : Z := 0x0000000000000000.
Definition KERNEL_CODE_DESCRIPTOR : Z := 0x00AF9A000000FFFF.
Definition KERNEL_DATA_DESCRIPTOR : Z := 0x00CF92000000FFFF.
Definition KERNEL_CODE_SELECTOR : Z := 0x08.
Definition KERNEL_DATA_SELECTOR : Z := 0x10.

Definition GDT : list Z := [NULL_DESCRIPTOR; KERNEL_CODE_DESCRIPTOR; KERNEL_DATA_DESCRIPTOR].

(** [size_of::<Gdt>()]: three [u64]. *)
Definition size_of_Gdt : Z := 3 * 8.

Record GdtPointer : Type := { gdt_limit : Z; gdt_base : Z }.

(** [repr(C, packed)]. *)
Definition GdtPointer_bytes (p : GdtPointer) : list Z :=
  le_encode 2 (gdt_limit p) ++ le_encode 8 (gdt_base p).

Definition gdt_rs_init {I : Image} (slot label : Z) : M unit :=
  let ptr := {| gdt_limit := wrap 16 (size_of_Gdt - 1); gdt_base := GDT_addr |} in
  _ ← write_bytes slot (GdtPointer_bytes ptr);
  _ ← lgdt slot;
  _ ← push (wrap 64 KERNEL_CODE_SELECTOR);
  _ ← push label;
  _ ← retfq;
  _ ← at_label label;
  _ ← load_data_segment DS KERNEL_DATA_SELECTOR;
  _ ← load_data_segment ES KERNEL_DATA_SELECTOR;
  _ ← load_data_segment FS KERNEL_DATA_SELECTOR;
  _ ← load_data_segment GS KERNEL_DATA_SELECTOR;
  load_ss KERNEL_DATA_SELECTOR.

(** * Boot copy *)

Definition GDT_KERNEL_CODE : Z := 0x00AF9A000000FFFF.
Definition GDT_KERNEL_DATA : Z := 0x00CF92000000FFFF.
Definition BOOT_CODE_SELECTOR : Z := 0x08.
Definition BOOT_DATA_SELECTOR : Z := 0x10.

Definition boot_GDT : list Z := [0x0000000000000000; GDT_KERNEL_CODE; GDT_KERNEL_DATA].

Definition gdt_init {I : Image} (slot label : Z) : M unit :=
  let ptr := {| gdt_limit := wrap 16 (size_of_Gdt - 1); gdt_base := GDT_addr |} in
  _ ← write_bytes slot (GdtPointer_bytes ptr);
  _ ← lgdt slot;
  _ ← push BOOT_CODE_SELECTOR;
  _ ← push label;
  _ ← retfq;
  _ ← at_label label;
  _ ← load_data_segment DS BOOT_DATA_SELECTOR;
  _ ← load_data_segment ES BOOT_DATA_SELECTOR;
  _ ← load_data_segment FS BOOT_DATA_SELECTOR;
  _ ← load_data_segment GS BOOT_DATA_SELECTOR;
  load_ss BOOT_DATA_SELECTOR.

(** * Specification *)

(** The fields of a code or data descriptor, and their place in the word, as the module's
    documentation draws it. *)
Record segment : Type := {
  sd_base : Z; sd_limit : Z; sd_g : bool; sd_db : bool; sd_l : bool; sd_avl : bool;
  sd_p : bool; sd_dpl : Z; sd_s : bool; sd_type : Z;
}.

Definition field (d pos width : Z) : Z := Z.shiftr d pos mod 2 ^ width.

Definition segment_of (d : Z) : segment := {|
  sd_base := field d 16 24 + 2 ^ 24 * field d 56 8;
  sd_limit := field d 0 16 + 2 ^ 16 * field d 48 4;
  sd_g := Z.testbit d 55; sd_db := Z.testbit d 54; sd_l := Z.testbit d 53;
  sd_avl := Z.testbit d 52; sd_p := Z.testbit d 47; sd_dpl := field d 45 2;
  sd_s := Z.testbit d 44; sd_type := field d 40 4 |}.

(** Descriptors in memory at the GDT. *)
Definition gdt_in_memory {I : Image} (ds : list Z) (m : gmap Z Z) : Prop :=
  forall i d, ds !! i = Some d -> load_uint 8 (GDT_addr + 8 * Z.of_nat i) m = Some d.

(** The table after the processor has loaded both segments. *)
Definition accessed_GDT : list Z :=
  [NULL_DESCRIPTOR; set_accessed KERNEL_CODE_DESCRIPTOR; set_accessed KERNEL_DATA_DESCRIPTOR].

Definition disjoint_ranges (a n b k : Z) : Prop := a + n <= b \/ b + k <= a.

(** Memory agrees outside a range. *)
Definition agree_outside (a n : Z) (m m' : gmap Z Z) : Prop :=
  forall b, ~ (a <= b < a + n) -> m' !! b = m !! b.

(** The processor uses this table, at ring 0, with descriptors [c] and [d] in it. *)
Record gdt_ready {I : Image} (c d : Z) (w : world) : Prop := {
  ready_gdtr : gdtr (w_cpu w) = {| tr_limit := 23; tr_base := GDT_addr |};
  ready_cpl : cpl (w_cpu w) = 0;
  ready_table : gdt_in_memory [NULL_DESCRIPTOR; c; d] (w_mem w);
}.

(** * Lemmas *)

Lemma agree_outside_refl a n m : agree_outside a n m m.
Proof. by intros b. Qed.

Lemma agree_outside_trans a n m1 m2 m3 :
  agree_outside a n m1 m2 -> agree_outside a n m2 m3 -> agree_outside a n m1 m3.
Proof. intros H1 H2 b Hb. by rewrite H2, H1. Qed.

Lemma store_agree_outside a n x bs m :
  a <= x -> x + Z.of_nat (length bs) <= a + n -> agree_outside a n m (store_bytes x bs m).
Proof.
  intros H1 H2 b Hb. destruct (Z_lt_ge_dec b x).
  - by apply store_bytes_lookup_lt.
  - apply store_bytes_lookup_ge. lia.
Qed.

Section gdt_lemmas.
Context {I : Image}.

(** Storing a descriptor over entry [i]. *)
Lemma gdt_store ds i d m :
  (i < length ds)%nat -> uint 64 d -> gdt_in_memory ds m ->
  gdt_in_memory (<[i:=d]> ds) (store_bytes (GDT_addr + 8 * Z.of_nat i) (le_encode 8 d) m).
Proof.
  intros Hi Hd Hm j e Hj. destruct (decide (i = j)) as [<-|Hij].
  - rewrite list_lookup_insert_eq in Hj by done. injection Hj as <-. by apply load_uint_store.
  - rewrite list_lookup_insert_ne in Hj by done.
    rewrite load_uint_store_disjoint; [by apply Hm|]. rewrite length_le_encode. lia.
Qed.

Lemma gdt_store_disjoint ds a bs m :
  disjoint_ranges a (Z.of_nat (length bs)) GDT_addr (8 * Z.of_nat (length ds)) ->
  gdt_in_memory ds m -> gdt_in_memory ds (store_bytes a bs m).
Proof.
  intros Hd Hm i d Hi. rewrite load_uint_store_disjoint; [by apply Hm|].
  apply lookup_lt_Some in Hi. unfold disjoint_ranges in Hd. lia.
Qed.

Lemma fetch_ok c d w i e :
  gdt_ready c d w -> [NULL_DESCRIPTOR; c; d] !! i = Some e ->
  fetch_descriptor (8 * Z.of_nat i) w = Done (GDT_addr + 8 * Z.of_nat i, e) w.
Proof.
  intros [Hg _ Hm] Hi. pose proof (lookup_lt_Some _ _ _ Hi) as Hlt. cbn in Hlt.
  unfold fetch_descriptor. erewrite bind_done by done. rewrite Hg. cbn [tr_limit tr_base].
  unfold selector_index, selector_ti.
  destruct i as [|[|[|i]]]; [| | |lia];
    (rewrite !check_true by done; erewrite bind_done by done; erewrite bind_done by done;
     erewrite bind_done by (apply read_uint_ok; exact (Hm _ _ Hi)); done).
Qed.

(** The conditions under which the checks of the loads succeed at ring 0. *)
Definition code_ok (d : Z) : bool :=
  desc_s d && desc_code d && negb (desc_conforming d) && (desc_dpl d =? 0)
  && desc_long d && negb (desc_db d) && desc_present d.
Definition data_ok (d : Z) : bool :=
  desc_s d && negb (desc_code d) && desc_rw d && (desc_dpl d =? 0) && desc_present d.

(** World after loading segment [s] from entry [i] holding [e]. *)
Definition loaded (s : seg) (i : nat) (e : Z) (w : world) : world :=
  with_cpu (set_seg s (8 * Z.of_nat i) (w_cpu w))
    (with_mem (store_bytes (GDT_addr + 8 * Z.of_nat i) (le_encode 8 (set_accessed e)) (w_mem w)) w).

Lemma load_cs_ok c d w :
  gdt_ready c d w -> code_ok c = true -> load_cs 8 w = Done () (loaded CS 1 c w).
Proof.
  intros Hr Hc. unfold code_ok in Hc. rewrite !andb_true_iff, !negb_true_iff in Hc.
  destruct Hc as ((((((H1 & H2) & H3) & H4) & H5) & H6) & H7).
  unfold load_cs. erewrite bind_done by done.
  erewrite bind_done by exact (fetch_ok c d w 1 c Hr eq_refl).
  cbv beta iota zeta.
  erewrite bind_done by done. rewrite (ready_cpl _ _ _ Hr), H1, H2, H3, H4, H5, H6, H7. done.
Qed.

Lemma load_data_segment_ok c d s w :
  gdt_ready c d w -> data_ok d = true ->
  load_data_segment s 16 w = Done () (loaded s 2 d w).
Proof.
  intros Hr Hd. unfold data_ok in Hd. rewrite !andb_true_iff, !negb_true_iff in Hd.
  destruct Hd as ((((H1 & H2) & H3) & H4) & H5). apply Z.eqb_eq in H4.
  unfold load_data_segment. change (is_null_selector 16) with false. cbv iota.
  erewrite bind_done by exact (fetch_ok c d w 2 d Hr eq_refl).
  cbv beta iota zeta.
  erewrite bind_done by done. rewrite (ready_cpl _ _ _ Hr), H1, H2, H4, H5. done.
Qed.

Lemma load_ss_ok c d w :
  gdt_ready c d w -> data_ok d = true -> load_ss 16 w = Done () (loaded SS 2 d w).
Proof.
  intros Hr Hd. unfold data_ok in Hd. rewrite !andb_true_iff, !negb_true_iff in Hd.
  destruct Hd as ((((H1 & H2) & H3) & H4) & H5).
  unfold load_ss. erewrite bind_done by done.
  change (is_null_selector 16) with false. cbv iota.
  erewrite bind_done by exact (fetch_ok c d w 2 d Hr eq_refl).
  cbv beta iota zeta.
  rewrite (ready_cpl _ _ _ Hr), H1, H2, H3, H4, H5. done.
Qed.
End gdt_lemmas.

Section gdt_run.
Context {I : Image}.

Lemma loaded_code_ready c d w :
  uint 64 (set_accessed c) -> gdt_ready c d w ->
  gdt_ready (set_accessed c) d (loaded CS 1 c w).
Proof.
  intros Hu [Hg _ Hm]. split; [exact Hg | done |].
  exact (gdt_store [NULL_DESCRIPTOR; c; d] 1 _ _ ltac:(simpl; lia) Hu Hm).
Qed.

Lemma loaded_data_ready c d s w :
  s <> CS -> uint 64 (set_accessed d) -> gdt_ready c d w ->
  gdt_ready c (set_accessed d) (loaded s 2 d w).
Proof.
  intros Hs Hu [Hg Hl Hm]. split; [exact Hg | | ].
  - unfold cpl in *. cbn. by rewrite decide_False by congruence.
  - exact (gdt_store [NULL_DESCRIPTOR; c; d] 2 _ _ ltac:(simpl; lia) Hu Hm).
Qed.

(** What the segment loads leave alone. *)
Record only_segments (w w' : world) : Prop := {
  os_regs : regs (w_cpu w') = regs (w_cpu w);
  os_rip : rip (w_cpu w') = rip (w_cpu w);
  os_rflags : rflags (w_cpu w') = rflags (w_cpu w);
  os_idtr : idtr (w_cpu w') = idtr (w_cpu w);
  os_cr2 : cr2 (w_cpu w') = cr2 (w_cpu w);
  os_in : w_in w' = w_in w;
  os_log : w_log w' = w_log w;
  os_mem : agree_outside GDT_addr 24 (w_mem w) (w_mem w');
}.

Lemma only_segments_trans w1 w2 w3 :
  only_segments w1 w2 -> only_segments w2 w3 -> only_segments w1 w3.
Proof.
  intros [] []. split; try congruence. by eapply agree_outside_trans.
Qed.

Lemma loaded_only_segments s i e w :
  (i < 3)%nat -> only_segments w (loaded s i e w).
Proof.
  intros Hi. split; try done. apply store_agree_outside; rewrite ?length_le_encode; lia.
Qed.

(** The five data-segment loads, the descriptor being possibly already accessed. *)
Definition load_data_segments : M unit :=
  _ ← load_data_segment DS 16; _ ← load_data_segment ES 16;
  _ ← load_data_segment FS 16; _ ← load_data_segment GS 16; load_ss 16.

Lemma data_ok_accessed : data_ok (set_accessed KERNEL_DATA_DESCRIPTOR) = true.
Proof. done. Qed.

Lemma accessed_idem : set_accessed (set_accessed KERNEL_DATA_DESCRIPTOR)
  = set_accessed KERNEL_DATA_DESCRIPTOR.
Proof. done. Qed.

Lemma load_data_segments_ok c w :
  gdt_ready c KERNEL_DATA_DESCRIPTOR w ->
  exists w', load_data_segments w = Done () w'
    /\ gdt_ready c (set_accessed KERNEL_DATA_DESCRIPTOR) w'
    /\ segs (w_cpu w') CS = segs (w_cpu w) CS
    /\ (forall s, s <> CS -> segs (w_cpu w') s = 16) /\ only_segments w w'.
Proof.
  intros H0. set (d := KERNEL_DATA_DESCRIPTOR) in *. set (d' := set_accessed d) in *.
  assert (Hu : uint 64 d') by by_dec.
  pose proof data_ok_accessed as Hok. fold d d' in Hok.
  assert (Hstep : forall s w, s <> CS -> gdt_ready c d' w -> gdt_ready c d' (loaded s 2 d' w)).
  { intros s v Hs Hv. pose proof (loaded_data_ready c d' s v Hs) as H.
    unfold d', d in H. rewrite accessed_idem in H. by apply H. }
  pose proof (loaded_data_ready c d DS w ltac:(done) Hu H0) as H1. fold d' in H1.
  pose proof (Hstep ES _ ltac:(done) H1) as H2. pose proof (Hstep FS _ ltac:(done) H2) as H3.
  pose proof (Hstep GS _ ltac:(done) H3) as H4. pose proof (Hstep SS _ ltac:(done) H4) as H5.
  eexists. split.
  { unfold load_data_segments.
    rewrite (bind_done _ _ _ _ _ (load_data_segment_ok c d DS _ H0 eq_refl)).
    rewrite (bind_done _ _ _ _ _ (load_data_segment_ok c d' ES _ H1 Hok)).
    rewrite (bind_done _ _ _ _ _ (load_data_segment_ok c d' FS _ H2 Hok)).
    rewrite (bind_done _ _ _ _ _ (load_data_segment_ok c d' GS _ H3 Hok)).
    exact (load_ss_ok c d' _ H4 Hok). }
  split_and!; [exact H5 | done | by intros [] Hs | ].
  do 4 (eapply only_segments_trans; [|apply loaded_only_segments; lia]).
  apply loaded_only_segments; lia.
Qed.
End gdt_run.

Section gdt_init.
Context {I : Image}.

Definition far_return (label : Z) : M unit :=
  _ ← push 8; _ ← push label; _ ← retfq; at_label label.

(** RSP is back where it was, and only the 16 bytes under it and the table change. *)
Lemma far_return_ok c d label w :
  let r := regs (w_cpu w) RSP in
  gdt_ready c d w -> code_ok c = true -> uint 64 (set_accessed c) ->
  16 <= r < 2 ^ 64 -> canonical label = true ->
  disjoint_ranges (r - 16) 16 GDT_addr 24 ->
  exists w', far_return label w = Done () w'
    /\ gdt_ready (set_accessed c) d w'
    /\ segs (w_cpu w') = (fun s => if decide (s = CS) then 8 else segs (w_cpu w) s)
    /\ rip (w_cpu w') = label /\ (forall x, regs (w_cpu w') x = regs (w_cpu w) x)
    /\ rflags (w_cpu w') = rflags (w_cpu w) /\ idtr (w_cpu w') = idtr (w_cpu w)
    /\ cr2 (w_cpu w') = cr2 (w_cpu w)
    /\ w_in w' = w_in w /\ w_log w' = w_log w
    /\ forall b, ~ (GDT_addr <= b < GDT_addr + 24) -> ~ (r - 16 <= b < r) ->
         w_mem w' !! b = w_mem w !! b.
Proof.
  intros r Hr Hc Hu Hrsp Hl Hdis. pose proof (canonical_uint _ Hl) as Hlu.
  unfold far_return. erewrite bind_done by (apply push_ok; fold r; lia). fold r.
  set (w1 := with_cpu _ _).
  assert (R1 : regs (w_cpu w1) RSP = r - 8) by done.
  erewrite bind_done by (apply push_ok; lia). rewrite R1.
  replace (r - 8 - 8) with (r - 16) by lia.
  set (w2 := with_cpu _ _).
  assert (R2 : regs (w_cpu w2) RSP = r - 16) by done.
  assert (P1 : pop w2 = Done label (with_cpu (set_reg RSP (r - 8) (w_cpu w2)) w2)).
  { rewrite (pop_ok label) by (rewrite R2; lia || by apply load_uint_store). rewrite R2.
    do 3 f_equal. lia. }
  set (w3 := with_cpu (set_reg RSP (r - 8) (w_cpu w2)) w2) in *.
  assert (P2 : pop w3 = Done 8 (with_cpu (set_reg RSP r (w_cpu w3)) w3)).
  { assert (R3 : regs (w_cpu w3) RSP = r - 8) by done.
    rewrite (pop_ok 8); rewrite R3; [do 3 f_equal; lia | lia |].
    change (load_uint 8 (r - 8) (w_mem w2) = Some 8). unfold w2. cbn [w_mem with_cpu with_mem].
    rewrite load_uint_store_disjoint by (rewrite length_le_encode; lia).
    by apply load_uint_store. }
  set (w4 := with_cpu (set_reg RSP r (w_cpu w3)) w3) in *.
  assert (Hready : gdt_ready c d w4).
  { destruct Hr as [Hg Hlv Hm]. split; [exact Hg | exact Hlv |].
    change (gdt_in_memory [NULL_DESCRIPTOR; c; d] (store_bytes (r - 16) (le_encode 8 label)
      (store_bytes (r - 8) (le_encode 8 8) (w_mem w)))).
    unfold disjoint_ranges in Hdis.
    do 2 (apply gdt_store_disjoint;
      [unfold disjoint_ranges; rewrite length_le_encode; cbn; lia|]). exact Hm. }
  pose proof (load_cs_ok c d w4 Hready Hc) as Hcs.
  pose proof (loaded_code_ready c d w4 Hu Hready) as Hready'.
  set (w5 := loaded CS 1 c w4) in *.
  exists (with_cpu (set_rip label (w_cpu w5)) w5). split_and!.
  - erewrite bind_done; [|unfold retfq; erewrite bind_done by exact P1;
      erewrite bind_done by exact P2; erewrite bind_done by exact Hcs;
      rewrite check_true by exact Hl; reflexivity].
    unfold at_label. erewrite bind_done by done. cbn [rip set_rip w_cpu with_cpu].
    by rewrite Z.eqb_refl.
  - destruct Hready' as [Hg Hlv Hm]. by split.
  - done.
  - done.
  - intros x. cbn. destruct (decide (x = RSP)) as [->|]; done.
  - done.
  - done.
  - done.
  - done.
  - done.
  - intros b Hb1 Hb2. cbn [w_mem with_cpu].
    change (w_mem w5) with (store_bytes (GDT_addr + 8) (le_encode 8 (set_accessed c))
      (store_bytes (r - 16) (le_encode 8 label) (store_bytes (r - 8) (le_encode 8 8) (w_mem w)))).
    rewrite (store_agree_outside GDT_addr 24) by (rewrite ?length_le_encode; lia).
    by rewrite !(store_agree_outside (r - 16) 16) by (rewrite ?length_le_encode; lia).
Qed.
End gdt_init.

Section gdt_property.
Context {I : Image}.

Lemma gdt_init_steps slot label w :
  gdt_init slot label w =
    (_ ← write_bytes slot (le_encode 2 23 ++ le_encode 8 GDT_addr);
     _ ← lgdt slot; _ ← far_return label; load_data_segments) w.
Proof.
  unfold gdt_init, far_return. unfold mbind, M_bind, write_bytes.
  change (GdtPointer_bytes _) with (le_encode 2 23 ++ le_encode 8 GDT_addr).
  change BOOT_CODE_SELECTOR with 8.
  destruct (lgdt _ _) as [? v| | |]; try done.
  destruct (push 8 v) as [? v1| | |]; try done.
  destruct (push label v1) as [? v2| | |]; try done.
  by destruct (retfq v2).
Qed.

(** The two copies of the table and of the routine are the same. *)
Lemma gdt_copies_agree slot label w :
  GDT = boot_GDT /\ gdt_rs_init slot label w = gdt_init slot label w.
Proof. done. Qed.

Lemma gdt_init_run (slot label : Z) (w : world) :
  let r := regs (w_cpu w) RSP in
  cpl (w_cpu w) = 0 -> gdt_in_memory boot_GDT (w_mem w) ->
  canonical GDT_addr = true -> canonical label = true -> 16 <= r < 2 ^ 64 ->
  disjoint_ranges slot 10 GDT_addr 24 -> disjoint_ranges (r - 16) 16 GDT_addr 24 ->
  exists w', gdt_init slot label w = Done () w' /\ gdt_rs_init slot label w = Done () w'
    /\ gdt_ready (set_accessed GDT_KERNEL_CODE) (set_accessed GDT_KERNEL_DATA) w'
    /\ (forall s, segs (w_cpu w') s = if decide (s = CS) then 0x08 else 0x10)
    /\ rip (w_cpu w') = label /\ (forall x, regs (w_cpu w') x = regs (w_cpu w) x)
    /\ rflags (w_cpu w') = rflags (w_cpu w) /\ idtr (w_cpu w') = idtr (w_cpu w)
    /\ cr2 (w_cpu w') = cr2 (w_cpu w)
    /\ w_in w' = w_in w
    /\ w_log w' = EvLgdt {| tr_limit := 23; tr_base := GDT_addr |} :: w_log w
    /\ forall b, ~ (GDT_addr <= b < GDT_addr + 24) -> ~ (r - 16 <= b < r) ->
         ~ (slot <= b < slot + 10) -> w_mem w' !! b = w_mem w !! b.
Proof.
  intros r Hcpl Hgdt Hg Hl Hr Hslot Hstack. pose proof (canonical_uint _ Hg) as Hgu.
  rewrite gdt_init_steps, (proj2 (gdt_copies_agree _ _ _)), gdt_init_steps.
  set (bs := le_encode 2 23 ++ le_encode 8 GDT_addr).
  set (t := {| tr_limit := 23; tr_base := GDT_addr |}).
  set (w1 := with_mem (store_bytes slot bs (w_mem w)) w).
  set (w2 := with_io (w_in w) (EvLgdt t :: w_log w) (with_cpu (set_gdtr t (w_cpu w)) w1)).
  assert (H1 : lgdt slot w1 = Done () w2).
  { unfold lgdt. erewrite bind_done by (by apply read_table_register_ok; [by_dec|..]). done. }
  assert (H2 : gdt_ready GDT_KERNEL_CODE GDT_KERNEL_DATA w2).
  { split; [done | done |]. apply gdt_store_disjoint; [|exact Hgdt].
    change (Z.of_nat (length bs)) with 10. cbn. exact Hslot. }
  destruct (far_return_ok _ _ label w2 H2 eq_refl ltac:(by_dec) Hr Hl Hstack)
    as (w3 & Hrun & Hready & Hsegs & Hrip & Hregs & Hfl & Hidt & Hcr2 & Hin & Hlog & Hmem).
  destruct (load_data_segments_ok _ _ Hready) as (w4 & Hrun4 & Hready4 & Hcs & Hds & Hos).
  destruct Hos. exists w4. split_and!; [| |exact Hready4 |..];
    try solve [etransitivity; [eassumption|]; first [congruence | eassumption]].
  - erewrite bind_done by done. erewrite bind_done by exact H1.
    erewrite bind_done by exact Hrun. exact Hrun4.
  - erewrite bind_done by done. erewrite bind_done by exact H1.
    erewrite bind_done by exact Hrun. exact Hrun4.
  - intros s. destruct (decide (s = CS)) as [->|Hs]; [by rewrite Hcs, Hsegs | by apply Hds].
  - intros x. rewrite os_regs0. apply Hregs.
  - intros b Hb1 Hb2 Hb3. rewrite os_mem0 by done. rewrite Hmem by done.
    change (w_mem w2) with (store_bytes slot bs (w_mem w)).
    apply (store_agree_outside slot 10); [lia | | done].
    change (Z.of_nat (length bs)) with 10. lia.
Qed.

(** C14: at ring 0, both copies of the GDT routine (kernel [gdt::init], boot [gdt_init])
    run without a processor fault and continue at their label; GDTR then covers exactly
    the 24-byte table, CS is the 64-bit ring-0 code segment 0x08 and every data segment
    register is 0x10; RSP and the other registers are restored, and memory changes only in
    the local pointer, in the 16 bytes under RSP, and in the table itself, whose two
    segment descriptors the processor marks accessed. *)
Theorem gdt_init_correct (slot label : Z) (w : world) :
  let r := regs (w_cpu w) RSP in
  cpl (w_cpu w) = 0 -> gdt_in_memory boot_GDT (w_mem w) ->
  canonical GDT_addr = true -> canonical label = true -> 16 <= r < 2 ^ 64 ->
  disjoint_ranges slot 10 GDT_addr 24 -> disjoint_ranges (r - 16) 16 GDT_addr 24 ->
  exists w', gdt_init slot label w = Done () w' /\ gdt_rs_init slot label w = Done () w'
    /\ gdt_ready (set_accessed GDT_KERNEL_CODE) (set_accessed GDT_KERNEL_DATA) w'
    /\ (forall s, segs (w_cpu w') s = if decide (s = CS) then 0x08 else 0x10)
    /\ rip (w_cpu w') = label /\ (forall x, regs (w_cpu w') x = regs (w_cpu w) x)
    /\ rflags (w_cpu w') = rflags (w_cpu w) /\ idtr (w_cpu w') = idtr (w_cpu w)
    /\ cr2 (w_cpu w') = cr2 (w_cpu w)
    /\ w_in w' = w_in w
    /\ w_log w' = EvLgdt {| tr_limit := 23; tr_base := GDT_addr |} :: w_log w
    /\ forall b, ~ (GDT_addr <= b < GDT_addr + 24) -> ~ (r - 16 <= b < r) ->
         ~ (slot <= b < slot + 10) -> w_mem w' !! b = w_mem w !! b.
Proof. exact (gdt_init_run slot label w). Qed.
End gdt_property.

(** The two segment descriptors decode, bit by bit, to what the documentation of
    [gdt.rs] says: flat segments of limit 0xFFFFF pages, present, ring 0, code or data
    (S = 1), the code segment executable, readable, non-conforming, 64-bit (L = 1, D = 0),
    the data segment writable and expand-up; their bytes in memory are the listed ones,
    and the selectors address entries 1 and 2 of the GDT at ring 0. *)
Theorem gdt_descriptors_documented :
  segment_of KERNEL_CODE_DESCRIPTOR = {| sd_base := 0; sd_limit := 0xFFFFF; sd_g := true;
    sd_db := false; sd_l := true; sd_avl := false; sd_p := true; sd_dpl := 0;
    sd_s := true; sd_type := 0xA |}
  /\ segment_of KERNEL_DATA_DESCRIPTOR = {| sd_base := 0; sd_limit := 0xFFFFF; sd_g := true;
    sd_db := true; sd_l := false; sd_avl := false; sd_p := true; sd_dpl := 0;
    sd_s := true; sd_type := 0x2 |}
  /\ le_encode 8 KERNEL_CODE_DESCRIPTOR = [0xFF; 0xFF; 0; 0; 0; 0x9A; 0xAF; 0]
  /\ le_encode 8 KERNEL_DATA_DESCRIPTOR = [0xFF; 0xFF; 0; 0; 0; 0x92; 0xCF; 0]
  /\ GDT !! Z.to_nat (selector_index KERNEL_CODE_SELECTOR) = Some KERNEL_CODE_DESCRIPTOR
  /\ GDT !! Z.to_nat (selector_index KERNEL_DATA_SELECTOR) = Some KERNEL_DATA_DESCRIPTOR
  /\ selector_rpl KERNEL_CODE_SELECTOR = 0 /\ selector_rpl KERNEL_DATA_SELECTOR = 0
  /\ length GDT = 3%nat /\ Z.of_nat (length (mjoin (le_encode 8 <$> GDT))) = size_of_Gdt
  /\ boot_GDT = GDT.
Proof. split_and!; vm_compute; reflexivity. Qed.

(** A machine whose memory holds the table, with its stack pointer in the kernel stack. *)
Definition sample_gdt_world : world := {|
  w_cpu := sample_cpu 0x30000;
  w_mem := store_bytes 0x2000 (mjoin (le_encode 8 <$> boot_GDT)) ∅;
  w_in := []; w_log := [] |}.

Lemma sample_gdt_in_memory : @gdt_in_memory sample_image boot_GDT (w_mem sample_gdt_world).
Proof. intros [|[|[|i]]] d [= <-]; vm_compute; reflexivity. Qed.

Lemma gdt_init_correct_witness :
  exists w', @gdt_init sample_image 0x2FF00 0x7100 sample_gdt_world = Done () w'
    /\ segs (w_cpu w') CS = 8 /\ segs (w_cpu w') SS = 16 /\ rip (w_cpu w') = 0x7100.
Proof.
  destruct (@gdt_init_correct sample_image 0x2FF00 0x7100 sample_gdt_world
    eq_refl sample_gdt_in_memory eq_refl eq_refl) as (w' & H1 & _ & _ & H2 & H3 & _).
  - by_dec.
  - right. by_dec.
  - right. by_dec.
  - exists w'. split_and!; [exact H1 | exact (H2 CS) | exact (H2 SS) | exact H3].
Defined.
