(* ===== verification/Idt.v ===== *)
(** The interrupt descriptor table: gate descriptors, the 256-entry table that [idt_init]
    of [boot/src/main.rs] installs, and the loader of [kernel/src/arch/x86_64/idt.rs].

    The table is modelled twice: as the Rust value (a list of [IdtEntry]) and as the
    bytes the processor reads, which are what [idt_init] writes. *)

From S2P Require Export Prelude Layout Machine Cpu Gdt.

(** * Gate descriptors *)

Definition GATE_INTERRUPT : Z := 0xE.
Definition GATE_TRAP : Z := 0xF.
Definition ATTR_KERNEL_INTERRUPT : Z := 0x8E.
Definition ATTR_KERNEL_TRAP : Z := 0x8F.
Definition KERNEL_CS : Z := 0x0008.

Record IdtEntry : Type := {
  offset_low : Z;
  selector : Z;
  ist : Z;
  type_attr : Z;
  offset_mid : Z;
  offset_high : Z;
  reserved : Z;
}.

Definition IdtEntry_missing : IdtEntry := {|
  offset_low := 0; selector := 0; ist := 0; type_attr := 0;
  offset_mid := 0; offset_high := 0; reserved := 0 |}.

(** [kernel/src/arch/x86_64/idt.rs] *)
Definition IdtEntry_new (handler : Z) : IdtEntry := {|
  offset_low := wrap 16 (Z.land handler 0xFFFF);
  selector := KERNEL_CS;
  ist := 0;
  type_attr := ATTR_KERNEL_INTERRUPT;
  offset_mid := wrap 16 (Z.land (Z.shiftr handler 16) 0xFFFF);
  offset_high := wrap 32 (Z.land (Z.shiftr handler 32) 0xFFFFFFFF);
  reserved := 0 |}.

(** [boot/src/main.rs] *)
Definition boot_IdtEntry_missing : IdtEntry := {|
  offset_low := 0; selector := 0; ist := 0; type_attr := 0;
  offset_mid := 0; offset_high := 0; reserved := 0 |}.

Definition boot_IdtEntry_new (handler : Z) : IdtEntry := {|
  offset_low := wrap 16 (Z.land handler 0xFFFF);
  selector := 0x0008;
  ist := 0;
  type_attr := 0x8E;
  offset_mid := wrap 16 (Z.land (Z.shiftr handler 16) 0xFFFF);
  offset_high := wrap 32 (Z.land (Z.shiftr handler 32) 0xFFFFFFFF);
  reserved := 0 |}.

Definition wf_entry (e : IdtEntry) : Prop :=
  uint 16 (offset_low e) /\ uint 16 (selector e) /\ uint 8 (ist e) /\ uint 8 (type_attr e)
  /\ uint 16 (offset_mid e) /\ uint 32 (offset_high e) /\ uint 32 (reserved e).

(** [repr(C, packed)] *)
Definition IdtEntry_fields : list field_layout :=
  pack [u16_layout; u16_layout; u8_layout; u8_layout; u16_layout; u32_layout; u32_layout].

Definition encode_entry (e : IdtEntry) : list Z :=
  le_encode 2 (offset_low e) ++ le_encode 2 (selector e) ++ le_encode 1 (ist e)
  ++ le_encode 1 (type_attr e) ++ le_encode 2 (offset_mid e)
  ++ le_encode 4 (offset_high e) ++ le_encode 4 (reserved e).

Definition decode_entry : decoder IdtEntry :=
  a ← dec_uint 2; b ← dec_uint 2; c ← dec_uint 1; d ← dec_uint 1; e ← dec_uint 2;
  f ← dec_uint 4; g ← dec_uint 4;
  mret {| offset_low := a; selector := b; ist := c; type_attr := d; offset_mid := e;
          offset_high := f; reserved := g |}.

#[export] Instance entry_codec : Codec IdtEntry := {|
  encode := encode_entry; decode := decode_entry; size_of := 16; repr := wf_entry |}.

#[export] Instance entry_codec_laws : CodecLaws IdtEntry.
Proof.
  split; [done|]. intros [lo sel i attr mid hi res] rest H. unfold repr, entry_codec, wf_entry in H.
  cbn [offset_low selector ist type_attr offset_mid offset_high reserved] in H.
  destruct H as (? & ? & ? & ? & ? & ? & ?).
  cbn [encode decode entry_codec]. unfold encode_entry, decode_entry.
  cbn [offset_low selector ist type_attr offset_mid offset_high reserved].
  by decode_fields.
Qed.

(** ** What the processor makes of a gate *)

Definition gate_offset (e : IdtEntry) : Z :=
  offset_low e + 2 ^ 16 * offset_mid e + 2 ^ 32 * offset_high e.
Definition gate_type (e : IdtEntry) : Z := Z.land (type_attr e) 0xF.
Definition gate_s (e : IdtEntry) : bool := Z.testbit (type_attr e) 4.
Definition gate_dpl (e : IdtEntry) : Z := Z.land (Z.shiftr (type_attr e) 5) 3.
Definition gate_present (e : IdtEntry) : bool := Z.testbit (type_attr e) 7.

(** The processor reads the fields of the 16 bytes at [a]. *)
Definition read_gate (a : Z) : M IdtEntry :=
  lo ← read_uint 2 a; sel ← read_uint 2 (a + 2); i ← read_uint 1 (a + 4);
  attr ← read_uint 1 (a + 5); mid ← read_uint 2 (a + 6); hi ← read_uint 4 (a + 8);
  res ← read_uint 4 (a + 12);
  mret {| offset_low := lo; selector := sel; ist := i; type_attr := attr;
          offset_mid := mid; offset_high := hi; reserved := res |}.

(** * The table *)

Definition IDT_ENTRIES : nat := 256.

(** [static mut IDT]: as linked. *)
Definition IDT_initial : list IdtEntry := replicate IDT_ENTRIES boot_IdtEntry_missing.

Definition size_of_IdtTable : Z := 256 * 16.

Record IdtPointer : Type := { idt_limit : Z; idt_base : Z }.

Definition IdtPointer_bytes (p : IdtPointer) : list Z :=
  le_encode 2 (idt_limit p) ++ le_encode 8 (idt_base p).

Section idt.
Context {I : Image}.

(** [IDT.0[i] = e] on the static: the index is checked, and 16 bytes are written. *)
Definition IDT_set (i : Z) (e : IdtEntry) : M unit :=
  _ ← check ((0 <=? i) && (i <? 256)) OutOfBounds;
  write_bytes (IDT_addr + 16 * i) (encode e).

(** [while i < 256 { IDT.0[i] = ..; i += 1 }] *)
Fixpoint irq_loop (fuel : nat) (i : Z) : M unit :=
  if i <? 256 then
    match fuel with
    | O => fault_with OutOfFuel
    | S fuel => _ ← IDT_set i (boot_IdtEntry_new isr_irq_addr); irq_loop fuel (i + 1)
    end
  else mret ().

(** The 32 assignments of the exception vectors, in order, are a loop here. *)
Definition idt_init (slot : Z) : M unit :=
  _ ← for_each (seq 0 32) (fun v => IDT_set (Z.of_nat v) (boot_IdtEntry_new (isr_addr v)));
  _ ← irq_loop 224 32;
  let ptr := {| idt_limit := wrap 16 (size_of_IdtTable - 1); idt_base := IDT_addr |} in
  _ ← write_bytes slot (IdtPointer_bytes ptr);
  lidt slot.

(** [idt::load] of the kernel crate, on the static at address [idt]. *)
Definition idt_load (idt slot : Z) : M unit :=
  let ptr := {| idt_limit := wrap 16 (size_of_IdtTable - 1); idt_base := idt |} in
  _ ← write_bytes slot (IdtPointer_bytes ptr);
  lidt slot.

(** * Specification *)

(** Which stub a vector goes to. *)
Definition stub_addr (v : nat) : Z := if decide (v < 32)%nat then isr_addr v else isr_irq_addr.

Definition idt_table : list IdtEntry := boot_IdtEntry_new ∘ stub_addr <$> seq 0 IDT_ENTRIES.

Definition entries_in_memory (t : list IdtEntry) (lo hi : nat) (m : gmap Z Z) : Prop :=
  forall i e, (lo <= i < hi)%nat -> t !! i = Some e ->
    mem_has (IDT_addr + 16 * Z.of_nat i) (encode e) m.

Definition idt_in_memory (t : list IdtEntry) : gmap Z Z -> Prop :=
  entries_in_memory t 0 (length t).
End idt.

(** The linker's handler addresses are code addresses, one per stub. *)
Class ImageLaws {I : Image} : Prop := {
  isr_canonical : forall v, (v < 32)%nat -> canonical (isr_addr v) = true;
  irq_canonical : canonical isr_irq_addr = true;
  isr_distinct : forall v u, (v < 32)%nat -> (u < 32)%nat -> isr_addr v = isr_addr u -> v = u;
  irq_distinct : forall v, (v < 32)%nat -> isr_addr v <> isr_irq_addr;
  gdt_canonical : canonical GDT_addr = true;
  idt_canonical : canonical IDT_addr = true;
}.

(** * Lemmas *)

Lemma wf_entry_new h : wf_entry (boot_IdtEntry_new h).
Proof.
  unfold wf_entry, boot_IdtEntry_new, wrap, uint; cbn [offset_low selector ist type_attr
    offset_mid offset_high reserved].
  split_and!; try (apply Z.mod_pos_bound; reflexivity); lia.
Qed.

Lemma entry_new_copies h : IdtEntry_new h = boot_IdtEntry_new h
  /\ IdtEntry_missing = boot_IdtEntry_missing.
Proof. done. Qed.

Lemma gate_offset_new h : uint 64 h -> gate_offset (boot_IdtEntry_new h) = h.
Proof.
  intros [H0 H1]. unfold gate_offset, boot_IdtEntry_new, wrap. cbn [offset_low offset_mid offset_high].
  change 0xFFFF with (2 ^ 16 - 1). change 0xFFFFFFFF with (2 ^ 32 - 1).
  rewrite !land_ones_mod, !Z.mod_mod, !Z.shiftr_div_pow2 by lia.
  change (2 ^ 64) with (2 ^ 16 * 2 ^ 16 * 2 ^ 32) in H1.
  set (p := 2 ^ 16) in *. change (2 ^ 32) with (p * p) in *.
  assert (Hp : 0 < p) by done.
  rewrite (Z.mod_small (h / (p * p))).
  2:{ split; [apply Z.div_pos; lia|]. apply Z.div_lt_upper_bound; lia. }
  rewrite <- Z.div_div by lia.
  pose proof (Z.div_mod h p ltac:(lia)). pose proof (Z.div_mod (h / p) p ltac:(lia)). lia.
Qed.

Lemma read_gate_ok a e w :
  wf_entry e -> mem_has a (encode e) (w_mem w) -> read_gate a w = Done e w.
Proof.
  intros (H1 & H2 & H3 & H4 & H5 & H6 & H7) Hm. destruct e.
  cbn [encode entry_codec] in Hm. unfold encode_entry in Hm. cbn in H1, H2, H3, H4, H5, H6, H7.
  cbn [offset_low selector ist type_attr offset_mid offset_high reserved] in Hm.
  rewrite !mem_has_app, !length_le_encode in Hm.
  rewrite <- !Z.add_assoc in Hm. cbn [Z.of_nat Pos.of_succ_nat Pos.succ Z.add Pos.add] in Hm.
  destruct Hm as (M1 & M2 & M3 & M4 & M5 & M6 & M7).
  unfold read_gate.
  repeat (erewrite bind_done by
    (apply read_uint_ok; eapply mem_has_uint; [|eassumption]; assumption)).
  done.
Qed.

Section idt_lemmas.
Context {I : Image}.

Lemma length_idt_table : length idt_table = 256%nat.
Proof. unfold idt_table. by rewrite length_fmap, length_seq. Qed.

Lemma idt_table_lookup i :
  (i < 256)%nat -> idt_table !! i = Some (boot_IdtEntry_new (stub_addr i)).
Proof. intros H. unfold idt_table. by rewrite list_lookup_fmap, lookup_seq_lt. Qed.

Lemma length_entry (e : IdtEntry) : length (encode e) = 16%nat.
Proof. done. Qed.

(** Writing entry [i] after the entries before it. *)
Lemma IDT_set_ok t i e w :
  (i < 256)%nat -> t !! i = Some e -> entries_in_memory t 0 i (w_mem w) ->
  exists m', IDT_set (Z.of_nat i) e w = Done () (with_mem m' w)
    /\ entries_in_memory t 0 (S i) m' /\ agree_outside IDT_addr 4096 (w_mem w) m'.
Proof.
  intros Hi He Hm. eexists. split.
  { unfold IDT_set. rewrite check_true; [done|].
    by rewrite (proj2 (Z.leb_le _ _)), (proj2 (Z.ltb_lt _ _)) by lia. }
  split.
  - intros j e' Hj He'. destruct (decide (j = i)) as [->|Hne].
    + rewrite He in He'. injection He' as <-. apply mem_has_store.
    + apply mem_has_store_disjoint; [rewrite !length_entry; lia | apply Hm; [lia | done]].
  - apply store_agree_outside; rewrite ?length_entry; lia.
Qed.

Lemma exception_loop_ok k : (k <= 32)%nat -> forall i w,
  (i + k = 32)%nat -> entries_in_memory idt_table 0 i (w_mem w) ->
  exists m', for_each (seq i k) (fun v => IDT_set (Z.of_nat v) (boot_IdtEntry_new (isr_addr v))) w
      = Done () (with_mem m' w)
    /\ entries_in_memory idt_table 0 32 m' /\ agree_outside IDT_addr 4096 (w_mem w) m'.
Proof.
  induction k as [|k IH]; intros Hk i w Hi Hm; cbn [seq for_each].
  - exists (w_mem w). replace i with 32%nat in Hm by lia.
    split_and!; [by destruct w | done | apply agree_outside_refl].
  - destruct (IDT_set_ok idt_table i (boot_IdtEntry_new (isr_addr i)) w) as (m1 & E1 & H1 & A1);
      [lia | | done |].
    { rewrite idt_table_lookup by lia. unfold stub_addr. by rewrite decide_True by lia. }
    destruct (IH ltac:(lia) (S i) (with_mem m1 w) ltac:(lia) H1) as (m2 & E2 & H2 & A2).
    exists m2. erewrite bind_done by exact E1.
    split_and!; [exact E2 | exact H2 | by eapply agree_outside_trans].
Qed.

Lemma irq_loop_ok k i w :
  (i + k = 256)%nat -> (32 <= i)%nat -> entries_in_memory idt_table 0 i (w_mem w) ->
  exists m', irq_loop k (Z.of_nat i) w = Done () (with_mem m' w)
    /\ entries_in_memory idt_table 0 256 m' /\ agree_outside IDT_addr 4096 (w_mem w) m'.
Proof.
  revert i w; induction k as [|k IH]; intros i w Hi Hlo Hm; cbn [irq_loop].
  - exists (w_mem w). replace i with 256%nat in Hm |- * by lia.
    split_and!; [by destruct w | done | apply agree_outside_refl].
  - rewrite (proj2 (Z.ltb_lt _ _)) by lia.
    destruct (IDT_set_ok idt_table i (boot_IdtEntry_new isr_irq_addr) w) as (m1 & E1 & H1 & A1);
      [lia | | done |].
    { rewrite idt_table_lookup by lia. unfold stub_addr. by rewrite decide_False by lia. }
    destruct (IH (S i) (with_mem m1 w) ltac:(lia) ltac:(lia) H1) as (m2 & E2 & H2 & A2).
    exists m2. erewrite bind_done by exact E1.
    replace (Z.of_nat i + 1) with (Z.of_nat (S i)) by lia.
    split_and!; [exact E2 | exact H2 | by eapply agree_outside_trans].
Qed.
End idt_lemmas.

(** The IDT is installed: IDTR covers the 256 entries and they are in memory. *)
Record idt_ready {I : Image} (w : world) : Prop := {
  ready_idtr : idtr (w_cpu w) = {| tr_limit := 4095; tr_base := IDT_addr |};
  ready_entries : idt_in_memory idt_table (w_mem w);
}.

Section idt_run.
Context {I : Image} {L : ImageLaws}.

Lemma stub_addr_canonical v : canonical (stub_addr v) = true.
Proof.
  unfold stub_addr. case_decide; [by apply isr_canonical | apply irq_canonical].
Qed.

Lemma idt_ready_gate w v :
  idt_ready w -> (v < 256)%nat ->
  read_gate (IDT_addr + 16 * Z.of_nat v) w = Done (boot_IdtEntry_new (stub_addr v)) w.
Proof.
  intros [_ Hm] Hv. apply read_gate_ok; [apply wf_entry_new|].
  apply Hm; [rewrite length_idt_table; lia | by apply idt_table_lookup].
Qed.

Lemma entries_agree t lo hi m m' :
  (hi <= 256)%nat -> (forall b, IDT_addr <= b < IDT_addr + 4096 -> m' !! b = m !! b) ->
  entries_in_memory t lo hi m -> entries_in_memory t lo hi m'.
Proof.
  intros Hhi Hag Hm i e Hi He. unfold mem_has. rewrite length_entry.
  rewrite (load_bytes_ext _ _ _ m); [by apply Hm|]. intros b Hb. apply Hag. lia.
Qed.

(** The loader, shared by both crates. *)
Lemma load_idt_ok idt slot w :
  canonical idt = true ->
  idt_load idt slot w = Done ()
    (with_io (w_in w) (EvLidt {| tr_limit := 4095; tr_base := idt |} :: w_log w)
      (with_cpu (set_idtr {| tr_limit := 4095; tr_base := idt |} (w_cpu w))
        (with_mem (store_bytes slot (le_encode 2 4095 ++ le_encode 8 idt) (w_mem w)) w))).
Proof.
  intros Hc. unfold idt_load. erewrite bind_done by done. unfold lidt.
  erewrite bind_done by (by apply read_table_register_ok;
    [by_dec | by apply canonical_uint |]). done.
Qed.

Lemma idt_init_run slot w :
  disjoint_ranges slot 10 IDT_addr 4096 ->
  exists m', idt_init slot w = Done ()
      (with_io (w_in w) (EvLidt {| tr_limit := 4095; tr_base := IDT_addr |} :: w_log w)
        (with_cpu (set_idtr {| tr_limit := 4095; tr_base := IDT_addr |} (w_cpu w))
          (with_mem m' w)))
    /\ idt_in_memory idt_table m'
    /\ forall b, ~ (IDT_addr <= b < IDT_addr + 4096) -> ~ (slot <= b < slot + 10) ->
         m' !! b = w_mem w !! b.
Proof.
  intros Hslot.
  destruct (exception_loop_ok 32 ltac:(lia) 0 w eq_refl) as (m1 & E1 & H1 & A1).
  { intros i e Hi. lia. }
  destruct (irq_loop_ok 224 32 (with_mem m1 w) eq_refl ltac:(lia) H1) as (m2 & E2 & H2 & A2).
  eexists. split_and!.
  - unfold idt_init. erewrite bind_done by exact E1. erewrite bind_done by exact E2.
    exact (load_idt_ok IDT_addr slot (with_mem m2 w) idt_canonical).
  - unfold idt_in_memory. rewrite length_idt_table. cbn [w_mem with_mem].
    eapply entries_agree; [lia | | exact H2]. intros b Hb.
    unfold disjoint_ranges in Hslot. apply (store_agree_outside slot 10); [lia | | lia].
    rewrite length_app, !length_le_encode. lia.
  - intros b Hb1 Hb2. cbn [w_mem with_mem].
    rewrite (store_agree_outside slot 10); [|lia| |done].
    + rewrite (A2 b Hb1). exact (A1 b Hb1).
    + rewrite length_app, !length_le_encode. lia.
Qed.
End idt_run.

(** * Properties *)

(** C29: a gate made for any 64-bit handler address is 16 bytes; from its bytes the
    processor recovers exactly that address, the kernel code selector, a present ring-0
    interrupt gate on the current stack, and zero reserved bits; a missing gate is not
    present; the kernel's constructors and their boot copies agree. *)
Theorem idt_entry_round_trip (h : Z) (rest : list Z) :
  uint 64 h ->
  decode (encode (IdtEntry_new h) ++ rest) = Some (IdtEntry_new h, rest)
  /\ gate_offset (IdtEntry_new h) = h /\ selector (IdtEntry_new h) = KERNEL_CODE_SELECTOR
  /\ gate_type (IdtEntry_new h) = GATE_INTERRUPT /\ gate_s (IdtEntry_new h) = false
  /\ gate_present (IdtEntry_new h) = true /\ gate_dpl (IdtEntry_new h) = 0
  /\ ist (IdtEntry_new h) = 0 /\ reserved (IdtEntry_new h) = 0
  /\ Z.of_nat (length (encode (IdtEntry_new h))) = (struct_layout IdtEntry_fields).1
  /\ gate_present IdtEntry_missing = false
  /\ IdtEntry_new h = boot_IdtEntry_new h /\ IdtEntry_missing = boot_IdtEntry_missing.
Proof.
  intros Hh. split_and!; try done; [|by apply gate_offset_new].
  apply decode_encode. apply wf_entry_new.
Qed.

Lemma idt_entry_round_trip_witness :
  encode (IdtEntry_new 0xFFFF800012345678)
    = [0x78; 0x56; 8; 0; 0; 0x8E; 0x34; 0x12; 0; 0x80; 0xFF; 0xFF; 0; 0; 0; 0]
  /\ gate_offset (IdtEntry_new 0xFFFF800012345678) = 0xFFFF800012345678.
Proof.
  split; [vm_compute; reflexivity|].
  exact (proj1 (proj2 (idt_entry_round_trip 0xFFFF800012345678 [] ltac:(by_dec)))).
Defined.

(** C15: [idt_init] terminates without a fault, and after it IDTR covers exactly the 256
    gates; the gate the processor reads for every vector is a present interrupt gate to
    the stub of that vector (vectors 0 to 31) or to the common IRQ stub; only the table
    and the local pointer are written, and registers, segments and GDTR are untouched. *)
Theorem idt_init_correct {I : Image} {L : ImageLaws} (slot : Z) (w : world) :
  disjoint_ranges slot 10 IDT_addr 4096 ->
  exists w', idt_init slot w = Done () w' /\ idt_ready w'
    /\ (forall v, (v < 256)%nat -> exists e,
         read_gate (IDT_addr + 16 * Z.of_nat v) w' = Done e w'
         /\ gate_offset e = (if decide (v < 32)%nat then isr_addr v else isr_irq_addr)
         /\ gate_present e = true /\ gate_type e = GATE_INTERRUPT
         /\ selector e = KERNEL_CODE_SELECTOR)
    /\ (forall x, regs (w_cpu w') x = regs (w_cpu w) x)
    /\ (forall s, segs (w_cpu w') s = segs (w_cpu w) s)
    /\ gdtr (w_cpu w') = gdtr (w_cpu w) /\ w_in w' = w_in w
    /\ w_log w' = EvLidt {| tr_limit := 4095; tr_base := IDT_addr |} :: w_log w
    /\ forall b, ~ (IDT_addr <= b < IDT_addr + 4096) -> ~ (slot <= b < slot + 10) ->
         w_mem w' !! b = w_mem w !! b.
Proof.
  intros Hslot. destruct (idt_init_run slot w Hslot) as (m' & E & Hm & Ha).
  match type of E with _ = Done _ ?v => set (w' := v) in E end.
  assert (Hr : idt_ready w') by (split; [reflexivity | exact Hm]).
  exists w'. split; [exact E|]. split; [exact Hr|].
  split_and!; try reflexivity; [|exact Ha]. intros v Hv. eexists.
  split; [by apply idt_ready_gate|]. split; [|by split_and!].
  exact (gate_offset_new (stub_addr v) (canonical_uint _ (stub_addr_canonical v))).
Qed.

Lemma sample_image_laws : @ImageLaws sample_image.
Proof.
  split; cbn; try done; try lia. intros v Hv. unfold canonical.
  rewrite orb_true_iff, andb_true_iff, Z.leb_le, Z.ltb_lt. left. lia.
Qed.

Lemma idt_init_correct_witness :
  exists w', @idt_init sample_image 0x2FF00 sample_gdt_world = Done () w'
    /\ idtr (w_cpu w') = {| tr_limit := 4095; tr_base := 0x3000 |}
    /\ exists e, read_gate 0x30E0 w' = Done e w' /\ gate_offset e = 0x50E0.
Proof.
  destruct (@idt_init_correct sample_image sample_image_laws 0x2FF00 sample_gdt_world)
    as (w' & H1 & [H2 _] & H3 & _).
  - right. by_dec.
  - exists w'. split_and!; [exact H1 | exact H2 |].
    destruct (H3 14%nat ltac:(lia)) as (e & He & Ho & _). exists e. split; [exact He | exact Ho].
Defined.
