(* ===== verification/Exception.v ===== *)
(** Exception handling in [boot/src/main.rs]: the assembly stubs, the common landing pad,
    [exception_handler], and the path from the processor's delivery of an exception
    through the installed IDT to the report on the serial port.

    [deliver] is the processor's part (64-bit mode, same privilege level, no IST).  The
    stubs hand their arguments to [exception_handler] in registers; which registers it
    takes them from is the calling convention of the target, a parameter ([CallConv]). *)

From S2P Require Export Prelude Layout Machine BootSerial Cpu Gdt Idt.

(** * Calling conventions *)

Class CallConv : Type := { arg1 : reg; arg2 : reg; arg3 : reg }.

Definition sysv : CallConv := {| arg1 := RDI; arg2 := RSI; arg3 := RDX |}.
Definition win64 : CallConv := {| arg1 := RCX; arg2 := RDX; arg3 := R8 |}.

(** * Data *)

Record ExceptionFrame : Type := {
  ef_rip : Z; ef_cs : Z; ef_rflags : Z; ef_rsp : Z; ef_ss : Z;
}.

Definition ExceptionFrame_fields : list field_layout :=
  [u64_layout; u64_layout; u64_layout; u64_layout; u64_layout].

Definition encode_frame (f : ExceptionFrame) : list Z :=
  qwords [ef_rip f; ef_cs f; ef_rflags f; ef_rsp f; ef_ss f].

(** [( *frame ).field] for the field at position [i] of the declaration. *)
Definition frame_field (frame : Z) (i : nat) : M Z :=
  read_uint 8 (frame + default 0 (struct_offsets ExceptionFrame_fields !! i)).

Definition EXCEPTION_NAMES : list (list Z) := str <$> [
  "#DE: Divide Error";
  "#DB: Debug";
  "#NMI: Non-Maskable Interrupt";
  "#BP: Breakpoint";
  "#OF: Overflow";
  "#BR: Bound Range Exceeded";
  "#UD: Invalid Opcode";
  "#NM: Device Not Available";
  "#DF: Double Fault";
  "(obsolete Coprocessor Segment Overrun)";
  "#TS: Invalid TSS";
  "#NP: Segment Not Present";
  "#SS: Stack-Segment Fault";
  "#GP: General Protection Fault";
  "#PF: Page Fault";
  "(reserved)";
  "#MF: x87 FPU Floating-Point Error";
  "#AC: Alignment Check";
  "#MC: Machine Check";
  "#XF: SIMD Floating-Point Exception";
  "#VE: Virtualization Exception";
  "#CP: Control Protection Exception";
  "(reserved)";
  "(reserved)";
  "(reserved)";
  "(reserved)";
  "(reserved)";
  "(reserved)";
  "#HV: Hypervisor Injection Exception";
  "#VC: VMM Communication Exception";
  "#SX: Security Exception";
  "(reserved)" ]%string.

Definition EC_MASK : Z :=
  Z.lor (Z.shiftl 1 8) (Z.lor (Z.shiftl 1 10) (Z.lor (Z.shiftl 1 11) (Z.lor (Z.shiftl 1 12)
  (Z.lor (Z.shiftl 1 13) (Z.lor (Z.shiftl 1 14) (Z.lor (Z.shiftl 1 17) (Z.lor (Z.shiftl 1 21)
  (Z.lor (Z.shiftl 1 29) (Z.shiftl 1 30))))))))).

Definition line (s : string) : list Z := str s ++ crlf.

(** * The handler *)

Section handler.
Context {P : Profile}.

Definition exception_handler (vector error_code frame : Z) : M void :=
  _ ← serial_write_str crlf;
  _ ← serial_write_str (line "========== KERNEL EXCEPTION ==========");
  _ ← (if vector <? Z.of_nat (length EXCEPTION_NAMES) then
         _ ← serial_write_str (str "Vector ");
         _ ← serial_write_usize vector;
         _ ← serial_write_str (str ": ");
         name ← lift (index EXCEPTION_NAMES vector);
         serial_write_str name
       else
         _ ← serial_write_str (str "Hardware IRQ / unknown vector #");
         serial_write_usize vector);
  _ ← serial_write_str crlf;
  _ ← (if (vector <? 64) && (Z.land (Z.shiftr EC_MASK vector) 1 =? 1) then
         _ ← serial_write_str (str "Error code:   0x");
         _ ← serial_write_usize_hex error_code;
         serial_write_str crlf
       else mret ());
  _ ← (if vector =? 14 then
         cr2 ← read_cpu cr2;
         _ ← serial_write_str (str "CR2 (fault):  0x");
         _ ← serial_write_usize_hex cr2;
         serial_write_str crlf
       else mret ());
  _ ← (if negb (frame =? 0) then
         rip ← frame_field frame 0;
         rflags ← frame_field frame 2;
         old_rsp ← frame_field frame 3;
         _ ← serial_write_str (str "RIP:          0x");
         _ ← serial_write_usize_hex rip;
         _ ← serial_write_str crlf;
         _ ← serial_write_str (str "RFLAGS:       0x");
         _ ← serial_write_usize_hex rflags;
         _ ← serial_write_str crlf;
         _ ← serial_write_str (str "RSP (before): 0x");
         _ ← serial_write_usize_hex old_rsp;
         serial_write_str crlf
       else mret ());
  _ ← serial_write_str (line "======================================");
  _ ← serial_write_str (line "System halted.");
  hlt_forever.

(** * The assembly stubs *)

Context {I : Image} {C : CallConv}.

Definition exception_common : M void :=
  _ ← cli;
  _ ← push after_handler_addr;
  vector ← read_cpu (fun c => regs c arg1);
  error_code ← read_cpu (fun c => regs c arg2);
  frame ← read_cpu (fun c => regs c arg3);
  exception_handler vector error_code frame.

Definition isr_stub (v : Z) : M void :=
  _ ← mov RDI v;
  _ ← mov RSI 0;
  rsp ← read_cpu (fun c => regs c RSP);
  _ ← mov RDX rsp;
  exception_common.

Definition isr_stub_ec (v : Z) : M void :=
  _ ← mov RDI v;
  code ← pop;
  _ ← mov RSI code;
  rsp ← read_cpu (fun c => regs c RSP);
  _ ← mov RDX rsp;
  exception_common.

Definition isr_irq : M void :=
  _ ← mov RDI 255;
  _ ← mov RSI 0;
  rsp ← read_cpu (fun c => regs c RSP);
  _ ← mov RDX rsp;
  exception_common.

Definition isr : list (M void) := [
  isr_stub 0; isr_stub 1; isr_stub 2; isr_stub 3; isr_stub 4; isr_stub 5; isr_stub 6;
  isr_stub 7; isr_stub_ec 8; isr_stub 9; isr_stub_ec 10; isr_stub_ec 11; isr_stub_ec 12;
  isr_stub_ec 13; isr_stub_ec 14; isr_stub 15; isr_stub 16; isr_stub_ec 17; isr_stub 18;
  isr_stub 19; isr_stub 20; isr_stub_ec 21; isr_stub 22; isr_stub 23; isr_stub 24;
  isr_stub 25; isr_stub 26; isr_stub 27; isr_stub 28; isr_stub_ec 29; isr_stub_ec 30;
  isr_stub 31 ].

(** The code at an address. *)
Definition code_at (ip : Z) : M void :=
  match List.find (fun v => isr_addr v =? ip) (seq 0 32) with
  | Some v => default (fault_with Undefined) (isr !! v)
  | None => if ip =? isr_irq_addr then isr_irq else fault_with Undefined
  end.
End handler.

(** * The processor's delivery *)

(** The vectors for which the processor pushes an error code (Intel SDM Vol 3A 6.13 and
    the AMD additions, the table of [tests/boot_tests.rs]), when the exception itself arises;
    an external interrupt or an [int n] on one of these vectors pushes none and is not
    modelled. *)
Definition error_code_vectors : list nat := [8; 10; 11; 12; 13; 14; 17; 21; 29; 30]%nat.

Definition pushes_error_code (v : nat) : bool := bool_decide (v ∈ error_code_vectors).

(** An interrupt gate clears TF, IF, NT, VM and RF. *)
Definition masked_rflags (f : Z) : Z :=
  foldr (fun b f => Z.clearbit f b) f [8; IF_BIT; 14; 16; 17].

Definition deliver (v : nat) (code : Z) : M unit :=
  old ← read_cpu id;
  _ ← check (16 * Z.of_nat v + 15 <=? tr_limit (idtr old)) GP;
  gate ← read_gate (tr_base (idtr old) + 16 * Z.of_nat v);
  _ ← check (negb (gate_s gate) && (gate_type gate =? 0xE)) GP;
  _ ← check (gate_present gate) NP;
  _ ← check (ist gate =? 0) (CpuFault 10);
  _ ← load_cs (selector gate);
  _ ← check (canonical (gate_offset gate)) GP;
  _ ← mov RSP (regs old RSP - regs old RSP mod 16);
  _ ← push_all [segs old SS; regs old RSP; rflags old; segs old CS; rip old];
  _ ← push_all (if pushes_error_code v then [code] else []);
  update_cpu (fun c => set_rip (gate_offset gate) (set_rflags (masked_rflags (rflags old)) c)).

Definition take_exception {P : Profile} {I : Image} {C : CallConv} (v : nat) (code : Z) : M void :=
  _ ← deliver v code; ip ← read_cpu rip; code_at ip.

(** * Specification *)

(** The report for a vector, as the handler's argument gives it. *)
Definition report (v code cr2 : Z) (frame : option ExceptionFrame) : list Z :=
  crlf ++ line "========== KERNEL EXCEPTION =========="
  ++ (if v <? 32
      then str "Vector " ++ decimal v ++ str ": " ++ default [] (EXCEPTION_NAMES !! Z.to_nat v)
      else str "Hardware IRQ / unknown vector #" ++ decimal v) ++ crlf
  ++ (if bool_decide (Z.to_nat v ∈ error_code_vectors)
      then str "Error code:   0x" ++ hexadecimal code ++ crlf else [])
  ++ (if v =? 14 then str "CR2 (fault):  0x" ++ hexadecimal cr2 ++ crlf else [])
  ++ match frame with
     | Some f => str "RIP:          0x" ++ hexadecimal (ef_rip f) ++ crlf
         ++ str "RFLAGS:       0x" ++ hexadecimal (ef_rflags f) ++ crlf
         ++ str "RSP (before): 0x" ++ hexadecimal (ef_rsp f) ++ crlf
     | None => []
     end
  ++ line "======================================" ++ line "System halted.".

Definition wf_frame (f : ExceptionFrame) : Prop :=
  uint 64 (ef_rip f) /\ uint 64 (ef_cs f) /\ uint 64 (ef_rflags f) /\ uint 64 (ef_rsp f)
  /\ uint 64 (ef_ss f).

(** * Lemmas *)

(** The mask of the handler is the processor's list. *)
Lemma EC_MASK_correct v :
  0 <= v ->
  (v <? 64) && (Z.land (Z.shiftr EC_MASK v) 1 =? 1) = bool_decide (Z.to_nat v ∈ error_code_vectors).
Proof.
  intros Hv. destruct (Z.ltb_spec v 64) as [Hlt|Hge]; cbn [andb].
  - assert (Hall : forallb (fun n => Bool.eqb (Z.land (Z.shiftr EC_MASK (Z.of_nat n)) 1 =? 1)
      (bool_decide (n ∈ error_code_vectors))) (seq 0 64) = true) by (vm_compute; reflexivity).
    rewrite forallb_forall in Hall. specialize (Hall (Z.to_nat v)).
    rewrite Z2Nat.id in Hall by done. apply Bool.eqb_prop, Hall, in_seq. lia.
  - symmetry. apply bool_decide_eq_false_2. unfold error_code_vectors.
    rewrite !elem_of_cons, elem_of_nil. lia.
Qed.

Section handler_lemmas.
Context {P : Profile}.

Lemma frame_fields_ok frame f w :
  wf_frame f -> mem_has frame (encode_frame f) (w_mem w) ->
  frame_field frame 0 w = Done (ef_rip f) w /\ frame_field frame 2 w = Done (ef_rflags f) w
  /\ frame_field frame 3 w = Done (ef_rsp f) w.
Proof.
  intros (H1 & H2 & H3 & H4 & H5) Hm. unfold encode_frame, qwords in Hm.
  cbn [fmap list_fmap mjoin list_join] in Hm. rewrite !mem_has_app, !length_le_encode in Hm.
  destruct Hm as (M1 & _ & M3 & M4 & _). change (Z.of_nat 8) with 8 in *.
  replace (frame + 8 + 8) with (frame + 16) in M3 by lia.
  replace (frame + 8 + 8 + 8) with (frame + 24) in M4 by lia.
  unfold frame_field. cbn [struct_offsets default].
  split_and!; apply read_uint_ok.
  - change (default 0 _) with 0. rewrite Z.add_0_r. exact (mem_has_uint 8 _ _ _ H1 M1).
  - change (default 0 _) with 16. exact (mem_has_uint 8 _ _ _ H3 M3).
  - change (default 0 _) with 24. exact (mem_has_uint 8 _ _ _ H4 M4).
Qed.

Lemma exception_name_ok v :
  0 <= v < 32 -> @index void _ EXCEPTION_NAMES v = Ok (default [] (EXCEPTION_NAMES !! Z.to_nat v)).
Proof.
  intros Hv. destruct (lookup_lt_is_Some_2 EXCEPTION_NAMES (Z.to_nat v)) as [n Hn].
  { change (length EXCEPTION_NAMES) with 32%nat. lia. }
  rewrite Hn. apply index_ok; [lia | exact Hn].
Qed.

(** What the frame argument points to. *)
Definition frame_at (frame : Z) (w : world) (f : option ExceptionFrame) : Prop :=
  match f with
  | Some f => frame <> 0 /\ wf_frame f /\ mem_has frame (encode_frame f) (w_mem w)
  | None => frame = 0
  end.

Lemma frame_at_same frame w w' f :
  w_mem w' = w_mem w -> frame_at frame w f -> frame_at frame w' f.
Proof. intros H. unfold frame_at. by rewrite H. Qed.

Lemma print_frame_ok frame f w :
  frame_at frame w f ->
  (if negb (frame =? 0) then
     rip ← frame_field frame 0; rflags ← frame_field frame 2; old_rsp ← frame_field frame 3;
     _ ← serial_write_str (str "RIP:          0x"); _ ← serial_write_usize_hex rip;
     _ ← serial_write_str crlf;
     _ ← serial_write_str (str "RFLAGS:       0x"); _ ← serial_write_usize_hex rflags;
     _ ← serial_write_str crlf;
     _ ← serial_write_str (str "RSP (before): 0x"); _ ← serial_write_usize_hex old_rsp;
     serial_write_str crlf
   else mret ()) w
  = send match f with
     | Some f => str "RIP:          0x" ++ hexadecimal (ef_rip f) ++ crlf
         ++ str "RFLAGS:       0x" ++ hexadecimal (ef_rflags f) ++ crlf
         ++ str "RSP (before): 0x" ++ hexadecimal (ef_rsp f) ++ crlf
     | None => []
     end w.
Proof.
  destruct f as [f|]; cbn [frame_at]; [|by intros ->].
  intros (Hnz & Hwf & Hm). rewrite (proj2 (Z.eqb_neq _ _) Hnz). cbn [negb].
  destruct (frame_fields_ok frame f w Hwf Hm) as (E1 & E2 & E3).
  erewrite bind_done by exact E1. erewrite bind_done by exact E2. erewrite bind_done by exact E3.
  destruct Hwf as (H1 & H2 & H3 & H4 & H5). revert w Hm E1 E2 E3.
  intros w _ _ _ _. revert w.
  match goal with |- forall w, ?m w = ?n w => change (m ≡ n) end. by prints.
Qed.

Lemma print_name_ok v :
  uint 64 v ->
  (if v <? Z.of_nat (length EXCEPTION_NAMES) then
     _ ← serial_write_str (str "Vector "); _ ← serial_write_usize v;
     _ ← serial_write_str (str ": ");
     name ← lift (index EXCEPTION_NAMES v); serial_write_str name
   else
     _ ← serial_write_str (str "Hardware IRQ / unknown vector #"); serial_write_usize v)
  ≡ send (if v <? 32
      then str "Vector " ++ decimal v ++ str ": " ++ default [] (EXCEPTION_NAMES !! Z.to_nat v)
      else str "Hardware IRQ / unknown vector #" ++ decimal v).
Proof.
  intros Hv. change (Z.of_nat (length EXCEPTION_NAMES)) with 32.
  destruct (Z.ltb_spec v 32) as [Hlt|]; [|by prints].
  rewrite exception_name_ok by (destruct Hv; lia). rewrite lift_ok.
  repeat (apply prints_bind; [by prints|]). apply prints_lift. by prints.
Qed.

(** The handler prints the report of its arguments and never returns. *)
Lemma exception_handler_ok v code frame f w :
  uint 64 v -> uint 64 code -> uint 64 (cr2 (w_cpu w)) -> frame_at frame w f ->
  exception_handler v code frame w = print_and_halt (report v code (cr2 (w_cpu w)) f) w.
Proof.
  intros Hv Hcode Hcr2 Hf. unfold exception_handler, report.
  rewrite EC_MASK_correct by by destruct Hv.
  do 2 (apply print_step; [by apply serial_write_str_send|]; intros ???).
  apply print_step; [by apply print_name_ok|]. intros ???.
  apply print_step; [by apply serial_write_str_send|]. intros ???.
  apply print_step.
  { apply (prints_if _ _ (mret ())); by prints. }
  intros ???. apply print_step.
  { destruct (v =? 14); [|done]. erewrite bind_done by done.
    replace (cr2 (w_cpu _)) with (cr2 (w_cpu w)) by congruence.
    match goal with |- ?m ?w = ?n ?w => cut (m ≡ n); [intros H'; apply H'|] end. by prints. }
  intros ???. apply print_step.
  { apply print_frame_ok. by do 6 (eapply frame_at_same; [eassumption|]). }
  intros ???. apply print_step; [by apply serial_write_str_send|].
  intros ???. rewrite <- (app_nil_r (line "System halted.")).
  by apply print_step; [by apply serial_write_str_send|].
Qed.
End handler_lemmas.

Section delivery.
Context {I : Image} {L : ImageLaws}.

(** The frame the processor saves. *)
Definition frame_of (c : cpu) : ExceptionFrame := {|
  ef_rip := rip c; ef_cs := segs c CS; ef_rflags := rflags c; ef_rsp := regs c RSP;
  ef_ss := segs c SS |}.

Definition frame_addr (c : cpu) : Z := regs c RSP - regs c RSP mod 16 - 40.

(** Delivery leaves the rest alone: tables, segments (CS is reloaded, which marks descriptor
    [c] accessed) and memory above RSP and below the pushed quadwords. *)
Record outside_frame (c : Z) (w w' : world) : Prop := {
  of_gdtr : gdtr (w_cpu w') = gdtr (w_cpu w);
  of_idtr : idtr (w_cpu w') = idtr (w_cpu w);
  of_segs : segs (w_cpu w') = segs (w_cpu (loaded CS 1 c w));
  of_mem : forall b, ~ (frame_addr (w_cpu w) - 8 <= b < regs (w_cpu w) RSP) ->
    w_mem w' !! b = w_mem (loaded CS 1 c w) !! b;
}.

(** The processor at the first instruction of the stub of [v]. *)
Record delivered (c : Z) (v : nat) (code : Z) (w w1 : world) : Prop := {
  dl_rest : outside_frame c w w1;
  dl_rip : rip (w_cpu w1) = stub_addr v;
  dl_rsp : regs (w_cpu w1) RSP
    = if pushes_error_code v then frame_addr (w_cpu w) - 8 else frame_addr (w_cpu w);
  dl_regs : forall x, x <> RSP -> regs (w_cpu w1) x = regs (w_cpu w) x;
  dl_frame : mem_has (frame_addr (w_cpu w)) (encode_frame (frame_of (w_cpu w))) (w_mem w1);
  dl_code : pushes_error_code v = true ->
    mem_has (frame_addr (w_cpu w) - 8) (le_encode 8 code) (w_mem w1);
  dl_if : Z.testbit (rflags (w_cpu w1)) IF_BIT = false;
  dl_cr2 : cr2 (w_cpu w1) = cr2 (w_cpu w);
  dl_in : w_in w1 = w_in w;
  dl_log : w_log w1 = w_log w;
}.

Lemma masked_if f : Z.testbit (masked_rflags f) IF_BIT = false.
Proof.
  unfold masked_rflags, IF_BIT. cbn [foldr].
  rewrite Z.clearbit_neq by lia. apply Z.clearbit_eq.
Qed.

Lemma frame_addr_bounds c : 64 <= regs c RSP -> 24 <= frame_addr c <= regs c RSP - 40.
Proof.
  intros H. unfold frame_addr. pose proof (Z.mod_pos_bound (regs c RSP) 16 eq_refl).
  pose proof (Z.div_mod (regs c RSP) 16 ltac:(lia)).
  pose proof (Z.div_le_mono 64 (regs c RSP) 16 ltac:(lia) H) as Hd. change (64 / 16) with 4 in Hd.
  lia.
Qed.

(** Pushing the frame and the error code onto the aligned stack. *)
Lemma push_frame_ok v code f w a :
  regs (w_cpu w) RSP = a -> 64 <= a < 2 ^ 64 ->
  exists c m, (_ ← push_all [ef_ss f; ef_rsp f; ef_rflags f; ef_cs f; ef_rip f];
     push_all (if pushes_error_code v then [code] else [])) w
    = Done () (with_cpu c (with_mem m w))
    /\ regs c RSP = (if pushes_error_code v then a - 40 - 8 else a - 40)
    /\ (forall x, x <> RSP -> regs c x = regs (w_cpu w) x) /\ cr2 c = cr2 (w_cpu w)
    /\ mem_has (a - 40) (encode_frame f) m
    /\ (pushes_error_code v = true -> mem_has (a - 40 - 8) (le_encode 8 code) m)
    /\ gdtr c = gdtr (w_cpu w) /\ idtr c = idtr (w_cpu w) /\ segs c = segs (w_cpu w)
    /\ (forall b, ~ (a - 40 - 8 <= b < a) -> m !! b = w_mem w !! b).
Proof.
  intros Ha Hb. destruct (push_all_ok [ef_ss f; ef_rsp f; ef_rflags f; ef_cs f; ef_rip f] w)
    as (c1 & E1 & R1 & X1 & S1 & _ & _ & G1 & I1 & C1); [rewrite Ha; cbn; lia|].
  rewrite Ha in E1, R1. change (8 * Z.of_nat _) with 40 in E1, R1.
  set (w1 := with_cpu c1 _) in E1.
  assert (M1 : mem_has (a - 40) (encode_frame f) (w_mem w1)) by apply mem_has_store.
  assert (A1 : forall b, ~ (a - 40 - 8 <= b < a) -> w_mem w1 !! b = w_mem w !! b).
  { intros b Hnb. destruct (Z_lt_ge_dec b (a - 40));
      [by apply store_bytes_lookup_lt | apply store_bytes_lookup_ge].
    rewrite length_qwords. cbn. lia. }
  destruct (pushes_error_code v).
  - destruct (push_all_ok [code] w1) as (c2 & E2 & R2 & X2 & S2 & _ & _ & G2 & I2 & C2).
    { change (regs (w_cpu w1) RSP) with (regs c1 RSP). rewrite R1. cbn. lia. }
    change (regs (w_cpu w1) RSP) with (regs c1 RSP) in E2, R2. rewrite R1 in E2, R2.
    exists c2, (store_bytes (a - 40 - 8) (le_encode 8 code) (w_mem w1)).
    split_and!.
    + erewrite bind_done by exact E1. exact E2.
    + exact R2.
    + intros x Hx. rewrite X2 by done. by apply X1.
    + rewrite C2. exact C1.
    + apply mem_has_store_disjoint; [rewrite length_le_encode; lia | exact M1].
    + intros _. apply mem_has_store.
    + rewrite G2. exact G1.
    + rewrite I2. exact I1.
    + rewrite S2. exact S1.
    + intros b Hnb. rewrite <- (A1 b Hnb). destruct (Z_lt_ge_dec b (a - 40 - 8));
        [by apply store_bytes_lookup_lt | apply store_bytes_lookup_ge].
      rewrite length_le_encode. lia.
  - exists c1, (w_mem w1). split_and!; try done.
Qed.

Lemma deliver_ok c d v code w :
  gdt_ready c d w -> code_ok c = true -> idt_ready w -> (v < 256)%nat ->
  64 <= regs (w_cpu w) RSP < 2 ^ 64 ->
  exists w1, deliver v code w = Done () w1 /\ delivered c v code w w1.
Proof.
  intros Hg Hc Hi Hv Hr. pose proof (frame_addr_bounds (w_cpu w) ltac:(lia)) as Ha.
  set (w2 := with_cpu (set_reg RSP (frame_addr (w_cpu w) + 40) (w_cpu (loaded CS 1 c w)))
    (loaded CS 1 c w)).
  destruct (push_frame_ok v code (frame_of (w_cpu w)) w2 (frame_addr (w_cpu w) + 40))
    as (c3 & m3 & E & R & X & C & F & K & G & J & S & A); [done | lia |].
  replace (frame_addr (w_cpu w) + 40 - 40) with (frame_addr (w_cpu w)) in * by lia.
  eexists. split.
  - unfold deliver. erewrite bind_done by done. unfold id. rewrite (ready_idtr _ Hi).
    cbn [tr_limit tr_base]. rewrite check_true by (apply Z.leb_le; lia).
    erewrite bind_done by done. erewrite bind_done by by apply idt_ready_gate.
    erewrite bind_done by done. erewrite bind_done by done. erewrite bind_done by done.
    erewrite bind_done by exact (load_cs_ok c d w Hg Hc).
    rewrite gate_offset_new by apply canonical_uint, stub_addr_canonical.
    rewrite check_true by apply stub_addr_canonical. erewrite bind_done by done.
    erewrite bind_done.
    2:{ replace (regs (w_cpu w) RSP - regs (w_cpu w) RSP mod 16)
          with (frame_addr (w_cpu w) + 40) by (unfold frame_addr; lia). reflexivity. }
    fold w2.
    change [segs (w_cpu w) SS; regs (w_cpu w) RSP; rflags (w_cpu w); segs (w_cpu w) CS; rip (w_cpu w)]
      with (let f := frame_of (w_cpu w) in [ef_ss f; ef_rsp f; ef_rflags f; ef_cs f; ef_rip f]).
    cbv zeta.
    rewrite (bind2_done _ _ _ _ _ _ E). reflexivity.
  - split; try done; [| |apply masked_if].
    + split; [exact G | exact J | exact S |]. intros b Hb. apply A.
      unfold frame_addr in *. pose proof (Z.mod_pos_bound (regs (w_cpu w) RSP) 16 eq_refl). lia.
    + intros x Hx. cbn. rewrite X by done. cbn. by rewrite decide_False.
Qed.
End delivery.

Section dispatch.
Context {P : Profile} {I : Image} {L : ImageLaws}.

Lemma find_stub v :
  (v < 32)%nat -> List.find (fun u => isr_addr u =? isr_addr v) (seq 0 32) = Some v.
Proof.
  intros Hv. destruct (List.find _ _) as [u|] eqn:E.
  - apply find_some in E as [Hu E]. apply in_seq in Hu. apply Z.eqb_eq in E.
    f_equal. apply isr_distinct; lia || done.
  - pose proof (find_none _ _ E v) as H. cbv beta in H.
    rewrite Z.eqb_refl in H. discriminate H. apply in_seq. lia.
Qed.

Lemma find_irq : List.find (fun u => isr_addr u =? isr_irq_addr) (seq 0 32) = None.
Proof.
  destruct (List.find _ _) as [u|] eqn:E; [|done].
  apply find_some in E as [Hu E]. apply in_seq in Hu. apply Z.eqb_eq in E.
  exfalso. apply (irq_distinct u); [lia | done].
Qed.

(** The stub table agrees with the processor about error codes. *)
Lemma isr_table {C : CallConv} :
  isr = (fun v => if pushes_error_code v then isr_stub_ec (Z.of_nat v) else isr_stub (Z.of_nat v))
        <$> seq 0 32.
Proof. reflexivity. Qed.

Lemma code_at_stub {C : CallConv} v :
  code_at (stub_addr v)
  = if decide (v < 32)%nat
    then if pushes_error_code v then isr_stub_ec (Z.of_nat v) else isr_stub (Z.of_nat v)
    else isr_irq.
Proof.
  unfold code_at, stub_addr. case_decide as Hv.
  - rewrite find_stub by done. rewrite isr_table, list_lookup_fmap, lookup_seq_lt by done. done.
  - by rewrite find_irq, Z.eqb_refl.
Qed.

(** The registers in which a stub leaves its arguments. *)
Definition stub_vector (v : nat) : Z := if decide (v < 32)%nat then Z.of_nat v else 255.
Definition stub_code (v : nat) (code : Z) : Z := if pushes_error_code v then code else 0.

Definition stub_regs (v : nat) (code : Z) (c : cpu) (x : reg) : Z :=
  match x with
  | RDI => stub_vector v
  | RSI => stub_code v code
  | RDX => frame_addr c
  | RSP => frame_addr c - 8
  | _ => regs c x
  end.

(** The world in which [exception_handler] starts. *)
Record handler_entry (c : Z) (w w2 : world) : Prop := {
  he_rest : outside_frame c w w2;
  he_rsp : regs (w_cpu w2) RSP = frame_addr (w_cpu w) - 8;
  he_frame : mem_has (frame_addr (w_cpu w)) (encode_frame (frame_of (w_cpu w))) (w_mem w2);
  he_if : Z.testbit (rflags (w_cpu w2)) IF_BIT = false;
  he_cr2 : cr2 (w_cpu w2) = cr2 (w_cpu w);
  he_in : w_in w2 = w_in w;
  he_log : w_log w2 = EvInterruptsOff :: w_log w;
}.

Lemma common_ok {C : CallConv} c v code w w1 :
  24 <= frame_addr (w_cpu w) < 2 ^ 64 -> frame_addr (w_cpu w) < regs (w_cpu w) RSP ->
  outside_frame c w w1 ->
  (forall x, regs (w_cpu w1) x = if decide (x = RSP) then frame_addr (w_cpu w)
                                 else stub_regs v code (w_cpu w) x) ->
  mem_has (frame_addr (w_cpu w)) (encode_frame (frame_of (w_cpu w))) (w_mem w1) ->
  cr2 (w_cpu w1) = cr2 (w_cpu w) -> w_in w1 = w_in w -> w_log w1 = w_log w ->
  exists w2, exception_common w1
      = exception_handler (stub_regs v code (w_cpu w) arg1) (stub_regs v code (w_cpu w) arg2)
          (stub_regs v code (w_cpu w) arg3) w2
    /\ handler_entry c w w2.
Proof.
  intros Hb Hbr [Og Oi Os Om] Hr Hm Hc Hi Hl. set (f := frame_addr (w_cpu w)) in *.
  set (w1' := with_io (w_in w1) (EvInterruptsOff :: w_log w1)
    (with_cpu (set_rflags (Z.clearbit (rflags (w_cpu w1)) IF_BIT) (w_cpu w1)) w1)).
  assert (R : regs (w_cpu w1') RSP = f) by exact (Hr RSP).
  set (w2 := with_cpu (set_reg RSP (f - 8) (w_cpu w1'))
    (with_mem (store_bytes (f - 8) (le_encode 8 after_handler_addr) (w_mem w1')) w1')).
  assert (Hregs : forall x, regs (w_cpu w2) x = stub_regs v code (w_cpu w) x).
  { intros x. change (regs (w_cpu w2) x) with (if decide (x = RSP) then f - 8 else regs (w_cpu w1) x).
    case_decide as Hx; [by subst x|]. rewrite Hr. by rewrite decide_False. }
  exists w2. split.
  - assert (Hcli : cli w1 = Done () w1') by done.
    assert (Hpush : push after_handler_addr w1' = Done () w2).
    { rewrite push_ok by (rewrite R; lia). by rewrite R. }
    unfold exception_common. erewrite bind_done by exact Hcli. erewrite bind_done by exact Hpush.
    erewrite bind_done by done. erewrite bind_done by done. erewrite bind_done by done.
    by rewrite !Hregs.
  - split; try done.
    + split; [exact Og | exact Oi | exact Os |]. intros b Hnb. fold f in Hnb. rewrite <- Om by done.
      destruct (Z_lt_ge_dec b (f - 8));
        [by apply store_bytes_lookup_lt | apply store_bytes_lookup_ge].
      rewrite length_le_encode. lia.
    + apply mem_has_store_disjoint; [rewrite length_le_encode; lia | exact Hm].
    + apply Z.clearbit_eq.
    + cbn. by f_equal.
Qed.

(** From delivery to the handler, under any calling convention. *)
Lemma dispatch_ok {C : CallConv} c v code w w1 :
  uint 64 code -> 64 <= regs (w_cpu w) RSP < 2 ^ 64 -> delivered c v code w w1 ->
  exists w2, code_at (rip (w_cpu w1)) w1
      = exception_handler (stub_regs v code (w_cpu w) arg1) (stub_regs v code (w_cpu w) arg2)
          (stub_regs v code (w_cpu w) arg3) w2
    /\ handler_entry c w w2.
Proof.
  intros Hcode Hr [Hrest Hrip Hrsp Hregs Hframe Hec Hif Hcr2 Hin Hlog].
  pose proof (frame_addr_bounds (w_cpu w) ltac:(lia)) as Ha. rewrite Hrip, code_at_stub.
  assert (Hno : (32 <= v)%nat -> pushes_error_code v = false).
  { intros Hv. apply bool_decide_eq_false_2. unfold error_code_vectors.
    rewrite !elem_of_cons, elem_of_nil. lia. }
  destruct (pushes_error_code v) eqn:Hpush.
  - rewrite decide_True by (destruct (decide (v < 32)%nat); [done | discriminate (Hno ltac:(lia))]).
    unfold isr_stub_ec. erewrite bind_done by done.
    erewrite bind_done.
    2:{ apply pop_ok; cbn [regs w_cpu with_cpu set_reg]; rewrite decide_False by done; rewrite Hrsp;
        [lia | by apply mem_has_uint, Hec]. }
    erewrite bind_done by done. erewrite bind_done by done. erewrite bind_done by done.
    apply common_ok; try done; [lia|lia|by destruct Hrest; split|]. intros x. cbn [regs w_cpu with_cpu set_reg].
    destruct x; cbn [stub_regs]; decide_regs; rewrite ?Hregs by done; rewrite ?Hrsp; try done; try lia.
    + unfold stub_code. by rewrite Hpush.
    + unfold stub_vector. rewrite decide_True; [done|].
      destruct (decide (v < 32)%nat); [done | discriminate (Hno ltac:(lia))].
  - assert (Hstub : forall k : Z, k = stub_vector v -> exists w2,
      (_ ← mov RDI k; _ ← mov RSI 0; rsp ← read_cpu (fun c => regs c RSP); _ ← mov RDX rsp;
       exception_common) w1 = exception_handler (stub_regs v code (w_cpu w) arg1)
         (stub_regs v code (w_cpu w) arg2) (stub_regs v code (w_cpu w) arg3) w2
      /\ handler_entry c w w2).
    { intros k ->. do 4 (erewrite bind_done by done). apply common_ok; try done; [lia|lia|by destruct Hrest; split|].
      intros x. cbn [regs w_cpu with_cpu set_reg].
      destruct x; cbn [stub_regs]; decide_regs; rewrite ?Hregs by done; rewrite ?Hrsp; try done.
      unfold stub_code. by rewrite Hpush. }
    unfold stub_vector in Hstub. destruct (decide (v < 32)%nat).
    + by apply (Hstub (Z.of_nat v)).
    + by apply (Hstub 255).
Qed.
End dispatch.

(** The argument the stub makes up when there is no error code is not printed. *)
Lemma report_code {P : Profile} v code cr f :
  report (stub_vector v) (stub_code v code) cr f = report (stub_vector v) code cr f.
Proof.
  unfold report, stub_code. destruct (pushes_error_code v) eqn:H; [done|].
  rewrite bool_decide_eq_false_2; [done|]. unfold stub_vector. case_decide.
  - rewrite Nat2Z.id. by apply bool_decide_eq_false_1 in H.
  - by_dec.
Qed.

(** A machine with both tables installed, about to take an exception. *)
Definition sample_exception_world : world := {|
  w_cpu := set_idtr {| tr_limit := 4095; tr_base := 0x3000 |}
    (set_gdtr {| tr_limit := 23; tr_base := 0x2000 |} (set_seg CS 8 (sample_cpu 0x30000)));
  w_mem := store_bytes 0x3000 (mjoin (encode <$> @idt_table sample_image))
    (store_bytes 0x2000 (mjoin (le_encode 8 <$> boot_GDT)) ∅);
  w_in := []; w_log := [] |}.

Lemma sample_gdt_ready :
  @gdt_ready sample_image GDT_KERNEL_CODE GDT_KERNEL_DATA sample_exception_world.
Proof.
  split; [done | done |]. intros [|[|[|i]]] d [= <-]; vm_compute; reflexivity.
Qed.

Lemma sample_idt_ready : @idt_ready sample_image sample_exception_world.
Proof.
  split; [done|]. intros i e Hi He.
  assert (H : forallb (fun i => bool_decide (load_bytes (0x3000 + 16 * Z.of_nat i) 16
      (w_mem sample_exception_world) = encode <$> (@idt_table sample_image !! i)))
    (seq 0 256) = true) by (vm_compute; reflexivity).
  rewrite forallb_forall in H. specialize (H i). rewrite He in H.
  apply bool_decide_eq_true_1 in H; [exact H|].
  apply in_seq. rewrite length_idt_table in Hi. lia.
Qed.

(** * Properties *)

(** C3: with the GDT and IDT that the kernel installs, and a handler compiled for the SysV
    convention, every exception or interrupt taken at ring 0 (vector, error code, state of
    the interrupted code) ends in the exact report for it: the vector's name and number
    (255 for hardware interrupts), the error code for precisely the vectors that push one,
    CR2 for page faults, and the interrupted RIP, RFLAGS and RSP; interrupts are off, the
    device input is unused until the report starts, and the processor halts for good. *)
Theorem exception_reported {P : Profile} {I : Image} {L : ImageLaws}
    (c d : Z) (v : nat) (code : Z) (w : world) :
  gdt_ready c d w -> code_ok c = true -> idt_ready w ->
  (v < 256)%nat -> 64 <= regs (w_cpu w) RSP < 2 ^ 64 ->
  wf_frame (frame_of (w_cpu w)) -> uint 64 code -> uint 64 (cr2 (w_cpu w)) ->
  exists w2, take_exception (C := sysv) v code w
      = print_and_halt (report (if decide (v < 32)%nat then Z.of_nat v else 255) code
          (cr2 (w_cpu w)) (Some (frame_of (w_cpu w)))) w2
    /\ w_in w2 = w_in w /\ w_log w2 = EvInterruptsOff :: w_log w
    /\ Z.testbit (rflags (w_cpu w2)) IF_BIT = false.
Proof.
  intros Hg Hc Hi Hv Hr Hf Hcode Hcr2.
  destruct (deliver_ok c d v code w Hg Hc Hi Hv Hr) as (w1 & E1 & D).
  destruct (dispatch_ok (C := sysv) c v code w w1 Hcode Hr D) as (w2 & E2 & []).
  pose proof (frame_addr_bounds (w_cpu w) ltac:(lia)) as Ha. exists w2. split_and!; try done.
  unfold take_exception. erewrite bind_done by exact E1. erewrite bind_done by done.
  rewrite E2. cbn [arg1 arg2 arg3 sysv stub_regs]. rewrite <- he_cr3.
  rewrite (exception_handler_ok _ _ _ (Some (frame_of (w_cpu w)))).
  - rewrite report_code. reflexivity.
  - unfold stub_vector, uint. case_decide; lia.
  - unfold stub_code. by destruct (pushes_error_code v).
  - by rewrite he_cr3.
  - split; [lia | by split].
Qed.

Lemma exception_reported_witness :
  exists w2, @take_exception dev_profile sample_image sysv 14 2 sample_exception_world
      = print_and_halt (report 14 2 0 (Some (frame_of (w_cpu sample_exception_world)))) w2
    /\ report 14 2 0 (Some (frame_of (w_cpu sample_exception_world)))
      = crlf ++ line "========== KERNEL EXCEPTION ==========" ++ line "Vector 14: #PF: Page Fault"
        ++ line "Error code:   0x2" ++ line "CR2 (fault):  0x0" ++ line "RIP:          0x7000"
        ++ line "RFLAGS:       0x202" ++ line "RSP (before): 0x30000"
        ++ line "======================================" ++ line "System halted.".
Proof.
  destruct (@exception_reported dev_profile sample_image sample_image_laws GDT_KERNEL_CODE
    GDT_KERNEL_DATA 14 2 sample_exception_world sample_gdt_ready eq_refl sample_idt_ready)
    as (w2 & E & _).
  - lia.
  - by_dec.
  - unfold wf_frame. by_dec.
  - by_dec.
  - by_dec.
  - exists w2. split; [exact E | vm_compute; reflexivity].
Defined.

(** C35: under the Win64 convention, which is what [extern "C"] means on the
    [x86_64-unknown-uefi] target the boot crate is built for, the handler does not receive
    what the stubs pass: its vector is whatever the interrupted code had in RCX, its error
    code is the address of the frame, and its frame pointer is whatever was in R8. *)
Theorem exception_arguments_win64 {P : Profile} {I : Image} {L : ImageLaws}
    (c d : Z) (v : nat) (code : Z) (w : world) :
  gdt_ready c d w -> code_ok c = true -> idt_ready w ->
  (v < 256)%nat -> 64 <= regs (w_cpu w) RSP < 2 ^ 64 -> uint 64 code ->
  exists w2, take_exception (C := win64) v code w
      = exception_handler (regs (w_cpu w) RCX) (frame_addr (w_cpu w)) (regs (w_cpu w) R8) w2
    /\ handler_entry c w w2.
Proof.
  intros Hg Hc Hi Hv Hr Hcode.
  destruct (deliver_ok c d v code w Hg Hc Hi Hv Hr) as (w1 & E1 & D).
  destruct (dispatch_ok (C := win64) c v code w w1 Hcode Hr D) as (w2 & E2 & He).
  exists w2. split; [|exact He].
  unfold take_exception. erewrite bind_done by exact E1. by erewrite bind_done by done.
Qed.

Lemma exception_arguments_win64_witness :
  exists w2, @take_exception dev_profile sample_image win64 14 2 sample_exception_world
      = @exception_handler dev_profile 0 0x2FFD8 0 w2.
Proof.
  destruct (@exception_arguments_win64 dev_profile sample_image sample_image_laws
    GDT_KERNEL_CODE GDT_KERNEL_DATA 14 2 sample_exception_world sample_gdt_ready eq_refl
    sample_idt_ready) as (w2 & E & _).
  - lia.
  - by_dec.
  - by_dec.
  - exists w2. exact E.
Defined.
