(* ===== verification/MemReport.v ===== *)
(** The serial memory report of [boot/src/main.rs]: the classification helpers and
    [print_memory_map].  [memory_report] is the text as a function of the map; the theorems
    show that the routine sends exactly it, and how its totals relate to the statistics of
    the parser of [MemMap]. *)

From S2P Require Export Prelude Abi MemMap Machine BootSerial.

(** * Classification *)

Definition memory_type_label (t : Z) : list Z :=
  if t =? memory_type.RESERVED then str "Reserved"
  else if t =? memory_type.LOADER_CODE then str "LoaderCode"
  else if t =? memory_type.LOADER_DATA then str "LoaderData"
  else if t =? memory_type.BOOT_SERVICES_CODE then str "BootServicesCode"
  else if t =? memory_type.BOOT_SERVICES_DATA then str "BootServicesData"
  else if t =? memory_type.RUNTIME_SERVICES_CODE then str "RuntimeServicesCode"
  else if t =? memory_type.RUNTIME_SERVICES_DATA then str "RuntimeServicesData"
  else if t =? memory_type.CONVENTIONAL then str "Conventional"
  else if t =? memory_type.UNUSABLE then str "Unusable"
  else if t =? memory_type.ACPI_RECLAIM then str "AcpiReclaim"
  else if t =? memory_type.ACPI_NON_VOLATILE then str "AcpiNonVolatile"
  else if t =? memory_type.MMIO then str "Mmio"
  else if t =? memory_type.MMIO_PORT_SPACE then str "MmioPortSpace"
  else if t =? memory_type.PERSISTENT_MEMORY then str "PersistentMemory"
  else str "Unknown".

Definition is_usable_after_boot (t : Z) : bool :=
  (t =? memory_type.CONVENTIONAL) || (t =? memory_type.BOOT_SERVICES_CODE)
  || (t =? memory_type.BOOT_SERVICES_DATA) || (t =? memory_type.LOADER_CODE)
  || (t =? memory_type.LOADER_DATA) || (t =? memory_type.ACPI_RECLAIM).

Definition is_mmio (t : Z) : bool :=
  (t =? memory_type.MMIO) || (t =? memory_type.MMIO_PORT_SPACE).

(** * [print_memory_map] *)

Record totals : Type := { t_total : Z; t_usable : Z; t_reclaimable : Z }.

Section print.
Context {P : Profile}.

(** One iteration of the [for] loop. *)
Definition print_entry (i : Z) (desc : KernelMemoryDescriptor) (t : totals) : M totals :=
  if page_count desc =? 0 then mret t
  else
    size ← lift (mul_u 64 (page_count desc) 4096);
    let fin := saturating_add 64 (phys_start desc) size in
    let total := if negb (is_mmio (ty desc)) then saturating_add 64 (t_total t) size
                 else t_total t in
    let '(usable, reclaimable) :=
      if is_usable_after_boot (ty desc) then
        if ty desc =? memory_type.CONVENTIONAL
        then (saturating_add 64 (t_usable t) size, t_reclaimable t)
        else (t_usable t, saturating_add 64 (t_reclaimable t) size)
      else (t_usable t, t_reclaimable t) in
    _ ← serial_write_str (str "  [");
    _ ← serial_write_usize i;
    _ ← serial_write_str (str "] 0x");
    _ ← serial_write_usize_hex (phys_start desc);
    _ ← serial_write_str (str " - 0x");
    _ ← serial_write_usize_hex fin;
    _ ← serial_write_str (str "  ");
    let kib := size / 1024 in
    _ ← (if 1024 <=? kib then
           _ ← serial_write_usize (kib / 1024); serial_write_str (str " MiB")
         else
           _ ← serial_write_usize kib; serial_write_str (str " KiB"));
    _ ← serial_write_str (str "  ");
    _ ← serial_write_str (memory_type_label (ty desc));
    _ ← serial_write_str crlf;
    mret {| t_total := total; t_usable := usable; t_reclaimable := reclaimable |}.

Fixpoint print_entries (i : Z) (ds : list KernelMemoryDescriptor) (t : totals) : M totals :=
  match ds with
  | [] => mret t
  | d :: ds => t ← print_entry i d t; print_entries (i + 1) ds t
  end.

Definition print_memory_map (map : KernelMemoryMap) : M unit :=
  _ ← serial_write_str (str "[INFO] Physical memory map (");
  _ ← serial_write_usize (kmm_count map);
  _ ← serial_write_str (str " entries");
  _ ← (if kmm_truncated map then serial_write_str (str ", TRUNCATED") else mret ());
  _ ← serial_write_str (str "):" ++ crlf);
  entries ← lift (KernelMemoryMap_entries map);
  t ← print_entries 0 entries {| t_total := 0; t_usable := 0; t_reclaimable := 0 |};
  _ ← (if kmm_truncated map then
         serial_write_str (str "[WARN] Memory map was truncated — some regions are missing!" ++ crlf)
       else mret ());
  _ ← serial_write_str (str "[INFO] RAM: ");
  _ ← serial_write_usize (t_total t / 1024 / 1024);
  _ ← serial_write_str (str " MiB total | ");
  _ ← serial_write_usize (t_usable t / 1024 / 1024);
  _ ← serial_write_str (str " MiB usable | ");
  _ ← serial_write_usize (t_reclaimable t / 1024 / 1024);
  serial_write_str (str " MiB reclaimable" ++ crlf).
End print.

(** * Specification *)

(** Size in bytes, reduced to 64 bits as the unchecked multiplication does. *)
Definition size64 (d : KernelMemoryDescriptor) : Z := wrap 64 (page_count d * 4096).

Definition size_text (size : Z) : list Z :=
  if 1024 <=? size / 1024 then decimal (size / 1024 / 1024) ++ str " MiB"
  else decimal (size / 1024) ++ str " KiB".

Definition row (i : Z) (d : KernelMemoryDescriptor) : list Z :=
  str "  [" ++ decimal i ++ str "] 0x" ++ hexadecimal (phys_start d)
  ++ str " - 0x" ++ hexadecimal (clamp 64 (phys_start d + size64 d)) ++ str "  "
  ++ size_text (size64 d) ++ str "  " ++ memory_type_label (ty d) ++ crlf.

Fixpoint rows (i : Z) (ds : list KernelMemoryDescriptor) : list Z :=
  match ds with
  | [] => []
  | d :: ds => (if page_count d =? 0 then [] else row i d) ++ rows (i + 1) ds
  end.

(** RAM for the report: everything that is not an address-space hole. *)
Definition not_mmio (k : MemoryRegionKind) : bool :=
  match k with Mmio => false | _ => true end.

Definition report_totals (ds : list KernelMemoryDescriptor) : totals := {|
  t_total := clamp 64 (sum (bytes_of not_mmio (live ds)));
  t_usable := clamp 64 (sum (bytes_of is_immediately_usable (live ds)));
  t_reclaimable := clamp 64 (sum (bytes_of is_reclaimable_kind (live ds))) |}.

Definition mib (n : Z) : Z := n / 1024 / 1024.

Definition memory_report (map : KernelMemoryMap) : list Z :=
  let ds := take (Z.to_nat (kmm_count map)) (kmm_descriptors map) in
  let t := report_totals ds in
  str "[INFO] Physical memory map (" ++ decimal (kmm_count map) ++ str " entries"
  ++ (if kmm_truncated map then str ", TRUNCATED" else []) ++ (str "):" ++ crlf)
  ++ rows 0 ds
  ++ (if kmm_truncated map
      then str "[WARN] Memory map was truncated — some regions are missing!" ++ crlf else [])
  ++ str "[INFO] RAM: " ++ decimal (mib (t_total t)) ++ str " MiB total | "
  ++ decimal (mib (t_usable t)) ++ str " MiB usable | "
  ++ decimal (mib (t_reclaimable t)) ++ (str " MiB reclaimable" ++ crlf).

(** The sizes fit 64 bits, or the build wraps. *)
Definition sizes_fit {P : Profile} (ds : list KernelMemoryDescriptor) : Prop :=
  Forall (fun d => overflow_checks = true -> page_count d < 2 ^ 52) ds.

(** * Lemmas *)

(** The report's classification of type codes is that of the parser. *)
Lemma report_kinds t :
  negb (is_mmio t) = not_mmio (MemoryRegionKind_from t)
  /\ (is_usable_after_boot t && (t =? memory_type.CONVENTIONAL))
     = is_immediately_usable (MemoryRegionKind_from t)
  /\ (is_usable_after_boot t && negb (t =? memory_type.CONVENTIONAL))
     = is_reclaimable_kind (MemoryRegionKind_from t).
Proof.
  unfold is_mmio, is_usable_after_boot, MemoryRegionKind_from.
  case_bool; subst; try done; split_and!; reflexivity || lia.
Qed.

(** The loop variables as running saturated sums. *)
Definition add_totals (d : KernelMemoryDescriptor) (t : totals) : totals :=
  let add (b : bool) n := if b then saturating_add 64 n (size64 d) else n in
  if page_count d =? 0 then t
  else {| t_total := add (not_mmio (region_kind d)) (t_total t);
          t_usable := add (is_immediately_usable (region_kind d)) (t_usable t);
          t_reclaimable := add (is_reclaimable_kind (region_kind d)) (t_reclaimable t) |}.

Section report_lemmas.
Context {P : Profile}.

Lemma mul_pages d :
  0 <= page_count d -> (overflow_checks = true -> page_count d < 2 ^ 52) ->
  @mul_u P void 64 (page_count d) 4096 = Ok (size64 d).
Proof.
  intros H0 Hf. pose proof (@size_bytes_spec P void d H0) as H.
  unfold KernelMemoryDescriptor_size_bytes in H. rewrite H. unfold size64.
  destruct overflow_checks; cbn [andb]; [|done].
  by rewrite (proj2 (Z.leb_gt _ _)) by by apply Hf.
Qed.

Lemma size64_range d : uint 64 (size64 d).
Proof. by apply Z.mod_pos_bound. Qed.

Lemma uint_div w n k : 0 < k -> uint w n -> uint w (n / k).
Proof.
  intros Hk [H1 H2]. split; [by apply Z.div_pos|].
  eapply Z.le_lt_trans; [|exact H2]. apply Z.div_le_upper_bound; nia.
Qed.

Lemma uint_clamp n : 0 <= n -> uint 64 (clamp 64 n).
Proof. intros H. unfold clamp, max_value, uint. lia. Qed.

Lemma print_size_ok size :
  uint 64 size ->
  (if 1024 <=? size / 1024 then
     _ ← serial_write_usize (size / 1024 / 1024); serial_write_str (str " MiB")
   else _ ← serial_write_usize (size / 1024); serial_write_str (str " KiB"))
  ≡ send (size_text size).
Proof.
  intros H. unfold size_text. destruct (1024 <=? size / 1024); prints;
    repeat (apply uint_div; [done|]); done.
Qed.

Lemma print_entry_ok i d t :
  uint 64 i -> wf_descriptor d -> (overflow_checks = true -> page_count d < 2 ^ 52) ->
  print_entry i d t ≡
    (_ ← send (if page_count d =? 0 then [] else row i d); mret (add_totals d t)).
Proof.
  intros Hi (_ & _ & Hs & Hp & _) Hf. unfold print_entry, add_totals.
  destruct (page_count d =? 0); [apply prints_ret_val|].
  rewrite mul_pages by (done || by destruct Hp). rewrite lift_ok, M_bind_ret_l. cbv zeta.
  pose proof (size64_range d) as Hsz.
  assert (Hfin : uint 64 (saturating_add 64 (phys_start d) (size64 d))).
  { apply saturating_add_bound; [done | by destruct Hs | by destruct Hsz]. }
  destruct (report_kinds (ty d)) as (K1 & K2 & K3). fold (region_kind d) in K1, K2, K3.
  rewrite <- K1, <- K2, <- K3.
  destruct (is_usable_after_boot (ty d)), (ty d =? memory_type.CONVENTIONAL); cbn [andb negb];
    unfold row; repeat (apply prints_then_val; [by prints || by apply print_size_ok|]);
    rewrite <- (app_nil_r crlf);
    (apply prints_then_val; [by prints | apply prints_ret_val]).
Qed.

Lemma print_entries_ok ds i t :
  0 <= i -> i + Z.of_nat (length ds) < 2 ^ 64 ->
  Forall wf_descriptor ds -> sizes_fit ds ->
  print_entries i ds t ≡ (_ ← send (rows i ds); mret (foldl (fun t d => add_totals d t) t ds)).
Proof.
  revert i t; induction ds as [|d ds IH]; intros i t Hi Hlen Hwf Hfit; [done|].
  apply Forall_cons in Hwf as [Hd Hwf]. apply Forall_cons in Hfit as [Hf Hfit].
  cbn [length] in Hlen. cbn [print_entries rows foldl].
  eapply prints_val; [apply print_entry_ok; [unfold uint; lia | done | done]|].
  apply IH; done || lia.
Qed.

Lemma foldl_totals ds t :
  foldl (fun t d => add_totals d t) t ds = {|
    t_total := foldl (saturating_add 64) (t_total t) (bytes_of not_mmio (live ds));
    t_usable := foldl (saturating_add 64) (t_usable t) (bytes_of is_immediately_usable (live ds));
    t_reclaimable :=
      foldl (saturating_add 64) (t_reclaimable t) (bytes_of is_reclaimable_kind (live ds)) |}.
Proof.
  revert t; induction ds as [|d ds IH]; intros t; [by destruct t|].
  cbn [foldl]. rewrite IH, live_cons. unfold add_totals.
  destruct (page_count d =? 0); [done|]. cbn [t_total t_usable t_reclaimable].
  unfold bytes_of. rewrite !filter_cons.
  by destruct (not_mmio _), (is_immediately_usable _), (is_reclaimable_kind _).
Qed.

Lemma report_totals_foldl ds :
  foldl (fun t d => add_totals d t) {| t_total := 0; t_usable := 0; t_reclaimable := 0 |} ds
  = report_totals ds.
Proof. rewrite foldl_totals. cbn [t_total t_usable t_reclaimable]. by rewrite !bytes_of_clamp. Qed.

Lemma report_totals_range ds :
  uint 64 (t_total (report_totals ds)) /\ uint 64 (t_usable (report_totals ds))
  /\ uint 64 (t_reclaimable (report_totals ds)).
Proof. split_and!; apply uint_clamp, sum_nonneg, bytes_of_nonneg. Qed.

Lemma print_memory_map_ok map :
  wf_memory_map map -> kmm_count map <= Z.of_nat MAX_MEMORY_DESCRIPTORS ->
  sizes_fit (take (Z.to_nat (kmm_count map)) (kmm_descriptors map)) ->
  print_memory_map map ≡ send (memory_report map).
Proof.
  intros Hwf Hc Hfit. destruct (wf_entries map Hwf Hc) as (_ & Hds & Hlen).
  set (ds := take _ _) in *.
  assert (Hcount : uint 64 (kmm_count map)) by by destruct Hwf as (_ & _ & ? & _).
  unfold print_memory_map, memory_report. fold ds. cbv zeta.
  do 3 (apply prints_bind; [by prints|]).
  apply prints_bind; [apply prints_if; by prints|].
  apply prints_bind; [by prints|].
  rewrite entries_take by done. fold ds. rewrite lift_ok, M_bind_ret_l.
  eapply prints_drop_val.
  { apply print_entries_ok; [done | unfold MAX_MEMORY_DESCRIPTORS in Hlen; lia | done | done]. }
  rewrite report_totals_foldl.
  destruct (report_totals_range ds) as (H1 & H2 & H3).
  apply prints_bind; [apply prints_if; by prints|].
  unfold mib. prints; repeat (apply uint_div; [done|]); done.
Qed.

Lemma bytes_of_agree (p q : MemoryRegionKind -> bool) ds :
  Forall (fun d => p (region_kind d) = q (region_kind d)) ds -> bytes_of p ds = bytes_of q ds.
Proof.
  unfold bytes_of. induction 1 as [|d ds Hd _ IH]; [done|].
  rewrite !filter_cons. revert Hd.
  destruct (p (region_kind d)), (q (region_kind d)); intros; try done.
  exact (f_equal (cons (wrap 64 (page_count d * 4096))) IH).
Qed.
End report_lemmas.

(** * Properties *)

(** C23: for every map whose [count] fits the array (and, in a build with overflow checks,
    whose sizes fit 64 bits), [print_memory_map] never panics and sends exactly the report:
    the header, one row per live entry with its index, range, size and label, the
    truncation warnings when and only when the map was truncated, and the totals of each
    class as saturated sums. *)
Theorem print_memory_map_correct {P : Profile} (map : KernelMemoryMap) :
  wf_memory_map map -> kmm_count map <= Z.of_nat MAX_MEMORY_DESCRIPTORS ->
  sizes_fit (take (Z.to_nat (kmm_count map)) (kmm_descriptors map)) ->
  print_memory_map map ≡ send (memory_report map).
Proof. intros Hwf Hc Hf. exact (print_memory_map_ok map Hwf Hc Hf). Qed.

Lemma sample_sizes_fit :
  @sizes_fit dev_profile (take (Z.to_nat (kmm_count sample_map)) (kmm_descriptors sample_map)).
Proof. unfold sizes_fit. by repeat constructor. Qed.

Lemma print_memory_map_correct_witness :
  @print_memory_map dev_profile sample_map ≡ send (
    str "[INFO] Physical memory map (5 entries):" ++ crlf
    ++ str "  [1] 0x1000 - 0x65000  400 KiB  Conventional" ++ crlf
    ++ str "  [2] 0x100000 - 0x132000  200 KiB  BootServicesData" ++ crlf
    ++ str "  [3] 0xfec00000 - 0xfec04000  16 KiB  Mmio" ++ crlf
    ++ str "  [4] 0xf000 - 0x10000  4 KiB  Reserved" ++ crlf
    ++ str "[INFO] RAM: 0 MiB total | 0 MiB usable | 0 MiB reclaimable" ++ crlf).
Proof.
  replace (str "[INFO] Physical memory map (5 entries):" ++ _) with (memory_report sample_map)
    by (vm_compute; reflexivity).
  exact (@print_memory_map_correct dev_profile sample_map wf_sample_map
    ltac:(by_dec) sample_sizes_fit).
Defined.

(** C24: on every map the parser accepts, the report and the parser classify memory alike:
    the usable and reclaimable totals of the report are the parser's statistics; the
    report's total is at least the parser's, which leaves firmware-runtime memory out, and
    is equal to it when the map has no such memory. *)
Theorem report_agrees_with_parse {P : Profile} (source : KernelMemoryMap) (m : MemoryMap) :
  wf_memory_map source -> MemoryMap_parse source = Ok m ->
  let ds := take (Z.to_nat (kmm_count source)) (kmm_descriptors source) in
  print_memory_map source ≡ send (memory_report source)
  /\ t_usable (report_totals ds) = usable_bytes (MemoryMap_stats m)
  /\ t_reclaimable (report_totals ds) = reclaimable_bytes (MemoryMap_stats m)
  /\ total_bytes (MemoryMap_stats m) <= t_total (report_totals ds)
  /\ (Forall (fun d => region_kind d <> FirmwareRuntime) (live ds) ->
      total_bytes (MemoryMap_stats m) = t_total (report_totals ds)).
Proof.
  intros Hwf Hm ds. destruct (parse_ok_inv source m Hwf Hm) as (Hc & Hstop & _ & ->).
  fold ds in Hstop. fold ds. split; [|split; [done|split; [done|split]]].
  - apply print_memory_map_ok; [done | done |]. fold ds. apply first_stop_none in Hstop.
    apply (Forall_impl _ _ _ Hstop). intros d Hd Hov.
    destruct (Z.eq_dec (page_count d) 0) as [->|Hnz]; [done|].
    by apply (not_stops_live d Hd Hnz).
  - assert (sum (bytes_of counts_as_ram (live ds)) <= sum (bytes_of not_mmio (live ds))).
    { apply sum_bytes_of_le. by intros []. }
    cbn. unfold clamp. lia.
  - intros Hno. cbn. do 2 f_equal. apply bytes_of_agree, (Forall_impl _ _ _ Hno).
    intros d Hd. by destruct (region_kind d).
Qed.

(** The parser accepts [sample_map], whose total leaves the firmware's memory out. *)
Lemma report_agrees_with_parse_witness :
  usable_bytes (mm_stats sample_parsed) = 409600
  /\ t_usable (report_totals (take 5 (kmm_descriptors sample_map))) = 409600
  /\ total_bytes (mm_stats sample_parsed)
     <= t_total (report_totals (take 5 (kmm_descriptors sample_map))).
Proof.
  destruct (@report_agrees_with_parse dev_profile sample_map sample_parsed wf_sample_map
    sample_parse_ok) as (_ & H & _ & Ht & _).
  split; [vm_compute; reflexivity|]. split; [|exact Ht].
  refine (eq_trans H _). vm_compute. reflexivity.
Defined.
