(* ===== verification/Stack.v ===== *)
(** Kernel stacks: the [KernelStack] type of [kernel/src/arch/x86_64/stack.rs] and the two
    static stacks of [boot/src/main.rs].  A stack is its zeroed bytes at an address the
    linker chooses; RSP starts one past its end and pushes go down from there. *)

From S2P Require Export Prelude Machine Cpu.

Definition KERNEL_STACK_SIZE : Z := 64 * 1024.
Definition KERNEL_STACK_GUARD_SIZE : Z := 4 * 1024.
Definition KERNEL_STACK_USABLE_SIZE : Z := KERNEL_STACK_SIZE - KERNEL_STACK_GUARD_SIZE.

(** [boot/src/main.rs] *)
Definition BOOTSTRAP_STACK_SIZE : Z := 16 * 1024.
Definition boot_KERNEL_STACK_SIZE : Z := 64 * 1024.
Definition boot_KERNEL_STACK_GUARD_SIZE : Z := 4 * 1024.

(** A stack value at its address; [repr(C, align(16))]. *)
Record KernelStack : Type := { stack_addr : Z; data : list Z }.

Definition KernelStack_new (addr size : Z) : KernelStack :=
  {| stack_addr := addr; data := replicate (Z.to_nat size) 0 |}.

Section stack.
Context (SIZE : Z).

Definition KernelStack_top (s : KernelStack) : Z := wrap 64 (stack_addr s + SIZE).
Definition KernelStack_bottom (s : KernelStack) : Z := stack_addr s.
Definition KernelStack_top_addr (s : KernelStack) : Z := KernelStack_top s.
Definition KernelStack_bottom_addr (s : KernelStack) : Z := KernelStack_bottom s.
Definition KernelStack_size : Z := SIZE.
End stack.

(** A stack of [size] bytes that the linker placed: 16-aligned, inside the address space. *)
Definition placed (addr size : Z) : Prop := 0 < addr /\ addr mod 16 = 0 /\ addr + size < 2 ^ 64.

(** The bytes pushing [vs] from the top of a stack writes. *)
Lemma push_from_top size (s : KernelStack) vs w :
  placed (stack_addr s) size -> 0 <= size -> 8 * Z.of_nat (length vs) <= size ->
  regs (w_cpu w) RSP = KernelStack_top size s ->
  exists c, push_all vs w = Done () (with_cpu c (with_mem
      (store_bytes (stack_addr s + size - 8 * Z.of_nat (length vs)) (qwords (rev vs)) (w_mem w)) w))
    /\ regs c RSP = stack_addr s + size - 8 * Z.of_nat (length vs).
Proof.
  intros (Ha & _ & Hs) Hsize Hn Hr.
  unfold KernelStack_top in Hr. rewrite wrap_small in Hr by (unfold uint; lia).
  destruct (push_all_ok vs w) as (c & E & R & _); [rewrite Hr; lia|].
  rewrite Hr in E, R. by exists c.
Qed.

(** C30: a stack type of any size that is a multiple of 16 has its top 16-byte aligned and
    exactly [size()] bytes above its bottom; starting from the top, pushing at most the
    usable size (everything but the guard) writes only bytes of the stack above the guard
    region, whose bytes stay as they were. *)
Theorem kernel_stack_bounds (size : Z) (s : KernelStack) (vs : list Z) (w : world) :
  placed (stack_addr s) size -> size mod 16 = 0 ->
  KERNEL_STACK_GUARD_SIZE + 8 * Z.of_nat (length vs) <= size ->
  regs (w_cpu w) RSP = KernelStack_top_addr size s ->
  KernelStack_top_addr size s mod 16 = 0
  /\ KernelStack_top_addr size s = KernelStack_bottom_addr s + KernelStack_size size
  /\ exists w', push_all vs w = Done () w'
     /\ mem_has (regs (w_cpu w') RSP) (qwords (rev vs)) (w_mem w')
     /\ KernelStack_bottom_addr s + KERNEL_STACK_GUARD_SIZE <= regs (w_cpu w') RSP
     /\ forall b, b < KernelStack_bottom_addr s + KERNEL_STACK_GUARD_SIZE
                  \/ KernelStack_top_addr size s <= b -> w_mem w' !! b = w_mem w !! b.
Proof.
  intros Hp Hm Hn Hr. assert (Hg : KERNEL_STACK_GUARD_SIZE = 4096) by done.
  assert (Htop : KernelStack_top_addr size s = stack_addr s + size).
  { destruct Hp as (? & _ & ?). apply wrap_small. unfold uint. lia. }
  destruct (push_from_top size s vs w Hp ltac:(lia) ltac:(lia) Hr) as (c & E & R).
  rewrite Htop. split; [|split; [done|]].
  - destruct Hp as (_ & Ha & _). by rewrite Z.add_mod, Ha, Hm.
  - eexists. split; [exact E|]. cbn [w_cpu w_mem with_cpu with_mem]. rewrite R.
    split; [apply mem_has_store|]. split; [unfold KernelStack_bottom_addr, KernelStack_bottom; lia|].
    unfold KernelStack_bottom_addr, KernelStack_bottom. intros b Hb.
    pose proof (length_qwords (rev vs)) as Hl. rewrite length_rev in Hl.
    destruct Hb; [apply store_bytes_lookup_lt | apply store_bytes_lookup_ge]; lia.
Qed.

Lemma kernel_stack_bounds_witness :
  KernelStack_top_addr KERNEL_STACK_SIZE (KernelStack_new 0x20000 KERNEL_STACK_SIZE) = 0x30000
  /\ exists w', push_all [1; 2; 3] {| w_cpu := sample_cpu 0x30000; w_mem := ∅; w_in := [];
                                      w_log := [] |} = Done () w'
     /\ mem_has (regs (w_cpu w') RSP) (qwords [3; 2; 1]) (w_mem w').
Proof.
  split; [vm_compute; reflexivity|].
  destruct (kernel_stack_bounds KERNEL_STACK_SIZE (KernelStack_new 0x20000 KERNEL_STACK_SIZE)
    [1; 2; 3] {| w_cpu := sample_cpu 0x30000; w_mem := ∅; w_in := []; w_log := [] |})
    as (_ & _ & w' & E & H & _).
  - unfold placed. by_dec.
  - by_dec.
  - by_dec.
  - vm_compute. reflexivity.
  - exists w'. split; [exact E | exact H].
Defined.
