(* ===== verification/Console.v ===== *)
(** The UEFI text console of the bootloader ([boot/src/console.rs]) and the memory summary
    printed on it ([print_memory_summary] of [boot/src/main.rs]).

    Strings are lists of characters (code points).  [writeln!] calls [write_str] on the
    pieces of the formatted text, and [write_str] treats each character on its own, so the
    pieces are concatenated here ([console_write_app]).  The formatting of integers is that
    of [core::fmt], by the numerals of [BootSerial]. *)

From S2P Require Export Prelude Machine Serial BootSerial Cpu UefiMemory.

(** * The console *)

(** [output_string] of a buffer of UCS-2 units: the text up to the first NUL. *)
Fixpoint until_nul (buf : list Z) : list Z :=
  match buf with
  | [] => []
  | u :: buf => if u =? 0 then [] else u :: until_nul buf
  end.

Definition output_string (buf : list Z) : M unit := emit (EvText (until_nul buf)).

Definition Console_clear : M unit := emit EvClear.

Definition Console_write_str (s : list Z) : M unit :=
  for_each s (fun c =>
    if c =? 10 then output_string (crlf ++ [0])
    else if c <? 128 then output_string [wrap 16 c; 0]
    else mret ()).

Definition console_writeln (s : list Z) : M unit := Console_write_str (s ++ [10]).

(** * Formatting *)

(** [{:#x}] *)
Definition fmt_alt_hex (n : Z) : list Z := str "0x" ++ hexadecimal n.

(** [{:#012x}]: zero padded after the prefix to 12 characters in all. *)
Definition fmt_alt_hex12 (n : Z) : list Z :=
  str "0x" ++ replicate (10 - length (hexadecimal n)) 48 ++ hexadecimal n.

(** [#[derive(Debug)]] of [MemoryRegionType]. *)
Definition MemoryRegionType_debug (t : MemoryRegionType) : list Z :=
  match t with
  | RtUsable => str "Usable"
  | RtReserved => str "Reserved"
  | RtAcpiReclaimable => str "AcpiReclaimable"
  | RtAcpiNvs => str "AcpiNvs"
  | RtMmio => str "Mmio"
  | RtMmioPortSpace => str "MmioPortSpace"
  | RtBootServicesCode => str "BootServicesCode"
  | RtBootServicesData => str "BootServicesData"
  | RtRuntimeServicesCode => str "RuntimeServicesCode"
  | RtRuntimeServicesData => str "RuntimeServicesData"
  | RtLoaderCode => str "LoaderCode"
  | RtLoaderData => str "LoaderData"
  | RtConventional => str "Conventional"
  | RtUnusable => str "Unusable"
  | RtPersistent => str "Persistent"
  | RtUnknown => str "Unknown"
  end.

Section summary.
Context {P : Profile}.

Definition print_memory_summary (m : BootMemoryMap) : M unit :=
  _ ← console_writeln [];
  _ ← console_writeln (str "Memory Map Summary:");
  _ ← console_writeln (str "-------------------");
  _ ← for_each (regions m) (fun region =>
    let size_kb := size region / 1024 in
    let size_mb := size_kb / 1024 in
    let size_str := if size_mb >? 0 then decimal size_mb ++ str " MB"
                    else decimal size_kb ++ str " KB" in
    fin ← lift (add_u 64 (start region) (size region));
    console_writeln (str "  " ++ fmt_alt_hex12 (start region) ++ str " - " ++ fmt_alt_hex12 fin
      ++ str ": " ++ MemoryRegionType_debug (region_type region) ++ str " (" ++ size_str ++ str ")"));
  console_writeln [].
End summary.

(** * Specification *)

(** Characters the console shows: ASCII, NUL excepted. *)
Definition shown (c : Z) : bool := (0 <? c) && (c <? 128).

(** Text on the screen, oldest first, after the events of a log. *)
Definition text_of (e : event) : list Z := match e with EvText s => s | _ => [] end.
Definition screen (log : list event) : list Z := mjoin (text_of <$> rev log).

Definition console_text (s : list Z) : list Z := expand (filter (fun c => shown c) s).

(** A computation that shows [s], and changes only the log, by text events. *)
Definition shows (m : M unit) (s : list Z) : Prop := forall w, exists texts,
  m w = Done () (with_io (w_in w) ((EvText <$> texts) ++ w_log w) w)
  /\ mjoin (rev texts) = s.

Definition summary_row (r : MemoryRegion) : list Z :=
  str "  " ++ fmt_alt_hex12 (start r) ++ str " - " ++ fmt_alt_hex12 (wrap 64 (start r + size r))
  ++ str ": " ++ MemoryRegionType_debug (region_type r) ++ str " ("
  ++ (if size r / 1024 / 1024 >? 0 then decimal (size r / 1024 / 1024) ++ str " MB"
      else decimal (size r / 1024) ++ str " KB") ++ str ")".

(** * Lemmas *)

Lemma screen_texts texts log :
  screen ((EvText <$> texts) ++ log) = screen log ++ mjoin (rev texts).
Proof.
  unfold screen. rewrite rev_app_distr, fmap_app, join_app. f_equal. f_equal.
  rewrite <- map_rev. change (map EvText (rev texts)) with (EvText <$> rev texts).
  rewrite <- list_fmap_compose. apply list_fmap_id.
Qed.

Lemma shows_bind m n s t : shows m s -> shows n t -> shows (_ ← m; n) (s ++ t).
Proof.
  intros Hm Hn w. destruct (Hm w) as (xs & E & <-). erewrite bind_done by exact E.
  destruct (Hn (with_io (w_in w) ((EvText <$> xs) ++ w_log w) w)) as (ys & E' & <-).
  exists (ys ++ xs). rewrite E'. split.
  - cbn [w_in w_log with_io]. by rewrite fmap_app, <- app_assoc.
  - by rewrite rev_app_distr, join_app.
Qed.

Lemma shows_ret : shows (mret ()) [].
Proof. intros w. exists []. split; [by destruct w | done]. Qed.

Lemma shows_for_each {A} (l : list A) f (t : A -> list Z) :
  (forall a, a ∈ l -> shows (f a) (t a)) -> shows (for_each l f) (mjoin (t <$> l)).
Proof.
  induction l as [|a l IH]; intros H; [apply shows_ret|]. rewrite fmap_cons.
  apply shows_bind; [apply H; left | apply IH; intros b Hb; apply H; by right].
Qed.

Lemma console_text_app s t : console_text (s ++ t) = console_text s ++ console_text t.
Proof.
  unfold console_text. rewrite filter_app. induction (filter _ s) as [|c cs IH]; [done|].
  cbn [app expand]. rewrite IH. by destruct (c =? 10).
Qed.

Lemma console_char_shows c :
  uint 32 c ->
  shows (if c =? 10 then output_string (crlf ++ [0])
         else if c <? 128 then output_string [wrap 16 c; 0] else mret ())
    (console_text [c]).
Proof.
  intros [Hc _]. unfold console_text. rewrite filter_cons, filter_nil. unfold shown.
  destruct (Z.eqb_spec c 10) as [->|Hne]; [intros w; by exists [crlf]|].
  destruct (Z.ltb_spec c 128) as [Hlt|Hge].
  - unfold output_string. rewrite wrap_small by (unfold uint; lia).
    destruct (Z.ltb_spec 0 c) as [Hpos|]; cbn [andb until_nul].
    + rewrite (proj2 (Z.eqb_neq c 0)) by lia. rewrite decide_True by done.
      cbn [expand]. rewrite (proj2 (Z.eqb_neq c 10)) by done. intros w. by exists [[c]].
    + replace c with 0 by lia. intros w. by exists [[]].
  - rewrite andb_false_r, decide_False by (intros []). apply shows_ret.
Qed.

Lemma console_write_shows s : Forall (uint 32) s -> shows (Console_write_str s) (console_text s).
Proof.
  intros Hs. unfold Console_write_str. replace (console_text s) with (mjoin ((fun c => console_text [c]) <$> s)).
  - apply shows_for_each. intros c Hc. rewrite Forall_forall in Hs.
    by apply console_char_shows, Hs.
  - clear. induction s as [|c s IH]; [done|].
    transitivity (console_text [c] ++ console_text s);
      [exact (f_equal (app (console_text [c])) IH) | symmetry; apply (console_text_app [c] s)].
Qed.

(** Writing two pieces is writing their concatenation. *)
Lemma console_write_app s t :
  Console_write_str (s ++ t) ≡ (_ ← Console_write_str s; Console_write_str t).
Proof. apply for_each_app. Qed.

(** ** Characters of formatted text *)

Lemma uint8_32 s : Forall (uint 8) s -> Forall (uint 32) s.
Proof. intros H. apply (Forall_impl _ _ _ H). unfold uint. lia. Qed.

Lemma str_chars s : Forall (uint 32) (str s).
Proof. apply uint8_32, str_bytes. Qed.

Lemma numeral_chars b n : 2 <= b <= 16 -> Forall (uint 32) (numeral b n).
Proof.
  intros Hb. unfold numeral. destruct (n =? 0); [by repeat constructor|].
  apply Forall_rev, Forall_fmap. eapply Forall_impl; [apply (digits_le_range b 64 n); lia|].
  intros d [Hd Hd']. change (uint 32 (digit_char d)). unfold digit_char, uint.
  change (2 ^ 32) with 4294967296. case_bool; lia.
Qed.

Lemma decimal_chars n : Forall (uint 32) (decimal n).
Proof. by apply numeral_chars. Qed.

Lemma hexadecimal_chars n : Forall (uint 32) (hexadecimal n).
Proof. by apply numeral_chars. Qed.

Lemma hex12_chars n : Forall (uint 32) (fmt_alt_hex12 n).
Proof.
  unfold fmt_alt_hex12. repeat apply Forall_app_2;
    [apply str_chars | by apply Forall_replicate | apply hexadecimal_chars].
Qed.

Lemma debug_chars t : Forall (uint 32) (MemoryRegionType_debug t).
Proof. destruct t; apply str_chars. Qed.

Lemma newline_chars : Forall (uint 32) [10].
Proof. by repeat constructor. Qed.

(** Characters of a concatenation of such pieces. *)
Ltac chars :=
  repeat match goal with
  | |- Forall _ (_ ++ _) => apply Forall_app_2
  | |- Forall _ (str _) => apply str_chars
  | |- Forall _ (decimal _) => apply decimal_chars
  | |- Forall _ (hexadecimal _) => apply hexadecimal_chars
  | |- Forall _ (fmt_alt_hex12 _) => apply hex12_chars
  | |- Forall _ (MemoryRegionType_debug _) => apply debug_chars
  | |- Forall _ [10] => apply newline_chars
  | |- Forall _ [] => apply Forall_nil_2
  | |- Forall _ (if ?b then _ else _) => destruct b
  end.

Lemma summary_row_chars r : Forall (uint 32) (summary_row r).
Proof. unfold summary_row. chars. Qed.

Lemma writeln_shows s :
  Forall (uint 32) s -> shows (console_writeln s) (console_text (s ++ [10])).
Proof. intros H. apply console_write_shows. chars. exact H. Qed.

Definition summary_text (m : BootMemoryMap) : list Z :=
  [10] ++ (str "Memory Map Summary:" ++ [10]) ++ (str "-------------------" ++ [10])
  ++ mjoin ((fun r => summary_row r ++ [10]) <$> regions m) ++ [10].

Lemma console_text_mjoin ls : console_text (mjoin ls) = mjoin (console_text <$> ls).
Proof.
  induction ls as [|l ls IH]; [done|].
  transitivity (console_text l ++ console_text (mjoin ls)); [apply console_text_app|].
  exact (f_equal (app (console_text l)) IH).
Qed.

(** * Properties *)

(** [Console::write_str] never fails; what it adds to the screen is the text with its
    non-ASCII characters (and NUL) dropped and every newline expanded to CR LF, the same
    translation as the serial driver's; nothing else of the machine changes, and writing a
    string in pieces is writing it whole. *)
Theorem console_write_str_correct (s t : list Z) (w : world) :
  Forall (uint 32) s ->
  (exists w', Console_write_str s w = Done () w'
     /\ screen (w_log w') = screen (w_log w) ++ console_text s
     /\ w_cpu w' = w_cpu w /\ w_mem w' = w_mem w /\ w_in w' = w_in w)
  /\ console_text s = expand (filter (fun c => shown c) s)
  /\ unexpand (console_text s) = filter (fun c => shown c) s
  /\ Console_write_str (s ++ t) ≡ (_ ← Console_write_str s; Console_write_str t).
Proof.
  intros Hs. split_and!; [|done|apply unexpand_expand|apply console_write_app].
  destruct (console_write_shows s Hs w) as (texts & E & <-).
  eexists. split; [exact E|]. split_and!; try done. apply screen_texts.
Qed.

(** C34: the console memory summary lists every region with its exact range, kind and size;
    in a build with overflow checks it panics only if a region ends beyond 2^64, which is
    excluded here, and in a release build the end wraps. *)
Theorem memory_summary_correct {P : Profile} (m : BootMemoryMap) :
  Forall (fun r => uint 64 (start r) /\ uint 64 (size r)
    /\ (overflow_checks = true -> start r + size r < 2 ^ 64)) (regions m) ->
  shows (print_memory_summary m) (console_text (summary_text m)).
Proof.
  intros Hr. unfold print_memory_summary, summary_text. rewrite !console_text_app.
  do 3 (apply shows_bind; [rewrite <- ?console_text_app; apply writeln_shows; chars|]).
  apply shows_bind; [|apply writeln_shows; chars].
  rewrite console_text_mjoin, <- list_fmap_compose. apply shows_for_each.
  intros r Hin. rewrite Forall_forall in Hr. destruct (Hr r Hin) as (Hs & Hz & Hf). cbv zeta.
  assert (E : @add_u P void 64 (start r) (size r) = Ok (wrap 64 (start r + size r))).
  { unfold add_u, arith. destruct (Z.ltb_spec (start r + size r) (2 ^ 64)) as [Hlt|Hge].
    - rewrite wrap_small; [done | unfold uint in *; lia].
    - destruct overflow_checks; [specialize (Hf eq_refl); lia | done]. }
  rewrite E, lift_ok. intros w. erewrite bind_done by done.
  exact (writeln_shows (summary_row r) (summary_row_chars r) w).
Qed.

Lemma memory_summary_correct_witness :
  shows (@print_memory_summary dev_profile
      {| regions := [MemoryRegion_new 0x1000 0x9F000 RtConventional 0xF;
                     MemoryRegion_new 0x100000 0x7000000 RtBootServicesData 0xF];
         total_memory := 0; usable_memory := 0 |})
    (crlf ++ str "Memory Map Summary:" ++ crlf ++ str "-------------------" ++ crlf
     ++ str "  0x0000001000 - 0x00000a0000: Conventional (636 KB)" ++ crlf
     ++ str "  0x0000100000 - 0x0007100000: BootServicesData (112 MB)" ++ crlf ++ crlf).
Proof.
  replace (crlf ++ _) with (console_text (summary_text
      {| regions := [MemoryRegion_new 0x1000 0x9F000 RtConventional 0xF;
                     MemoryRegion_new 0x100000 0x7000000 RtBootServicesData 0xF];
         total_memory := 0; usable_memory := 0 |})) by (vm_compute; reflexivity).
  apply (@memory_summary_correct dev_profile). repeat apply Forall_cons_2; [..|apply Forall_nil_2].
  - split_and!; [by_dec | by_dec | done].
  - split_and!; [by_dec | by_dec | done].
Defined.
