(* ===== verification/Kernel.v ===== *)
(** The kernel side of [boot/src/main.rs]: [kernel_entry], [kernel_main] and [halt], from
    the validation of the boot information to the final halt.

    [kernel_main] re-derives its boot information from the static after the stack switch,
    as the code does.  The two blocks of serial output of its body are the definitions
    [kernel_banner] and [kernel_report].  Addresses the compiler chooses (the local
    descriptor-table pointers, the label of the far return) are in [Locals]. *)

From S2P Require Export Prelude Abi Layout MemMap Machine Serial BootSerial.
From S2P Require Export Cpu Gdt Idt Exception MemReport Stack.

Class Locals : Type := { gdt_slot : Z; gdt_label : Z; idt_slot : Z }.

Definition halt : M void := hlt_forever.

(** [&*ptr] and the uses of the fields: the bytes must hold a valid value of the whole struct,
    as Rust asks of a reference, though [kernel_entry] itself reads only magic and version. *)
Definition read_boot_info (ptr : Z) : M KernelBootInfo := fun w =>
  match load_bytes ptr (size_of (A := KernelBootInfo)) (w_mem w) with
  | None => Faulted PF w
  | Some bs => match decode bs with
               | Some (k, _) => Done k w
               | None => Faulted Undefined w
               end
  end.

Section kernel.
Context {P : Profile} {I : Image} {O : Locals}.

Definition kernel_banner (stack_bottom stack_top : Z) : M unit :=
  _ ← serial_write_str crlf;
  _ ← serial_write_str (line "=== Ferrous Kernel ===");
  _ ← serial_write_str (line "[OK] kernel_entry: BootInfo validated");
  _ ← serial_write_str (line "[OK] Kernel stack active");
  _ ← serial_write_str (str "[INFO] Kernel stack: 0x");
  _ ← serial_write_usize_hex stack_bottom;
  _ ← serial_write_str (str " - 0x");
  _ ← serial_write_usize_hex stack_top;
  _ ← serial_write_str (str " (");
  _ ← serial_write_usize (boot_KERNEL_STACK_SIZE / 1024);
  _ ← serial_write_str (str " KiB, guard=");
  _ ← serial_write_usize (boot_KERNEL_STACK_GUARD_SIZE / 1024);
  serial_write_str (line " KiB)").

Definition kernel_report (boot_info : KernelBootInfo) : M unit :=
  _ ← print_memory_map (memory_map boot_info);
  _ ← (if negb (acpi_rsdp boot_info =? 0) then
         _ ← serial_write_str (str "[INFO] ACPI RSDP: 0x");
         _ ← serial_write_usize_hex (acpi_rsdp boot_info);
         serial_write_str crlf
       else mret ());
  _ ← (if has_framebuffer boot_info then
         _ ← serial_write_str (str "[INFO] Framebuffer: ");
         _ ← serial_write_usize (kfb_width (framebuffer boot_info));
         _ ← serial_write_str (str "x");
         _ ← serial_write_usize (kfb_height (framebuffer boot_info));
         _ ← serial_write_str (str " @ 0x");
         _ ← serial_write_usize_hex (kfb_base (framebuffer boot_info));
         serial_write_str crlf
       else mret ());
  serial_write_str (crlf
    ++ line "Kernel halting. Exception handlers active — any CPU exception will be caught.").

Definition GDT_LOADED : list Z :=
  line "[OK] GDT loaded (null / kernel-code 0x08 / kernel-data 0x10)".
Definition IDT_LOADED : list Z :=
  line "[OK] IDT loaded (32 exception handlers with error codes + RIP + CR2, interrupts disabled)".

Definition kernel_main : M void :=
  top ← lift (add_u 64 KERNEL_STACK_addr boot_KERNEL_STACK_SIZE);
  _ ← mov RSP top;
  let stack_bottom := KERNEL_STACK_addr in
  stack_top ← lift (add_u 64 stack_bottom boot_KERNEL_STACK_SIZE);
  _ ← serial_init;
  _ ← kernel_banner stack_bottom stack_top;
  _ ← gdt_init gdt_slot gdt_label;
  _ ← serial_write_str GDT_LOADED;
  _ ← idt_init idt_slot;
  _ ← serial_write_str IDT_LOADED;
  _ ← serial_write_str (line "[OK] Kernel entered successfully!");
  _ ← serial_write_str (line "Hello from Ferrous!");
  _ ← serial_write_str crlf;
  boot_info ← read_boot_info KERNEL_BOOT_INFO_addr;
  _ ← kernel_report boot_info;
  halt.

Definition kernel_entry (boot_info : Z) : M void :=
  if boot_info =? 0 then
    _ ← serial_write_str (line "FATAL: kernel_entry received null BootInfo pointer"); halt
  else
    info ← read_boot_info boot_info;
    if negb (KernelBootInfo_is_valid info) then
      _ ← serial_write_str (line "FATAL: KernelBootInfo magic/version mismatch"); halt
    else kernel_main.
End kernel.

(** * Specification *)

Definition banner_text (bottom top : Z) : list Z :=
  crlf ++ line "=== Ferrous Kernel ===" ++ line "[OK] kernel_entry: BootInfo validated"
  ++ line "[OK] Kernel stack active" ++ str "[INFO] Kernel stack: 0x" ++ hexadecimal bottom
  ++ str " - 0x" ++ hexadecimal top ++ str " (" ++ decimal 64 ++ str " KiB, guard="
  ++ decimal 4 ++ line " KiB)".

Definition info_text (k : KernelBootInfo) : list Z :=
  memory_report (memory_map k)
  ++ (if negb (acpi_rsdp k =? 0)
      then str "[INFO] ACPI RSDP: 0x" ++ hexadecimal (acpi_rsdp k) ++ crlf else [])
  ++ (if has_framebuffer k
      then str "[INFO] Framebuffer: " ++ decimal (kfb_width (framebuffer k)) ++ str "x"
           ++ decimal (kfb_height (framebuffer k)) ++ str " @ 0x"
           ++ hexadecimal (kfb_base (framebuffer k)) ++ crlf else [])
  ++ crlf ++ line "Kernel halting. Exception handlers active — any CPU exception will be caught.".

Definition entered_text : list Z :=
  IDT_LOADED ++ line "[OK] Kernel entered successfully!" ++ line "Hello from Ferrous!" ++ crlf.

(** The whole boot log of the kernel on the serial line. *)
Definition boot_log (bottom top : Z) (k : KernelBootInfo) : list Z :=
  banner_text bottom top ++ GDT_LOADED ++ entered_text ++ info_text k.

(** What the linker and the compiler must guarantee about placement. *)
Record kernel_layout {I : Image} {O : Locals} : Prop := {
  kl_stack : placed KERNEL_STACK_addr boot_KERNEL_STACK_SIZE;
  kl_label : canonical gdt_label = true;
  kl_info : uint 64 KERNEL_BOOT_INFO_addr /\ KERNEL_BOOT_INFO_addr <> 0;
  kl_gdt_slot : disjoint_ranges gdt_slot 10 GDT_addr 24
    /\ disjoint_ranges gdt_slot 10 KERNEL_BOOT_INFO_addr 8304;
  kl_idt_slot : disjoint_ranges idt_slot 10 GDT_addr 24
    /\ disjoint_ranges idt_slot 10 IDT_addr 4096
    /\ disjoint_ranges idt_slot 10 KERNEL_BOOT_INFO_addr 8304;
  kl_push : let a := KERNEL_STACK_addr + boot_KERNEL_STACK_SIZE - 16 in
    disjoint_ranges a 16 GDT_addr 24 /\ disjoint_ranges a 16 KERNEL_BOOT_INFO_addr 8304;
  kl_tables : disjoint_ranges GDT_addr 24 IDT_addr 4096
    /\ disjoint_ranges GDT_addr 24 KERNEL_BOOT_INFO_addr 8304
    /\ disjoint_ranges IDT_addr 4096 KERNEL_BOOT_INFO_addr 8304;
}.

(** The boot information is in memory at the static. *)
Definition info_in_memory (a : Z) (k : KernelBootInfo) (w : world) : Prop :=
  mem_has a (encode k) (w_mem w).

(** Boot information the kernel can report without panicking. *)
Definition reportable {P : Profile} (k : KernelBootInfo) : Prop :=
  wf_boot_info k /\ kmm_count (memory_map k) <= Z.of_nat MAX_MEMORY_DESCRIPTORS
  /\ sizes_fit (take (Z.to_nat (kmm_count (memory_map k))) (kmm_descriptors (memory_map k))).

(** * Lemmas *)

Lemma read_boot_info_ok a k w :
  wf_boot_info k -> info_in_memory a k w -> read_boot_info a w = Done k w.
Proof.
  intros Hk Hm. unfold read_boot_info, info_in_memory, mem_has in *.
  rewrite (encode_length (C := boot_info_codec) k Hk) in Hm. rewrite Hm.
  pose proof (decode_encode (C := boot_info_codec) k [] Hk) as Hd. rewrite app_nil_r in Hd.
  by rewrite Hd.
Qed.

Lemma info_in_memory_agree a k w w' :
  wf_boot_info k -> (forall b, a <= b < a + 8304 -> w_mem w' !! b = w_mem w !! b) ->
  info_in_memory a k w -> info_in_memory a k w'.
Proof.
  intros Hk Hag Hm. unfold info_in_memory, mem_has in *.
  rewrite (encode_length (C := boot_info_codec) k Hk) in *.
  rewrite (load_bytes_ext _ _ _ (w_mem w)); [exact Hm|].
  intros b Hb. apply Hag. change (Z.of_nat size_of) with 8304 in Hb. lia.
Qed.

(** A transmission the device is ready for. *)
Record sent_bytes (u : uart) (bs : list Z) (w w' : world) : Prop := {
  sb_cpu : w_cpu w' = w_cpu w;
  sb_mem : w_mem w' = w_mem w;
  sb_ready : ready_count (w_in w') = (ready_count (w_in w) - length bs)%nat;
  sb_uart : uart_after u (w_log w') = transmit (uart_after u (w_log w)) bs;
}.

Lemma prints_done u m bs w :
  m ≡ send bs -> dlab (uart_after u (w_log w)) = false ->
  (length bs <= ready_count (w_in w))%nat ->
  exists w', m w = Done () w' /\ sent_bytes u bs w w'.
Proof.
  intros Hm Hd Hn. exists (final (send bs w)).
  destruct (send_spec u bs w Hd) as (H1 & H2 & H3 & H4).
  rewrite decide_True in H4 by done. destruct H4 as [H4 H5].
  rewrite (Hm w). split; [exact H4|]. split; [done | done | done |].
  rewrite H1. by rewrite take_ge by lia.
Qed.

Lemma banner_prints {P : Profile} bottom top :
  uint 64 bottom -> uint 64 top -> kernel_banner bottom top ≡ send (banner_text bottom top).
Proof.
  intros Hb Ht. unfold kernel_banner, banner_text.
  change (boot_KERNEL_STACK_SIZE / 1024) with 64.
  change (boot_KERNEL_STACK_GUARD_SIZE / 1024) with 4. prints; try done; by_dec.
Qed.

Lemma report_prints {P : Profile} k : reportable k -> kernel_report k ≡ send (info_text k).
Proof.
  intros (Hk & Hc & Hf).
  destruct Hk as (_ & _ & _ & Hm & Hr & (Hbase & _ & Hw & Hh & _) & _ & _).
  unfold kernel_report, info_text.
  apply prints_bind; [by apply print_memory_map_ok|].
  assert (H32 : forall n, uint 32 n -> uint 64 n).
  { intros n. unfold uint. change (2 ^ 32) with 4294967296.
    change (2 ^ 64) with 18446744073709551616. lia. }
  apply prints_bind; [apply prints_if; prints; exact Hr|].
  apply prints_bind; [apply prints_if; prints; (done || by apply H32)|]. by prints.
Qed.

Lemma entered_prints {A} (k : M A) w :
  (_ ← serial_write_str IDT_LOADED;
   _ ← serial_write_str (line "[OK] Kernel entered successfully!");
   _ ← serial_write_str (line "Hello from Ferrous!");
   _ ← serial_write_str crlf; k) w
  = (_ ← send entered_text; k) w.
Proof.
  assert (H : (_ ← serial_write_str IDT_LOADED;
     _ ← serial_write_str (line "[OK] Kernel entered successfully!");
     _ ← serial_write_str (line "Hello from Ferrous!"); serial_write_str crlf)
    ≡ send entered_text) by (unfold entered_text; by prints).
  unfold mbind, M_bind in *. rewrite <- (H w).
  destruct (serial_write_str IDT_LOADED w) as [? w1| | |]; try done.
  destruct (serial_write_str (line "[OK] Kernel entered successfully!") w1) as [? w2| | |]; try done.
  by destruct (serial_write_str (line "Hello from Ferrous!") w2) as [? w3| | |].
Qed.

Lemma serial_init_uart u w :
  exists w', serial_init w = Done () w' /\ w_in w' = w_in w /\ w_cpu w' = w_cpu w
    /\ w_mem w' = w_mem w /\ dlab (uart_after u (w_log w')) = false
    /\ uart_tx (uart_after u (w_log w')) = uart_tx (uart_after u (w_log w)).
Proof.
  eexists. split; [reflexivity|]. do 3 (split; [done|]).
  cbn [w_log with_io outb emit]. unfold uart_after. cbn [foldr]. fold (uart_after u (w_log w)).
  destruct (uart_after u (w_log w)) as [ier lcr fcr mcr dll dlm tx].
  destruct (Z.testbit lcr 7) eqn:Hd; cbv -[Z.testbit]; rewrite Hd; split; reflexivity.
Qed.

(** The state of the processor when the kernel halts, RFLAGS being [flags]. *)
Record kernel_ready {I : Image} (flags : Z) (w' : world) : Prop := {
  kr_gdt : gdt_ready (set_accessed GDT_KERNEL_CODE) (set_accessed GDT_KERNEL_DATA) w';
  kr_idt : idt_ready w';
  kr_segs : forall s, segs (w_cpu w') s = if decide (s = CS) then 0x08 else 0x10;
  kr_rsp : regs (w_cpu w') RSP = KERNEL_STACK_addr + boot_KERNEL_STACK_SIZE;
  kr_rflags : rflags (w_cpu w') = flags;
}.

Section kernel_run.
Context {P : Profile} {I : Image} {L : ImageLaws} {O : Locals}.
Context (u : uart) (k : KernelBootInfo).
Hypothesis Hlayout : kernel_layout.
Hypothesis Hk : reportable k.

Let top := KERNEL_STACK_addr + boot_KERNEL_STACK_SIZE.

Lemma top_bounds : 65536 <= top < 2 ^ 64 /\ uint 64 KERNEL_STACK_addr.
Proof.
  destruct (kl_stack Hlayout) as (H1 & _ & H2). unfold top, uint.
  change boot_KERNEL_STACK_SIZE with 65536 in *. lia.
Qed.

(** Loading both tables, with the messages in between, from a world on the kernel stack. *)
Lemma tables_ok w :
  dlab (uart_after u (w_log w)) = false ->
  (length (GDT_LOADED) <= ready_count (w_in w))%nat ->
  regs (w_cpu w) RSP = top -> cpl (w_cpu w) = 0 -> gdt_in_memory boot_GDT (w_mem w) ->
  info_in_memory KERNEL_BOOT_INFO_addr k w ->
  exists w', (_ ← gdt_init gdt_slot gdt_label; _ ← serial_write_str GDT_LOADED; idt_init idt_slot) w
      = Done () w'
    /\ kernel_ready (rflags (w_cpu w)) w' /\ info_in_memory KERNEL_BOOT_INFO_addr k w'
    /\ ready_count (w_in w') = (ready_count (w_in w) - length GDT_LOADED)%nat
    /\ uart_after u (w_log w') = transmit (uart_after u (w_log w)) GDT_LOADED.
Proof.
  intros Hd Hn Hr Hcpl Hgdt Hinfo. pose proof top_bounds as [Ht _].
  destruct Hlayout as [_ Hlabel _ [Hg1 Hg2] (Hi1 & Hi2 & Hi3) [Hp1 Hp2] (Ht1 & Ht2 & Ht3)].
  fold top in Hp1, Hp2.
  destruct (gdt_init_run gdt_slot gdt_label w Hcpl Hgdt gdt_canonical Hlabel)
    as (w1 & E1 & _ & G1 & S1 & _ & R1 & F1 & _ & _ & N1 & L1 & M1);
    [rewrite Hr; lia | exact Hg1 | rewrite Hr; exact Hp1 |].
  assert (U1 : uart_after u (w_log w1) = uart_after u (w_log w)) by by rewrite L1.
  destruct (prints_done u (serial_write_str GDT_LOADED) GDT_LOADED w1
    (serial_write_str_send _)) as (w2 & E2 & [C2 M2 N2 U2]); [by rewrite U1 | by rewrite N1 |].
  destruct (idt_init_run idt_slot w2 Hi2) as (m3 & E3 & T3 & M3).
  match type of E3 with _ = Done _ ?v => set (w3 := v) in E3 end.
  assert (A3 : forall b, ~ (IDT_addr <= b < IDT_addr + 4096) -> ~ (idt_slot <= b < idt_slot + 10) ->
    w_mem w3 !! b = w_mem w1 !! b) by (intros b H1 H2; rewrite <- M2; by apply M3).
  exists w3. split; [erewrite bind_done by exact E1; erewrite bind_done by exact E2; exact E3|].
  split; [split|split_and!].
  - destruct G1 as [Gg Gc Gm]. unfold cpl in *. cbn [w_cpu w3 with_io with_cpu segs set_idtr].
    split; [cbn; by rewrite C2 | cbn; by rewrite C2 |]. intros i d Hi. rewrite <- (Gm i d Hi).
    unfold load_uint. f_equal. apply load_bytes_ext. intros b Hb.
    apply lookup_lt_Some in Hi. cbn in Hi. unfold disjoint_ranges in *. apply A3; lia.
  - by split.
  - intros s. change (segs (w_cpu w3) s) with (segs (w_cpu w2) s). rewrite C2. apply S1.
  - change (regs (w_cpu w3) RSP) with (regs (w_cpu w2) RSP). by rewrite C2, R1.
  - change (rflags (w_cpu w3)) with (rflags (w_cpu w2)). by rewrite C2.
  - apply (info_in_memory_agree _ k w); [by destruct Hk | | exact Hinfo].
    intros b Hb. unfold disjoint_ranges in *. rewrite A3 by lia. apply M1; [lia | rewrite Hr; lia | lia].
  - change (w_in w3) with (w_in w2). by rewrite N2, N1.
  - change (uart_after u (w_log w3)) with (uart_after u (w_log w2)). by rewrite U2, U1.
Qed.

Lemma kernel_main_ok w :
  (length (boot_log KERNEL_STACK_addr top k) <= ready_count (w_in w))%nat ->
  cpl (w_cpu w) = 0 -> gdt_in_memory boot_GDT (w_mem w) ->
  info_in_memory KERNEL_BOOT_INFO_addr k w ->
  exists w', kernel_main w = Halted w' /\ kernel_ready (rflags (w_cpu w)) w'
    /\ info_in_memory KERNEL_BOOT_INFO_addr k w'
    /\ uart_tx (uart_after u (w_log w'))
       = uart_tx (uart_after u (w_log w)) ++ boot_log KERNEL_STACK_addr top k.
Proof.
  intros Hn Hcpl Hgdt Hinfo. pose proof top_bounds as [Ht Hs].
  unfold boot_log in Hn. rewrite !length_app in Hn.
  set (w1 := with_cpu (set_reg RSP top (w_cpu w)) w).
  destruct (serial_init_uart u w1) as (w2 & E2 & N2 & C2 & M2 & D2 & T2).
  destruct (prints_done u _ _ w2 (banner_prints KERNEL_STACK_addr top Hs ltac:(unfold uint; lia)) D2)
    as (w3 & E3 & [C3 M3 N3 U3]); [rewrite N2; change (w_in w1) with (w_in w); lia|].
  assert (D3 : dlab (uart_after u (w_log w3)) = false) by by rewrite U3.
  destruct (tables_ok w3) as (w4 & E4 & K4 & I4 & N4 & U4); try done.
  { rewrite N3, N2. change (w_in w1) with (w_in w). lia. }
  { by rewrite C3, C2. }
  { by rewrite C3, C2. }
  { by rewrite M3, M2. }
  { unfold info_in_memory. by rewrite M3, M2. }
  destruct (prints_done u (send entered_text) entered_text w4) as (w5 & E5 & [C5 M5 N5 U5]);
    [done | by rewrite U4 | rewrite N4, N3, N2; change (w_in w1) with (w_in w); lia |].
  destruct (prints_done u _ _ w5 (report_prints k Hk)) as (w6 & E6 & [C6 M6 N6 U6]);
    [by rewrite U5, U4 | rewrite N5, N4, N3, N2; change (w_in w1) with (w_in w); lia |].
  exists w6. split_and!.
  - unfold kernel_main. rewrite add_u_small by (fold top; lia). rewrite lift_ok.
    erewrite bind_done by done. fold top. erewrite bind_done by done. fold w1.
    erewrite bind_done by done. erewrite bind_done by exact E2. erewrite bind_done by exact E3.
    rewrite (bind3_done _ _ _ _ _ _ _ E4), entered_prints. erewrite bind_done by exact E5.
    erewrite bind_done.
    2:{ apply read_boot_info_ok; [by destruct Hk|]. unfold info_in_memory. by rewrite M5. }
    by erewrite bind_done by exact E6.
  - destruct K4 as [[Gg Gc Gm] [Ii Im] Ks Kr Kf]. split.
    + split; [by rewrite C6, C5 | by rewrite C6, C5 | by rewrite M6, M5].
    + split; [by rewrite C6, C5 | by rewrite M6, M5].
    + intros s. rewrite C6, C5. apply Ks.
    + by rewrite C6, C5.
    + by rewrite C6, C5, Kf, C3, C2.
  - unfold info_in_memory. by rewrite M6, M5.
  - rewrite U6, U5, U4, U3. unfold boot_log. cbn [uart_tx transmit]. rewrite T2.
    by rewrite <- !app_assoc.
Qed.

Lemma kernel_entry_ok w :
  (length (boot_log KERNEL_STACK_addr top k) <= ready_count (w_in w))%nat ->
  KernelBootInfo_is_valid k = true ->
  cpl (w_cpu w) = 0 -> gdt_in_memory boot_GDT (w_mem w) ->
  info_in_memory KERNEL_BOOT_INFO_addr k w ->
  exists w', kernel_entry KERNEL_BOOT_INFO_addr w = Halted w' /\ kernel_ready (rflags (w_cpu w)) w'
    /\ info_in_memory KERNEL_BOOT_INFO_addr k w'
    /\ uart_tx (uart_after u (w_log w'))
       = uart_tx (uart_after u (w_log w)) ++ boot_log KERNEL_STACK_addr top k.
Proof.
  intros Hn Hv Hcpl Hgdt Hinfo. destruct (kernel_main_ok w Hn Hcpl Hgdt Hinfo) as (w' & E & H).
  exists w'. split; [|exact H]. unfold kernel_entry.
  rewrite (proj2 (Z.eqb_neq _ _)) by by destruct (kl_info Hlayout).
  erewrite bind_done by (apply read_boot_info_ok; [by destruct Hk | exact Hinfo]).
  rewrite Hv. exact E.
Qed.
End kernel_run.

(** * Properties *)

(** C2: entered with a valid, in-range [KernelBootInfo] at the static, with the firmware's
    GDT image linked in, at ring 0, and a device that becomes ready often enough, the
    kernel runs to its final halt without a fault or panic; on the way it has transmitted
    exactly the boot log (banner with the stack bounds, table messages, the memory report,
    the ACPI and framebuffer lines when present), and at the halt the processor uses the
    kernel's GDT, IDT, segments and stack, with RFLAGS as on entry, and the boot information
    is still in the static. *)
Theorem kernel_entry_boots {P : Profile} {I : Image} {L : ImageLaws} {O : Locals}
    (u : uart) (k : KernelBootInfo) (w : world) :
  kernel_layout -> reportable k -> KernelBootInfo_is_valid k = true ->
  cpl (w_cpu w) = 0 -> gdt_in_memory boot_GDT (w_mem w) ->
  info_in_memory KERNEL_BOOT_INFO_addr k w ->
  (length (boot_log KERNEL_STACK_addr (KERNEL_STACK_addr + boot_KERNEL_STACK_SIZE) k)
     <= ready_count (w_in w))%nat ->
  exists w', kernel_entry KERNEL_BOOT_INFO_addr w = Halted w' /\ kernel_ready (rflags (w_cpu w)) w'
    /\ info_in_memory KERNEL_BOOT_INFO_addr k w'
    /\ uart_tx (uart_after u (w_log w')) = uart_tx (uart_after u (w_log w))
       ++ boot_log KERNEL_STACK_addr (KERNEL_STACK_addr + boot_KERNEL_STACK_SIZE) k.
Proof.
  intros Hl Hk Hv Hc Hg Hi Hn. exact (kernel_entry_ok u k Hl Hk w Hn Hv Hc Hg Hi).
Qed.

Definition sample_locals : Locals :=
  {| gdt_slot := 0x2FF00; gdt_label := 0x7100; idt_slot := 0x2FF10 |}.

Lemma sample_layout : @kernel_layout sample_image sample_locals.
Proof.
  split; unfold placed, disjoint_ranges; cbn [GDT_addr IDT_addr KERNEL_STACK_addr
    KERNEL_BOOT_INFO_addr sample_image sample_locals gdt_slot idt_slot gdt_label];
    cbv zeta; try by_dec; reflexivity.
Qed.

Lemma sample_reportable : @reportable dev_profile KernelBootInfo_new.
Proof.
  split; [apply wf_boot_info_new|]. split; [by_dec | by constructor].
Qed.

(** A machine as the bootloader leaves it, with a device that is always ready. *)
Definition sample_kernel_world : world := {|
  w_cpu := set_seg CS 8 (sample_cpu 0x14000);
  w_mem := store_bytes 0x40000 (encode KernelBootInfo_new)
    (store_bytes 0x2000 (mjoin (le_encode 8 <$> boot_GDT)) ∅);
  w_in := replicate 1000 0x20; w_log := [] |}.

Lemma sample_kernel_gdt : @gdt_in_memory sample_image boot_GDT (w_mem sample_kernel_world).
Proof.
  apply (@gdt_store_disjoint sample_image); [|exact sample_gdt_in_memory].
  right. by_dec.
Qed.

Lemma kernel_entry_boots_witness :
  exists w', @kernel_entry dev_profile sample_image sample_locals 0x40000 sample_kernel_world
      = Halted w'
    /\ uart_tx (uart_after idle_uart (w_log w')) = boot_log 0x20000 0x30000 KernelBootInfo_new.
Proof.
  destruct (@kernel_entry_boots dev_profile sample_image sample_image_laws sample_locals
    idle_uart KernelBootInfo_new sample_kernel_world sample_layout sample_reportable
    eq_refl eq_refl sample_kernel_gdt) as (w' & E & _ & _ & H).
  - apply mem_has_store.
  - by_dec.
  - exists w'. split; [exact E | exact H].
Defined.

(** C32: [kernel_entry] refuses a null pointer and a structure of another magic number or
    version: it only prints the corresponding fatal message and halts, without touching
    the processor's tables, stack or memory. *)
Theorem kernel_entry_rejects {P : Profile} {I : Image} {O : Locals}
    (ptr : Z) (k : KernelBootInfo) (w : world) :
  ptr = 0
  \/ wf_boot_info k /\ info_in_memory ptr k w /\ KernelBootInfo_is_valid k = false ->
  kernel_entry ptr w = print_and_halt
    (if ptr =? 0 then line "FATAL: kernel_entry received null BootInfo pointer"
     else line "FATAL: KernelBootInfo magic/version mismatch") w
  /\ w_cpu (final (kernel_entry ptr w)) = w_cpu w
  /\ w_mem (final (kernel_entry ptr w)) = w_mem w.
Proof.
  intros Hbad.
  assert (E : kernel_entry ptr w = print_and_halt
    (if ptr =? 0 then line "FATAL: kernel_entry received null BootInfo pointer"
     else line "FATAL: KernelBootInfo magic/version mismatch") w).
  { assert (Hprint : forall s, (_ ← serial_write_str s; halt) w = print_and_halt s w).
    { intros s. unfold print_and_halt, mbind, M_bind. by rewrite (serial_write_str_send s w). }
    unfold kernel_entry. destruct (Z.eqb_spec ptr 0); [apply Hprint|].
    destruct Hbad as [|(Hk & Hm & Hv)]; [done|].
    erewrite bind_done by by apply read_boot_info_ok. rewrite Hv. apply Hprint. }
  split; [exact E|]. rewrite E. set (bs := if ptr =? 0 then _ else _).
  pose proof (send_frame bs w) as [H1 H2]. unfold print_and_halt, mbind, M_bind.
  by destruct (send bs w).
Qed.

Lemma kernel_entry_rejects_witness :
  @kernel_entry dev_profile sample_image sample_locals 0 sample_kernel_world
    = print_and_halt (line "FATAL: kernel_entry received null BootInfo pointer")
        sample_kernel_world
  /\ let bad := {| magic := 0; version := 1; kbi_pad := 0; memory_map := KernelMemoryMap_new;
         acpi_rsdp := 0; framebuffer := KernelFramebuffer_zeroed; has_framebuffer := false;
         kbi_pad2 := replicate 7 0; bootloader_name := replicate 32 0 |} in
     let w := {| w_cpu := sample_cpu 0; w_mem := store_bytes 0x40000 (encode bad) ∅;
                 w_in := []; w_log := [] |} in
     @kernel_entry dev_profile sample_image sample_locals 0x40000 w
       = print_and_halt (line "FATAL: KernelBootInfo magic/version mismatch") w.
Proof.
  split; [exact (proj1 (@kernel_entry_rejects dev_profile sample_image sample_locals 0
    KernelBootInfo_new sample_kernel_world (or_introl eq_refl)))|]. cbv zeta.
  refine (proj1 (@kernel_entry_rejects dev_profile sample_image sample_locals 0x40000 _ _ _)).
  right. split_and!; [|apply mem_has_store | done].
  do 3 (split; [by_dec|]). split; [apply wf_memory_map_new|]. do 2 (split; [by_dec|]). by_dec.
Defined.
