(* ===== verification/KernelRuns.v ===== *)
(** All runs of the kernel: its routines, the exception path included, traversed once
    against the interface of [Runs].  [KernelClosed] adds to [Closed] the two routines of
    the serial port, on which the families differ; everything else the kernel does is a
    local action, a table event, or built from those. *)

From S2P Require Export Prelude Machine Serial BootSerial Cpu Runs Gdt Idt Exception.
From S2P Require Export MemReport Stack Kernel.

(** The events of the kernel that are not port accesses. *)
Definition table_event (e : event) : Prop :=
  match e with EvInterruptsOff | EvLgdt _ | EvLidt _ => True | _ => False end.

Class KernelClosed (F : forall A, M A -> Prop) : Prop := {
  kc_closed :: Closed table_event F;
  kc_byte : forall b, F ⊩ serial_write_byte b;
  kc_init : F ⊩ serial_init;
}.

#[export] Hint Extern 1 (_ ⊩ serial_write_byte _) => apply kc_byte : closed.
#[export] Hint Extern 1 (_ ⊩ serial_init) => apply kc_init : closed.

(** * The number printers *)

(** The buffer is full, and the index check panics, before the fuel runs out. *)
Lemma fuelled_digits {P : Profile} fuel digit next buf i n :
  (forall m, fuelled (digit m)) ->
  0 <= i <= Z.of_nat (length buf) -> Z.of_nat (length buf) < i + Z.of_nat fuel ->
  Z.of_nat (length buf) < 2 ^ 64 -> fuelled (digits_loop fuel digit next buf i n).
Proof.
  intros Hd. revert buf i n. induction fuel as [|fuel IH]; intros buf i n Hi Hf Hl; [lia|].
  cbn [digits_loop]. destruct (n >? 0); [|done].
  apply fuelled_bind; [apply Hd|]. intros c.
  destruct (Z.ltb_spec i (Z.of_nat (length buf))) as [H|H].
  - rewrite set_index_ok by lia. cbn [mbind comp_bind]. rewrite add_u_small by lia.
    cbn [mbind comp_bind]. apply IH; rewrite ?length_insert; lia.
  - unfold set_index. rewrite (proj2 (Z.ltb_ge _ _) H), andb_false_r. done.
Qed.

Lemma fuelled_decimal {P : Profile} n :
  fuelled (digits_loop 64 decimal_digit (fun n => n / 10) (replicate 20 0) 0 n).
Proof. apply fuelled_digits; [intros m; apply fuelled_arith | by_dec..]. Qed.

Lemma fuelled_hexadecimal {P : Profile} n :
  fuelled (digits_loop 64 hex_digit (fun n => Z.shiftr n 4) (replicate 16 0) 0 n).
Proof. apply fuelled_digits; [intros m; apply fuelled_index | by_dec..]. Qed.

#[export] Hint Extern 1 (fuelled (digits_loop _ decimal_digit _ _ _ _)) =>
  apply fuelled_decimal : fuel.
#[export] Hint Extern 1 (fuelled (digits_loop _ hex_digit _ _ _ _)) =>
  apply fuelled_hexadecimal : fuel.

Section serial.
Context {P : Profile} {F : forall A, M A -> Prop} {HF : KernelClosed F}.

Lemma closed_write_str s : F ⊩ serial_write_str s.
Proof. unfold serial_write_str. traverse. Qed.

Lemma closed_write_rev buf i : F ⊩ write_rev buf i.
Proof.
  induction i as [|i IH]; cbn [write_rev]; [apply closed_local, local_ret|].
  apply closed_bind; [apply closed_local; auto with local nocore|]. intros c.
  apply closed_bind; [apply kc_byte | intros _; exact IH].
Qed.
End serial.

#[export] Hint Extern 1 (_ ⊩ serial_write_str _) => apply closed_write_str : closed.
#[export] Hint Extern 1 (_ ⊩ write_rev _ _) => apply closed_write_rev : closed.

Section numbers.
Context {P : Profile} {F : forall A, M A -> Prop} {HF : KernelClosed F}.

Lemma closed_usize n : F ⊩ serial_write_usize n.
Proof. unfold serial_write_usize. traverse. Qed.

Lemma closed_usize_hex n : F ⊩ serial_write_usize_hex n.
Proof. unfold serial_write_usize_hex. traverse. Qed.
End numbers.

#[export] Hint Extern 1 (_ ⊩ serial_write_usize _) => apply closed_usize : closed.
#[export] Hint Extern 1 (_ ⊩ serial_write_usize_hex _) => apply closed_usize_hex : closed.

(** * The tables *)

Section tables.
Context {I : Image} {F : forall A, M A -> Prop} {HF : KernelClosed F}.

Lemma closed_gdt_init slot label : F ⊩ gdt_init slot label.
Proof. unfold gdt_init, lgdt, retfq, at_label. traverse. Qed.

Lemma closed_IDT_set i e : F ⊩ IDT_set i e.
Proof. unfold IDT_set. traverse. Qed.

(** The fuel of the loop covers the entries from [i] on. *)
Lemma closed_irq_loop n i : 256 <= i + Z.of_nat n -> F ⊩ irq_loop n i.
Proof.
  revert i. induction n as [|n IH]; intros i Hi; cbn [irq_loop]; destruct (Z.ltb_spec i 256);
    try (apply closed_local, local_ret); [lia|].
  apply closed_bind; [apply closed_IDT_set|]. intros _. apply IH. lia.
Qed.

Lemma closed_idt_init slot : F ⊩ idt_init slot.
Proof.
  unfold idt_init, lidt. pose proof closed_IDT_set.
  pose proof (closed_irq_loop 224 32 ltac:(by_dec)). traverse.
Qed.

Lemma closed_read_gate a : F ⊩ read_gate a.
Proof. unfold read_gate. traverse. Qed.
End tables.

#[export] Hint Extern 1 (_ ⊩ gdt_init _ _) => apply closed_gdt_init : closed.
#[export] Hint Extern 1 (_ ⊩ idt_init _) => apply closed_idt_init : closed.
#[export] Hint Extern 1 (_ ⊩ read_gate _) => apply closed_read_gate : closed.

(** * The kernel *)

Lemma local_read_boot_info a : local (read_boot_info a).
Proof.
  apply (local_load (fun m => match load_bytes a (size_of (A := KernelBootInfo)) m with
    | None => inr PF
    | Some bs => match decode bs with Some (k, _) => inl k | None => inr Undefined end
    end)).
  - intros mm e. destruct (load_bytes _ _ mm) as [bs|]; [|by intros [= <-]].
    destruct (decode bs) as [[k r]|]; [done | by intros [= <-]].
  - intros w. unfold read_boot_info. destruct (load_bytes _ _ _) as [bs|]; [|done].
    by destruct (decode bs) as [[k r]|].
Qed.

#[export] Hint Resolve local_read_boot_info : local.
#[export] Hint Extern 1 (fuelled (KernelMemoryMap_entries _)) => apply fuelled_slice_to : fuel.

Section report.
Context {P : Profile} {F : forall A, M A -> Prop} {HF : KernelClosed F}.

Lemma closed_print_entry i d t : F ⊩ print_entry i d t.
Proof. unfold print_entry. cbv zeta. traverse. Qed.

Lemma closed_print_entries i ds t : F ⊩ print_entries i ds t.
Proof.
  revert i t. induction ds as [|d ds IH]; intros i t; cbn [print_entries];
    [apply closed_local, local_ret|].
  apply closed_bind; [apply closed_print_entry | intros t'; apply IH].
Qed.

Lemma closed_memory_map m : F ⊩ print_memory_map m.
Proof. unfold print_memory_map. pose proof closed_print_entries. traverse. Qed.

Lemma closed_report k : F ⊩ kernel_report k.
Proof. unfold kernel_report. pose proof closed_memory_map. traverse. Qed.
End report.

#[export] Hint Extern 1 (_ ⊩ kernel_report _) => apply closed_report : closed.

Section kernel.
Context {P : Profile} {I : Image} {O : Locals} {F : forall A, M A -> Prop} {HF : KernelClosed F}.

Lemma closed_banner bottom top : F ⊩ kernel_banner bottom top.
Proof. unfold kernel_banner. traverse. Qed.

Lemma closed_kernel_main : F ⊩ kernel_main.
Proof. unfold kernel_main, halt. pose proof closed_banner. traverse. Qed.

Lemma closed_kernel_entry ptr : F ⊩ kernel_entry ptr.
Proof. unfold kernel_entry, halt. pose proof closed_kernel_main. traverse. Qed.
End kernel.

#[export] Hint Extern 1 (_ ⊩ kernel_entry _) => apply closed_kernel_entry : closed.

(** * Exceptions *)

Section exceptions.
Context {P : Profile} {F : forall A, M A -> Prop} {HF : KernelClosed F}.

Lemma local_frame_field frame i : local (frame_field frame i).
Proof. apply local_read_uint. Qed.

Lemma closed_exception_handler v code frame : F ⊩ exception_handler v code frame.
Proof. unfold exception_handler. pose proof local_frame_field. traverse. Qed.

Context {I : Image} {C : CallConv}.

Lemma closed_common : F ⊩ exception_common.
Proof. unfold exception_common, cli. pose proof closed_exception_handler. traverse. Qed.

Lemma closed_stub v : F ⊩ isr_stub v.
Proof. unfold isr_stub. pose proof closed_common. traverse. Qed.

Lemma closed_stub_ec v : F ⊩ isr_stub_ec v.
Proof. unfold isr_stub_ec. pose proof closed_common. traverse. Qed.

Lemma closed_irq : F ⊩ isr_irq.
Proof. unfold isr_irq. pose proof closed_common. traverse. Qed.

Lemma closed_code_at ip : F ⊩ code_at ip.
Proof.
  assert (Hisr : Forall (belongs F) isr).
  { rewrite isr_table. apply Forall_fmap, Forall_true. intros v. cbn [compose].
    destruct (pushes_error_code v); [apply closed_stub_ec | apply closed_stub]. }
  unfold code_at. destruct (List.find _ _) as [v|].
  - destruct (isr !! v) as [m|] eqn:Hv; cbn [default from_option id].
    + rewrite Forall_lookup in Hisr. exact (Hisr v m Hv).
    + by apply closed_local, local_fault.
  - destruct (ip =? isr_irq_addr); [apply closed_irq | by apply closed_local, local_fault].
Qed.

Lemma closed_deliver v code : F ⊩ deliver v code.
Proof. unfold deliver. traverse. Qed.

Lemma closed_take_exception v code : F ⊩ take_exception v code.
Proof.
  unfold take_exception. pose proof closed_deliver. pose proof closed_code_at. traverse.
Qed.
End exceptions.

(** * The families of the serial port *)

(** What the kernel may emit: anything but console calls and the end of boot services. *)
Definition kernel_event (e : event) : Prop :=
  match e with EvText _ | EvClear | EvExitBootServices => False | _ => True end.

#[export] Instance kernel_events : KernelClosed (fun A => @emits A kernel_event).
Proof.
  assert (Hc : Closed kernel_event (fun A => @emits A kernel_event)) by apply emits_closed.
  assert (Hin : forall p, emits kernel_event (inb p)).
  { intros p w. unfold inb. destruct (w_in w) as [|v rest]; [by exists []|].
    exists [EvIn p v]. split; [done | by apply Forall_singleton]. }
  assert (Hlp : forall n m, emits kernel_event m -> emits kernel_event (loop_fuel n m)).
  { intros n m Hm. induction n as [|n IH]; [by intros w; exists []|]. cbn [loop_fuel].
    apply (closed_bind (F := fun A => @emits A kernel_event)); [exact Hm|].
    intros []; [apply (closed_local (F := fun A => @emits A kernel_event)), local_ret | exact IH]. }
  split.
  - apply (closed_weaken kernel_event); [by intros [] | exact Hc].
  - intros b. unfold serial_write_byte. apply closed_bind.
    + intros w. apply Hlp. apply (closed_bind (F := fun A => @emits A kernel_event)); [apply Hin|].
      intros v. apply (closed_local (F := fun A => @emits A kernel_event)), local_ret.
    + intros _. by apply closed_emit.
  - unfold serial_init, outb. repeat (apply closed_bind; [by apply closed_emit | intros _]).
    by apply closed_emit.
Qed.

(** Everything but port accesses. *)
Definition silent_event (e : event) : Prop :=
  match e with EvIn _ _ | EvOut _ _ => False | _ => True end.

(** Families that only ask something of the port accesses. *)
Class PortClosed (F : forall A, M A -> Prop) : Prop := {
  pc_closed : Closed silent_event F;
  pc_byte : forall b, F ⊩ serial_write_byte b;
  pc_init : F ⊩ serial_init;
}.

#[export] Instance port_kernel F : PortClosed F -> KernelClosed F.
Proof.
  intros HF. split; [|apply pc_byte | apply pc_init].
  apply (closed_weaken silent_event); [by intros [] | apply pc_closed].
Qed.
