(* ===== verification/Passive.v ===== *)
(** Computations that only talk: they may use ports, the console and the device input, but
    leave processor and memory as they are.

    [passive Q V m] says that every run of [m], whether it returns, waits, halts or faults,
    changes the world by events in [Q] and consumed input only, and that a value it returns
    satisfies [V].  [heads Q m S] follows a run through its passive part: either it stops
    there, or it goes on as one of the computations in [S]. *)

From S2P Require Export Prelude Machine Serial BootSerial Cpu Gdt Idt Exception.

Definition passive {A} (Q : event -> Prop) (V : A -> Prop) (m : M A) : Prop := forall w,
  exists i l, final (m w) = with_io i (l ++ w_log w) w /\ Forall Q l
    /\ forall a w', m w = Done a w' -> V a.

Definition heads {A} (Q : event -> Prop) (m : M A) (S : M A -> Prop) : Prop := forall w,
  exists i l, Forall Q l
    /\ (final (m w) = with_io i (l ++ w_log w) w
        \/ exists n, S n /\ m w = n (with_io i (l ++ w_log w) w)).

(** Any value. *)
Definition any {A} (_ : A) : Prop := True.

(** * Rules *)

Section rules.
Context {Q : event -> Prop}.

Lemma with_io_twice i l i' l' w : with_io i' l' (with_io i l w) = with_io i' l' w.
Proof. done. Qed.

Lemma passive_bind {A B} (V : A -> Prop) (X : B -> Prop) (m : M A) (k : A -> M B) :
  passive Q V m -> (forall a, V a -> passive Q X (k a)) -> passive Q X (m ≫= k).
Proof.
  intros Hm Hk w. destruct (Hm w) as (i & l & E & Hl & Hv). unfold mbind, M_bind.
  destruct (m w) as [a v|v|v|f v]; cbn [final] in *; try by exists i, l.
  destruct (Hk a (Hv a v eq_refl) v) as (i' & l' & E' & Hl' & Hx). subst v.
  exists i', (l' ++ l). split; [by rewrite E', <- app_assoc|].
  split; [by apply Forall_app | exact Hx].
Qed.

Lemma heads_bind {A B} (V : A -> Prop) (m : M A) (k : A -> M B) S :
  passive Q V m -> (forall a, V a -> heads Q (k a) S) -> heads Q (m ≫= k) S.
Proof.
  intros Hm Hk w. destruct (Hm w) as (i & l & E & Hl & Hv). unfold mbind, M_bind.
  destruct (m w) as [a v|v|v|f v]; cbn [final] in *;
    try (exists i, l; split; [exact Hl | by left]).
  destruct (Hk a (Hv a v eq_refl) v) as (i' & l' & Hl' & H). subst v.
  exists i', (l' ++ l). split; [by apply Forall_app|]. rewrite with_io_twice in H.
  cbn [w_log with_io] in H. rewrite app_assoc in H. exact H.
Qed.

Lemma heads_passive {A} (V : A -> Prop) (m : M A) S : passive Q V m -> heads Q m S.
Proof. intros Hm w. destruct (Hm w) as (i & l & E & Hl & _). exists i, l. split; [done | by left]. Qed.

Lemma heads_here {A} (m : M A) (S : M A -> Prop) : S m -> heads Q m S.
Proof.
  intros H w. exists (w_in w), []. split; [done|]. right. exists m. split; [done|]. by destruct w.
Qed.

Lemma passive_weaken {A} (V X : A -> Prop) m :
  (forall a, V a -> X a) -> passive Q V m -> passive Q X m.
Proof.
  intros H Hm w. destruct (Hm w) as (i & l & E & Hl & Hv). exists i, l. split_and!; [done..|].
  intros a w' Ha. eauto.
Qed.

Lemma passive_any {A} (V : A -> Prop) m : passive Q V m -> passive Q any m.
Proof. by apply passive_weaken. Qed.

(** Computations that do not even talk. *)
Lemma passive_still {A} (V : A -> Prop) (m : M A) :
  (forall w, final (m w) = w) -> (forall w a w', m w = Done a w' -> V a) -> passive Q V m.
Proof.
  intros H Hv w. exists (w_in w), []. rewrite H. split; [by destruct w|]. split; [done|].
  exact (Hv w).
Qed.

Lemma passive_ret {A} (V : A -> Prop) (a : A) : V a -> passive Q V (mret a).
Proof. intros H. apply passive_still; [done|]. by intros w b w' [= <- _]. Qed.

Lemma passive_halt {A} (V : A -> Prop) : passive Q V hlt_forever.
Proof. by apply passive_still. Qed.

Lemma passive_fault {A} (V : A -> Prop) f : passive Q V (fault_with f).
Proof. by apply passive_still. Qed.

Lemma passive_lift {A} (c : comp void A) : passive Q (fun a => c = Ok a) (lift c).
Proof. destruct c as [a|[]|f]; [by apply passive_ret | apply passive_fault]. Qed.

Lemma passive_read_cpu {A} (f : cpu -> A) : passive Q any (read_cpu f).
Proof. by apply passive_still. Qed.

Lemma passive_read_uint n a : passive Q any (read_uint n a).
Proof. apply passive_still; [|done]. intros w. unfold read_uint. by case_match. Qed.

Lemma passive_emit e : Q e -> passive Q any (emit e).
Proof.
  intros He w. exists (w_in w), [e]. split; [done|]. split; [by apply Forall_singleton | done].
Qed.

Lemma passive_for_each {A} (l : list A) f :
  (forall a, passive Q any (f a)) -> passive Q any (for_each l f).
Proof.
  intros H. induction l as [|a l IH]; [by apply passive_ret|]. eapply passive_bind; [apply H|].
  by intros _ _.
Qed.

Lemma passive_loop n (body : M bool) : passive Q any body -> passive Q any (loop_fuel n body).
Proof.
  intros Hb. induction n as [|n IH]; [by apply passive_still|]. cbn [loop_fuel].
  eapply passive_bind; [exact Hb|]. intros [] _; [by apply passive_ret | exact IH].
Qed.
End rules.

Create HintDb passive discriminated.
#[export] Hint Resolve passive_halt passive_fault passive_lift passive_read_cpu passive_read_uint
  : passive.
#[export] Hint Extern 1 (passive _ any (mret _)) => by apply passive_ret : passive.
#[export] Hint Extern 1 (passive _ _ (mret ?a)) => apply (passive_ret (eq a)); reflexivity : passive.
#[export] Hint Extern 1 (passive _ _ (emit _)) => by apply passive_emit : passive.

(** Take a computation apart into passive actions. *)
Ltac passively :=
  repeat match goal with
  | |- forall _, _ => intro; cbv beta in *
  | |- passive _ _ (match ?x with _ => _ end) => destruct x eqn:?
  | |- passive _ _ (_ ≫= _) => eapply passive_bind
  | |- passive _ _ (for_each _ _) => apply passive_for_each
  | |- passive _ _ _ => solve [eauto with passive nocore | eapply passive_any; eauto with passive nocore]
  end.

(** * The serial port *)

(** Port accesses. *)
Definition port_event (e : event) : Prop :=
  match e with EvIn _ _ | EvOut _ _ => True | _ => False end.

Lemma passive_inb p : passive port_event any (inb p).
Proof.
  intros w. unfold inb. destruct (w_in w) as [|v rest] eqn:E.
  - exists [], []. split; [destruct w; cbn in *; by rewrite E | done].
  - exists rest, [EvIn p v]. split; [done|]. split; [by apply Forall_singleton | done].
Qed.

Lemma passive_byte b : passive port_event any (serial_write_byte b).
Proof.
  unfold serial_write_byte. eapply passive_bind; [|intros _ _; by apply passive_emit].
  intros w. apply passive_loop.
  eapply passive_bind; [apply passive_inb | intros v _; by apply passive_ret].
Qed.

#[export] Hint Resolve passive_byte : passive.

Lemma passive_str s : passive port_event any (serial_write_str s).
Proof. unfold serial_write_str. passively. Qed.

Lemma passive_write_rev buf i : passive port_event any (write_rev buf i).
Proof.
  induction i as [|i IH]; cbn [write_rev]; [by apply passive_ret|].
  eapply passive_bind; [apply passive_lift | intros c _].
  eapply passive_bind; [apply passive_byte | by intros _ _].
Qed.

#[export] Hint Resolve passive_str passive_write_rev : passive.

Section handler.
Context {P : Profile}.

Lemma passive_usize n : passive port_event any (serial_write_usize n).
Proof. unfold serial_write_usize. passively. Qed.

Lemma passive_usize_hex n : passive port_event any (serial_write_usize_hex n).
Proof. unfold serial_write_usize_hex. passively. Qed.

#[local] Hint Resolve passive_usize passive_usize_hex : passive.

(** The exception handler, whatever its arguments. *)
Lemma passive_handler v code frame : passive port_event any (exception_handler v code frame).
Proof.
  assert (Hf : forall i, passive port_event any (frame_field frame i)) by (intros i; apply passive_read_uint).
  unfold exception_handler. passively.
Qed.
End handler.
