(* ===== verification/Boot.v ===== *)
(** The UEFI entry point of [boot/src/main.rs]: collecting the memory map, the ACPI root
    pointer and the framebuffer, building the boot information, leaving boot services, and
    the assembly that enters the kernel.

    The firmware and the [uefi] and [log] crates are a parameter ([Firmware]): the results
    of the calls the bootloader makes.  Console output and the end of boot services are
    events of the trace, so their order can be stated. *)

From S2P Require Export Prelude Abi Layout UefiMemory BootInfo Machine Serial BootSerial.
From S2P Require Export Cpu Runs Gdt Idt Exception Stack Console Kernel KernelRuns.

(** * The firmware *)

Inductive GopPixelFormat : Type := GopRgb | GopBgr | GopBitmask | GopBltOnly.

Record ModeInfo : Type := {
  gop_width : Z;   (** [resolution()], two [usize] *)
  gop_height : Z;
  gop_stride : Z;  (** [stride()], a [usize] *)
  gop_format : GopPixelFormat;
}.

Record Gop : Type := {
  gop_mode : ModeInfo;
  gop_frame_buffer : option Z;  (** [None]: [frame_buffer()] panics *)
}.

Record ConfigTableEntry : Type := { guid : Z; address : Z }.

Class Firmware (T : Type) : Type := {
  fw_init : bool;                                     (** [uefi::helpers::init().is_ok()] *)
  fw_log : list Z -> list Z;                          (** what the logger prints for a record *)
  fw_vendor : list Z;
  fw_revision : Z;
  fw_uefi_major : Z;
  fw_uefi_minor : Z;
  fw_memory_map : list (UefiDescriptor T) + list Z;   (** the map, or the error's text *)
  fw_config_table : list ConfigTableEntry;
  fw_ACPI2_GUID : Z;
  fw_ACPI_GUID : Z;
  fw_gop_handle : bool;                               (** [get_handle_for_protocol().is_ok()] *)
  fw_gop : option Gop;                                (** [open_protocol_exclusive().ok()] *)
}.

(** [entry] returns a status only when it refuses to boot. *)
Inductive Status : Type := ABORTED.

(** * Collecting information *)

Record RawFramebufferInfo : Type := {
  raw_base_address : Z;
  raw_width : Z;
  raw_height : Z;
  raw_stride : Z;
  raw_pixel_format : PixelFormat;
}.

Local Notation writeln := console_writeln.

Section boot.
Context {P : Profile} {T : Type} {U : UefiMemoryType T} {F : Firmware T}.

Definition find_acpi_tables : option Z :=
  match List.find (fun e => guid e =? fw_ACPI2_GUID) fw_config_table with
  | Some e => Some (address e)
  | None => match List.find (fun e => guid e =? fw_ACPI_GUID) fw_config_table with
            | Some e => Some (address e)
            | None => None
            end
  end.

Definition gop_pixel_format (f : GopPixelFormat) : PixelFormat :=
  match f with
  | GopRgb => PfRgb
  | GopBgr => PfBgr
  | GopBitmask => PfBitmask 0 0 0 0
  | GopBltOnly => PfUnknown
  end.

Definition get_framebuffer_info : comp void (option RawFramebufferInfo) :=
  if negb fw_gop_handle then Ok None
  else match fw_gop with
  | None => Ok None
  | Some gop =>
      let mode_info := gop_mode gop in
      stride ← mul_u 32 (wrap 32 (gop_stride mode_info)) 4;
      let pixel_format := gop_pixel_format (gop_format mode_info) in
      match gop_frame_buffer gop with
      | None => Panic AssertFailed
      | Some base_address =>
          Ok (Some {| raw_base_address := base_address;
                      raw_width := wrap 32 (gop_width mode_info);
                      raw_height := wrap 32 (gop_height mode_info);
                      raw_stride := stride;
                      raw_pixel_format := pixel_format |})
      end
  end.

(** [Result<MemoryMap, uefi::Error>], the error as its text. *)
Definition retrieve_memory_map : M (BootMemoryMap + list Z) :=
  match fw_memory_map with
  | inr e => mret (inr e)
  | inl owned =>
      memory_map ← lift (from_uefi_memory_map owned);
      _ ← console_writeln (str "    Found " ++ decimal (UefiMemory.region_count memory_map)
                           ++ str " memory regions");
      mret (inl memory_map)
  end.

(** * The handoff assembly *)

Context {I : Image} {O : Locals} {C : CallConv}.

(** [rs] and [ri] are the registers the compiler picks for the operands. *)
Definition handoff (rs ri : reg) (stack_top boot_info_ptr : Z) : M void :=
  _ ← mov rs stack_top;
  _ ← mov ri boot_info_ptr;
  _ ← cli;
  stack ← read_cpu (fun c => regs c rs);
  _ ← mov RSP stack;
  rbp ← read_cpu (fun c => regs c RBP);
  _ ← mov RBP (Z.lxor rbp rbp);
  info ← read_cpu (fun c => regs c ri);
  _ ← mov RDI info;
  _ ← push after_handoff_addr;
  arg ← read_cpu (fun c => regs c arg1);
  kernel_entry arg.

(** The panic handler of the boot crate; [info] is the formatted panic message.  The event is
    the call of the logger; what the logger does with it is the uefi crate's ([fw_log]). *)
Definition boot_panic (info : list Z) : M void :=
  _ ← emit (EvText (fw_log (str "BOOT PANIC: " ++ info)));
  hlt_forever.

(** * [efi_main] *)

Definition rule : list Z := str "========================================".

Definition collect_boot_info (memory_map : BootMemoryMap) : M BootInfo :=
  _ ← writeln (str "[...] Looking for ACPI tables");
  let acpi_rsdp := find_acpi_tables in
  _ ← (match acpi_rsdp with
       | Some addr => writeln (str "[OK] ACPI RSDP found at: " ++ fmt_alt_hex addr)
       | None => writeln (str "[WARN] ACPI tables not found")
       end);
  _ ← writeln (str "[...] Looking for GOP framebuffer");
  framebuffer ← lift get_framebuffer_info;
  _ ← (match framebuffer with
       | Some fb => writeln (str "[OK] Framebuffer: " ++ decimal (raw_width fb) ++ str "x"
                     ++ decimal (raw_height fb) ++ str " @ " ++ fmt_alt_hex (raw_base_address fb))
       | None => writeln (str "[WARN] GOP framebuffer not available")
       end);
  let boot_info := BootInfo_new memory_map in
  let boot_info := match acpi_rsdp with
                   | Some addr => set_acpi_rsdp_address addr boot_info
                   | None => boot_info
                   end in
  let boot_info := match framebuffer with
                   | Some fb => set_framebuffer (FramebufferInfo_new (raw_base_address fb)
                       (raw_width fb) (raw_height fb) (raw_stride fb) (raw_pixel_format fb)) boot_info
                   | None => boot_info
                   end in
  mret boot_info.

Definition hand_over (rs ri : reg) (boot_info : BootInfo) : M void :=
  kernel_boot_info ← lift (to_kernel_boot_info boot_info);
  _ ← writeln [];
  _ ← writeln (str "[INFO] Total memory:  " ++ decimal (BootInfo_total_memory_mb boot_info) ++ str " MB");
  _ ← writeln (str "[INFO] Usable memory: " ++ decimal (BootInfo_usable_memory_mb boot_info) ++ str " MB");
  _ ← writeln [];
  _ ← writeln rule;
  _ ← writeln (str "  Preparing for kernel handoff...");
  _ ← writeln rule;
  _ ← writeln [];
  _ ← write_bytes KERNEL_BOOT_INFO_addr (encode kernel_boot_info);
  _ ← writeln (str "[OK] KernelBootInfo populated (magic=" ++ fmt_alt_hex BOOT_INFO_MAGIC ++ str ")");
  _ ← emit EvExitBootServices;
  stack_top ← lift (add_u 64 BOOTSTRAP_STACK_addr BOOTSTRAP_STACK_SIZE);
  handoff rs ri stack_top KERNEL_BOOT_INFO_addr.

Definition efi_main (rs ri : reg) : M Status :=
  _ ← (if fw_init then mret () else fault_with Unwrap);
  _ ← Console_clear;
  _ ← writeln [];
  _ ← writeln rule;
  _ ← writeln (str "  Ferrous Kernel UEFI Bootloader v0.1");
  _ ← writeln rule;
  _ ← writeln [];
  _ ← emit (EvText (fw_log (str "UEFI boot services initialized")));
  _ ← writeln (str "[OK] UEFI boot services initialized");
  _ ← writeln (str "[INFO] Firmware: " ++ fw_vendor ++ str " (rev " ++ decimal fw_revision ++ str ")");
  _ ← writeln (str "[INFO] UEFI Revision: " ++ decimal fw_uefi_major ++ str "." ++ decimal fw_uefi_minor);
  _ ← writeln (str "[...] Retrieving memory map");
  r ← retrieve_memory_map;
  match r with
  | inr e =>
      _ ← writeln (str "[FAIL] Failed to retrieve memory map: " ++ e);
      mret ABORTED
  | inl memory_map =>
      _ ← writeln (str "[OK] Memory map retrieved");
      _ ← print_memory_summary memory_map;
      boot_info ← collect_boot_info memory_map;
      never ← hand_over rs ri boot_info;
      match never : void with end
  end.

(** A run of the crate: its panic handler takes over where the code panics, anywhere.
    [message] is the text of the [PanicInfo]. *)
Definition is_panic (f : fault) : bool :=
  match f with Overflow | OutOfBounds | AssertFailed | Unwrap => true | _ => false end.

Definition boot_run (message : fault -> list Z) (rs ri : reg) : M Status := fun w =>
  match efi_main rs ri w with
  | Faulted f w' =>
      if is_panic f
      then (never ← boot_panic (message f); match never : void with end) w'
      else Faulted f w'
  | r => r
  end.
End boot.

(** * All runs of the bootloader *)

Definition console_event (e : event) : Prop :=
  match e with EvText _ | EvClear => True | _ => False end.

Lemma fuelled_from_uefi {P : Profile} {T} {U : UefiMemoryType T} ds :
  fuelled (from_uefi_memory_map ds).
Proof.
  unfold from_uefi_memory_map. apply fuelled_bind; [|by intros [[? ?] ?]].
  match goal with |- fuelled (from_uefi_loop _ ?s) => generalize s end.
  induction ds as [|d ds IH]; intros [[rs t] u]; [done|]. cbn [from_uefi_loop].
  apply fuelled_bind; [apply fuelled_bind; [apply fuelled_arith | done]|]. intros s. apply IH.
Qed.

Lemma fuelled_framebuffer {P : Profile} {T} {F : Firmware T} : fuelled get_framebuffer_info.
Proof. unfold get_framebuffer_info. cbv zeta. fuelled. Qed.

Lemma fuelled_to_kernel {P : Profile} b : fuelled (to_kernel_boot_info b).
Proof.
  unfold to_kernel_boot_info. cbv zeta. apply fuelled_bind.
  - match goal with |- fuelled (copy_regions _ ?s) => generalize s end.
    induction (regions (bi_memory_map b)) as [|r rs IH]; intros [[ds t] n]; [done|].
    cbn [copy_regions]. case_match; [done|].
    apply fuelled_bind; [apply fuelled_set_index|]. intros ds'.
    apply fuelled_bind; [apply fuelled_arith|]. intros n'. apply IH.
  - intros [[ds t] n]. unfold kernel_framebuffer, FramebufferInfo_size.
    fuelled.
Qed.

#[export] Hint Resolve fuelled_from_uefi fuelled_framebuffer fuelled_to_kernel : fuel.

Section console.
Context {P : Profile} {T : Type} {U : UefiMemoryType T} {W : Firmware T}.
Context {F : forall A, M A -> Prop} {HF : Closed console_event F}.

Lemma closed_writeln s : F ⊩ console_writeln s.
Proof. unfold console_writeln, Console_write_str, output_string. apply closed_for_each. traverse. Qed.

Lemma closed_retrieve : F ⊩ retrieve_memory_map.
Proof. unfold retrieve_memory_map. pose proof closed_writeln. traverse. Qed.

Lemma closed_summary m : F ⊩ print_memory_summary m.
Proof. unfold print_memory_summary. cbv zeta. pose proof closed_writeln. traverse. Qed.

Lemma closed_collect m : F ⊩ collect_boot_info m.
Proof. unfold collect_boot_info. cbv zeta. pose proof closed_writeln. traverse. Qed.
End console.

#[export] Hint Extern 1 (_ ⊩ console_writeln _) => apply closed_writeln : closed.
#[export] Hint Extern 1 (_ ⊩ retrieve_memory_map) => apply closed_retrieve : closed.
#[export] Hint Extern 1 (_ ⊩ print_memory_summary _) => apply closed_summary : closed.
#[export] Hint Extern 1 (_ ⊩ collect_boot_info _) => apply closed_collect : closed.

Section handover.
Context {P : Profile} {I : Image} {O : Locals} {C : CallConv}.
Context {F : forall A, M A -> Prop} {HF : KernelClosed F}.

Lemma closed_handoff rs ri top info : F ⊩ handoff rs ri top info.
Proof. unfold handoff, cli. traverse. Qed.
End handover.

Section efi_closed.
Context {P : Profile} {T : Type} {U : UefiMemoryType T} {W : Firmware T}.
Context {I : Image} {O : Locals} {C : CallConv}.
Context {F : forall A, M A -> Prop} {HP : PortClosed F}.

Lemma closed_hand_over rs ri b : F ⊩ hand_over rs ri b.
Proof.
  pose proof (closed_handoff (F := F)). pose proof pc_closed as Hs.
  pose proof (closed_writeln (HF := closed_weaken silent_event console_event F
    ltac:(by intros []) Hs)). clear HP. unfold hand_over. traverse.
Qed.

Lemma closed_efi_main rs ri : F ⊩ efi_main rs ri.
Proof.
  pose proof closed_hand_over. pose proof pc_closed as Hs.
  set (Hc := closed_weaken silent_event console_event F ltac:(by intros []) Hs).
  pose proof (closed_writeln (HF := Hc)). pose proof (closed_retrieve (HF := Hc)).
  pose proof (closed_summary (HF := Hc)). pose proof (closed_collect (HF := Hc)).
  clear HP Hc. unfold efi_main, Console_clear. traverse.
Qed.
End efi_closed.

(** * The order of events *)

(** Every trace of the bootloader: only console calls before boot services end, and after
    that only what the kernel may do. *)
Definition discipline (l : list event) : Prop :=
  Forall console_event l
  \/ exists after before, l = after ++ EvExitBootServices :: before
     /\ Forall console_event before /\ Forall kernel_event after.

Section discipline.
Context {P : Profile} {T : Type} {U : UefiMemoryType T} {F : Firmware T}.
Context {I : Image} {O : Locals} {C : CallConv}.

Definition disciplined {A} (m : M A) : Prop := forall w, exists l,
  w_log (final (m w)) = l ++ w_log w /\ discipline l
  /\ forall a w', m w = Done a w' -> Forall console_event l.

Lemma console_disciplined {A} (m : M A) : emits console_event m -> disciplined m.
Proof. intros H w. destruct (H w) as (l & E & Hl). exists l. split; [done|]. by split; [left|]. Qed.

Lemma disciplined_bind {A B} (m : M A) (k : A -> M B) :
  emits console_event m -> (forall a, disciplined (k a)) -> disciplined (m ≫= k).
Proof.
  intros Hm Hk w. destruct (Hm w) as (l & E & Hl). unfold mbind, M_bind.
  destruct (m w) as [a v|v|v|f v]; cbn [final] in *; try by (exists l; split_and!; [|left|]).
  destruct (Hk a v) as (l' & E' & Hd & Hret). exists (l' ++ l).
  rewrite E', E, <- app_assoc. split; [done|]. split.
  - destruct Hd as [Hd|(after & before & -> & Hb & Ha)]; [left; by apply Forall_app|].
    right. exists after, (before ++ l). split; [by rewrite <- app_assoc|].
    split; [by apply Forall_app | done].
  - intros b w' Hdone. apply Forall_app. split; [by apply (Hret b w') | done].
Qed.

End discipline.

Ltac console_step :=
  match goal with
  | |- disciplined (?m ≫= _) =>
      apply disciplined_bind;
      [ change ((fun A => @emits A console_event) ⊩ m);
        solve [unfold Console_clear; traverse] |]
  end.

(** Pass the console actions in front of a computation. *)
Ltac console_steps := repeat (console_step; intros ?).

Section efi_discipline.
Context {P : Profile} {T : Type} {U : UefiMemoryType T} {F : Firmware T}.
Context {I : Image} {O : Locals} {C : CallConv}.

Lemma exit_disciplined {A} (m : M A) :
  emits kernel_event m -> (forall w a w', m w <> Done a w') ->
  disciplined (_ ← emit EvExitBootServices; m).
Proof.
  intros Hm Hnever w. erewrite bind_done by done.
  set (w1 := with_io _ _ _). destruct (Hm w1) as (l & E & Hl).
  exists (l ++ [EvExitBootServices]). rewrite E, <- app_assoc. split; [done|]. split.
  - right. by exists l, [].
  - intros a w' H. by destruct (Hnever w1 a w').
Qed.

Lemma hand_over_disciplined rs ri b : disciplined (hand_over rs ri b).
Proof.
  unfold hand_over.
  console_steps.
  apply exit_disciplined; [|by intros ? []].
  apply (closed_bind (F := fun A => @emits A kernel_event));
    [apply closed_local; auto with local nocore | intros top; apply closed_handoff].
Qed.

Lemma efi_main_disciplined rs ri : disciplined (efi_main rs ri).
Proof.
  unfold efi_main.
  console_steps.
  match goal with |- disciplined (match ?r with _ => _ end) => destruct r as [m|e] end.
  - console_steps. match goal with |- context [hand_over _ _ ?b] => set (boot_info := b) end.
    intros w. destruct (hand_over_disciplined rs ri boot_info w) as (l & E & Hd & _).
    exists l. unfold mbind, M_bind.
    destruct (hand_over rs ri boot_info w) as [[]| | |]; by split_and!.
  - console_steps. apply console_disciplined.
    apply (closed_local (F := fun A => @emits A console_event)), local_ret.
Qed.
End efi_discipline.

(** * The successful boot *)

(** Console actions that return a value, and computations that start with such actions. *)
Definition quiet {A} (m : M A) (a : A) : Prop := forall w, exists l,
  m w = Done a (with_io (w_in w) (l ++ w_log w) w) /\ Forall console_event l.

Definition leads {A} (m n : M A) : Prop := forall w, exists l,
  m w = n (with_io (w_in w) (l ++ w_log w) w) /\ Forall console_event l.

Lemma quiet_bind {A B} (m : M A) (k : A -> M B) a b :
  quiet m a -> quiet (k a) b -> quiet (m ≫= k) b.
Proof.
  intros Hm Hk w. destruct (Hm w) as (l & E & Hl).
  destruct (Hk (with_io (w_in w) (l ++ w_log w) w)) as (l' & E' & Hl').
  exists (l' ++ l). erewrite bind_done by exact E. rewrite E'. cbn [w_in w_log with_io].
  rewrite app_assoc. split; [done | by apply Forall_app].
Qed.

Lemma leads_bind {A B} (m : M A) (k : A -> M B) a n :
  quiet m a -> leads (k a) n -> leads (m ≫= k) n.
Proof.
  intros Hm Hk w. destruct (Hm w) as (l & E & Hl).
  destruct (Hk (with_io (w_in w) (l ++ w_log w) w)) as (l' & E' & Hl').
  exists (l' ++ l). erewrite bind_done by exact E. rewrite E'. cbn [w_in w_log with_io].
  rewrite app_assoc. split; [done | by apply Forall_app].
Qed.

Lemma leads_refl {A} (m : M A) : leads m m.
Proof. intros w. exists []. by destruct w. Qed.

Lemma quiet_ret {A} (a : A) : quiet (mret a) a.
Proof. intros w. exists []. by destruct w. Qed.

Lemma quiet_emit e : console_event e -> quiet (emit e) ().
Proof. intros H w. exists [e]. split; [done | by apply Forall_singleton]. Qed.

Lemma quiet_for_each {A} (l : list A) f :
  (forall a, a ∈ l -> quiet (f a) ()) -> quiet (for_each l f) ().
Proof.
  induction l as [|a l IH]; intros H; [apply quiet_ret|].
  eapply quiet_bind; [apply H; left | apply IH; intros b Hb; apply H; by right].
Qed.

Lemma quiet_writeln s : quiet (console_writeln s) ().
Proof.
  apply quiet_for_each. intros c _.
  destruct (c =? 10); [by apply quiet_emit|]. destruct (c <? 128); [by apply quiet_emit | apply quiet_ret].
Qed.

Lemma uart_after_console u l log :
  Forall console_event l -> uart_after u (l ++ log) = uart_after u log.
Proof. induction 1 as [|[] l He Hl IH]; done. Qed.

Section success.
Context {P : Profile} {T : Type} {U : UefiMemoryType T} {F : Firmware T}.

(** What the firmware delivers for a boot to go through: its calls succeed, its values fit
    their types, and (in a build with overflow checks) its ranges fit the address space. *)
Record firmware_ok (ds : list (UefiDescriptor T)) (fb : option RawFramebufferInfo) : Prop := {
  fo_init : fw_init = true;
  fo_map : fw_memory_map = inl ds;
  fo_wf : Forall wf_uefi ds;
  fo_sizes : Forall size_fits ds;
  fo_ends : Forall (fun d => overflow_checks = true ->
    u_phys_start d + UefiMemory.size (region_of d) < 2 ^ 64) ds;
  fo_fb : get_framebuffer_info = Ok fb;
  fo_base : forall g b, fw_gop = Some g -> gop_frame_buffer g = Some b -> uint 64 b;
  fo_tables : Forall (fun e => uint 64 (address e)) fw_config_table;
}.

Definition boot_framebuffer (fb : RawFramebufferInfo) : FramebufferInfo :=
  FramebufferInfo_new (raw_base_address fb) (raw_width fb) (raw_height fb) (raw_stride fb)
    (raw_pixel_format fb).

(** The boot information gathered from the firmware. *)
Definition gathered (ds : list (UefiDescriptor T)) (fb : option RawFramebufferInfo) : BootInfo :=
  BootInfo_with_all (boot_map_of (region_of <$> ds)) find_acpi_tables (boot_framebuffer <$> fb).

Lemma find_acpi_in a : find_acpi_tables = Some a -> exists e, e ∈ fw_config_table /\ a = address e.
Proof.
  unfold find_acpi_tables. destruct (List.find _ _) as [e|] eqn:E.
  - intros [= <-]. apply find_some in E as [Hin _]. exists e. split; [|done].
    by apply list_elem_of_In.
  - destruct (List.find (fun e => guid e =? fw_ACPI_GUID) _) as [e|] eqn:E2; [|done].
    intros [= <-]. apply find_some in E2 as [Hin _]. exists e. split; [|done].
    by apply list_elem_of_In.
Qed.

Lemma framebuffer_wf fb :
  (forall g b, fw_gop = Some g -> gop_frame_buffer g = Some b -> uint 64 b) ->
  get_framebuffer_info = Ok (Some fb) -> wf_fb_info (boot_framebuffer fb).
Proof.
  unfold get_framebuffer_info. intros Hb.
  destruct (negb fw_gop_handle); [done|]. destruct fw_gop as [g|] eqn:Hg; [|done].
  unfold mul_u, arith. set (n := wrap 32 (gop_stride (gop_mode g)) * 4).
  assert (H0 : 0 <= n) by (unfold n, wrap; pose proof (Z.mod_pos_bound (gop_stride (gop_mode g)) (2 ^ 32) eq_refl); lia).
  assert (Hw : forall x, uint 32 (wrap 32 x)) by (intros x; by apply Z.mod_pos_bound).
  destruct (Z.ltb_spec n (2 ^ 32)); [|destruct overflow_checks]; step_ok; try done;
    (destruct (gop_frame_buffer g) as [b|] eqn:Hfb; [|done]); intros [= <-];
    (split; [by apply (Hb g)|]); (split; [apply Hw|]); (split; [apply Hw|]);
    [by split | apply Hw].
Qed.

Lemma gathered_wf ds fb : firmware_ok ds fb -> wf_boot (gathered ds fb).
Proof.
  intros [_ _ Hwf _ _ Hfb Hbase Ht]. apply wf_boot_of; [done| |].
  - intros a Ha. destruct (find_acpi_in a Ha) as (e & Hin & ->).
    rewrite Forall_forall in Ht. by apply Ht.
  - intros f Hf. destruct fb as [raw|]; [|done]. injection Hf as <-. by apply framebuffer_wf.
Qed.

Lemma wf_boot_reportable b : wf_boot b -> reportable (kernel_boot_info_of b).
Proof.
  intros Hwf. split; [by apply wf_kernel_boot_info_of|]. split.
  - unfold kernel_boot_info_of, kernel_map_of. cbn [memory_map kmm_count]. rewrite length_take. lia.
  - unfold kernel_boot_info_of. cbn [memory_map]. rewrite kernel_map_take.
    unfold sizes_fit. apply Forall_fmap, Forall_take. destruct Hwf as [Hr _].
    apply (Forall_impl _ _ _ Hr). intros r (_ & [Hs Hs'] & _) _.
    cbn [descriptor_of_region page_count]. apply Z.div_lt_upper_bound; [lia|].
    by change (4096 * 2 ^ 52) with (2 ^ 64).
Qed.

Lemma gathered_reportable ds fb :
  firmware_ok ds fb -> reportable (kernel_boot_info_of (gathered ds fb)).
Proof. intros Hok. by apply wf_boot_reportable, gathered_wf. Qed.

Lemma quiet_summary ds fb :
  firmware_ok ds fb -> quiet (print_memory_summary (boot_map_of (region_of <$> ds))) ().
Proof.
  intros [_ _ Hwf _ Hends _ _ _]. unfold print_memory_summary.
  do 3 (eapply quiet_bind; [apply quiet_writeln|]).
  eapply quiet_bind; [|apply quiet_writeln]. apply quiet_for_each. intros r Hr.
  cbn [regions boot_map_of] in Hr. rewrite sort_by_key_perm in Hr.
  apply list_elem_of_fmap in Hr as (d & -> & Hd). rewrite Forall_forall in Hends.
  specialize (Hends d Hd). unfold add_u, arith. cbn [start UefiMemory.size region_of MemoryRegion_new] in *.
  destruct (Z.ltb_spec (u_phys_start d + wrap 64 (u_page_count d * PAGE_SIZE)) (2 ^ 64)) as [|Hge].
  - intros w. apply quiet_writeln.
  - destruct overflow_checks; [specialize (Hends eq_refl); lia|]. intros w. apply quiet_writeln.
Qed.

Lemma quiet_collect ds fb :
  firmware_ok ds fb ->
  quiet (collect_boot_info (boot_map_of (region_of <$> ds))) (gathered ds fb).
Proof.
  intros Hok. unfold collect_boot_info. rewrite (fo_fb _ _ Hok), lift_ok. cbv zeta.
  eapply quiet_bind; [apply quiet_writeln|].
  eapply quiet_bind; [destruct find_acpi_tables; apply quiet_writeln|].
  eapply quiet_bind; [apply quiet_writeln|].
  eapply quiet_bind; [apply quiet_ret|].
  eapply quiet_bind; [destruct fb; apply quiet_writeln|].
  unfold gathered. destruct find_acpi_tables, fb; apply quiet_ret.
Qed.

Lemma quiet_retrieve ds fb :
  firmware_ok ds fb -> quiet retrieve_memory_map (inl (boot_map_of (region_of <$> ds))).
Proof.
  intros Hok. unfold retrieve_memory_map. rewrite (fo_map _ _ Hok).
  rewrite from_uefi_spec by (apply (fo_wf _ _ Hok) || apply (fo_sizes _ _ Hok)). rewrite lift_ok.
  eapply quiet_bind; [apply quiet_ret|]. eapply quiet_bind; [apply quiet_writeln | apply quiet_ret].
Qed.

Context {I : Image} {O : Locals} {C : CallConv}.

(** Up to the write of the boot information, the bootloader only talks to the console. *)
Lemma efi_main_leads rs ri ds fb :
  firmware_ok ds fb ->
  leads (efi_main rs ri)
    (never ← hand_over rs ri (gathered ds fb); match never : void with end).
Proof.
  intros Hok. unfold efi_main. rewrite (fo_init _ _ Hok).
  eapply leads_bind; [apply quiet_ret|].
  eapply leads_bind; [by apply quiet_emit|].
  do 5 (eapply leads_bind; [apply quiet_writeln|]).
  eapply leads_bind; [by apply quiet_emit|].
  do 4 (eapply leads_bind; [apply quiet_writeln|]).
  eapply leads_bind; [by eapply quiet_retrieve|].
  eapply leads_bind; [apply quiet_writeln|].
  eapply leads_bind; [by eapply quiet_summary|].
  eapply leads_bind; [by apply quiet_collect|]. apply leads_refl.
Qed.

Lemma hand_over_leads rs ri b :
  wf_boot b ->
  leads (hand_over rs ri b)
    (_ ← write_bytes KERNEL_BOOT_INFO_addr (encode (kernel_boot_info_of b));
     _ ← console_writeln (str "[OK] KernelBootInfo populated (magic="
                          ++ fmt_alt_hex BOOT_INFO_MAGIC ++ str ")");
     _ ← emit EvExitBootServices;
     stack_top ← lift (add_u 64 BOOTSTRAP_STACK_addr BOOTSTRAP_STACK_SIZE);
     handoff rs ri stack_top KERNEL_BOOT_INFO_addr).
Proof.
  intros Hb. unfold hand_over. rewrite to_kernel_boot_info_spec by done. rewrite lift_ok.
  eapply leads_bind; [apply quiet_ret|].
  do 8 (eapply leads_bind; [apply quiet_writeln|]). apply leads_refl.
Qed.
End success.

Section handoff.
Context {P : Profile} {I : Image} {O : Locals} {C : CallConv}.

(** The registers when [kernel_entry] starts. *)
Definition handoff_regs (rs ri : reg) (top info : Z) (c : cpu) (x : reg) : Z :=
  if decide (x = RSP) then top - 8
  else if decide (x = RDI) then info
  else if decide (x = RBP) then 0
  else if decide (x = ri) then info
  else if decide (x = rs) then top
  else regs c x.

(** The world in which [kernel_entry] starts. *)
Record handed_over (rs ri : reg) (top info : Z) (w w' : world) : Prop := {
  ho_regs : forall x, regs (w_cpu w') x = handoff_regs rs ri top info (w_cpu w) x;
  ho_segs : segs (w_cpu w') = segs (w_cpu w);
  ho_rflags : rflags (w_cpu w') = Z.clearbit (rflags (w_cpu w)) IF_BIT;
  ho_mem : w_mem w' = store_bytes (top - 8) (le_encode 8 after_handoff_addr) (w_mem w);
  ho_in : w_in w' = w_in w;
  ho_log : w_log w' = EvInterruptsOff :: w_log w;
}.

Lemma handoff_ok rs ri top info w :
  rs <> ri -> rs <> RSP -> ri <> RSP -> ri <> RBP -> 8 <= top < 2 ^ 64 ->
  exists w', handoff rs ri top info w
      = kernel_entry (handoff_regs rs ri top info (w_cpu w) arg1) w'
    /\ handed_over rs ri top info w w'.
Proof.
  intros Hne Hrs Hri Hrb Htop.
  set (w1 := with_cpu (set_reg ri info (set_reg rs top (w_cpu w))) w).
  set (w2 := with_io (w_in w1) (EvInterruptsOff :: w_log w1)
    (with_cpu (set_rflags (Z.clearbit (rflags (w_cpu w1)) IF_BIT) (w_cpu w1)) w1)).
  assert (Rs : regs (w_cpu w2) rs = top).
  { cbn. rewrite (decide_False (P := rs = ri)) by done. by rewrite decide_True. }
  set (w3 := with_cpu (set_reg RBP 0 (set_reg RSP top (w_cpu w2))) w2).
  assert (Ri : regs (w_cpu w3) ri = info).
  { cbn. rewrite (decide_False (P := ri = RBP)) by done.
    rewrite (decide_False (P := ri = RSP)) by done. by rewrite decide_True. }
  set (w4 := with_cpu (set_reg RDI info (w_cpu w3)) w3).
  assert (R4 : regs (w_cpu w4) RSP = top) by done.
  set (w5 := with_cpu (set_reg RSP (top - 8) (w_cpu w4))
    (with_mem (store_bytes (top - 8) (le_encode 8 after_handoff_addr) (w_mem w4)) w4)).
  assert (R5 : forall x, regs (w_cpu w5) x = handoff_regs rs ri top info (w_cpu w) x).
  { intros x. cbn [w5 w_cpu with_cpu regs set_reg]. unfold handoff_regs.
    change (regs (w_cpu w4) x) with (if decide (x = RDI) then info
      else if decide (x = RBP) then 0 else if decide (x = RSP) then top
      else if decide (x = ri) then info else if decide (x = rs) then top else regs (w_cpu w) x).
    by repeat case_decide. }
  exists w5. split.
  - unfold handoff. erewrite bind_done by done. erewrite bind_done by done. fold w1.
    assert (Hcli : cli w1 = Done () w2) by done. erewrite bind_done by exact Hcli.
    erewrite bind_done by done. rewrite Rs. erewrite bind_done by done.
    erewrite bind_done by done. rewrite Z.lxor_nilpotent. erewrite bind_done by done. fold w3.
    erewrite bind_done by done. change (regs (w_cpu (with_cpu _ _)) ri) with (regs (w_cpu w3) ri).
    rewrite Ri. erewrite bind_done by done. fold w4.
    assert (Hpush : push after_handoff_addr w4 = Done () w5).
    { rewrite push_ok by (rewrite R4; lia). by rewrite R4. }
    erewrite bind_done by exact Hpush. erewrite bind_done by done. by rewrite R5.
  - by split.
Qed.
End handoff.

(** The register from which [kernel_entry] takes its argument holds the pointer: always
    under SysV; under Win64 when [ri] is RCX. *)
Definition passes {C : CallConv} (ri : reg) : Prop := arg1 = RDI \/ arg1 = ri.

Lemma passes_sysv ri : passes (C := sysv) ri.
Proof. by left. Qed.

Lemma passes_argument {C : CallConv} rs ri top info c :
  passes ri -> ri <> RSP -> ri <> RBP -> handoff_regs rs ri top info c arg1 = info.
Proof.
  intros [H|H] H1 H2; rewrite H; unfold handoff_regs; [done|].
  rewrite (decide_False (P := ri = RSP)) by done. case_decide; [done|].
  rewrite (decide_False (P := ri = RBP)) by done. by rewrite decide_True.
Qed.

Section efi_run.
Context {P : Profile} {T : Type} {U : UefiMemoryType T} {F : Firmware T}.
Context {I : Image} {L : ImageLaws} {O : Locals}.

(** Where the bootstrap stack may be. *)
Record bootstrap_layout : Prop := {
  bl_stack : placed BOOTSTRAP_STACK_addr BOOTSTRAP_STACK_SIZE;
  bl_push : let a := BOOTSTRAP_STACK_addr + BOOTSTRAP_STACK_SIZE - 8 in
    disjoint_ranges a 8 GDT_addr 24 /\ disjoint_ranges a 8 KERNEL_BOOT_INFO_addr 8304;
}.

Lemma efi_main_run {C : CallConv} u rs ri ds fb w :
  let k := kernel_boot_info_of (gathered ds fb) in
  firmware_ok ds fb -> kernel_layout -> bootstrap_layout -> passes ri ->
  rs <> ri -> rs <> RSP -> ri <> RSP -> ri <> RBP ->
  cpl (w_cpu w) = 0 -> gdt_in_memory boot_GDT (w_mem w) ->
  (length (boot_log KERNEL_STACK_addr (KERNEL_STACK_addr + boot_KERNEL_STACK_SIZE) k)
     <= ready_count (w_in w))%nat ->
  exists w', efi_main rs ri w = Halted w'
    /\ kernel_ready (Z.clearbit (rflags (w_cpu w)) IF_BIT) w'
    /\ info_in_memory KERNEL_BOOT_INFO_addr k w'
    /\ uart_tx (uart_after u (w_log w')) = uart_tx (uart_after u (w_log w))
       ++ boot_log KERNEL_STACK_addr (KERNEL_STACK_addr + boot_KERNEL_STACK_SIZE) k.
Proof.
  intros k Hfw Hlay [[Hs1 [_ Hs2]] [Hp1 Hp2]] Hpass H1 H2 H3 H4 Hcpl Hgdt Hn.
  pose proof (gathered_reportable ds fb Hfw) as Hk. fold k in Hk.
  change BOOTSTRAP_STACK_SIZE with 16384 in *. set (top := BOOTSTRAP_STACK_addr + 16384) in *.
  assert (Htop : 8 <= top < 2 ^ 64) by (unfold top in *; lia).
  destruct (efi_main_leads rs ri ds fb Hfw w) as (l1 & E1 & C1).
  set (w1 := with_io _ _ w) in E1.
  destruct (hand_over_leads rs ri _ (gathered_wf ds fb Hfw) w1) as (l2 & E2 & C2).
  fold k in E2. set (w2 := with_io _ _ w1) in E2.
  set (w3 := with_mem (store_bytes KERNEL_BOOT_INFO_addr (encode k) (w_mem w2)) w2).
  destruct (quiet_writeln (str "[OK] KernelBootInfo populated (magic="
                          ++ fmt_alt_hex BOOT_INFO_MAGIC ++ str ")") w3) as (l4 & E4 & C4).
  set (w4 := with_io _ _ w3) in E4.
  set (w5 := with_io (w_in w4) (EvExitBootServices :: w_log w4) w4).
  destruct (handoff_ok rs ri top KERNEL_BOOT_INFO_addr w5) as (w6 & E6 & [R6 S6 F6 M6 N6 L6]);
    [done..|exact Htop|].
  assert (U6 : uart_after u (w_log w6) = uart_after u (w_log w)).
  { rewrite L6. change (uart_after u (EvInterruptsOff :: w_log w5)) with (uart_after u (w_log w4)).
    cbn [w4 w_log with_io]. rewrite uart_after_console by done.
    cbn [w3 w2 w_log with_mem with_io]. rewrite uart_after_console by done.
    cbn [w1 w_log with_io]. by apply uart_after_console. }
  assert (Hwfk : wf_boot_info k) by by destruct Hk.
  destruct (kl_tables Hlay) as (Ht1 & Ht2 & Ht3).
  destruct (kernel_entry_ok u k Hlay Hk w6) as (w' & E & Kr & Ki & Ktx).
  - by rewrite N6.
  - done.
  - unfold cpl. by rewrite S6.
  - rewrite M6. apply gdt_store_disjoint; [rewrite length_le_encode; exact Hp1|].
    apply gdt_store_disjoint; [|exact Hgdt].
    rewrite (encode_length (C := boot_info_codec) k Hwfk). unfold disjoint_ranges in *. cbn. lia.
  - unfold info_in_memory. rewrite M6. apply mem_has_store_disjoint; [|apply mem_has_store].
    rewrite (encode_length (C := boot_info_codec) k Hwfk), length_le_encode.
    unfold disjoint_ranges in Hp2. change (Z.of_nat size_of) with 8304. lia.
  - exists w'. rewrite F6 in Kr. split_and!; [|exact Kr | exact Ki | by rewrite Ktx, U6].
    rewrite E1. unfold mbind, M_bind at 1. rewrite E2.
    erewrite bind_done by reflexivity. fold w3. erewrite bind_done by exact E4.
    erewrite bind_done by reflexivity. fold w5. rewrite add_u_small by exact (proj2 Htop). rewrite lift_ok.
    erewrite bind_done by reflexivity.
    change (BOOTSTRAP_STACK_addr + BOOTSTRAP_STACK_SIZE) with top. rewrite E6.
    by rewrite passes_argument, E.
Qed.
End efi_run.

(** * A sample firmware *)

Definition sample_firmware : Firmware Z := {|
  fw_init := true;
  fw_log := fun s => str "[ INFO]: " ++ s ++ crlf;
  fw_vendor := str "EDK II";
  fw_revision := 65536;
  fw_uefi_major := 2;
  fw_uefi_minor := 70;
  fw_memory_map := inl sample_uefi;
  fw_config_table := [{| guid := 7; address := 0xE0000 |}; {| guid := 1; address := 0xF5B00 |};
                      {| guid := 2; address := 0xF5B20 |}];
  fw_ACPI2_GUID := 2;
  fw_ACPI_GUID := 1;
  fw_gop_handle := true;
  fw_gop := Some {| gop_mode := {| gop_width := 1024; gop_height := 768; gop_stride := 1024;
                                   gop_format := GopBgr |};
                    gop_frame_buffer := Some 0x80000000 |} |}.

Definition sample_raw : RawFramebufferInfo := {|
  raw_base_address := 0x80000000; raw_width := 1024; raw_height := 768; raw_stride := 4096;
  raw_pixel_format := PfBgr |}.

Lemma sample_firmware_ok :
  @firmware_ok dev_profile Z uefi_code_type sample_firmware sample_uefi (Some sample_raw).
Proof.
  split; [done | done | apply wf_sample_uefi | apply sample_uefi_fits | | done | |].
  - repeat apply Forall_cons_2; try apply Forall_nil_2; intros _; by_dec.
  - intros g b [= <-] [= <-]. by_dec.
  - cbn. by_dec.
Qed.

Lemma sample_bootstrap : @bootstrap_layout sample_image.
Proof. split; unfold placed, disjoint_ranges; cbv zeta; by_dec. Qed.

(** * Properties *)

(** C1: the whole boot, under the SysV convention: given a firmware whose calls succeed and
    a linker placement without overlaps, [efi_main] runs from the firmware to the final
    halt of the kernel without a fault or panic; the kernel starts with interrupts off, and
    what it transmits is the boot log of exactly the boot information gathered from the
    firmware (sorted memory map cut at 256 entries, ACPI pointer, framebuffer), which the
    kernel's static still holds at the end. *)
Theorem efi_main_boots {P : Profile} {T : Type} {U : UefiMemoryType T} {F : Firmware T}
    {I : Image} {L : ImageLaws} {O : Locals} (u : uart) (rs ri : reg)
    (ds : list (UefiDescriptor T)) (fb : option RawFramebufferInfo) (w : world) :
  let k := kernel_boot_info_of (gathered ds fb) in
  firmware_ok ds fb -> kernel_layout -> bootstrap_layout ->
  rs <> ri -> rs <> RSP -> ri <> RSP -> ri <> RBP ->
  cpl (w_cpu w) = 0 -> gdt_in_memory boot_GDT (w_mem w) ->
  (length (boot_log KERNEL_STACK_addr (KERNEL_STACK_addr + boot_KERNEL_STACK_SIZE) k)
     <= ready_count (w_in w))%nat ->
  exists w', efi_main (C := sysv) rs ri w = Halted w'
    /\ kernel_ready (Z.clearbit (rflags (w_cpu w)) IF_BIT) w'
    /\ info_in_memory KERNEL_BOOT_INFO_addr k w'
    /\ uart_tx (uart_after u (w_log w')) = uart_tx (uart_after u (w_log w))
       ++ boot_log KERNEL_STACK_addr (KERNEL_STACK_addr + boot_KERNEL_STACK_SIZE) k.
Proof.
  intros k Hfw Hlay Hboot H1 H2 H3 H4 Hc Hg Hn.
  exact (efi_main_run u rs ri ds fb w Hfw Hlay Hboot (passes_sysv ri) H1 H2 H3 H4 Hc Hg Hn).
Qed.

(** The machine as the firmware starts the bootloader. *)
Definition sample_boot_world : world := {|
  w_cpu := sample_cpu 0x7F000;
  w_mem := store_bytes 0x2000 (mjoin (le_encode 8 <$> boot_GDT)) ∅;
  w_in := replicate 2000 0x60; w_log := [] |}.

Lemma efi_main_boots_witness :
  exists w', @efi_main dev_profile Z uefi_code_type sample_firmware sample_image sample_locals
      sysv RAX RCX sample_boot_world = Halted w'
    /\ uart_tx (uart_after idle_uart (w_log w'))
       = boot_log 0x20000 0x30000 (kernel_boot_info_of
           (@gathered Z uefi_code_type sample_firmware sample_uefi (Some sample_raw))).
Proof.
  destruct (@efi_main_boots dev_profile Z uefi_code_type sample_firmware sample_image
    sample_image_laws sample_locals idle_uart RAX RCX sample_uefi (Some sample_raw)
    sample_boot_world sample_firmware_ok sample_layout sample_bootstrap)
    as (w' & E & _ & _ & H); [done..|exact sample_gdt_in_memory|by_dec|].
  exists w'. split; [exact E | exact H].
Defined.

(** C31: the handoff assembly starts [kernel_entry] with RSP just under the top of the given
    stack (the return address stored there), RBP zero and interrupts off, for every choice
    of operand registers that keeps the two apart.  Under SysV the argument is the pointer
    to the boot information; under Win64, the convention of the target the crate is built
    for, it is whatever RCX holds, which is the pointer only if the compiler happens to
    pick RCX for that operand. *)
Theorem handoff_arguments {P : Profile} {I : Image} {O : Locals}
    (rs ri : reg) (top info : Z) (w : world) :
  rs <> ri -> rs <> RSP -> ri <> RSP -> ri <> RBP -> 8 <= top < 2 ^ 64 ->
  (exists w', handoff (C := sysv) rs ri top info w = kernel_entry info w'
     /\ handed_over rs ri top info w w')
  /\ (exists w', handoff (C := win64) rs ri top info w
        = kernel_entry (if decide (ri = RCX) then info
                        else if decide (rs = RCX) then top else regs (w_cpu w) RCX) w'
      /\ handed_over rs ri top info w w').
Proof.
  intros H1 H2 H3 H4 Ht. split.
  - exact (handoff_ok (C := sysv) rs ri top info w H1 H2 H3 H4 Ht).
  - destruct (handoff_ok (C := win64) rs ri top info w H1 H2 H3 H4 Ht) as (w' & E & Hw).
    exists w'. split; [|exact Hw]. rewrite E. f_equal. unfold handoff_regs. cbn [arg1 win64].
    decide_regs. destruct ri, rs; reflexivity.
Qed.

Lemma handoff_arguments_witness :
  (exists w', @handoff dev_profile sample_image sample_locals sysv RAX RBX 0x14000 0x40000
      sample_boot_world = @kernel_entry dev_profile sample_image sample_locals 0x40000 w')
  /\ (exists w', @handoff dev_profile sample_image sample_locals win64 RAX RBX 0x14000 0x40000
      sample_boot_world = @kernel_entry dev_profile sample_image sample_locals 0 w').
Proof.
  destruct (@handoff_arguments dev_profile sample_image sample_locals RAX RBX 0x14000 0x40000
    sample_boot_world) as ((w1 & E1 & _) & (w2 & E2 & _)); [done..|by_dec|].
  split; [exists w1; exact E1 | exists w2; exact E2].
Defined.

(** C16: the ACPI root pointer handed to the kernel is the first ACPI 2.0 entry of the
    configuration table, and the first ACPI 1.0 entry only if there is no ACPI 2.0 entry,
    wherever the entries are in the table; it is absent exactly when the table has neither. *)
Theorem acpi_prefers_v2 {T : Type} {F : Firmware T} :
  find_acpi_tables
  = head (address <$> (filter (fun e => guid e = fw_ACPI2_GUID) fw_config_table
                       ++ filter (fun e => guid e = fw_ACPI_GUID) fw_config_table))
  /\ (find_acpi_tables = None <->
      Forall (fun e => guid e <> fw_ACPI2_GUID /\ guid e <> fw_ACPI_GUID) fw_config_table).
Proof.
  assert (Hfind : forall g (t : list ConfigTableEntry),
    List.find (fun e => guid e =? g) t = head (filter (fun e => guid e = g) t)).
  { intros g t. induction t as [|e t IH]; [done|]. cbn [List.find]. rewrite filter_cons.
    destruct (Z.eqb_spec (guid e) g); [by rewrite decide_True | by rewrite decide_False]. }
  assert (Hnil : forall g (t : list ConfigTableEntry),
    filter (fun e => guid e = g) t = [] <-> Forall (fun e => guid e <> g) t).
  { intros g t. induction t as [|e t IH]; [done|]. rewrite filter_cons, Forall_cons.
    case_decide; naive_solver. }
  rewrite Forall_and, <- !Hnil. unfold find_acpi_tables. rewrite !Hfind.
  destruct (filter (fun e => guid e = fw_ACPI2_GUID) _) as [|e es];
    [destruct (filter (fun e => guid e = fw_ACPI_GUID) _) as [|e es]|];
    (split; [done|]); (split; [done | by intros [??]]).
Qed.

(** C37: the framebuffer path, from the mode the firmware reports to the kernel's record: when
    the dimensions fit 32 bits and the byte stride does too, the record has the mode's base
    and dimensions, a stride and size in bytes and the code of the pixel format, without a
    panic, and every pixel of a mode whose rows fit the stride lies within the size.  A
    stride of 2^30 pixels or more panics in checked builds instead. *)
Theorem framebuffer_collected {P : Profile} {T : Type} {F : Firmware T} (g : Gop) (base : Z) :
  let m := gop_mode g in
  fw_gop_handle = true -> fw_gop = Some g -> gop_frame_buffer g = Some base -> uint 64 base ->
  uint 32 (gop_width m) -> uint 32 (gop_height m) -> uint 32 (gop_stride m) ->
  if 2 ^ 30 <=? gop_stride m
  then overflow_checks = true -> get_framebuffer_info = Panic Overflow
  else exists raw k, get_framebuffer_info = Ok (Some raw)
    /\ kernel_framebuffer (FramebufferInfo_new (raw_base_address raw) (raw_width raw)
         (raw_height raw) (raw_stride raw) (raw_pixel_format raw)) = Ok k
    /\ k = {| kfb_base := base; kfb_size := 4 * gop_stride m * gop_height m;
              kfb_width := gop_width m; kfb_height := gop_height m;
              kfb_stride := 4 * gop_stride m;
              kfb_pixel_format := match gop_format m with
                | GopRgb => 0 | GopBgr => 1 | GopBitmask => 2 | GopBltOnly => 0xFF end |}
    /\ wf_framebuffer k
    /\ forall x y, gop_width m <= gop_stride m -> 0 <= x < gop_width m -> 0 <= y < gop_height m ->
         0 <= y * kfb_stride k + x * PixelFormat_bytes_per_pixel (raw_pixel_format raw)
         /\ y * kfb_stride k + (x + 1) * PixelFormat_bytes_per_pixel (raw_pixel_format raw)
            <= kfb_size k.
Proof.
  intros m Hh Hg Hb Hbase Hw Hht Hs. unfold get_framebuffer_info. rewrite Hh, Hg, Hb. cbn [negb].
  fold m. rewrite !wrap_small by done. destruct (Z.leb_spec (2 ^ 30) (gop_stride m)) as [H|H].
  { intros Hc. unfold mul_u, arith. rewrite Hc. change (2 ^ 32) with (2 ^ 30 * 4).
    by rewrite (proj2 (Z.ltb_ge _ _)) by lia. }
  assert (Hs4 : uint 32 (gop_stride m * 4)).
  { unfold uint in *. change (2 ^ 32) with (2 ^ 30 * 4). lia. }
  rewrite mul_u_small by apply Hs4. eexists _, _. split; [reflexivity|].
  set (f := FramebufferInfo_new _ _ _ _ _).
  destruct (framebuffer_size_fits (E := void) f) as [Hsize Hfits]; [done|].
  cbn [f FramebufferInfo_new fb_stride fb_height raw_stride raw_height] in Hsize, Hfits.
  split; [unfold kernel_framebuffer; by rewrite Hsize|].
  split; [cbn; f_equal; [lia..|by destruct (gop_format m)]|].
  split; [split_and!; try done; cbn; by destruct (gop_format m)|].
  intros x y Hrow Hx Hy. cbn. replace (PixelFormat_bytes_per_pixel _) with 4
    by (by destruct (gop_format m)). nia.
Qed.

Lemma framebuffer_collected_witness :
  exists raw, @get_framebuffer_info dev_profile Z sample_firmware = Ok (Some raw)
    /\ raw_stride raw = 4096.
Proof.
  destruct (@framebuffer_collected dev_profile Z sample_firmware
    {| gop_mode := {| gop_width := 1024; gop_height := 768; gop_stride := 1024;
                      gop_format := GopBgr |}; gop_frame_buffer := Some 0x80000000 |}
    0x80000000 eq_refl eq_refl eq_refl ltac:(by_dec) ltac:(by_dec) ltac:(by_dec) ltac:(by_dec))
    as (raw & k & E & Hk & -> & _).
  exists raw. split; [exact E|]. injection E as <-. reflexivity.
Defined.
