(* ===== verification/Progress.v ===== *)
(** The boot against every device: what happens when the serial port is ready rarely or
    never, and that the answers of the device are respected.

    A device is a stream of line-status answers.  The families of [Runs] are instantiated
    here: [steady] gives that a longer prefix of the stream continues a run and never
    changes it, [budget] that every transmitted byte is paid for by a ready answer, and
    [no_overrun] that it directly follows one. *)

From S2P Require Export Prelude Machine Serial BootSerial Cpu Runs KernelRuns Exception.
From S2P Require Export UefiMemory BootInfo Kernel Boot.

(** * Device streams *)

Definition with_input (ins : list Z) (w : world) : world := with_io ins (w_log w) w.

Definition answers (s : nat -> Z) (n : nat) : list Z := s <$> seq 0 n.

(** The transmitter becomes free again and again. *)
Definition fair (s : nat -> Z) : Prop := forall n, exists m, (n <= m)%nat /\ ready (s m) = true.

(** * Relations *)

(** Bytes are transmitted against ready answers, one for one at most. *)
Definition budget (u : uart) (w w' : world) : Prop := exists used sent,
  w_in w = used ++ w_in w'
  /\ uart_tx (uart_after u (w_log w')) = uart_tx (uart_after u (w_log w)) ++ sent
  /\ (length sent <= ready_count used)%nat.

(** In the events [l] on top of [log], every byte written to the data register while the
    divisor latch is closed directly follows a status read that reported it empty. *)
Fixpoint no_overrun (u : uart) (l log : list event) : bool :=
  match l with
  | [] => true
  | e :: l =>
      match e with
      | EvOut p _ =>
          if (p =? COM1_BASE + REG_DATA) && negb (dlab (uart_after u (l ++ log)))
          then match l with
               | EvIn q s :: _ => (q =? COM1_BASE + REG_LSR) && ready s
               | _ => false
               end
          else true
      | _ => true
      end && no_overrun u l log
  end.

Definition overrun_free (u : uart) (w w' : world) : Prop := exists l,
  w_log w' = l ++ w_log w /\ no_overrun u l (w_log w) = true.

(** * Lemmas *)

Lemma ready_count_app xs ys : ready_count (xs ++ ys) = (ready_count xs + ready_count ys)%nat.
Proof. unfold ready_count. by rewrite filter_app, length_app. Qed.

Lemma uart_after_app u l log : uart_after u (l ++ log) = uart_after (uart_after u log) l.
Proof. unfold uart_after. apply foldr_app. Qed.

Lemma uart_silent e u : silent_event e -> uart_event e u = u.
Proof. by destruct e. Qed.

(** What has been transmitted stays transmitted. *)
Lemma tx_grows u l log : exists sent,
  uart_tx (uart_after u (l ++ log)) = uart_tx (uart_after u log) ++ sent.
Proof.
  induction l as [|e l [sent IH]]; [exists []; by rewrite app_nil_r|].
  cbn [app]. unfold uart_after in *. cbn [foldr].
  destruct e as [|p v| | | | | | |]; try by exists sent.
  destruct (foldr uart_event u (l ++ log)) as [ier lcr fcr mcr dll dlm tx].
  cbn [uart_event uart_write uart_tx] in *.
  destruct (p - COM1_BASE) as [|[[q|q|]|[q|[]|]|]|];
    try (by exists sent); try (destruct (dlab _); try by exists sent).
  exists (sent ++ [v]). by rewrite IH, app_assoc.
Qed.

(** ** The polling loop *)

(** [drain] reads up to and including the first ready answer. *)
Lemma drain_spec ins log :
  exists polled, Forall (fun v => ready v = false) polled
  /\ ((exists v rest, ins = polled ++ v :: rest /\ ready v = true
       /\ drain ins log = (EvIn (COM1_BASE + REG_LSR) v
            :: (EvIn (COM1_BASE + REG_LSR) <$> rev polled) ++ log, Some rest))
      \/ (ins = polled
          /\ drain ins log = ((EvIn (COM1_BASE + REG_LSR) <$> rev polled) ++ log, None))).
Proof.
  revert log. induction ins as [|v ins IH]; intros log.
  { exists []. split; [constructor|]. by right. }
  cbn [drain]. destruct (ready v) eqn:Hv.
  - exists []. split; [constructor|]. left. by exists v, ins.
  - destruct (IH (EvIn (COM1_BASE + REG_LSR) v :: log)) as (polled & Hp & H).
    exists (v :: polled). split; [by constructor|]. cbn [rev]. rewrite fmap_app, <- app_assoc.
    destruct H as [(x & rest & -> & Hx & E)|[-> E]]; [left|right]; rewrite E.
    + by exists x, rest.
    + done.
Qed.

Lemma ready_none polled : Forall (fun v => ready v = false) polled -> ready_count polled = 0%nat.
Proof.
  unfold ready_count. induction 1 as [|v l Hv Hl IH]; [done|]. rewrite filter_cons, Hv. exact IH.
Qed.

Lemma uart_after_polls u polled log :
  uart_after u ((EvIn (COM1_BASE + REG_LSR) <$> polled) ++ log) = uart_after u log.
Proof. by induction polled. Qed.

Lemma drain_feed ins i log :
  drain (ins ++ i) log =
    match drain ins log with
    | (log', Some rest) => (log', Some (rest ++ i))
    | (log', None) => drain i log'
    end.
Proof.
  revert log. induction ins as [|v ins IH]; intros log; [done|]. cbn [app drain].
  destruct (ready v); [done | apply IH].
Qed.

Lemma drain_log ins log : exists l, (drain ins log).1 = l ++ log.
Proof.
  revert log. induction ins as [|v ins IH]; intros log; [by exists []|]. cbn [drain].
  destruct (ready v); [by exists [EvIn (COM1_BASE + REG_LSR) v]|].
  destruct (IH (EvIn (COM1_BASE + REG_LSR) v :: log)) as [l ->].
  exists (l ++ [EvIn (COM1_BASE + REG_LSR) v]). by rewrite <- app_assoc.
Qed.

(** ** Instances *)

Lemma steady_tx b : steady (tx_byte b).
Proof.
  intros w i. unfold tx_byte. cbn [feed w_in w_log with_io]. rewrite drain_feed.
  destruct (drain_log (w_in w) (w_log w)) as [l El].
  destruct (drain (w_in w) (w_log w)) as [log [rest|]]; cbn [fst] in El; subst log.
  - split; [|done]. by exists (EvOut (COM1_BASE + REG_DATA) b :: l).
  - split; [by exists l|]. split; [done|]. destruct (drain_log i (l ++ w_log w)) as [l' El].
    destruct (drain i (l ++ w_log w)) as [log [rest|]]; cbn [fst] in El; subst log.
    + by exists (EvOut (COM1_BASE + REG_DATA) b :: l').
    + by exists l'.
Qed.

#[export] Instance steady_ports : PortClosed (@steady).
Proof.
  split.
  - apply steady_closed.
  - intros b w i. rewrite !(serial_write_byte_tx b _). apply steady_tx.
  - unfold serial_init, outb.
    repeat (apply (closed_bind (Q := fun _ => True)); [by apply (closed_emit (Q := fun _ => True)) | intros _]).
    by apply (closed_emit (Q := fun _ => True)).
Qed.

#[export] Instance budget_observes u : Observes silent_event (budget u).
Proof.
  split.
  - split.
    + intros w. exists [], []. by rewrite app_nil_r.
    + intros w1 w2 w3 (us & s & Eu & Es & Hn) (us' & s' & Eu' & Es' & Hn').
      exists (us ++ us'), (s ++ s'). rewrite Eu, Eu', Es', Es, <- !app_assoc.
      split_and!; try done. rewrite ready_count_app, length_app. lia.
  - intros w c m. exists [], []. by rewrite app_nil_r.
  - intros w e He. exists [], []. rewrite app_nil_r. split_and!; try done.
    change (uart_tx (uart_event e (uart_after u (w_log w))) = uart_tx (uart_after u (w_log w))).
    by rewrite uart_silent.
Qed.

(** What one byte does, seen from the log. *)
Lemma write_byte_runs b w : exists polled,
  Forall (fun v => ready v = false) polled
  /\ let log := (EvIn (COM1_BASE + REG_LSR) <$> rev polled) ++ w_log w in
     ((exists v rest, w_in w = polled ++ v :: rest /\ ready v = true
        /\ serial_write_byte b w = Done () (with_io rest
             (EvOut (COM1_BASE + REG_DATA) b :: EvIn (COM1_BASE + REG_LSR) v :: log) w))
      \/ (w_in w = polled /\ serial_write_byte b w = Waiting (with_io [] log w))).
Proof.
  destruct (drain_spec (w_in w) (w_log w)) as (polled & Hp & H). exists polled. split; [done|].
  cbv zeta. rewrite !(serial_write_byte_tx b w). unfold tx_byte.
  destruct H as [(v & rest & Ei & Hv & ->)|[Ei ->]]; [left; by exists v, rest | by right].
Qed.

Lemma data_byte u b : exists sent,
  uart_tx (uart_event (EvOut (COM1_BASE + REG_DATA) b) u) = uart_tx u ++ sent
  /\ (length sent <= 1)%nat.
Proof.
  destruct u as [ier lcr fcr mcr dll dlm tx]. unfold uart_event, uart_write, dlab.
  cbn [uart_lcr]. change (COM1_BASE + REG_DATA - COM1_BASE) with 0. cbv iota.
  destruct (Z.testbit lcr 7).
  - exists []. rewrite app_nil_r. split; [done | cbn; lia].
  - by exists [b].
Qed.

#[export] Instance budget_ports u : PortClosed (fun A => @keeps A (budget u)).
Proof.
  split; [apply (keeps_closed silent_event), _| |].
  - intros b w. destruct (write_byte_runs b w) as (polled & Hp & H).
    destruct H as [(v & rest & Ei & Hv & ->)|[Ei ->]]; cbn [final].
    + destruct (data_byte (uart_after u (w_log w)) b) as (sent & Es & Hs).
      exists (polled ++ [v]), sent. cbn [w_in w_log with_io]. split; [by rewrite Ei, <- app_assoc|].
      split.
      * rewrite <- Es. unfold uart_after at 1. cbn [foldr].
        f_equal. apply f_equal. apply uart_after_polls.
      * rewrite ready_count_app. unfold ready_count at 2. rewrite filter_cons.
        rewrite decide_True by (by rewrite Hv). cbn [length]. lia.
    + exists (w_in w), []. cbn [w_in w_log with_io]. rewrite !app_nil_r. split_and!; [done| |cbn; lia].
      by rewrite uart_after_polls.
  - intros w. destruct (serial_init_uart u w) as (w' & -> & Ei & _ & _ & _ & Et).
    exists [], []. cbn [final]. rewrite Ei, Et, app_nil_r. by split_and!.
Qed.

Lemma no_overrun_app u l2 l1 log :
  no_overrun u l2 (l1 ++ log) = true -> no_overrun u l1 log = true ->
  no_overrun u (l2 ++ l1) log = true.
Proof.
  intros H2 H1. induction l2 as [|e l2 IH]; [exact H1|]. cbn [no_overrun app] in *.
  apply andb_true_iff in H2 as [He H2]. apply andb_true_iff. split; [|by apply IH].
  destruct e as [|p v| | | | | | |]; try done. rewrite <- app_assoc.
  destruct ((p =? COM1_BASE + REG_DATA) && _); [|done]. by destruct l2 as [|[]].
Qed.

Lemma no_overrun_silent u l log :
  Forall (fun e => match e with EvOut _ _ => False | _ => True end) l ->
  no_overrun u l log = true.
Proof. induction 1 as [|e l He Hl IH]; [done|]. cbn [no_overrun]. rewrite IH. by destruct e. Qed.

#[export] Instance overrun_observes u : Observes silent_event (overrun_free u).
Proof.
  split.
  - split; [by intros w; exists []|].
    intros w1 w2 w3 (l1 & E1 & H1) (l2 & E2 & H2). exists (l2 ++ l1).
    rewrite E2, E1, app_assoc. split; [done|]. apply no_overrun_app; [by rewrite <- E1 | done].
  - intros w c m. by exists [].
  - intros w e He. exists [e]. split; [done|]. apply no_overrun_silent, Forall_singleton. by destruct e.
Qed.

(** Writing the latch bit opens the divisor latch. *)
Lemma dlab_open u log : dlab (uart_after u (EvOut 1019 128 :: log)) = true.
Proof. unfold uart_after. cbn [foldr]. by destruct (foldr uart_event u log). Qed.

#[export] Instance overrun_ports u : PortClosed (fun A => @keeps A (overrun_free u)).
Proof.
  split; [apply (keeps_closed silent_event), _| |].
  - intros b w. destruct (write_byte_runs b w) as (polled & Hp & H).
    assert (Hpolls : forall log, no_overrun u (EvIn (COM1_BASE + REG_LSR) <$> rev polled) log = true).
    { intros log. apply no_overrun_silent, Forall_fmap, Forall_true. done. }
    destruct H as [(v & rest & Ei & Hv & ->)|[Ei ->]]; cbn [final].
    + exists (EvOut (COM1_BASE + REG_DATA) b :: EvIn (COM1_BASE + REG_LSR) v
        :: (EvIn (COM1_BASE + REG_LSR) <$> rev polled)).
      split; [done|]. cbn [no_overrun]. rewrite Hpolls, Hv, !Z.eqb_refl. by destruct (negb _).
    + by exists (EvIn (COM1_BASE + REG_LSR) <$> rev polled).
  - intros w. unfold serial_init, outb, emit, mbind, M_bind. cbn [final w_log w_in with_io].
    exists [EvOut 1020 11; EvOut 1018 199; EvOut 1019 3; EvOut 1017 0; EvOut 1016 1; EvOut 1019 128;
            EvOut 1017 0].
    split; [done|]. cbn [no_overrun app]. by rewrite dlab_open.
Qed.

(** ** The driver of the kernel crate *)

(** It behaves as the bootloader's routine on the expanded text. *)
Lemma kernel_write_str {P : Profile} text :
  SerialPort_write_str SerialPort_new text ≡ serial_write_str (expand text).
Proof. intros w. by rewrite (write_str_send text w), (serial_write_str_send (expand text) w). Qed.

Lemma steady_equiv {A} (m n : M A) : m ≡ n -> steady n -> steady m.
Proof. intros E Hn w i. rewrite (E w), (E (feed i w)). apply Hn. Qed.

Lemma steady_write_str {P : Profile} text : steady (SerialPort_write_str SerialPort_new text).
Proof.
  eapply steady_equiv; [apply kernel_write_str | apply (closed_write_str (F := @steady))].
Qed.

Lemma steady_kernel_panic {P : Profile} : steady kernel_panic.
Proof.
  apply steady_bind; [apply steady_write_str|]. intros _.
  apply (closed_halt (Q := fun _ => True) (F := @steady)).
Qed.

Lemma overrun_write_str {P : Profile} u text :
  keeps (overrun_free u) (SerialPort_write_str SerialPort_new text).
Proof.
  intros w. rewrite (kernel_write_str text w).
  apply (closed_write_str (F := fun A => @keeps A (overrun_free u))).
Qed.

(** ** Streams *)

Lemma answers_app s n k : answers s (n + k) = answers s n ++ (s <$> seq n k).
Proof. unfold answers. by rewrite seq_app, fmap_app. Qed.

Lemma answers_mono s n m :
  (n <= m)%nat -> (ready_count (answers s n) <= ready_count (answers s m))%nat.
Proof.
  intros H. replace m with (n + (m - n))%nat by lia. rewrite answers_app, ready_count_app. lia.
Qed.

Lemma answers_ready s m :
  ready (s m) = true -> ready_count (answers s (S m)) = S (ready_count (answers s m)).
Proof.
  intros H. replace (S m) with (m + 1)%nat by lia. rewrite answers_app, ready_count_app.
  unfold ready_count at 2. cbn [seq fmap list_fmap]. rewrite filter_cons.
  rewrite decide_True by (by rewrite H). cbn [filter list_filter length]. lia.
Qed.

Lemma fair_count s k : fair s -> exists n, (k <= ready_count (answers s n))%nat.
Proof.
  intros Hs. induction k as [|k [n IH]]; [by exists 0%nat; lia|].
  destruct (Hs n) as (m & Hm & Hr). exists (S m). rewrite answers_ready by done.
  pose proof (answers_mono s n m Hm). lia.
Qed.

(** * The boot *)

Section boot.
Context {P : Profile} {T : Type} {U : UefiMemoryType T} {W : Firmware T}.
Context {I : Image} {L : ImageLaws} {O : Locals} {C : CallConv}.

(** What [Boot] asks of firmware, placement, operand registers and start state.  The
    pointer reaches [kernel_entry] under SysV always, and under Win64 when its operand
    register is RCX. *)
Record bootable (rs ri : reg) (ds : list (UefiDescriptor T)) (fb : option RawFramebufferInfo)
    (w : world) : Prop := {
  ba_firmware : firmware_ok ds fb;
  ba_kernel : kernel_layout;
  ba_bootstrap : bootstrap_layout;
  ba_passes : passes ri;
  ba_regs : rs <> ri /\ rs <> RSP /\ ri <> RSP /\ ri <> RBP;
  ba_cpl : cpl (w_cpu w) = 0;
  ba_gdt : gdt_in_memory boot_GDT (w_mem w);
}.

(** The serial output of a complete boot. *)
Definition full_log (ds : list (UefiDescriptor T)) (fb : option RawFramebufferInfo) : list Z :=
  boot_log KERNEL_STACK_addr (KERNEL_STACK_addr + boot_KERNEL_STACK_SIZE)
    (kernel_boot_info_of (gathered ds fb)).

Context (u : uart) (rs ri : reg) (ds : list (UefiDescriptor T)) (fb : option RawFramebufferInfo).

Let main : M Status := efi_main rs ri.

Lemma boot_halts w :
  bootable rs ri ds fb w -> (length (full_log ds fb) <= ready_count (w_in w))%nat ->
  exists w', main w = Halted w' /\ kernel_ready (Z.clearbit (rflags (w_cpu w)) IF_BIT) w'
    /\ info_in_memory KERNEL_BOOT_INFO_addr (kernel_boot_info_of (gathered ds fb)) w'
    /\ uart_tx (uart_after u (w_log w')) = uart_tx (uart_after u (w_log w)) ++ full_log ds fb.
Proof.
  intros [Hf Hk Hb Hp (H1 & H2 & H3 & H4) Hc Hg] Hn.
  exact (efi_main_run u rs ri ds fb w Hf Hk Hb Hp H1 H2 H3 H4 Hc Hg Hn).
Qed.

Lemma steady_main : steady main.
Proof. apply (closed_efi_main (F := @steady)). Qed.

Lemma budget_main w : budget u w (final (main w)).
Proof. apply (closed_efi_main (F := fun A => @keeps A (budget u))). Qed.

(** Not ready often enough: the boot waits for the device, part of its output sent. *)
Lemma boot_starves w :
  bootable rs ri ds fb w -> (ready_count (w_in w) < length (full_log ds fb))%nat ->
  exists w' sent rest, main w = Waiting w' /\ w_in w' = []
    /\ full_log ds fb = sent ++ rest /\ (length sent <= ready_count (w_in w))%nat
    /\ uart_tx (uart_after u (w_log w')) = uart_tx (uart_after u (w_log w)) ++ sent.
Proof.
  intros Hb Hn. set (more := replicate (length (full_log ds fb)) 0x20).
  assert (Hmore : ready_count more = length (full_log ds fb)).
  { unfold more. generalize (length (full_log ds fb)). intros n. induction n as [|n IH]; [done|].
    cbn [replicate]. change (S (ready_count (replicate n 0x20)) = S n). by rewrite IH. }
  destruct (boot_halts (feed more w)) as (wf & Ef & _ & _ & Tf).
  { destruct Hb. by split. }
  { cbn [feed w_in with_io]. rewrite ready_count_app. lia. }
  destruct (steady_main w more) as [_ Hs]. destruct (budget_main w) as (used & sent & Eu & Es & Hl).
  destruct (main w) as [s v|v|v|f v] eqn:Em; cbn [final] in *.
  - congruence.
  - destruct Hs as [Hin [l El]]. rewrite Ef in El. cbn [final] in El.
    destruct (tx_grows u l (w_log v)) as [rest Er]. rewrite <- El, Tf, Es in Er.
    rewrite <- app_assoc in Er. apply app_inv_head in Er.
    exists v, sent, rest. rewrite Hin, app_nil_r in Eu. subst used. by split_and!.
  - rewrite Ef in Hs. injection Hs as ->. cbn [feed w_log with_io] in Tf.
    rewrite Es in Tf. apply app_inv_head in Tf. subst sent.
    rewrite Eu, ready_count_app in Hn. lia.
  - destruct Hs as [_ Hs]. congruence.
Qed.
End boot.

(** * Properties *)

(** C5: the boot makes progress exactly as the serial port does, under SysV for every choice
    of operand registers, and under Win64 (the convention of the crate's target) when the
    compiler picks RCX for the pointer to the boot information.  On a device that becomes
    ready again and again the boot reaches the kernel's final halt after finitely many
    answers, with the complete boot log transmitted, and nothing that the device does later
    changes that run.  On every device, as long as it has been ready fewer times than the
    log has bytes, the boot waits for it, having sent a prefix of the log. *)
Theorem boot_progress {P : Profile} {T : Type} {U : UefiMemoryType T} {W : Firmware T}
    {I : Image} {L : ImageLaws} {O : Locals} {C : CallConv} (u : uart) (rs ri : reg)
    (ds : list (UefiDescriptor T)) (fb : option RawFramebufferInfo) (s : nat -> Z) (w : world) :
  bootable rs ri ds fb w ->
  let run n := efi_main rs ri (with_input (answers s n) w) in
  let tx w := uart_tx (uart_after u (w_log w)) in
  (fair s -> exists n0 w0, tx w0 = tx w ++ full_log ds fb
    /\ forall k, run (n0 + k)%nat = Halted (feed (s <$> seq n0 k) w0))
  /\ (forall n, (ready_count (answers s n) < length (full_log ds fb))%nat ->
      exists w' sent rest, run n = Waiting w' /\ w_in w' = [] /\ full_log ds fb = sent ++ rest
        /\ (length sent <= ready_count (answers s n))%nat /\ tx w' = tx w ++ sent).
Proof.
  intros Hb run tx.
  assert (Hbi : forall ins, bootable rs ri ds fb (with_input ins w)) by (intros; destruct Hb; by split).
  split.
  - intros Hs. destruct (fair_count s (length (full_log ds fb)) Hs) as [n0 Hn].
    destruct (boot_halts u rs ri ds fb (with_input (answers s n0) w) (Hbi _) Hn)
      as (w0 & E0 & _ & _ & T0).
    exists n0, w0. split; [exact T0|]. intros k. unfold run. rewrite answers_app.
    destruct (steady_main rs ri (with_input (answers s n0) w) (s <$> seq n0 k)) as [_ H].
    rewrite E0 in H. exact H.
  - intros n Hn. exact (boot_starves u rs ri ds fb (with_input (answers s n) w) (Hbi _) Hn).
Qed.

(** RCX carries the pointer under both conventions. *)
Lemma sample_bootable (C : CallConv) :
  C = sysv \/ C = win64 ->
  @bootable dev_profile Z uefi_code_type sample_firmware sample_image sample_locals C RAX RCX
    sample_uefi (Some sample_raw) sample_boot_world.
Proof.
  intros HC. split; [exact sample_firmware_ok | exact sample_layout | exact sample_bootstrap | | done | done |].
  { destruct HC as [-> | ->]; [by left | by right]. }
  exact sample_gdt_in_memory.
Qed.

(** Under Win64, a device that is ready at every third look boots; one that never is does
    not. *)
Lemma boot_progress_witness :
  (exists n0 w0, @efi_main dev_profile Z uefi_code_type sample_firmware sample_image sample_locals
      win64 RAX RCX (with_input (answers (fun n => if (n mod 3 =? 2)%nat then 0x60 else 0) n0)
        sample_boot_world) = Halted w0)
  /\ exists w', @efi_main dev_profile Z uefi_code_type sample_firmware sample_image sample_locals
      win64 RAX RCX (with_input (answers (fun _ => 0) 5) sample_boot_world) = Waiting w'.
Proof.
  pose proof (fun s => @boot_progress dev_profile Z uefi_code_type sample_firmware sample_image
    sample_image_laws sample_locals win64 idle_uart RAX RCX sample_uefi (Some sample_raw) s
    sample_boot_world (sample_bootable win64 (or_intror eq_refl))) as H. split.
  - destruct (H (fun n => if (n mod 3 =? 2)%nat then 0x60 else 0)) as [Hfair _].
    destruct Hfair as (n0 & w0 & _ & E).
    + intros n. exists (3 * n + 2)%nat. split; [lia|].
      rewrite Nat.mul_comm, Nat.add_comm, Nat.Div0.mod_add. reflexivity.
    + exists n0, (feed [] w0). rewrite <- (Nat.add_0_r n0). exact (E 0%nat).
  - destruct (H (fun _ => 0)) as [_ Hwait].
    destruct (Hwait 5%nat) as (w' & _ & _ & E & _); [by_dec | by exists w'].
Defined.

(** C13: every run of the bootloader, of an exception, of the kernel crate's serial output and
    of its panic handler, for every firmware, image, calling convention and start state,
    ends by returning, halting, faulting or waiting for the device after finitely many
    steps, and never because the model's iteration bounds are too small; a run that ended
    is unaffected by further device answers, and a run that waits has consumed its input
    and is only continued by more of it. *)
Theorem runs_steady {P : Profile} {T : Type} {U : UefiMemoryType T} {W : Firmware T}
    {I : Image} {O : Locals} {C : CallConv} (rs ri : reg) (v : nat) (code : Z) (text : list Z) :
  steady (efi_main rs ri) /\ steady (take_exception v code)
  /\ steady (SerialPort_write_str SerialPort_new text) /\ steady kernel_panic.
Proof.
  split_and!; [apply (closed_efi_main (F := @steady)) | apply (closed_take_exception (F := @steady))
    | apply steady_write_str | apply steady_kernel_panic].
Qed.

(** C11: the transmitter is never overrun: in every run of the bootloader, of an exception
    and of the kernel crate's serial output, on every device and from every state of it,
    each byte written to the data register (the divisor latch being closed) directly
    follows a status read that reported the transmitter empty. *)
Theorem uart_never_overrun {P : Profile} {T : Type} {U : UefiMemoryType T} {W : Firmware T}
    {I : Image} {O : Locals} {C : CallConv} (u : uart) (rs ri : reg) (v : nat) (code : Z)
    (text : list Z) (w : world) :
  (exists l, w_log (final (efi_main rs ri w)) = l ++ w_log w
     /\ no_overrun u l (w_log w) = true)
  /\ (exists l, w_log (final (take_exception v code w)) = l ++ w_log w
     /\ no_overrun u l (w_log w) = true)
  /\ (exists l, w_log (final (SerialPort_write_str SerialPort_new text w)) = l ++ w_log w
     /\ no_overrun u l (w_log w) = true).
Proof.
  split; [exact (closed_efi_main (F := fun A => @keeps A (overrun_free u)) rs ri w)|].
  split; [exact (closed_take_exception (F := fun A => @keeps A (overrun_free u)) v code w)|].
  exact (overrun_write_str u text w).
Qed.
