(* ===== verification/BootedMemory.v ===== *)
(** The memory service of the kernel on the machine that the boot leaves behind: what
    [memory::init] makes of the boot information in the kernel's static, and what
    [memory::get] then gives to the rest of the kernel.  This composes the bootloader, the
    machine, the byte layout, the parser and the global map. *)

From S2P Require Export Prelude Abi MemMap Layout KernelMemory UefiMemory BootInfo Handoff.
From S2P Require Export Machine Kernel Boot Progress.

Section booted.
Context {P : Profile} {T : Type} {U : UefiMemoryType T} {UL : UefiMemoryTypeLaws T}.
Context {W : Firmware T} {I : Image} {L : ImageLaws} {O : Locals} {C : CallConv}.




End booted.

