(* ===== verification/AfterBoot.v ===== *)
(** The kernel after its boot: a processor in the final [hlt] loop, or in the polling loop
    of an exception report, that is interrupted again and again.

    An [interruption] is what arrives: vector, error code, CR2 and further device answers,
    together with what the model leaves to the compiler about the interrupted code: where
    it is, its status flags, its registers, and the bytes it keeps on the stack.  [after]
    relates the booted machine to the machines that sequences of interruptions lead to;
    [standby] is the invariant of all of them. *)

From S2P Require Export Prelude Machine BootSerial Cpu Gdt Idt Exception.
From S2P Require Export UefiMemory BootInfo Kernel Passive Boot Progress.

(** * Interruptions *)

Record interruption : Type := {
  i_vector : nat;
  i_code : Z;
  i_cr2 : Z;
  i_rip : Z;
  i_flags : Z;
  i_regs : reg -> Z;     (** but RSP *)
  i_locals : list Z;     (** what the interrupted code has put on the stack *)
  i_answers : list Z;    (** device answers from then on *)
}.

(** CF, PF, AF, ZF, SF and OF: the flags ordinary code changes. *)
Definition status_flags : list Z := [0; 2; 4; 6; 7; 11].

Definition set_cr2 (v : Z) (c : cpu) : cpu :=
  {| regs := regs c; segs := segs c; rip := rip c; rflags := rflags c;
     gdtr := gdtr c; idtr := idtr c; cr2 := v |}.

(** The machine at the moment of the interruption. *)
Definition resume (i : interruption) (w : world) : world :=
  let rsp := regs (w_cpu w) RSP - Z.of_nat (length (i_locals i)) in
  let c := {| regs := fun x => if decide (x = RSP) then rsp else i_regs i x;
              segs := segs (w_cpu w); rip := i_rip i; rflags := i_flags i;
              gdtr := gdtr (w_cpu w); idtr := idtr (w_cpu w); cr2 := i_cr2 i |} in
  {| w_cpu := c; w_mem := store_bytes rsp (i_locals i) (w_mem w);
     w_in := w_in w ++ i_answers i; w_log := w_log w |}.

(** What the processor reports about the interrupted code. *)
Definition interrupted_frame (i : interruption) (w : world) : ExceptionFrame := {|
  ef_rip := i_rip i; ef_cs := 0x08; ef_rflags := i_flags i;
  ef_rsp := regs (w_cpu w) RSP - Z.of_nat (length (i_locals i)); ef_ss := 0x10 |}.

Section after.
Context {P : Profile} {I : Image} {C : CallConv}.

(** An interruption that can happen: vectors from 32 on are maskable, ordinary code leaves
    the control flags alone, and the kernel stack has room for the frame. *)
Record arrives (i : interruption) (w : world) : Prop := {
  ar_vector : (i_vector i < 256)%nat;
  ar_maskable : (32 <= i_vector i)%nat -> Z.testbit (i_flags i) IF_BIT = true;
  ar_flags : forall b, 0 <= b -> b ∉ status_flags ->
    Z.testbit (i_flags i) b = Z.testbit (rflags (w_cpu w)) b;
  ar_types : uint 64 (i_code i) /\ uint 64 (i_cr2 i) /\ uint 64 (i_rip i) /\ uint 64 (i_flags i);
  ar_room : KERNEL_STACK_addr + 64
    <= regs (w_cpu w) RSP - Z.of_nat (length (i_locals i));
}.

Definition interrupt (i : interruption) (w : world) : result void :=
  take_exception (i_vector i) (i_code i) (resume i w).

(** The handler never returns: it halts, waits for the device, or faults itself, which is
    the next interruption. *)
Definition rests (r : result void) (w : world) : Prop := final r = w.

(** Interruptions in order of arrival. *)
Inductive after (w : world) : list interruption -> world -> Prop :=
| after_boot : after w [] w
| after_interrupt l w1 i w2 :
    after w l w1 -> arrives i w1 -> rests (interrupt i w1) w2 -> after w (l ++ [i]) w2.

(** * The invariant *)

Record standby (w : world) : Prop := {
  sb_gdt : gdt_ready (set_accessed GDT_KERNEL_CODE) (set_accessed GDT_KERNEL_DATA) w;
  sb_idt : idt_ready w;
  sb_segs : segs (w_cpu w) CS = 0x08 /\ segs (w_cpu w) SS = 0x10;
  sb_if : Z.testbit (rflags (w_cpu w)) IF_BIT = false;
  sb_rsp : KERNEL_STACK_addr <= regs (w_cpu w) RSP
    <= KERNEL_STACK_addr + boot_KERNEL_STACK_SIZE;
}.

(** The linker places the tables outside the kernel stack. *)
Record stack_apart : Prop := {
  sa_stack : placed KERNEL_STACK_addr boot_KERNEL_STACK_SIZE;
  sa_gdt : disjoint_ranges KERNEL_STACK_addr boot_KERNEL_STACK_SIZE GDT_addr 24;
  sa_idt : disjoint_ranges KERNEL_STACK_addr boot_KERNEL_STACK_SIZE IDT_addr 4096;
  sa_tables : disjoint_ranges GDT_addr 24 IDT_addr 4096;
}.

(** * Lemmas *)

(** The tables depend on their registers and their memory. *)
Lemma gdt_ready_agree c d w w' :
  gdtr (w_cpu w') = gdtr (w_cpu w) -> segs (w_cpu w') CS = segs (w_cpu w) CS ->
  (forall b, GDT_addr <= b < GDT_addr + 24 -> w_mem w' !! b = w_mem w !! b) ->
  gdt_ready c d w -> gdt_ready c d w'.
Proof.
  intros Hg Hs Hm [Gg Gc Gm]. split; [by rewrite Hg | unfold cpl in *; by rewrite Hs |].
  intros i e Hi. rewrite <- (Gm i e Hi). unfold load_uint. f_equal. apply load_bytes_ext.
  intros b Hb. apply lookup_lt_Some in Hi. cbn in Hi. apply Hm. lia.
Qed.

Lemma idt_ready_agree w w' :
  idtr (w_cpu w') = idtr (w_cpu w) ->
  (forall b, IDT_addr <= b < IDT_addr + 4096 -> w_mem w' !! b = w_mem w !! b) ->
  idt_ready w -> idt_ready w'.
Proof.
  intros Hi Hm [Ii Im]. split; [by rewrite Hi|]. intros j e Hj He.
  unfold mem_has. rewrite length_entry. rewrite (load_bytes_ext _ _ _ (w_mem w)).
  - specialize (Im j e Hj He). unfold mem_has in Im. by rewrite length_entry in Im.
  - intros b Hb. rewrite length_idt_table in Hj. apply Hm. lia.
Qed.

Context {L : ImageLaws} (Hst : stack_apart).

Lemma stack_bounds : 0 <= KERNEL_STACK_addr
  /\ KERNEL_STACK_addr + boot_KERNEL_STACK_SIZE < 2 ^ 64.
Proof. destruct Hst as [(H1 & _ & H2) _ _ _]. lia. Qed.

(** Memory that is outside the kernel stack. *)
Lemma tables_apart b :
  GDT_addr <= b < GDT_addr + 24 \/ IDT_addr <= b < IDT_addr + 4096 ->
  ~ (KERNEL_STACK_addr <= b < KERNEL_STACK_addr + boot_KERNEL_STACK_SIZE).
Proof. destruct Hst as [_ H1 H2 _]. unfold disjoint_ranges in *. lia. Qed.

Lemma resume_ready i w :
  standby w -> arrives i w ->
  gdt_ready (set_accessed GDT_KERNEL_CODE) (set_accessed GDT_KERNEL_DATA) (resume i w)
  /\ idt_ready (resume i w).
Proof.
  intros [Hg Hi _ _ Hr] [_ _ _ _ Hroom].
  assert (Hm : forall b, ~ (KERNEL_STACK_addr <= b < KERNEL_STACK_addr + boot_KERNEL_STACK_SIZE) ->
    w_mem (resume i w) !! b = w_mem w !! b).
  { intros b Hb. cbn [resume w_mem].
    destruct (Z_lt_ge_dec b (regs (w_cpu w) RSP - Z.of_nat (length (i_locals i))));
      [by apply store_bytes_lookup_lt | apply store_bytes_lookup_ge; lia]. }
  split.
  - apply (gdt_ready_agree _ _ w); [done | done | | exact Hg]. intros b Hb. apply Hm, tables_apart.
    by left.
  - apply (idt_ready_agree w); [done | | exact Hi]. intros b Hb. apply Hm, tables_apart. by right.
Qed.

Lemma resume_rsp i w :
  regs (w_cpu (resume i w)) RSP = regs (w_cpu w) RSP - Z.of_nat (length (i_locals i)).
Proof. done. Qed.

(** The two segments and the frame of an interruption. *)
Lemma resume_frame i w : standby w -> frame_of (w_cpu (resume i w)) = interrupted_frame i w.
Proof. intros [_ _ [Hc Hs] _ _]. unfold frame_of, interrupted_frame. cbn. by rewrite Hc, Hs. Qed.

(** Interrupts stay off, so only exceptions and NMIs arrive. *)
Lemma arrives_unmaskable i w : standby w -> arrives i w -> (i_vector i < 32)%nat.
Proof.
  intros Hsb [_ Hmask Hflags _ _]. destruct (decide (32 <= i_vector i)%nat) as [H|H]; [|lia].
  specialize (Hmask H). rewrite Hflags, (sb_if _ Hsb) in Hmask; [done | done |].
  unfold status_flags, IF_BIT. rewrite !elem_of_cons, elem_of_nil. lia.
Qed.

(** Every interruption enters the handler, with what the stub has put into the registers
    of its convention. *)
Lemma interrupt_ok i w :
  standby w -> arrives i w ->
  let args := stub_regs (i_vector i) (i_code i) (w_cpu (resume i w)) in
  exists w2, interrupt i w = exception_handler (args arg1) (args arg2) (args arg3) w2
    /\ handler_entry (set_accessed GDT_KERNEL_CODE) (resume i w) w2.
Proof.
  intros Hsb Ha args. pose proof (arrives_unmaskable i w Hsb Ha) as Hv.
  destruct (resume_ready i w Hsb Ha) as [Hg Hi].
  destruct Ha as [_ _ _ (Tc & _) Hroom]. pose proof stack_bounds as [B1 B2].
  destruct (sb_rsp _ Hsb) as [R1 R2].
  assert (Hr : 64 <= regs (w_cpu (resume i w)) RSP < 2 ^ 64) by (rewrite resume_rsp; lia).
  destruct (deliver_ok _ _ (i_vector i) (i_code i) _ Hg eq_refl Hi ltac:(lia) Hr) as (w1 & E1 & D).
  destruct (dispatch_ok _ (i_vector i) (i_code i) _ w1 Tc Hr D) as (w2 & E2 & He).
  exists w2. split; [|exact He]. unfold interrupt, take_exception.
  erewrite bind_done by exact E1. by erewrite bind_done by done.
Qed.

(** With the arguments SysV gives it, the handler prints the report. *)
Lemma entered_report i w w2 :
  standby w -> arrives i w -> handler_entry (set_accessed GDT_KERNEL_CODE) (resume i w) w2 ->
  exception_handler (stub_vector (i_vector i)) (stub_code (i_vector i) (i_code i))
    (frame_addr (w_cpu (resume i w))) w2
  = print_and_halt (report (Z.of_nat (i_vector i)) (i_code i) (i_cr2 i)
      (Some (interrupted_frame i w))) w2.
Proof.
  intros Hsb Ha He. pose proof (arrives_unmaskable i w Hsb Ha) as Hv.
  destruct Ha as [_ _ _ (Tc & Tr & Ti & Tf) Hroom]. pose proof stack_bounds as [B1 B2].
  destruct (sb_rsp _ Hsb) as [R1 R2].
  assert (Hr : 64 <= regs (w_cpu (resume i w)) RSP < 2 ^ 64) by (rewrite resume_rsp; lia).
  pose proof (frame_addr_bounds (w_cpu (resume i w)) ltac:(lia)) as Hfa.
  rewrite (exception_handler_ok _ _ _ (Some (interrupted_frame i w))).
  - rewrite report_code. unfold stub_vector. rewrite decide_True by done.
    by rewrite (he_cr2 _ _ _ He).
  - unfold stub_vector, uint. rewrite decide_True by done. lia.
  - unfold stub_code. by destruct (pushes_error_code _).
  - by rewrite (he_cr2 _ _ _ He).
  - split; [lia|]. split.
    + unfold wf_frame, interrupted_frame, uint in *. cbn. lia.
    + rewrite <- (resume_frame i w Hsb). exact (he_frame _ _ _ He).
Qed.

Lemma code_accessed : set_accessed (set_accessed GDT_KERNEL_CODE) = set_accessed GDT_KERNEL_CODE.
Proof. done. Qed.

(** What is left of the stack. *)
Lemma frame_addr_stack i w :
  standby w -> arrives i w ->
  KERNEL_STACK_addr <= frame_addr (w_cpu (resume i w)) - 8
  /\ regs (w_cpu (resume i w)) RSP <= KERNEL_STACK_addr + boot_KERNEL_STACK_SIZE.
Proof.
  intros Hsb Ha. pose proof (ar_room _ _ Ha) as Hroom. pose proof (sb_rsp _ Hsb) as Hr.
  unfold frame_addr. rewrite resume_rsp. set (r := _ - Z.of_nat _) in *.
  pose proof (Z.mod_pos_bound r 16 eq_refl). lia.
Qed.

(** The invariant is kept, whether the report is finished or not. *)
Lemma standby_interrupt i w w' :
  standby w -> arrives i w -> rests (interrupt i w) w' -> standby w'.
Proof.
  intros Hsb Ha Hw. destruct (interrupt_ok i w Hsb Ha) as (w2 & E & He).
  destruct (resume_ready i w Hsb Ha) as [Hg Hi]. pose proof (frame_addr_stack i w Hsb Ha) as [F1 F2].
  assert (Hcm : w_cpu w' = w_cpu w2 /\ w_mem w' = w_mem w2).
  { unfold rests in Hw. rewrite E in Hw.
    destruct (passive_handler (stub_regs (i_vector i) (i_code i) (w_cpu (resume i w)) arg1)
      (stub_regs (i_vector i) (i_code i) (w_cpu (resume i w)) arg2)
      (stub_regs (i_vector i) (i_code i) (w_cpu (resume i w)) arg3) w2) as (ins & log & Ef & _).
    rewrite Ef in Hw. by subst w'. }
  destruct Hcm as [Hc Hm]. destruct He as [[Og Oi Os Om] Hrsp _ Hif _ _ _].
  set (r := resume i w) in *.
  assert (Hl : gdt_ready (set_accessed GDT_KERNEL_CODE) (set_accessed GDT_KERNEL_DATA)
    (loaded CS 1 (set_accessed GDT_KERNEL_CODE) r)).
  { rewrite <- code_accessed at 1. apply loaded_code_ready; [by_dec | exact Hg]. }
  assert (Hmem : forall b, ~ (KERNEL_STACK_addr <= b < KERNEL_STACK_addr + boot_KERNEL_STACK_SIZE) ->
    w_mem w' !! b = w_mem (loaded CS 1 (set_accessed GDT_KERNEL_CODE) r) !! b).
  { intros b Hb. rewrite Hm. apply Om. lia. }
  split.
  - apply (gdt_ready_agree _ _ (loaded CS 1 (set_accessed GDT_KERNEL_CODE) r));
      [by rewrite Hc, Og | by rewrite Hc, Os | | exact Hl].
    intros b Hb. apply Hmem, tables_apart. by left.
  - apply (idt_ready_agree r); [by rewrite Hc, Oi | | exact Hi].
    intros b Hb. rewrite Hmem by (apply tables_apart; by right).
    apply (os_mem _ _ (loaded_only_segments CS 1 (set_accessed GDT_KERNEL_CODE) r ltac:(lia))).
    destruct Hst as [_ _ _ Hd]. unfold disjoint_ranges in Hd. lia.
  - rewrite Hc, Os. split; [done|]. exact (proj2 (sb_segs _ Hsb)).
  - by rewrite Hc.
  - rewrite Hc, Hrsp. pose proof (frame_addr_bounds (w_cpu r)). unfold frame_addr in *.
    pose proof (Z.mod_pos_bound (regs (w_cpu r) RSP) 16 eq_refl). lia.
Qed.

Lemma after_standby w l w' : standby w -> after w l w' -> standby w'.
Proof.
  intros Hw. induction 1 as [|l w1 i w2 _ IH Ha Hr]; [done|]. by eapply standby_interrupt.
Qed.

Lemma kernel_standby flags w :
  kernel_ready flags w -> Z.testbit flags IF_BIT = false -> standby w.
Proof.
  intros [Kg Ki Ks Kr Kf] Hif. split; [done | done | by rewrite !Ks | by rewrite Kf |].
  rewrite Kr. change boot_KERNEL_STACK_SIZE with 65536. lia.
Qed.
End after.

(** * Properties *)

(** C4: after a complete boot the kernel keeps catching exceptions: in the state of the final
    halt, and in every state that any sequence of interruptions leads to while the stack has
    room (reports cut short by a slow device or by a fault of the handler included), the
    tables, segments and stack are still the kernel's and interrupts are off; whatever
    arrives next is an exception or NMI, never a maskable interrupt, and enters the handler
    with interrupts off and the frame on the stack.  This holds under every calling
    convention under which the boot reaches the kernel (SysV, and Win64, the convention of
    the crate's target, when the compiler picks RCX for the pointer).  Under SysV the exact
    report of what arrived is then started and followed by a halt; under Win64 the handler
    gets the interrupted code's RCX as vector and R8 as frame pointer instead. *)
Theorem exceptions_after_boot {P : Profile} {T : Type} {U : UefiMemoryType T} {W : Firmware T}
    {I : Image} {L : ImageLaws} {O : Locals} {C : CallConv} (rs ri : reg)
    (ds : list (UefiDescriptor T)) (fb : option RawFramebufferInfo) (w : world) :
  bootable rs ri ds fb w -> stack_apart ->
  (length (full_log ds fb) <= ready_count (w_in w))%nat ->
  exists w0, efi_main rs ri w = Halted w0
    /\ rflags (w_cpu w0) = Z.clearbit (rflags (w_cpu w)) IF_BIT
    /\ regs (w_cpu w0) RSP = KERNEL_STACK_addr + boot_KERNEL_STACK_SIZE
    /\ forall l w1, after w0 l w1 -> standby w1 /\ forall i, arrives i w1 ->
         (i_vector i < 32)%nat
         /\ exists w2, handler_entry (set_accessed GDT_KERNEL_CODE) (resume i w1) w2
           /\ w_in w2 = w_in w1 ++ i_answers i /\ w_log w2 = EvInterruptsOff :: w_log w1
           /\ (C = sysv -> interrupt i w1
                = print_and_halt (report (Z.of_nat (i_vector i)) (i_code i) (i_cr2 i)
                    (Some (interrupted_frame i w1))) w2)
           /\ (C = win64 -> interrupt i w1
                = exception_handler (i_regs i RCX) (frame_addr (w_cpu (resume i w1)))
                    (i_regs i R8) w2).
Proof.
  intros Hb Hst Hn.
  destruct (boot_halts idle_uart rs ri ds fb w Hb Hn) as (w0 & E & Kr & _).
  exists w0. split; [exact E|]. split; [by destruct Kr|]. split; [by destruct Kr|].
  intros l w1 Hl. assert (H1 : standby w1).
  { apply (after_standby Hst w0 l w1); [|exact Hl].
    apply (kernel_standby _ _ Kr), Z.clearbit_eq. }
  split; [exact H1|]. intros i Hi. split; [by eapply arrives_unmaskable|].
  destruct (interrupt_ok Hst i w1 H1 Hi) as (w2 & E2 & He). exists w2.
  split; [exact He|]. split; [exact (he_in _ _ _ He)|]. split; [exact (he_log _ _ _ He)|].
  split; intros ->; rewrite E2; [by apply entered_report | done].
Qed.

Lemma sample_stack_apart : @stack_apart sample_image.
Proof. split; unfold placed, disjoint_ranges; by_dec. Qed.

(** An NMI that wakes the halted kernel. *)
Definition sample_nmi : interruption := {|
  i_vector := 2; i_code := 0; i_cr2 := 0; i_rip := 0x7200; i_flags := 2;
  i_regs := fun _ => 0; i_locals := replicate 40 0; i_answers := [] |}.

Lemma exceptions_after_boot_witness :
  (exists w0 w2, @efi_main dev_profile Z uefi_code_type sample_firmware sample_image
      sample_locals sysv RAX RCX sample_boot_world = Halted w0
    /\ @interrupt dev_profile sample_image sysv sample_nmi w0
       = print_and_halt (report 2 0 0 (Some {| ef_rip := 0x7200; ef_cs := 8; ef_rflags := 2;
           ef_rsp := 0x2FFD8; ef_ss := 16 |})) w2)
  /\ exists w0, @efi_main dev_profile Z uefi_code_type sample_firmware sample_image
      sample_locals win64 RAX RCX sample_boot_world = Halted w0
    /\ forall w1, @after dev_profile sample_image win64 w0 [sample_nmi] w1 -> @standby sample_image w1.
Proof.
  pose proof (fun C HC => @exceptions_after_boot dev_profile Z uefi_code_type sample_firmware
    sample_image sample_image_laws sample_locals C RAX RCX sample_uefi (Some sample_raw)
    sample_boot_world (sample_bootable C HC) sample_stack_apart ltac:(by_dec)) as Hall. split.
  - destruct (Hall sysv (or_introl eq_refl)) as (w0 & E & Hf & Hr & H).
    destruct (H [] w0 (after_boot _)) as [_ Hi].
    assert (Ha : @arrives sample_image sample_nmi w0).
    { split; [by_dec | cbn; lia | | by_dec | rewrite Hr; by_dec].
      intros b Hb Hs. by rewrite Hf. }
    destruct (Hi sample_nmi Ha) as (_ & w2 & _ & _ & _ & E2 & _). specialize (E2 eq_refl).
    exists w0, w2. split; [exact E|].
    assert (Hframe : interrupted_frame sample_nmi w0 = {| ef_rip := 0x7200; ef_cs := 8;
      ef_rflags := 2; ef_rsp := 0x2FFD8; ef_ss := 16 |}).
    { unfold interrupted_frame. rewrite Hr. reflexivity. }
    rewrite Hframe in E2. exact E2.
  - destruct (Hall win64 (or_intror eq_refl)) as (w0 & E & _ & _ & H). exists w0.
    split; [exact E|]. intros w1 H1. exact (proj1 (H _ w1 H1)).
Defined.
