(* ===== verification/Statics.v ===== *)
(** The statics of the program image: their types' layouts, their initialisers, and what
    the linker and the loader do with them.

    [linked] says that the statics of [boot/src/main.rs] are placed apart from each other,
    aligned as their types demand, in the lower canonical half, that the exception stubs
    are at different addresses there, and that the two descriptor-table pointers, locals of
    [gdt_init] and [idt_init], are on one of the stacks; [loaded_statics] that the
    initialisers are in memory.  The conditions on placement that the theorems on the boot
    assume ([ImageLaws], [kernel_layout], [bootstrap_layout], [stack_apart]) follow. *)

From S2P Require Export Prelude Abi Layout Machine Cpu Gdt Idt Exception Stack.
From S2P Require Export UefiMemory BootInfo Kernel Boot Progress AfterBoot.

(** * Types *)

(** [repr(C, align(a))] on a struct of layout [l]. *)
Definition align_to (a : Z) (l : field_layout) : field_layout :=
  (round_up l.1 (Z.max a l.2), Z.max a l.2).

(** [boot/src/main.rs] *)
Definition BootstrapStack_layout : field_layout :=
  align_to 16 (struct_layout [array_layout BOOTSTRAP_STACK_SIZE u8_layout]).
Definition boot_KernelStack_layout : field_layout :=
  align_to 16 (struct_layout [array_layout boot_KERNEL_STACK_SIZE u8_layout]).
Definition boot_Gdt_layout : field_layout :=
  align_to 8 (struct_layout [array_layout 3 u64_layout]).
Definition boot_GdtPointer_fields : list field_layout := pack [u16_layout; u64_layout].
Definition boot_IdtEntry_fields : list field_layout :=
  pack [u16_layout; u16_layout; u8_layout; u8_layout; u16_layout; u32_layout; u32_layout].
Definition boot_IdtPointer_fields : list field_layout := pack [u16_layout; u64_layout].
Definition IdtTable_layout : field_layout :=
  align_to 16 (struct_layout [array_layout 256 (struct_layout boot_IdtEntry_fields)]).

(** The canonical copies in the kernel crate. *)
Definition Gdt_layout : field_layout := align_to 8 (struct_layout [array_layout 3 u64_layout]).
Definition GdtPointer_fields : list field_layout := pack [u16_layout; u64_layout].
Definition Idt_layout : field_layout :=
  align_to 16 (struct_layout [array_layout 256 (struct_layout IdtEntry_fields)]).
Definition IdtPointer_fields : list field_layout := pack [u16_layout; u64_layout].
Definition kernel_ExceptionFrame_fields : list field_layout :=
  [u64_layout; u64_layout; u64_layout; u64_layout; u64_layout].

(** * Initialisers *)

Definition BOOTSTRAP_STACK_init : list Z := replicate (Z.to_nat BOOTSTRAP_STACK_SIZE) 0.
Definition KERNEL_STACK_init : list Z := replicate (Z.to_nat boot_KERNEL_STACK_SIZE) 0.
Definition KERNEL_BOOT_INFO_init : KernelBootInfo := KernelBootInfo_new.

Record static : Type := { s_addr : Z; s_layout : field_layout; s_init : list Z }.

Section image.
Context {I : Image}.

Definition boot_statics : list static := [
  {| s_addr := BOOTSTRAP_STACK_addr; s_layout := BootstrapStack_layout;
     s_init := BOOTSTRAP_STACK_init |};
  {| s_addr := KERNEL_STACK_addr; s_layout := boot_KernelStack_layout;
     s_init := KERNEL_STACK_init |};
  {| s_addr := KERNEL_BOOT_INFO_addr; s_layout := struct_layout KernelBootInfo_fields;
     s_init := encode KERNEL_BOOT_INFO_init |};
  {| s_addr := GDT_addr; s_layout := boot_Gdt_layout;
     s_init := mjoin (le_encode 8 <$> boot_GDT) |};
  {| s_addr := IDT_addr; s_layout := IdtTable_layout; s_init := mjoin (encode <$> IDT_initial) |}].

(** In the lower canonical half, where UEFI loads images. *)
Definition well_placed (s : static) : Prop :=
  0 < s_addr s /\ s_addr s mod (s_layout s).2 = 0 /\ s_addr s + (s_layout s).1 <= 2 ^ 47.

Definition apart (s t : static) : Prop :=
  disjoint_ranges (s_addr s) (s_layout s).1 (s_addr t) (s_layout t).1.

Definition within (a n : Z) (b k : Z) : Prop := b <= a /\ a + n <= b + k.

(** A 10-byte local on one of the stacks. *)
Definition on_stack (a : Z) : Prop :=
  within a 10 BOOTSTRAP_STACK_addr BOOTSTRAP_STACK_SIZE
  \/ within a 10 KERNEL_STACK_addr boot_KERNEL_STACK_SIZE.

(** The labels [isr_0] to [isr_31] and [isr_irq]. *)
Definition stub_addresses : list Z := (isr_addr <$> seq 0 32) ++ [isr_irq_addr].

Record linked {O : Locals} : Prop := {
  lk_placed : Forall well_placed boot_statics;
  lk_apart : ForallOrdPairs apart boot_statics;
  lk_stubs : Forall (fun a => 0 < a < 2 ^ 47) stub_addresses;
  lk_distinct : NoDup stub_addresses;
  lk_slots : on_stack gdt_slot /\ on_stack idt_slot;
  lk_label : canonical gdt_label = true;
}.

(** The loader writes the initialisers into memory. *)
Definition load_statics (ss : list static) (m : gmap Z Z) : gmap Z Z :=
  foldr (fun s m => store_bytes (s_addr s) (s_init s) m) m ss.

Definition loaded_statics (w : world) : Prop :=
  Forall (fun s => mem_has (s_addr s) (s_init s) (w_mem w)) boot_statics.

(** * Lemmas *)

Lemma layout_sizes :
  BootstrapStack_layout = (16384, 16) /\ boot_KernelStack_layout = (65536, 16)
  /\ struct_layout KernelBootInfo_fields = (8304, 8)
  /\ boot_Gdt_layout = (24, 8) /\ IdtTable_layout = (4096, 16).
Proof. split_and!; vm_compute; reflexivity. Qed.

Lemma FOP_cons_inv {A} (R : A -> A -> Prop) x l :
  ForallOrdPairs R (x :: l) -> Forall (R x) l /\ ForallOrdPairs R l.
Proof. by inversion_clear 1. Qed.

Lemma linked_ranges {O : Locals} : linked ->
  let p a n := 0 < a /\ a + n <= 2 ^ 47 in
  let B := BOOTSTRAP_STACK_addr in let K := KERNEL_STACK_addr in
  let N := KERNEL_BOOT_INFO_addr in let G := GDT_addr in let D := IDT_addr in
  ((p B 16384 /\ B mod 16 = 0) /\ (p K 65536 /\ K mod 16 = 0) /\ p N 8304 /\ p G 24 /\ p D 4096)
  /\ (disjoint_ranges B 16384 N 8304 /\ disjoint_ranges B 16384 G 24 /\ disjoint_ranges B 16384 D 4096)
  /\ (disjoint_ranges K 65536 N 8304 /\ disjoint_ranges K 65536 G 24 /\ disjoint_ranges K 65536 D 4096)
  /\ (disjoint_ranges N 8304 G 24 /\ disjoint_ranges N 8304 D 4096 /\ disjoint_ranges G 24 D 4096).
Proof.
  destruct layout_sizes as (E1 & E2 & E3 & E4 & E5). intros [Hp Ha _ _ _ _].
  unfold boot_statics in *. rewrite E1, E2, E3, E4, E5 in *.
  repeat match goal with
  | H : Forall _ (_ :: _) |- _ => apply Forall_cons in H as [? H]
  | H : ForallOrdPairs _ (_ :: _) |- _ => apply FOP_cons_inv in H as [? H]
  end.
  unfold well_placed, apart in *. cbn [s_addr s_layout fst snd] in *. cbv zeta. tauto.
Qed.

Lemma linked_layouts {O : Locals} : linked -> kernel_layout /\ bootstrap_layout /\ stack_apart.
Proof.
  intros H. destruct (linked_ranges H) as (Hp & Hb & Hk & Hn). cbv zeta in *.
  destruct (lk_slots H) as [Hg Hi]. pose proof (lk_label H).
  unfold on_stack, within, placed, disjoint_ranges, uint in *.
  change BOOTSTRAP_STACK_SIZE with 16384 in *. change boot_KERNEL_STACK_SIZE with 65536 in *.
  assert (2 ^ 47 < 2 ^ 64) by by_dec.
  split_and!; split; unfold placed, disjoint_ranges, uint; cbv zeta;
    change BOOTSTRAP_STACK_SIZE with 16384; change boot_KERNEL_STACK_SIZE with 65536; lia || done.
Qed.

Lemma low_canonical a : 0 < a < 2 ^ 47 -> canonical a = true.
Proof.
  intros H. unfold canonical. rewrite (proj2 (Z.leb_le 0 a)), (proj2 (Z.ltb_lt a _)) by lia. done.
Qed.

(** The stubs and tables of a linked image are where the processor can find them. *)
Lemma linked_laws {O : Locals} : linked -> ImageLaws.
Proof.
  intros H. destruct (linked_ranges H) as ((_ & _ & _ & Hg & Hd) & _). cbv zeta in *.
  pose proof (lk_stubs H) as Hs. pose proof (lk_distinct H) as Hn. unfold stub_addresses in *.
  apply Forall_app in Hs as [Hs Hq]. apply NoDup_app in Hn as (Hn & Hq' & _).
  assert (Hin : forall v, (v < 32)%nat -> (isr_addr <$> seq 0 32) !! v = Some (isr_addr v)).
  { intros v Hv. by rewrite list_lookup_fmap, lookup_seq_lt. }
  split.
  - intros v Hv. apply low_canonical. rewrite Forall_lookup in Hs. exact (Hs v _ (Hin v Hv)).
  - apply low_canonical. exact (Forall_inv Hq).
  - intros v u Hv Hu E. apply (NoDup_lookup _ v u (isr_addr v) Hn); [by apply Hin|].
    rewrite E. by apply Hin.
  - intros v Hv E. apply (Hq' (isr_addr v)).
    + by apply (list_elem_of_lookup_2 _ v), Hin.
    + rewrite E. by apply list_elem_of_singleton.
  - apply low_canonical. lia.
  - apply low_canonical. lia.
Qed.

Lemma mem_has_qwords vs a m i v :
  Forall (uint 64) vs -> mem_has a (qwords vs) m -> vs !! i = Some v ->
  load_uint 8 (a + 8 * Z.of_nat i) m = Some v.
Proof.
  intros Hv. revert a i. induction Hv as [|x vs Hx Hv IH]; intros a i Hm Hi; [done|].
  unfold qwords in Hm. cbn [fmap list_fmap mjoin list_join] in Hm.
  apply mem_has_app in Hm as [H1 H2]. rewrite length_le_encode in H2. destruct i as [|i].
  - injection Hi as <-. replace (a + 8 * Z.of_nat 0) with a by lia. by apply (mem_has_uint 8).
  - replace (a + 8 * Z.of_nat (S i)) with (a + Z.of_nat 8 + 8 * Z.of_nat i) by lia. by apply IH.
Qed.

Lemma loaded_gdt w : loaded_statics w -> gdt_in_memory boot_GDT (w_mem w).
Proof.
  intros H. unfold loaded_statics, boot_statics in H. rewrite !Forall_cons in H.
  destruct H as (_ & _ & _ & H & _). cbn [s_addr s_init] in H.
  intros i d Hi. refine (mem_has_qwords boot_GDT _ _ i d _ H Hi). by_dec.
Qed.

(** Every initialiser fills its static. *)
Lemma statics_sized :
  Forall (fun s => Z.of_nat (length (s_init s)) = (s_layout s).1) boot_statics.
Proof.
  destruct layout_sizes as (E1 & E2 & E3 & E4 & E5). unfold boot_statics.
  rewrite E1, E2, E3, E4, E5. repeat apply Forall_cons_2; try apply Forall_nil_2; cbn [s_init s_layout fst].
  - unfold BOOTSTRAP_STACK_init. by rewrite length_replicate.
  - unfold KERNEL_STACK_init. by rewrite length_replicate.
  - unfold KERNEL_BOOT_INFO_init. by rewrite (encode_length (C := boot_info_codec) _ wf_boot_info_new).
  - by_dec.
  - vm_compute. reflexivity.
Qed.

Lemma load_statics_loaded ss m :
  ForallOrdPairs apart ss ->
  Forall (fun s => Z.of_nat (length (s_init s)) = (s_layout s).1) ss ->
  Forall (fun s => mem_has (s_addr s) (s_init s) (load_statics ss m)) ss.
Proof.
  induction 1 as [|s ss Hs Hss IH]; intros Hn; [done|]. apply Forall_cons in Hn as [Hn1 Hn2].
  cbn [load_statics foldr]. constructor; [apply mem_has_store|].
  specialize (IH Hn2). rewrite Forall_forall in *. intros t Ht.
  apply mem_has_store_disjoint; [|by apply IH].
  specialize (Hs t Ht). specialize (Hn2 t Ht). cbn beta in *. unfold apart, disjoint_ranges in Hs. lia.
Qed.
End image.

(** * Properties *)

(** C6: what the boot needs of the image is that it is properly linked and loaded: when the
    statics are placed apart and aligned as the layouts of their types say, with the stubs
    at addresses of their own and the locals of the table loads on a stack, and the
    initialisers (each exactly as long as its type) are in memory, then every condition on
    the image that the theorems on the boot and on later exceptions assume holds, and the
    boot completes and transmits its log on every device that is ready often enough.
    Assumed besides: firmware whose calls succeed, ring 0, operand registers that are apart,
    and that the pointer reaches the kernel (always under SysV; under Win64, the convention
    of the crate's target, when the compiler picks RCX for it). *)
Theorem linked_image_boots {P : Profile} {T : Type} {U : UefiMemoryType T} {W : Firmware T}
    {I : Image} {O : Locals} {C : CallConv} (u : uart) (rs ri : reg)
    (ds : list (UefiDescriptor T)) (fb : option RawFramebufferInfo) (w : world) :
  firmware_ok ds fb -> linked -> loaded_statics w -> passes ri ->
  rs <> ri /\ rs <> RSP /\ ri <> RSP /\ ri <> RBP -> cpl (w_cpu w) = 0 ->
  Forall (fun s => Z.of_nat (length (s_init s)) = (s_layout s).1) boot_statics
  /\ ImageLaws /\ bootable rs ri ds fb w /\ stack_apart
  /\ ((length (full_log ds fb) <= ready_count (w_in w))%nat ->
      exists w', efi_main rs ri w = Halted w'
        /\ kernel_ready (Z.clearbit (rflags (w_cpu w)) IF_BIT) w'
        /\ uart_tx (uart_after u (w_log w')) = uart_tx (uart_after u (w_log w)) ++ full_log ds fb).
Proof.
  intros Hf Hl Hm Hp Hr Hc. destruct (linked_layouts Hl) as (Hk & Hb & Hs).
  pose proof (linked_laws Hl) as HL.
  assert (Hboot : bootable rs ri ds fb w) by by split; [.. | apply loaded_gdt].
  split; [apply statics_sized|]. split; [exact HL|]. split; [exact Hboot|].
  split; [exact Hs|]. intros Hn.
  destruct (boot_halts u rs ri ds fb w Hboot Hn) as (w' & E & Kr & _ & Ht).
  exists w'. split; [exact E|]. split; [exact Kr | exact Ht].
Qed.

(** * A sample *)

Lemma sample_linked : @linked sample_image sample_locals.
Proof.
  split; [| | | |split; right; split; by_dec | done].
  - unfold boot_statics. repeat apply Forall_cons_2; try apply Forall_nil_2; split_and!; by_dec.
  - unfold boot_statics. repeat apply FOP_cons; try apply FOP_nil;
      repeat apply Forall_cons_2; try apply Forall_nil_2; unfold apart, disjoint_ranges; by_dec.
  - unfold stub_addresses. by_dec.
  - unfold stub_addresses. by_dec.
Qed.

Definition sample_loaded_world : world := {|
  w_cpu := sample_cpu 0x7F000; w_mem := load_statics (@boot_statics sample_image) ∅;
  w_in := replicate 2000 0x60; w_log := [] |}.

Lemma linked_image_boots_witness :
  exists w', @efi_main dev_profile Z uefi_code_type sample_firmware sample_image sample_locals
      win64 RAX RCX sample_loaded_world = Halted w'
    /\ uart_tx (uart_after idle_uart (w_log w'))
       = boot_log 0x20000 0x30000 (kernel_boot_info_of
           (@gathered Z uefi_code_type sample_firmware sample_uefi (Some sample_raw))).
Proof.
  destruct (@linked_image_boots dev_profile Z uefi_code_type sample_firmware sample_image
    sample_locals win64 idle_uart RAX RCX sample_uefi (Some sample_raw)
    sample_loaded_world sample_firmware_ok sample_linked) as (_ & _ & _ & _ & H).
  - apply load_statics_loaded; [exact (lk_apart sample_linked) | exact (@statics_sized sample_image)].
  - by right.
  - by_dec.
  - done.
  - destruct H as (w' & E & _ & Ht); [by_dec|]. exists w'. split; [exact E | exact Ht].
Defined.
