(* ===== verification/Footprint.v ===== *)
(** What a run of the boot crate touches: the memory it writes, and the order of its calls
    to the firmware, panics and the panic handler included.

    A run of the bootloader only talks to the console ([Passive]) until it either stops or
    hands over ([efi_heads]); from there on [calm] follows it through the kernel part:
    which cells may change, and that nothing panics any more. *)

From S2P Require Export Prelude Abi Machine Serial BootSerial Cpu Runs Gdt Idt Exception.
From S2P Require Export UefiMemory BootInfo Console Stack Kernel KernelRuns Passive Boot.
From S2P Require Export Progress AfterBoot Statics.

(** * The bootloader until the handoff *)

Lemma comp_bind_ok {E A B} (c : comp E A) (k : A -> comp E B) b :
  c ≫= k = Ok b -> exists a, c = Ok a /\ k a = Ok b.
Proof. destruct c as [a|e|f]; [by exists a | done..]. Qed.

Lemma passive_writeln s : passive console_event any (console_writeln s).
Proof.
  apply passive_for_each. intros c. unfold output_string.
  repeat case_match; (by apply passive_emit) || by apply passive_ret.
Qed.

#[export] Hint Resolve passive_writeln : passive.

Section bootloader.
Context {P : Profile} {T : Type} {U : UefiMemoryType T} {F : Firmware T}.

(** The firmware's values fit their Rust types; its calls may fail. *)
Record firmware_typed : Prop := {
  ft_map : forall ds, fw_memory_map = inl ds -> Forall wf_uefi ds;
  ft_base : forall g b, fw_gop = Some g -> gop_frame_buffer g = Some b -> uint 64 b;
  ft_tables : Forall (fun e => uint 64 (address e)) fw_config_table;
}.

(** A map that was imported had sizes that fit, or sizes are not checked. *)
Lemma from_uefi_fits ds m :
  from_uefi_memory_map ds = Ok m -> Forall size_fits ds.
Proof.
  unfold from_uefi_memory_map. intros (s' & H & _)%comp_bind_ok. revert H.
  generalize (@nil MemoryRegion, 0, 0) as s. induction ds as [|d ds IH]; intros s; [done|].
  cbn [from_uefi_loop]. intros (s1 & Hd & Hs)%comp_bind_ok. constructor; [|by eapply IH].
  intros Hc. destruct s as [[rs t] u]. cbn [from_uefi_step] in Hd.
  apply comp_bind_ok in Hd as (n & Hn & _). unfold mul_u, arith, PAGE_SIZE in Hn. rewrite Hc in Hn.
  destruct (Z.ltb_spec (u_page_count d * 4096) (2 ^ 64)); [|done].
  change (2 ^ 64) with (2 ^ 52 * 4096) in *. lia.
Qed.

Context (HF : firmware_typed).

(** A map the import delivers. *)
Definition imported (m : BootMemoryMap) : Prop :=
  exists ds, Forall wf_uefi ds /\ m = boot_map_of (region_of <$> ds).

Lemma passive_retrieve :
  passive console_event (fun r => match r with inl m => imported m | inr _ => True end)
    retrieve_memory_map.
Proof.
  unfold retrieve_memory_map. destruct fw_memory_map as [ds|e] eqn:Hm; [|by apply passive_ret].
  pose proof (ft_map HF ds Hm) as Hwf.
  eapply passive_bind; [apply passive_lift|]. cbv beta. intros m Hok.
  eapply passive_bind; [apply passive_writeln|]. intros _ _. apply passive_ret.
  exists ds. split; [done|]. pose proof (from_uefi_fits ds m Hok) as Hfit.
  rewrite from_uefi_spec in Hok by done. by injection Hok as <-.
Qed.

Lemma passive_summary m : passive console_event any (print_memory_summary m).
Proof. unfold print_memory_summary. cbv zeta. passively. Qed.

Lemma passive_collect m :
  imported m -> passive console_event wf_boot (collect_boot_info m).
Proof.
  intros (ds & Hds & ->). unfold collect_boot_info. cbv zeta.
  eapply passive_bind; [apply passive_writeln | intros _ _].
  eapply passive_bind; [instantiate (1 := any); passively | intros _ _].
  eapply passive_bind; [apply passive_writeln | intros _ _].
  eapply passive_bind; [apply passive_lift|]. cbv beta. intros fb Hfb.
  eapply passive_bind; [instantiate (1 := any); passively | intros _ _].
  assert (Hb : wf_boot (BootInfo_with_all (boot_map_of (region_of <$> ds)) find_acpi_tables
    (boot_framebuffer <$> fb))).
  { apply wf_boot_of; [done| |].
    - intros a Ha. destruct (find_acpi_in a Ha) as (e & Hin & ->).
      pose proof (ft_tables HF) as Ht. rewrite Forall_forall in Ht. by apply Ht.
    - intros f Hf. destruct fb as [raw|]; [|done]. injection Hf as <-.
      by apply framebuffer_wf; [apply (ft_base HF)|]. }
  apply passive_ret. destruct find_acpi_tables, fb; exact Hb.
Qed.

Context {I : Image} {O : Locals} {C : CallConv}.

(** The bootloader stops while it only talks to the console, or hands over well-formed
    boot information. *)
Lemma efi_heads rs ri :
  heads console_event (efi_main rs ri) (fun n => exists b, wf_boot b
    /\ n = (never ← hand_over rs ri b; match never : void with end)).
Proof.
  unfold efi_main, Console_clear.
  repeat (eapply heads_bind; [instantiate (1 := any); solve [passively]|]; intros _ _).
  eapply heads_bind; [apply passive_retrieve|]. intros [m|e] Hm.
  - eapply heads_bind; [apply passive_writeln | intros _ _].
    eapply heads_bind; [apply passive_summary | intros _ _].
    eapply heads_bind; [by apply passive_collect|]. intros b Hb.
    apply heads_here. by exists b.
  - apply (heads_passive any). passively.
Qed.
End bootloader.

(** * The kernel's part *)

(** Memory changes in [X] only, and nothing panics. *)
Definition calm {A} (X : Z -> Prop) (m : M A) (w : world) : Prop :=
  (forall b, ~ X b -> w_mem (final (m w)) !! b = w_mem w !! b)
  /\ forall f w', m w = Faulted f w' -> is_panic f = false.

Lemma calm_step {A B} X (m : M A) (k : A -> M B) w a w1 :
  m w = Done a w1 -> (forall b, ~ X b -> w_mem w1 !! b = w_mem w !! b) ->
  calm X (k a) w1 -> calm X (m ≫= k) w.
Proof.
  intros Hm Hmem [Hk Hf]. unfold calm. erewrite bind_done by exact Hm. split; [|exact Hf].
  intros b Hb. by rewrite Hk, Hmem.
Qed.

(** A step that does not write. *)
Lemma calm_same {A B} X (m : M A) (k : A -> M B) w a w1 :
  m w = Done a w1 -> w_mem w1 = w_mem w -> calm X (k a) w1 -> calm X (m ≫= k) w.
Proof. intros Hm E. apply calm_step with (1 := Hm). intros b _. by rewrite E. Qed.

Lemma send_never_faults bs w f v : send bs w <> Faulted f v.
Proof.
  revert w. induction bs as [|b bs IH]; intros w; [done|]. rewrite send_cons.
  destruct (drain (w_in w) (w_log w)) as [log [rest|]]; [apply IH | done].
Qed.

Lemma calm_print {B} X (m : M unit) bs (k : unit -> M B) w :
  m ≡ send bs ->
  (forall w1, w_cpu w1 = w_cpu w -> w_mem w1 = w_mem w -> calm X (k ()) w1) ->
  calm X (m ≫= k) w.
Proof.
  intros Hm Hk. pose proof (send_frame bs w) as [Hc Hw]. pose proof (Hm w) as E.
  destruct (send bs w) as [[] v|v|v|f v] eqn:Es; cbn [final] in *.
  - eapply calm_same; [exact E | exact Hw | by apply Hk].
  - unfold calm, mbind, M_bind. rewrite E. split; [by intros b _; cbn; rewrite Hw | done].
  - unfold calm, mbind, M_bind. rewrite E. split; [by intros b _; cbn; rewrite Hw | done].
  - by apply send_never_faults in Es.
Qed.

Lemma calm_text {B} X s (k : unit -> M B) w :
  (forall w1, w_cpu w1 = w_cpu w -> w_mem w1 = w_mem w -> calm X (k ()) w1) ->
  calm X (serial_write_str s ≫= k) w.
Proof. apply calm_print with (bs := s), serial_write_str_send. Qed.

Lemma calm_halt {A} X w : calm X (@hlt_forever A) w.
Proof. by split. Qed.

Lemma calm_weaken {A} (X Y : Z -> Prop) (m : M A) w :
  (forall b, X b -> Y b) -> calm X m w -> calm Y m w.
Proof. intros H [Hm Hf]. split; [|done]. intros b Hb. apply Hm. auto. Qed.

Section kernel.
Context {P : Profile} {I : Image} {L : ImageLaws} {O : Locals}.
Context (k : KernelBootInfo) (Hlayout : kernel_layout) (Hk : reportable k).

(** What the kernel's part writes: two descriptor tables, their pointers, and the far
    return address of [gdt_init] at the top of the kernel stack. *)
Definition kernel_writes (b : Z) : Prop :=
  GDT_addr <= b < GDT_addr + 24 \/ IDT_addr <= b < IDT_addr + 4096
  \/ gdt_slot <= b < gdt_slot + 10 \/ idt_slot <= b < idt_slot + 10
  \/ KERNEL_STACK_addr + boot_KERNEL_STACK_SIZE - 16 <= b
       < KERNEL_STACK_addr + boot_KERNEL_STACK_SIZE.

Let ready w : Prop := cpl (w_cpu w) = 0 /\ gdt_in_memory boot_GDT (w_mem w)
  /\ info_in_memory KERNEL_BOOT_INFO_addr k w.

Lemma kernel_main_calm w : ready w -> calm kernel_writes kernel_main w.
Proof.
  intros (Hcpl & Hgdt & Hinfo). pose proof (top_bounds Hlayout) as [Ht Hs].
  destruct Hlayout as [_ Hlabel _ [Hg1 Hg2] (Hi1 & Hi2 & Hi3) [Hp1 Hp2] (Ht1 & Ht2 & Ht3)].
  unfold kernel_main. rewrite add_u_small by apply Ht. rewrite lift_ok.
  set (top := KERNEL_STACK_addr + boot_KERNEL_STACK_SIZE) in *.
  eapply calm_same; [reflexivity | done |]. eapply calm_same; [reflexivity | done |].
  eapply calm_same; [reflexivity | done |].
  set (w1 := with_cpu (set_reg RSP top (w_cpu w)) w).
  destruct (serial_init_uart idle_uart w1) as (w2 & E2 & _ & C2 & M2 & _).
  eapply calm_same; [exact E2 | exact M2 |].
  eapply calm_print; [apply banner_prints; [exact Hs | unfold uint; lia]|]. intros w3 C3 M3.
  assert (R3 : regs (w_cpu w3) RSP = top) by by rewrite C3, C2.
  destruct (gdt_init_run gdt_slot gdt_label w3) as (w4 & E4 & _ & _ & _ & _ & _ & _ & _ & _ & _ & _ & M4).
  { by rewrite C3, C2. }
  { by rewrite M3, M2. }
  { exact gdt_canonical. }
  { exact Hlabel. }
  { rewrite R3. lia. }
  { exact Hg1. }
  { by rewrite R3. }
  rewrite R3 in M4. eapply calm_step; [exact E4 | |].
  { intros b Hb. unfold kernel_writes in Hb. fold top in Hb. apply M4; lia. }
  apply calm_text. intros w5 C5 M5.
  destruct (idt_init_run idt_slot w5 Hi2) as (m6 & E6 & _ & M6).
  eapply calm_step; [exact E6 | |].
  { intros b Hb. unfold kernel_writes in Hb. cbn [w_mem with_io with_cpu with_mem]. apply M6; lia. }
  match goal with |- calm _ _ ?v => set (w6 := v) end.
  do 4 (apply calm_text; intros ? ? ?).
  eapply calm_same; [apply (read_boot_info_ok _ k); [by destruct Hk|] | reflexivity |].
  { apply (info_in_memory_agree _ k w); [by destruct Hk | | exact Hinfo]. intros b Hb.
    unfold disjoint_ranges in *. etrans; [|etrans; [apply (M6 b); lia|]].
    - cut (w_mem w6 !! b = m6 !! b); [intros <-; by f_equal; congruence | done].
    - rewrite M5, M4 by lia. by rewrite M3, M2. }
  eapply calm_print; [by apply report_prints|]. intros ? _ _. apply calm_halt.
Qed.

(** Whatever pointer [kernel_entry] is given. *)
Lemma kernel_entry_calm ptr w : ready w -> calm kernel_writes (kernel_entry ptr) w.
Proof.
  intros Hw. unfold kernel_entry. destruct (ptr =? 0).
  { apply calm_text. intros w1 _ _. apply calm_halt. }
  unfold read_boot_info at 1. unfold calm, mbind, M_bind.
  destruct (load_bytes ptr _ (w_mem w)) as [bs|]; [|by split; [|intros f w' [= <- _]]].
  destruct (decode bs) as [[info rest]|]; [|by split; [|intros f w' [= <- _]]].
  destruct (negb _); [|exact (kernel_main_calm w Hw)].
  change (calm kernel_writes (_ ← serial_write_str (line "FATAL: KernelBootInfo magic/version mismatch");
    halt) w). apply calm_text. intros w1 _ _. apply calm_halt.
Qed.
End kernel.

(** * The whole run *)

(** A computation that goes on as another one. *)
Lemma calm_moved {A} X (m n : M A) w w1 :
  m w = n w1 -> (forall b, ~ X b -> w_mem w1 !! b = w_mem w !! b) -> calm X n w1 -> calm X m w.
Proof.
  intros Hm Hmem [Hn Hf]. unfold calm. rewrite Hm. split; [|exact Hf].
  intros b Hb. by rewrite Hn, Hmem.
Qed.

Lemma calm_never {A} X (m : M void) w :
  calm X m w -> calm X (never ← m; match never : void with end : M A) w.
Proof.
  unfold calm, mbind, M_bind. intros [Hm Hf].
  destruct (m w) as [[]|v|v|f v]; cbn [final] in *; (split; [exact Hm|]); try done.
  intros g w' [= -> _]. by apply (Hf g v).
Qed.

Section run.
Context {P : Profile} {T : Type} {U : UefiMemoryType T} {F : Firmware T}.
Context {I : Image} {O : Locals} {C : CallConv}.
Context (message : fault -> list Z) (rs ri : reg).

(** The boot information, the return address of the handoff at the top of the bootstrap
    stack, and the kernel's writes. *)
Definition boot_writes (b : Z) : Prop :=
  KERNEL_BOOT_INFO_addr <= b < KERNEL_BOOT_INFO_addr + 8304
  \/ BOOTSTRAP_STACK_addr + BOOTSTRAP_STACK_SIZE - 8 <= b
       < BOOTSTRAP_STACK_addr + BOOTSTRAP_STACK_SIZE
  \/ kernel_writes b.

(** A properly started run: image linked and loaded, operand registers apart, ring 0. *)
Record started (w : world) : Prop := {
  st_linked : linked;
  st_loaded : loaded_statics w;
  st_regs : rs <> ri /\ rs <> RSP /\ ri <> RSP /\ ri <> RBP;
  st_cpl : cpl (w_cpu w) = 0;
}.

Lemma hand_over_calm b w :
  wf_boot b -> started w -> calm boot_writes (hand_over rs ri b) w.
Proof.
  intros Hb [Hl Hload (H1 & H2 & H3 & H4) Hcpl].
  destruct (linked_layouts Hl) as (Hk & [[Hs1 [_ Hs2]] [Hp1 Hp2]] & _).
  pose proof (linked_laws Hl) as HL. pose proof (wf_boot_reportable b Hb) as Hrep.
  pose proof (loaded_gdt w Hload) as Hgdt. change BOOTSTRAP_STACK_SIZE with 16384 in *.
  destruct (hand_over_leads rs ri b Hb w) as (l & E & _).
  set (k := kernel_boot_info_of b) in *. assert (Hwf : wf_boot_info k) by by destruct Hrep.
  assert (Hlen : Z.of_nat (length (encode k)) = 8304)
    by by rewrite (encode_length (C := boot_info_codec) k Hwf).
  eapply calm_moved; [exact E | done |]. eapply calm_step; [reflexivity | |].
  { intros a Ha. unfold boot_writes in Ha. cbn [w_mem with_mem with_io].
    destruct (Z_lt_ge_dec a KERNEL_BOOT_INFO_addr);
      [by apply store_bytes_lookup_lt | apply store_bytes_lookup_ge; lia]. }
  match goal with |- calm _ _ ?v => set (w1 := v) end.
  destruct (quiet_writeln (str "[OK] KernelBootInfo populated (magic="
    ++ fmt_alt_hex BOOT_INFO_MAGIC ++ str ")") w1) as (l2 & E2 & _).
  eapply calm_same; [exact E2 | done |]. eapply calm_same; [reflexivity | done |].
  change BOOTSTRAP_STACK_SIZE with 16384. set (top := BOOTSTRAP_STACK_addr + 16384) in *.
  assert (Htop : 8 <= top < 2 ^ 64) by (unfold top; lia).
  rewrite add_u_small by exact (proj2 Htop). rewrite lift_ok.
  eapply calm_same; [reflexivity | done |].
  match goal with |- calm _ _ ?v => set (w2 := v) end.
  destruct (handoff_ok rs ri top KERNEL_BOOT_INFO_addr w2) as (w3 & E3 & [_ S3 _ M3 _ _]);
    [done..|exact Htop|].
  eapply calm_moved; [exact E3 | |].
  { intros a Ha. unfold boot_writes in Ha. change BOOTSTRAP_STACK_SIZE with 16384 in Ha.
    fold top in Ha. rewrite M3. destruct (Z_lt_ge_dec a (top - 8));
      [by apply store_bytes_lookup_lt | apply store_bytes_lookup_ge].
    rewrite length_le_encode. lia. }
  apply (calm_weaken kernel_writes); [by right; right|].
  destruct (kl_tables Hk) as (_ & Ht2 & _). apply (kernel_entry_calm k Hk Hrep).
  split; [unfold cpl; by rewrite S3|]. split.
  - rewrite M3. apply gdt_store_disjoint; [rewrite length_le_encode; exact Hp1|].
    apply gdt_store_disjoint; [|exact Hgdt]. rewrite Hlen. unfold disjoint_ranges in *. cbn. lia.
  - unfold info_in_memory. rewrite M3. apply mem_has_store_disjoint; [|apply mem_has_store].
    rewrite Hlen, length_le_encode. unfold disjoint_ranges in Hp2. lia.
Qed.

(** A run stops while it only talks to the console, or is calm. *)
Lemma efi_main_cases w :
  firmware_typed -> started w ->
  (exists i l, final (efi_main rs ri w) = with_io i (l ++ w_log w) w /\ Forall console_event l)
  \/ calm boot_writes (efi_main rs ri) w.
Proof.
  intros HF Hst. destruct (efi_heads HF rs ri w) as (i & l & Hl & [E|(n & (b & Hb & ->) & E)]).
  - left. by exists i, l.
  - right. eapply calm_moved; [exact E | done |]. apply calm_never, hand_over_calm; [exact Hb|].
    by destruct Hst; split.
Qed.

(** The panic handler is the end of the run. *)
Lemma boot_run_cases w :
  (boot_run message rs ri w = efi_main rs ri w
     /\ forall f w', efi_main rs ri w = Faulted f w' -> is_panic f = false)
  \/ exists f w', efi_main rs ri w = Faulted f w' /\ is_panic f = true
     /\ boot_run message rs ri w
        = Halted (with_io (w_in w') (EvText (fw_log (str "BOOT PANIC: " ++ message f)) :: w_log w') w').
Proof.
  unfold boot_run. destruct (efi_main rs ri w) as [s v|v|v|f v]; try by left.
  destruct (is_panic f) eqn:Hf; [right; by exists f, v|]. left. split; [done|].
  by intros g w' [= <- _].
Qed.
End run.

(** * Properties *)

(** C10: the order of calls in every run of the boot crate, its panic handler included, for
    every firmware, device, profile and calling convention.  Before boot services end there
    are only console calls (no port is touched and no table loaded); they end at most once;
    after that the console is never called, except by the panic handler as the very last
    event of a run that panics; a run that returns a status has not ended them.  When the
    run is properly started (linked and loaded image, ring 0, operand registers apart) and
    the firmware's values fit their types, that exception does not occur: nothing panics
    once boot services have ended. *)
Theorem boot_services_discipline {P : Profile} {T : Type} {U : UefiMemoryType T}
    {F : Firmware T} {I : Image} {O : Locals} {C : CallConv}
    (message : fault -> list Z) (rs ri : reg) (w : world) :
  exists l, w_log (final (boot_run message rs ri w)) = l ++ w_log w
    /\ (forall s w', boot_run message rs ri w = Done s w' -> Forall console_event l)
    /\ (discipline l \/ exists f l', discipline l'
          /\ l = EvText (fw_log (str "BOOT PANIC: " ++ message f)) :: l')
    /\ (firmware_typed -> started rs ri w -> discipline l).
Proof.
  destruct (efi_main_disciplined rs ri w) as (l & E & Hd & Hret).
  destruct (boot_run_cases message rs ri w) as [[Hr _]|(f & w' & Em & Hf & Hr)]; rewrite Hr.
  - exists l. split_and!; [exact E | exact Hret | by left | done].
  - rewrite Em in E. cbn [final] in E. eexists (_ :: l). cbn [final w_log with_io]. rewrite E.
    split; [reflexivity|]. split; [done|]. split; [right; by eexists _, _|]. intros HF Hst.
    destruct (efi_main_cases rs ri w HF Hst) as [(i & l' & E' & Hl')|[_ Hcalm]].
    + rewrite Em in E'. cbn [final] in E'. subst w'. apply app_inv_tail in E as ->.
      left. by constructor.
    + by rewrite (Hcalm f w' Em) in Hf.
Qed.


(** A firmware whose framebuffer call panics, on the sample image. *)
Definition panicking_firmware : Firmware Z := {|
  fw_init := true; fw_log := fun s => s ++ crlf; fw_vendor := []; fw_revision := 0;
  fw_uefi_major := 2; fw_uefi_minor := 70; fw_memory_map := inl sample_uefi;
  fw_config_table := []; fw_ACPI2_GUID := 2; fw_ACPI_GUID := 1; fw_gop_handle := true;
  fw_gop := Some {| gop_mode := {| gop_width := 1024; gop_height := 768; gop_stride := 1024;
                                   gop_format := GopBgr |}; gop_frame_buffer := None |} |}.

Lemma panicking_typed : @firmware_typed Z panicking_firmware.
Proof.
  split; [intros ds [= <-]; apply wf_sample_uefi | by intros g b [= <-] | by constructor].
Qed.


Lemma sample_started : @started sample_image sample_locals RAX RCX sample_loaded_world.
Proof.
  split; [exact sample_linked | | done | by_dec].
  apply load_statics_loaded; [exact (lk_apart sample_linked) | exact (@statics_sized sample_image)].
Qed.

Lemma boot_services_discipline_witness :
  let w' := final (@boot_run dev_profile Z uefi_code_type panicking_firmware sample_image
    sample_locals win64 (fun _ => str "no frame buffer") RAX RCX sample_loaded_world) in
  head (w_log w') = Some (EvText (str "BOOT PANIC: no frame buffer" ++ crlf))
  /\ discipline (w_log w').
Proof.
  cbv zeta. destruct (@boot_services_discipline dev_profile Z uefi_code_type panicking_firmware
    sample_image sample_locals win64 (fun _ => str "no frame buffer") RAX RCX
    sample_loaded_world) as (l & E & _ & _ & Hd).
  specialize (Hd panicking_typed sample_started).
  change (w_log sample_loaded_world) with (@nil event) in E. rewrite app_nil_r in E. split.
  - vm_compute. reflexivity.
  - rewrite E. exact Hd.
Defined.

