(* ===== verification/UnitTests.v ===== *)
(** The unit tests of [lib/boot-info/src/lib.rs], translated test by test onto the
    definitions of [Abi], [MemMap] and [Layout] and evaluated in both build profiles.  A
    test is a boolean: the conjunction of its assertions, [false] where the Rust test
    would panic. *)

From S2P Require Export Prelude Abi MemMap Layout.

(** [assert_eq!] on integers. *)
Notation "x ==? y" := (Z.eqb x y) (at level 70, only parsing).

(** [KernelBootInfo] with some fields assigned. *)
Definition with_magic (m : Z) (k : KernelBootInfo) : KernelBootInfo := {|
  magic := m; version := version k; kbi_pad := kbi_pad k; memory_map := memory_map k;
  acpi_rsdp := acpi_rsdp k; framebuffer := framebuffer k;
  has_framebuffer := has_framebuffer k; kbi_pad2 := kbi_pad2 k;
  bootloader_name := bootloader_name k |}.

Definition with_version (v : Z) (k : KernelBootInfo) : KernelBootInfo := {|
  magic := magic k; version := v; kbi_pad := kbi_pad k; memory_map := memory_map k;
  acpi_rsdp := acpi_rsdp k; framebuffer := framebuffer k;
  has_framebuffer := has_framebuffer k; kbi_pad2 := kbi_pad2 k;
  bootloader_name := bootloader_name k |}.

Definition with_count (n : Z) (m : KernelMemoryMap) : KernelMemoryMap := {|
  kmm_descriptors := kmm_descriptors m; kmm_count := n;
  kmm_truncated := kmm_truncated m; kmm_pad := kmm_pad m |}.

Definition entries_len (m : KernelMemoryMap) : option Z :=
  match @KernelMemoryMap_entries void m with
  | Ok ds => Some (Z.of_nat (length ds))
  | _ => None
  end.

Definition has_len {A} (c : comp void (list A)) (n : Z) : bool :=
  match c with Ok l => Z.of_nat (length l) ==? n | _ => false end.

(** [MemoryRegionKind] is compared with [==]. *)
Definition kind_eq (a b : MemoryRegionKind) : bool := bool_decide (a = b).

(** * ABI constants and structures *)

Definition boot_info_magic_is_stable : bool := BOOT_INFO_MAGIC ==? 0xFE220B00CAFE0001.

Definition boot_info_version_is_one : bool := BOOT_INFO_VERSION ==? 1.

Definition max_memory_descriptors_fits_real_hardware : bool :=
  (MAX_MEMORY_DESCRIPTORS =? 256)%nat && (128 <=? MAX_MEMORY_DESCRIPTORS)%nat.

Definition new_boot_info_is_valid : bool := KernelBootInfo_is_valid KernelBootInfo_new.

Definition corrupt_magic_fails_validation : bool :=
  negb (KernelBootInfo_is_valid (with_magic 0xDEADBEEF KernelBootInfo_new)).

Definition corrupt_version_fails_validation : bool :=
  negb (KernelBootInfo_is_valid (with_version 0 KernelBootInfo_new)).

Definition zeroed_magic_fails_validation : bool :=
  negb (KernelBootInfo_is_valid (with_magic 0 KernelBootInfo_new)).

Definition new_boot_info_has_no_acpi : bool := acpi_rsdp KernelBootInfo_new ==? 0.

Definition new_boot_info_has_no_framebuffer : bool :=
  negb (has_framebuffer KernelBootInfo_new).

Definition new_boot_info_has_empty_memory_map : bool :=
  let info := KernelBootInfo_new in
  (kmm_count (memory_map info) ==? 0) && negb (kmm_truncated (memory_map info))
  && bool_decide (entries_len (memory_map info) = Some 0).

Definition bootloader_name_is_ferrous_boot : bool :=
  let name_bytes := bootloader_name KernelBootInfo_new in
  bool_decide (@slice_to void _ name_bytes 12 = Ok (str "ferrous-boot"))
  && bool_decide (@index void _ name_bytes 12 = Ok 0).

Definition memory_descriptor_size_bytes {P : Profile} : bool :=
  let desc := {| ty := memory_type.CONVENTIONAL; kmd_pad := 0; phys_start := 0x1000;
                 page_count := 16; attribute := 0 |} in
  bool_decide (@KernelMemoryDescriptor_size_bytes P void desc = Ok (16 * 4096)).

Definition zero_pages_gives_zero_bytes {P : Profile} : bool :=
  let desc := {| ty := memory_type.CONVENTIONAL; kmd_pad := 0; phys_start := 0;
                 page_count := 0; attribute := 0 |} in
  bool_decide (@KernelMemoryDescriptor_size_bytes P void desc = Ok 0).

Definition usable_memory_types : bool :=
  forallb (fun t => KernelMemoryDescriptor_is_usable
      {| ty := t; kmd_pad := 0; phys_start := 0; page_count := 1; attribute := 0 |})
    [memory_type.CONVENTIONAL; memory_type.BOOT_SERVICES_CODE;
     memory_type.BOOT_SERVICES_DATA; memory_type.LOADER_CODE; memory_type.LOADER_DATA;
     memory_type.ACPI_RECLAIM].

Definition reserved_memory_types_are_not_usable : bool :=
  forallb (fun t => negb (KernelMemoryDescriptor_is_usable
      {| ty := t; kmd_pad := 0; phys_start := 0; page_count := 1; attribute := 0 |}))
    [memory_type.RESERVED; memory_type.RUNTIME_SERVICES_CODE;
     memory_type.RUNTIME_SERVICES_DATA; memory_type.ACPI_NON_VOLATILE; memory_type.MMIO;
     memory_type.MMIO_PORT_SPACE; memory_type.UNUSABLE].

Definition memory_map_entries_respects_count : bool :=
  bool_decide (entries_len (with_count 3 KernelMemoryMap_new) = Some 3).

Definition memory_map_full_count_is_max : bool :=
  let max := Z.of_nat MAX_MEMORY_DESCRIPTORS in
  bool_decide (entries_len (with_count max KernelMemoryMap_new) = Some max).

Definition zeroed_framebuffer_has_unknown_pixel_format : bool :=
  let fb := KernelFramebuffer_zeroed in
  (kfb_pixel_format fb ==? pixel_format.UNKNOWN) && (kfb_base fb ==? 0)
  && (kfb_width fb ==? 0) && (kfb_height fb ==? 0).

Definition pixel_format_constants_are_distinct : bool :=
  negb (pixel_format.RGB ==? pixel_format.BGR)
  && negb (pixel_format.RGB ==? pixel_format.BITMASK)
  && negb (pixel_format.RGB ==? pixel_format.UNKNOWN)
  && negb (pixel_format.BGR ==? pixel_format.BITMASK)
  && negb (pixel_format.BGR ==? pixel_format.UNKNOWN)
  && negb (pixel_format.BITMASK ==? pixel_format.UNKNOWN).

(** * Region kinds *)

Definition conventional_memory_is_usable : bool :=
  let kind := MemoryRegionKind_from memory_type.CONVENTIONAL in
  kind_eq kind Usable && is_immediately_usable kind && is_reclaimable_after_boot kind.

Definition boot_services_are_bootloader_reclaimable : bool :=
  forallb (fun t =>
      let kind := MemoryRegionKind_from t in
      kind_eq kind BootloaderReclaimable && negb (is_immediately_usable kind)
      && is_reclaimable_after_boot kind)
    [memory_type.BOOT_SERVICES_CODE; memory_type.BOOT_SERVICES_DATA;
     memory_type.LOADER_CODE; memory_type.LOADER_DATA].

Definition acpi_reclaim_is_reclaimable_after_boot : bool :=
  let kind := MemoryRegionKind_from memory_type.ACPI_RECLAIM in
  kind_eq kind AcpiReclaimable && negb (is_immediately_usable kind)
  && is_reclaimable_after_boot kind.

Definition mmio_is_not_reclaimable : bool :=
  forallb (fun t =>
      let kind := MemoryRegionKind_from t in
      kind_eq kind Mmio && negb (is_immediately_usable kind)
      && negb (is_reclaimable_after_boot kind))
    [memory_type.MMIO; memory_type.MMIO_PORT_SPACE].

Definition firmware_runtime_is_not_reclaimable : bool :=
  forallb (fun t =>
      let kind := MemoryRegionKind_from t in
      kind_eq kind FirmwareRuntime && negb (is_reclaimable_after_boot kind))
    [memory_type.RUNTIME_SERVICES_CODE; memory_type.RUNTIME_SERVICES_DATA].

Definition reserved_type_zero_is_reserved : bool :=
  let kind := MemoryRegionKind_from memory_type.RESERVED in
  kind_eq kind Reserved && negb (is_immediately_usable kind)
  && negb (is_reclaimable_after_boot kind).

Definition unknown_type_is_reserved : bool := kind_eq (MemoryRegionKind_from 0xFF) Reserved.

Definition region_kind_names_are_non_empty : bool :=
  forallb (fun kind => negb (bool_decide (MemoryRegionKind_name kind = [])))
    [Usable; BootloaderReclaimable; AcpiReclaimable; AcpiNonVolatile; FirmwareRuntime;
     Mmio; PersistentMemory; Unusable; Reserved].

(** * The parser *)

Section parser.
Context {P : Profile}.

(** [MemoryMap::parse(&map).unwrap()] followed by assertions. *)
Definition parsed (map : KernelMemoryMap) (k : MemoryMap -> bool) : bool :=
  match MemoryMap_parse map with Ok m => k m | _ => false end.

Definition is_empty_error (map : KernelMemoryMap) : bool :=
  match MemoryMap_parse map with Err Empty => true | _ => false end.

Definition make_desc (t start pages : Z) : KernelMemoryDescriptor :=
  {| ty := t; kmd_pad := 0; phys_start := start; page_count := pages; attribute := 0 |}.

(** The assignments [map.descriptors[i] = *desc] of a fresh map, from position [i] on. *)
Fixpoint fill (i : Z) (ds : list KernelMemoryDescriptor) (a : list KernelMemoryDescriptor)
    : comp void (list KernelMemoryDescriptor) :=
  match ds with
  | [] => Ok a
  | d :: ds => a ← set_index a i d; fill (i + 1) ds a
  end.

(** [make_map] panics on more than 256 descriptors; the tests give it fewer. *)
Definition make_map (ds : list KernelMemoryDescriptor) : comp void KernelMemoryMap :=
  let map := KernelMemoryMap_new in
  a ← fill 0 ds (kmm_descriptors map);
  Ok {| kmm_descriptors := a; kmm_count := Z.of_nat (length ds);
        kmm_truncated := kmm_truncated map; kmm_pad := kmm_pad map |}.

Definition on_map (ds : list KernelMemoryDescriptor) (k : KernelMemoryMap -> bool) : bool :=
  match make_map ds with Ok map => k map | _ => false end.

Definition parse_empty_map_returns_empty_error : bool := is_empty_error KernelMemoryMap_new.

Definition parse_all_zero_page_count_returns_empty_error : bool :=
  on_map [make_desc memory_type.CONVENTIONAL 0x1000 0] is_empty_error.

Definition parse_unaligned_base_returns_error : bool :=
  on_map [make_desc memory_type.CONVENTIONAL 0x1001 10] (fun map =>
    match MemoryMap_parse map with
    | Err (UnalignedBase i a) => (i ==? 0) && (a ==? 0x1001)
    | _ => false
    end).

Definition parse_single_conventional_region : bool :=
  on_map [make_desc memory_type.CONVENTIONAL 0x1000 100] (fun map => parsed map (fun m =>
    let stats := MemoryMap_stats m in
    (region_count stats ==? 1) && (usable_bytes stats ==? 100 * 4096)
    && (reclaimable_bytes stats ==? 0) && (usable_region_count stats ==? 1)
    && negb (is_truncated stats))).

Definition parse_skips_zero_page_count_entries : bool :=
  on_map [make_desc memory_type.CONVENTIONAL 0x1000 0;
          make_desc memory_type.CONVENTIONAL 0x2000 10] (fun map => parsed map (fun m =>
    (region_count (MemoryMap_stats m) ==? 1) && (usable_bytes (MemoryMap_stats m) ==? 10 * 4096))).

Definition parse_mixed_regions_computes_correct_stats : bool :=
  on_map [make_desc memory_type.CONVENTIONAL 0x00001000 100;
          make_desc memory_type.BOOT_SERVICES_DATA 0x00100000 50;
          make_desc memory_type.MMIO 0xFEC00000 4;
          make_desc memory_type.RESERVED 0x0000F000 1] (fun map => parsed map (fun m =>
    let stats := MemoryMap_stats m in
    (region_count stats ==? 4) && (usable_bytes stats ==? 100 * 4096)
    && (reclaimable_bytes stats ==? 50 * 4096) && (usable_region_count stats ==? 1)
    && (total_bytes stats ==? (100 + 50 + 1) * 4096))).

Definition mmio_excluded_from_total_ram : bool :=
  on_map [make_desc memory_type.CONVENTIONAL 0x1000 10;
          make_desc memory_type.MMIO 0xFEC00000 100] (fun map => parsed map (fun m =>
    total_bytes (MemoryMap_stats m) ==? 10 * 4096)).

Definition firmware_runtime_excluded_from_total_ram : bool :=
  on_map [make_desc memory_type.CONVENTIONAL 0x1000 10;
          make_desc memory_type.RUNTIME_SERVICES_DATA 0x100000 5] (fun map => parsed map (fun m =>
    total_bytes (MemoryMap_stats m) ==? 10 * 4096)).

Definition truncated_flag_propagates_to_stats : bool :=
  match @set_index void _ (kmm_descriptors KernelMemoryMap_new) 0
          (make_desc memory_type.CONVENTIONAL 0x1000 10) with
  | Ok a => parsed {| kmm_descriptors := a; kmm_count := 1; kmm_truncated := true;
                      kmm_pad := kmm_pad KernelMemoryMap_new |}
              (fun m => is_truncated (MemoryMap_stats m))
  | _ => false
  end.

Definition total_usable_after_boot_sums_usable_and_reclaimable : bool :=
  on_map [make_desc memory_type.CONVENTIONAL 0x1000 100;
          make_desc memory_type.BOOT_SERVICES_DATA 0x100000 50] (fun map => parsed map (fun m =>
    let stats := MemoryMap_stats m in
    bool_decide (@add_u P void 64 (usable_bytes stats) (reclaimable_bytes stats)
                 = Ok (total_usable_after_boot stats)))).

(** ** Queries *)

Definition usable_regions_returns_only_conventional : bool :=
  on_map [make_desc memory_type.CONVENTIONAL 0x1000 10;
          make_desc memory_type.RESERVED 0xF000 1;
          make_desc memory_type.CONVENTIONAL 0x100000 200] (fun map => parsed map (fun m =>
    match @usable_regions void m with
    | Ok usable => (Z.of_nat (length usable) ==? 2)
                   && forallb (fun d => ty d ==? memory_type.CONVENTIONAL) usable
    | _ => false
    end)).

Definition reclaimable_regions_includes_bootloader_and_conventional : bool :=
  on_map [make_desc memory_type.CONVENTIONAL 0x1000 10;
          make_desc memory_type.BOOT_SERVICES_CODE 0x100000 5;
          make_desc memory_type.LOADER_DATA 0x200000 3;
          make_desc memory_type.MMIO 0xFEC00000 4] (fun map => parsed map (fun m =>
    has_len (reclaimable_regions m) 3)).

Definition regions_of_type_returns_only_matching : bool :=
  on_map [make_desc memory_type.CONVENTIONAL 0x1000 10;
          make_desc memory_type.MMIO 0xFEC00000 4;
          make_desc memory_type.CONVENTIONAL 0x100000 200] (fun map => parsed map (fun m =>
    has_len (regions_of_type m memory_type.CONVENTIONAL) 2)).

Definition regions_returns_all_non_zero_entries : bool :=
  on_map [make_desc memory_type.CONVENTIONAL 0x1000 10;
          make_desc memory_type.RESERVED 0xF000 1;
          make_desc memory_type.MMIO 0xFEC00000 4] (fun map => parsed map (fun m =>
    has_len (MemoryMap_regions m) 3)).

(** The loop fills all 256 entries with consecutive one-page regions. *)
Definition parse_max_descriptors : bool :=
  let max := Z.of_nat MAX_MEMORY_DESCRIPTORS in
  let ds := (fun i => make_desc memory_type.CONVENTIONAL ((Z.of_nat i + 1) * 0x1000) 1)
            <$> seq 0 MAX_MEMORY_DESCRIPTORS in
  on_map ds (fun map => parsed map (fun m =>
    (region_count (MemoryMap_stats m) ==? max)
    && (usable_region_count (MemoryMap_stats m) ==? max))).
End parser.

(** * Struct layout *)

Definition kernel_memory_descriptor_size : bool :=
  (struct_layout KernelMemoryDescriptor_fields).1 ==? 32.

Definition kernel_memory_descriptor_alignment : bool :=
  (struct_layout KernelMemoryDescriptor_fields).2 ==? 8.

Definition kernel_framebuffer_size : bool :=
  (struct_layout KernelFramebuffer_fields).1 ==? 32.

(** * The suite *)

Definition boot_info_tests {P : Profile} : list bool := [
  boot_info_magic_is_stable; boot_info_version_is_one;
  max_memory_descriptors_fits_real_hardware; new_boot_info_is_valid;
  corrupt_magic_fails_validation; corrupt_version_fails_validation;
  zeroed_magic_fails_validation; new_boot_info_has_no_acpi;
  new_boot_info_has_no_framebuffer; new_boot_info_has_empty_memory_map;
  bootloader_name_is_ferrous_boot; memory_descriptor_size_bytes;
  zero_pages_gives_zero_bytes; usable_memory_types; reserved_memory_types_are_not_usable;
  memory_map_entries_respects_count; memory_map_full_count_is_max;
  zeroed_framebuffer_has_unknown_pixel_format; pixel_format_constants_are_distinct;
  conventional_memory_is_usable; boot_services_are_bootloader_reclaimable;
  acpi_reclaim_is_reclaimable_after_boot; mmio_is_not_reclaimable;
  firmware_runtime_is_not_reclaimable; reserved_type_zero_is_reserved;
  unknown_type_is_reserved; region_kind_names_are_non_empty;
  parse_empty_map_returns_empty_error; parse_all_zero_page_count_returns_empty_error;
  parse_unaligned_base_returns_error; parse_single_conventional_region;
  parse_skips_zero_page_count_entries; parse_mixed_regions_computes_correct_stats;
  mmio_excluded_from_total_ram; firmware_runtime_excluded_from_total_ram;
  truncated_flag_propagates_to_stats; total_usable_after_boot_sums_usable_and_reclaimable;
  usable_regions_returns_only_conventional;
  reclaimable_regions_includes_bootloader_and_conventional;
  regions_of_type_returns_only_matching; regions_returns_all_non_zero_entries;
  parse_max_descriptors; kernel_memory_descriptor_size; kernel_memory_descriptor_alignment;
  kernel_framebuffer_size ].

(** The suite passes, in a build with overflow checks and in one without. *)
Lemma unit_tests_pass (P : Profile) : forallb id (@boot_info_tests P) = true.
Proof. destruct P; vm_compute; reflexivity. Qed.

(** * Beyond the tests' inputs *)

(** What the tests say, by the codes of the UEFI specification. *)
Definition unaligned (d : KernelMemoryDescriptor) : Prop :=
  page_count d <> 0 /\ phys_start d mod 4096 <> 0.

#[export] Instance unaligned_dec d : Decision (unaligned d).
Proof. unfold unaligned. apply _. Defined.

Definition bytes_in (codes : list Z) (ds : list KernelMemoryDescriptor) : Z :=
  sum ((fun d => page_count d * 4096) <$> filter (fun d => ty d ∈ codes) ds).

Definition bytes_not_in (codes : list Z) (ds : list KernelMemoryDescriptor) : Z :=
  sum ((fun d => page_count d * 4096) <$> filter (fun d => ty d ∉ codes) ds).

(** What every test on a successfully parsed map [m] of the live descriptors [ds] asserts. *)
Record answers_match (m : MemoryMap) (ds : list KernelMemoryDescriptor) : Prop := {
  am_regions : @MemoryMap_regions void m = Ok ds;
  am_usable : @usable_regions void m = Ok (filter (fun d => ty d = 7) ds);
  am_reclaimable :
    @reclaimable_regions void m = Ok (filter (fun d => ty d ∈ [1; 2; 3; 4; 7; 9]) ds);
  am_of_type : forall t, @regions_of_type void m t = Ok (filter (fun d => ty d = t) ds);
  am_count : region_count (MemoryMap_stats m) = Z.of_nat (length ds);
  am_usable_count :
    usable_region_count (MemoryMap_stats m) = Z.of_nat (length (filter (fun d => ty d = 7) ds));
  am_usable_bytes : usable_bytes (MemoryMap_stats m) = clamp 64 (bytes_in [7] ds);
  am_reclaimable_bytes :
    reclaimable_bytes (MemoryMap_stats m) = clamp 64 (bytes_in [1; 2; 3; 4; 9] ds);
  am_total_bytes : total_bytes (MemoryMap_stats m) = clamp 64 (bytes_not_in [5; 6; 11; 12] ds);
  am_truncated : is_truncated (MemoryMap_stats m) = false;
}.

(** ** Lemmas *)

(** The helper of the tests builds the map whose first entries are the descriptors. *)
Lemma fill_spec ds pre :
  (length pre + length ds <= MAX_MEMORY_DESCRIPTORS)%nat ->
  fill (Z.of_nat (length pre)) ds
    (pre ++ replicate (MAX_MEMORY_DESCRIPTORS - length pre) ZERO_DESC)
  = Ok ((pre ++ ds) ++ replicate (MAX_MEMORY_DESCRIPTORS - length (pre ++ ds)) ZERO_DESC).
Proof.
  revert pre. induction ds as [|d ds IH]; intros pre Hlen; cbn [fill length] in *.
  { by rewrite app_nil_r. }
  rewrite set_index_ok by (rewrite length_app, length_replicate; lia). step_ok.
  rewrite Nat2Z.id. replace (length pre) with (length pre + 0)%nat at 2 by lia.
  rewrite insert_app_r.
  replace (MAX_MEMORY_DESCRIPTORS - length pre)%nat
    with (S (MAX_MEMORY_DESCRIPTORS - (length pre + 1))) by lia.
  specialize (IH (pre ++ [d])). rewrite length_app in IH. cbn [length] in IH.
  cbn [replicate insert list_insert].
  replace (Z.of_nat (length pre) + 1) with (Z.of_nat (length pre + 1)) by lia.
  match goal with |- context [pre ++ d :: ?r] =>
    replace (pre ++ d :: r) with ((pre ++ [d]) ++ r) by by rewrite <- app_assoc end.
  rewrite IH by lia. by rewrite <- (app_assoc pre [d] ds).
Qed.

Lemma make_map_of ds :
  (length ds <= MAX_MEMORY_DESCRIPTORS)%nat -> make_map ds = Ok (map_of ds false).
Proof.
  intros H. unfold make_map. pose proof (fill_spec ds []) as Hf. cbn [length app] in Hf.
  rewrite Nat.sub_0_r in Hf. change (Z.of_nat 0) with 0 in Hf.
  change (kmm_descriptors KernelMemoryMap_new) with (replicate MAX_MEMORY_DESCRIPTORS ZERO_DESC).
  by rewrite Hf.
Qed.

(** The parser stops at the first unaligned descriptor. *)
Lemma first_stop_unaligned {P : Profile} i ds :
  Forall (fun d => page_count d < 2 ^ 52) ds ->
  first_stop i ds = (fun jd => (i + Z.of_nat jd.1, jd.2)) <$> list_find unaligned ds.
Proof.
  intros Hds. revert i. induction Hds as [|d ds Hd Hds IH]; intros i; [done|].
  cbn [first_stop list_find]. rewrite IH. clear IH.
  assert (Hs : stops d = bool_decide (unaligned d)).
  { unfold stops, misaligned. rewrite (proj2 (Z.leb_gt _ _) Hd), andb_false_r, orb_false_r.
    symmetry. unfold unaligned. destruct (Z.eqb_spec (page_count d) 0) as [E|E];
      destruct (Z.eqb_spec (phys_start d mod 4096) 0) as [E'|E']; cbn [negb andb];
      (apply bool_decide_eq_true_2 || apply bool_decide_eq_false_2); tauto. }
  rewrite Hs. destruct (decide (unaligned d)) as [H|H];
    [rewrite bool_decide_eq_true_2 by done | rewrite bool_decide_eq_false_2 by done].
  { cbn [fmap option_fmap option_map fst snd]. by rewrite Z.add_0_r. }
  destruct (list_find unaligned ds) as [[j e]|]; cbn [fmap option_fmap option_map prod_map fst snd]; [|done].
  do 2 f_equal. lia.
Qed.

(** The parser's classification, by code. *)
Lemma kinds_by_code (t : Z) :
  is_immediately_usable (MemoryRegionKind_from t) = bool_decide (t = 7)
  /\ is_reclaimable_after_boot (MemoryRegionKind_from t) = bool_decide (t ∈ [1; 2; 3; 4; 7; 9])
  /\ is_reclaimable_kind (MemoryRegionKind_from t) = bool_decide (t ∈ [1; 2; 3; 4; 9])
  /\ counts_as_ram (MemoryRegionKind_from t) = bool_decide (t ∉ [5; 6; 11; 12]).
Proof.
  unfold MemoryRegionKind_from.
  repeat match goal with
  | |- context [t =? ?c] =>
      destruct (Z.eqb_spec t c) as [->|?]; [by vm_compute|]; cbn [orb]
  end.
  unfold memory_type.CONVENTIONAL, memory_type.LOADER_CODE, memory_type.LOADER_DATA,
    memory_type.BOOT_SERVICES_CODE, memory_type.BOOT_SERVICES_DATA, memory_type.ACPI_RECLAIM,
    memory_type.RUNTIME_SERVICES_CODE, memory_type.RUNTIME_SERVICES_DATA, memory_type.MMIO,
    memory_type.MMIO_PORT_SPACE in *.
  split_and!; symmetry;
    (apply bool_decide_eq_false_2 || apply bool_decide_eq_true_2); set_unfold; lia.
Qed.

Lemma filter_by_code (p : KernelMemoryDescriptor -> bool) (R : KernelMemoryDescriptor -> Prop)
    `{forall d, Decision (R d)} (ds : list KernelMemoryDescriptor) :
  (forall d, p d = bool_decide (R d)) -> filter p ds = filter R ds.
Proof. intros Hp. apply list_filter_iff. intros d. rewrite Hp. by rewrite bool_decide_spec. Qed.

Lemma parsed_answers ds :
  (length ds <= MAX_MEMORY_DESCRIPTORS)%nat ->
  Forall (fun d => 0 <= page_count d < 2 ^ 52) ds -> answers_match (parsed_map ds false) ds.
Proof.
  intros Hlen Hds. pose proof (regions_parsed_map (E := void) ds false Hlen) as Hr.
  assert (Hk : forall d, _) by exact (fun d => kinds_by_code (ty d)).
  assert (Hu : filter (fun d => is_immediately_usable (region_kind d)) ds
    = filter (fun d => ty d = 7) ds) by (apply filter_by_code; intros d; apply Hk).
  split; unfold usable_regions, reclaimable_regions, regions_of_type; rewrite ?Hr;
    cbn [mbind comp_bind MemoryMap_stats parsed_map mm_stats spec_stats region_count
      usable_region_count usable_bytes reclaimable_bytes total_bytes is_truncated]; try done.
  - f_equal. exact Hu.
  - f_equal. apply filter_by_code. intros d. apply Hk.
  - intros t. f_equal. apply filter_by_code. intros d.
    by destruct (Z.eqb_spec (ty d) t); symmetry;
      [apply bool_decide_eq_true_2 | apply bool_decide_eq_false_2].
  - by rewrite Hu.
  - rewrite bytes_of_exact by done. unfold bytes_in. do 3 f_equal. apply filter_by_code.
    intros d. unfold region_kind. rewrite (proj1 (Hk d)). apply bool_decide_ext. set_solver.
  - rewrite bytes_of_exact by done. unfold bytes_in. do 3 f_equal. apply filter_by_code.
    intros d. apply Hk.
  - rewrite bytes_of_exact by done. unfold bytes_not_in. do 3 f_equal. apply filter_by_code.
    intros d. apply Hk.
Qed.

(** * Properties *)

(** C39: what the unit tests of the parser assert of their inputs holds of every input that
    their helper [make_map] can build from descriptors whose sizes fit, in both profiles:
    the first unaligned non-empty descriptor is reported with its index and address; a map
    of empty descriptors only is [Empty]; and otherwise [regions], [usable_regions],
    [reclaimable_regions], [regions_of_type] and all statistics are, by the type codes of
    the UEFI specification, those of the non-empty descriptors. *)
Theorem unit_tests_generalise {P : Profile} (ds : list KernelMemoryDescriptor) :
  (length ds <= MAX_MEMORY_DESCRIPTORS)%nat -> Forall wf_descriptor ds ->
  Forall (fun d => page_count d < 2 ^ 52) ds ->
  exists map, make_map ds = Ok map
    /\ match list_find unaligned ds with
       | Some (i, d) => MemoryMap_parse map = Err (UnalignedBase (Z.of_nat i) (phys_start d))
       | None =>
           let kept := filter (fun d => page_count d <> 0) ds in
           if decide (kept = []) then MemoryMap_parse map = Err MemMap.Empty
           else exists m, MemoryMap_parse map = Ok m /\ answers_match m kept
       end.
Proof.
  intros Hlen Hwf Hsize. exists (map_of ds false). split; [by apply make_map_of|].
  rewrite parse_spec by by apply wf_map_of. unfold parse_reference.
  cbn [map_of kmm_count kmm_descriptors kmm_truncated].
  rewrite (proj2 (Z.ltb_ge _ _)) by lia. rewrite Nat2Z.id, take_app_length.
  rewrite first_stop_unaligned by done.
  destruct (list_find unaligned ds) as [[i d]|] eqn:Hf; cbn [fmap option_fmap option_map].
  - apply list_find_Some in Hf as (_ & [_ Hm] & _). unfold misaligned. cbn [snd fst].
    by rewrite (proj2 (Z.eqb_neq _ _) Hm).
  - cbv zeta. fold (live ds). case_decide as Hk; [by rewrite Hk|].
    destruct (live ds) as [|d ks] eqn:Hl; [done|]. rewrite <- Hl.
    eexists. split; [reflexivity|]. apply parsed_answers; [pose proof (length_live ds); lia|].
    rewrite Forall_forall in *. intros e [_ He]%list_elem_of_filter.
    destruct (Hwf e He) as (_ & _ & _ & [Hn _] & _). split; [done | by apply Hsize].
Qed.

(** A map of the tests: padding, two conventional regions and MMIO. *)
Lemma unit_tests_generalise_witness : exists map m,
  make_map [make_desc 7 0x1000 0; make_desc 7 0x2000 10; make_desc 11 0xFEC00000 4;
            make_desc 7 0x100000 200] = Ok map
  /\ @MemoryMap_parse release_profile map = Ok m
  /\ @usable_regions void m = Ok [make_desc 7 0x2000 10; make_desc 7 0x100000 200]
  /\ total_bytes (MemoryMap_stats m) = 210 * 4096.
Proof.
  destruct (@unit_tests_generalise release_profile
    [make_desc 7 0x1000 0; make_desc 7 0x2000 10; make_desc 11 0xFEC00000 4;
     make_desc 7 0x100000 200]) as (map & Hm & H).
  - by_dec.
  - repeat apply Forall_cons_2; try apply Forall_nil_2; apply wf_desc_of; by_dec.
  - by_dec.
  - vm_compute list_find in H. cbv beta iota zeta in H. rewrite decide_False in H by by vm_compute.
    destruct H as (m & Hp & []). exists map, m.
    split; [exact Hm|]. split; [exact Hp|]. split; [exact am_usable0 | exact am_total_bytes0].
Defined.
