(* ===== verification/HostTests.v ===== *)
(** The specification tests of [tests/boot_tests.rs].  They run on the host, on copies of
    the constants and of the address splitting, because the crates under test do not build
    there; the theorem shows that the tests pass and that every copy is what the kernel
    crate and the bootloader really use, so that a passing test speaks of the running
    code.  A test is the conjunction of its assertions, as in [UnitTests]. *)

From S2P Require Export Prelude Layout Cpu Gdt Idt Exception Stack.

(** * Copies *)

Definition KERNEL_CODE_DESC : Z := 0x00AF9A000000FFFF.
Definition KERNEL_DATA_DESC : Z := 0x00CF92000000FFFF.
Definition NULL_DESC : Z := 0x0000000000000000.
Definition KERNEL_CODE_SEL : Z := 0x0008.
Definition KERNEL_DATA_SEL : Z := 0x0010.

Definition idt_entry_parts (handler : Z) : Z * Z * Z :=
  let offset_low := wrap 16 (Z.land handler 0xFFFF) in
  let offset_mid := wrap 16 (Z.land (Z.shiftr handler 16) 0xFFFF) in
  let offset_high := wrap 32 (Z.land (Z.shiftr handler 32) 0xFFFFFFFF) in
  (offset_low, offset_mid, offset_high).

Definition test_EC_MASK : Z :=
  Z.lor (Z.lor (Z.lor (Z.lor (Z.lor (Z.lor (Z.lor (Z.lor (Z.lor (Z.shiftl 1 8)
    (Z.shiftl 1 10)) (Z.shiftl 1 11)) (Z.shiftl 1 12)) (Z.shiftl 1 13)) (Z.shiftl 1 14))
    (Z.shiftl 1 17)) (Z.shiftl 1 21)) (Z.shiftl 1 29)) (Z.shiftl 1 30).

Definition has_error_code (vector : Z) : bool :=
  (vector <? 64) && (Z.land (Z.shiftr test_EC_MASK vector) 1 =? 1).

Definition test_KERNEL_STACK_SIZE : Z := 64 * 1024.
Definition test_KERNEL_STACK_GUARD_SIZE : Z := 4 * 1024.
Definition test_BOOTSTRAP_STACK_SIZE : Z := 16 * 1024.

(** [a..b] *)
Definition range (a b : nat) : list Z := Z.of_nat <$> seq a (b - a).

(** * Segment descriptors *)

Definition gdt_null_descriptor_is_zero : bool := NULL_DESC =? 0.
Definition gdt_kernel_code_present_bit : bool :=
  negb (Z.land KERNEL_CODE_DESC (Z.shiftl 1 47) =? 0).
Definition gdt_kernel_code_dpl_is_ring0 : bool :=
  Z.land (Z.shiftr KERNEL_CODE_DESC 45) 3 =? 0.
Definition gdt_kernel_code_s_bit_is_set : bool :=
  negb (Z.land KERNEL_CODE_DESC (Z.shiftl 1 44) =? 0).
Definition gdt_kernel_code_executable_bit : bool :=
  negb (Z.land KERNEL_CODE_DESC (Z.shiftl 1 43) =? 0).
Definition gdt_kernel_code_long_mode_bit : bool :=
  negb (Z.land KERNEL_CODE_DESC (Z.shiftl 1 53) =? 0).
Definition gdt_kernel_code_db_bit_clear : bool :=
  Z.land KERNEL_CODE_DESC (Z.shiftl 1 54) =? 0.
Definition gdt_kernel_code_granularity_bit : bool :=
  negb (Z.land KERNEL_CODE_DESC (Z.shiftl 1 55) =? 0).
Definition gdt_kernel_data_present_bit : bool :=
  negb (Z.land KERNEL_DATA_DESC (Z.shiftl 1 47) =? 0).
Definition gdt_kernel_data_dpl_is_ring0 : bool :=
  Z.land (Z.shiftr KERNEL_DATA_DESC 45) 3 =? 0.
Definition gdt_kernel_data_is_not_executable : bool :=
  Z.land KERNEL_DATA_DESC (Z.shiftl 1 43) =? 0.
Definition gdt_kernel_data_writable_bit : bool :=
  negb (Z.land KERNEL_DATA_DESC (Z.shiftl 1 41) =? 0).
Definition gdt_kernel_data_s_bit_is_set : bool :=
  negb (Z.land KERNEL_DATA_DESC (Z.shiftl 1 44) =? 0).
Definition gdt_selectors_are_aligned_to_eight_bytes : bool :=
  (KERNEL_CODE_SEL =? 1 * 8) && (KERNEL_DATA_SEL =? 2 * 8).
Definition gdt_has_three_entries_at_expected_selectors : bool :=
  (KERNEL_CODE_SEL =? 0x08) && (KERNEL_DATA_SEL =? 0x10).

(** * Gates *)

Definition idt_entry_address_splits_correctly : bool :=
  let '(low, mid, high) := idt_entry_parts 0x123456789ABCDEF0 in
  (low =? 0xDEF0) && (mid =? 0x9ABC) && (high =? 0x12345678).
Definition idt_entry_address_round_trips : bool :=
  let addr := 0xFFFF800012345678 in
  let '(low, mid, high) := idt_entry_parts addr in
  Z.lor (Z.lor low (Z.shiftl mid 16)) (Z.shiftl high 32) =? addr.
Definition idt_entry_zero_address_splits_to_zeros : bool :=
  let '(low, mid, high) := idt_entry_parts 0 in (low =? 0) && (mid =? 0) && (high =? 0).
Definition idt_entry_max_address_splits_correctly : bool :=
  let '(low, mid, high) := idt_entry_parts (max_value 64) in
  (low =? 0xFFFF) && (mid =? 0xFFFF) && (high =? 0xFFFFFFFF).
Definition idt_attr_kernel_interrupt_gate_value : bool :=
  let ATTR_KERNEL_INTERRUPT := 0x8E in
  (Z.land ATTR_KERNEL_INTERRUPT 0x80 =? 0x80)
  && (Z.land (Z.shiftr ATTR_KERNEL_INTERRUPT 5) 3 =? 0)
  && (Z.land ATTR_KERNEL_INTERRUPT 0x0F =? 0xE).
Definition idt_attr_kernel_trap_gate_value : bool :=
  let ATTR_KERNEL_TRAP := 0x8F in
  (Z.land ATTR_KERNEL_TRAP 0x80 =? 0x80) && (Z.land (Z.shiftr ATTR_KERNEL_TRAP 5) 3 =? 0)
  && (Z.land ATTR_KERNEL_TRAP 0x0F =? 0xF).
Definition idt_has_256_vectors : bool :=
  let IDT_ENTRY_COUNT := 256 in let IDT_ENTRY_SIZE := 16 in
  IDT_ENTRY_COUNT * IDT_ENTRY_SIZE =? 4096.

(** * Vectors *)

Definition exception_vectors_with_error_code : bool :=
  forallb has_error_code [8; 10; 11; 12; 13; 14; 17; 21; 29; 30].
Definition exception_vectors_without_error_code : bool :=
  let no_ec := [0; 1; 2; 3; 4; 5; 6; 7; 9; 15; 16; 18; 19; 20; 22; 23; 24; 25; 26; 27; 28; 31] in
  forallb (fun v => negb (has_error_code v)) no_ec.
Definition exactly_ten_vectors_push_error_codes : bool :=
  (length (List.filter has_error_code (range 0 32)) =? 10)%nat.
Definition hardware_irq_vectors_do_not_push_error_codes : bool :=
  forallb (fun v => negb (has_error_code v)) (range 32 256).

(** * Frame *)

Definition exception_frame_is_five_quadwords : bool :=
  let EXCEPTION_FRAME_SIZE := 5 * 8 in EXCEPTION_FRAME_SIZE =? 40.
Definition test_frame_offsets : list Z := [0; 8; 16; 24; 32].
Definition exception_frame_field_offsets : bool :=
  match test_frame_offsets with
  | [rip; cs; rflags; rsp; ss] =>
      (cs =? rip + 8) && (rflags =? cs + 8) && (rsp =? rflags + 8) && (ss =? rsp + 8)
  | _ => false
  end.

(** * Stacks *)

Definition kernel_stack_is_64_kib : bool := test_KERNEL_STACK_SIZE =? 65536.
Definition kernel_stack_guard_is_4_kib : bool := test_KERNEL_STACK_GUARD_SIZE =? 4096.
Definition kernel_stack_usable_is_60_kib : bool :=
  test_KERNEL_STACK_SIZE - test_KERNEL_STACK_GUARD_SIZE =? 60 * 1024.
Definition bootstrap_stack_is_16_kib : bool := test_BOOTSTRAP_STACK_SIZE =? 16384.
Definition guard_is_smaller_than_usable_stack : bool :=
  test_KERNEL_STACK_GUARD_SIZE <? test_KERNEL_STACK_SIZE - test_KERNEL_STACK_GUARD_SIZE.
Definition stack_sizes_are_page_aligned : bool :=
  let PAGE_SIZE := 4096 in
  (test_KERNEL_STACK_SIZE mod PAGE_SIZE =? 0)
  && (test_KERNEL_STACK_GUARD_SIZE mod PAGE_SIZE =? 0)
  && (test_BOOTSTRAP_STACK_SIZE mod PAGE_SIZE =? 0).

Definition test_harness_works : bool := true.

(** * The suite *)

Definition host_tests : list bool := [
  gdt_null_descriptor_is_zero; gdt_kernel_code_present_bit; gdt_kernel_code_dpl_is_ring0;
  gdt_kernel_code_s_bit_is_set; gdt_kernel_code_executable_bit;
  gdt_kernel_code_long_mode_bit; gdt_kernel_code_db_bit_clear;
  gdt_kernel_code_granularity_bit; gdt_kernel_data_present_bit;
  gdt_kernel_data_dpl_is_ring0; gdt_kernel_data_is_not_executable;
  gdt_kernel_data_writable_bit; gdt_kernel_data_s_bit_is_set;
  gdt_selectors_are_aligned_to_eight_bytes; gdt_has_three_entries_at_expected_selectors;
  idt_entry_address_splits_correctly; idt_entry_address_round_trips;
  idt_entry_zero_address_splits_to_zeros; idt_entry_max_address_splits_correctly;
  idt_attr_kernel_interrupt_gate_value; idt_attr_kernel_trap_gate_value;
  idt_has_256_vectors; exception_vectors_with_error_code;
  exception_vectors_without_error_code; exactly_ten_vectors_push_error_codes;
  hardware_irq_vectors_do_not_push_error_codes; exception_frame_is_five_quadwords;
  exception_frame_field_offsets; kernel_stack_is_64_kib; kernel_stack_guard_is_4_kib;
  kernel_stack_usable_is_60_kib; bootstrap_stack_is_16_kib;
  guard_is_smaller_than_usable_stack; stack_sizes_are_page_aligned; test_harness_works ].

(** * The copies are the code *)

(** The parts of a gate that hold the handler's address. *)
Definition address_parts (e : IdtEntry) : Z * Z * Z := (offset_low e, offset_mid e, offset_high e).

Lemma has_error_code_vectors v : 0 <= v -> has_error_code v = pushes_error_code (Z.to_nat v).
Proof. exact (EC_MASK_correct v). Qed.

(** C38: the host tests pass, and they are about the code that runs: the descriptors and
    selectors they check are those of both GDTs, the address splitting is that of both gate
    constructors at every address, the error-code mask agrees at every vector with the
    processor's list and with the stub that the vector has, and the frame offsets and stack
    sizes are those of the handler's frame and of the stacks. *)
Theorem host_tests_bind_code {P : Profile} {I : Image} {C : CallConv} (handler : Z) (v : nat) :
  (v < 32)%nat ->
  forallb id host_tests = true
  /\ [NULL_DESC; KERNEL_CODE_DESC; KERNEL_DATA_DESC] = GDT /\ boot_GDT = GDT
  /\ (KERNEL_CODE_SEL, KERNEL_DATA_SEL) = (KERNEL_CODE_SELECTOR, KERNEL_DATA_SELECTOR)
  /\ (KERNEL_CODE_SEL, KERNEL_DATA_SEL) = (BOOT_CODE_SELECTOR, BOOT_DATA_SELECTOR)
  /\ idt_entry_parts handler = address_parts (IdtEntry_new handler)
  /\ idt_entry_parts handler = address_parts (boot_IdtEntry_new handler)
  /\ has_error_code (Z.of_nat v) = pushes_error_code v
  /\ isr !! v = Some (if has_error_code (Z.of_nat v) then isr_stub_ec (Z.of_nat v)
                      else isr_stub (Z.of_nat v))
  /\ test_frame_offsets = struct_offsets ExceptionFrame_fields
  /\ [test_KERNEL_STACK_SIZE; test_KERNEL_STACK_GUARD_SIZE; test_BOOTSTRAP_STACK_SIZE]
     = [Stack.KERNEL_STACK_SIZE; KERNEL_STACK_GUARD_SIZE; BOOTSTRAP_STACK_SIZE]
  /\ (Stack.KERNEL_STACK_SIZE, KERNEL_STACK_GUARD_SIZE)
     = (boot_KERNEL_STACK_SIZE, boot_KERNEL_STACK_GUARD_SIZE).
Proof.
  intros Hv. assert (He : has_error_code (Z.of_nat v) = pushes_error_code v).
  { rewrite has_error_code_vectors by lia. by rewrite Nat2Z.id. }
  split; [vm_compute; reflexivity|]. repeat (split; [reflexivity|]). split; [exact He|].
  rewrite He, isr_table, list_lookup_fmap, lookup_seq_lt by done. done.
Qed.

Lemma host_tests_bind_code_witness :
  idt_entry_parts 0x123456789ABCDEF0 = address_parts (IdtEntry_new 0x123456789ABCDEF0)
  /\ has_error_code 14 = true.
Proof.
  destruct (@host_tests_bind_code dev_profile sample_image sysv 0x123456789ABCDEF0 14 ltac:(lia))
    as (_ & _ & _ & _ & _ & H1 & _ & H2 & _).
  split; [exact H1|]. change 14 with (Z.of_nat 14). rewrite H2. vm_compute. reflexivity.
Defined.
